(** * big-AGI: retry engine, parameter overlay and AIX client tiers

    A shallow embedding of
    - [src/server/trpc/trpc.fetchers.retrier.ts] (retry classifier and
      backoff scheduler),
    - [llms.parameters.ts] (parameter overlay), and
    - [src/modules/aix/client/aix.client.ts] (model configuration and the
      three generation tiers),
    followed by the properties established about them.

    JavaScript numbers are modelled as rationals ([Q]); objects used as
    dictionaries are [gmap string JsVal]; promises are modelled by how
    they end ([Resolved], [Rejected], or [Pending] for ever); callbacks
    and other collaborators that the module does not own are explicit
    parameters. *)

From Stdlib Require Import ZArith QArith Qround Qminmax Lqa Lia List Bool Ascii String.
From stdpp Require Import gmap strings.
From Stdlib Require DecimalString DecimalNat DecimalFacts.
Import ListNotations.

Local Open Scope string_scope.

(* ===================================================================== *)
(** * JavaScript values and strings *)
(* ===================================================================== *)

Module Js.

(** The primitive values that parameter maps carry. *)
Inductive JsVal : Type :=
| VUndefined
| VNull
| VBool (b : bool)
| VNum (q : Q)
| VStr (s : string).

(** [!!v] / [if (v)] *)
Definition truthy (v : JsVal) : bool :=
  match v with
  | VUndefined | VNull => false
  | VBool b => b
  | VNum q => negb (Qeq_bool q 0)
  | VStr s => negb (String.eqb s "")
  end.

(** Reading a property: a missing key reads as [undefined]. *)
Definition prop (o : gmap string JsVal) (k : string) : JsVal :=
  default VUndefined (o !! k).

(** [v !== undefined] *)
Definition isDefined (v : JsVal) : bool :=
  match v with VUndefined => false | _ => true end.

(** [if (s)] on a string *)
Definition nonEmpty (s : string) : bool := negb (String.eqb s "").

(** [hay.startsWith(needle)] *)
Fixpoint startsWith (needle hay : string) : bool :=
  match needle, hay with
  | EmptyString, _ => true
  | String _ _, EmptyString => false
  | String a n', String b h' => Ascii.eqb a b && startsWith n' h'
  end.

(** [hay.includes(needle)] *)
Fixpoint includes (needle hay : string) : bool :=
  startsWith needle hay ||
  match hay with
  | EmptyString => false
  | String _ h' => includes needle h'
  end.

Fixpoint dropChars (n : nat) (s : string) : string :=
  match n, s with
  | O, _ => s
  | S n', String _ s' => dropChars n' s'
  | S _, EmptyString => EmptyString
  end.

(** [s.replace(pat, by)] with a string pattern: first occurrence only. *)
Fixpoint replaceFirst (pat by_ s : string) : string :=
  if startsWith pat s then by_ ++ dropChars (String.length pat) s
  else match s with
       | EmptyString => EmptyString
       | String c s' => String c (replaceFirst pat by_ s')
       end.

(** [xs.join(sep)] *)
Fixpoint join (sep : string) (xs : list string) : string :=
  match xs with
  | [] => ""
  | [x] => x
  | x :: rest => x ++ sep ++ join sep rest
  end.

(** ** Regular expressions

    The subset of [RegExp] the retrier's denylist uses: literals,
    alternation, sequencing, [\d] and [+], with the [i] flag folded into
    the character predicate.  Matching is by derivatives. *)

Inductive Re : Type :=
| ReNone
| ReEps
| ReChr (p : ascii -> bool)
| ReCat (r1 r2 : Re)
| ReAlt (r1 r2 : Re)
| ReStar (r : Re).

Fixpoint nullable (r : Re) : bool :=
  match r with
  | ReNone => false
  | ReEps => true
  | ReChr _ => false
  | ReCat r1 r2 => nullable r1 && nullable r2
  | ReAlt r1 r2 => nullable r1 || nullable r2
  | ReStar _ => true
  end.

Fixpoint deriv (c : ascii) (r : Re) : Re :=
  match r with
  | ReNone | ReEps => ReNone
  | ReChr p => if p c then ReEps else ReNone
  | ReCat r1 r2 =>
      if nullable r1
      then ReAlt (ReCat (deriv c r1) r2) (deriv c r2)
      else ReCat (deriv c r1) r2
  | ReAlt r1 r2 => ReAlt (deriv c r1) (deriv c r2)
  | ReStar r1 => ReCat (deriv c r1) (ReStar r1)
  end.

(** Prune dead branches so that derivatives stay small. *)
Fixpoint simp (r : Re) : Re :=
  match r with
  | ReCat r1 r2 =>
      match simp r1, simp r2 with
      | ReNone, _ | _, ReNone => ReNone
      | ReEps, r2' => r2'
      | r1', r2' => ReCat r1' r2'
      end
  | ReAlt r1 r2 =>
      match simp r1, simp r2 with
      | ReNone, r2' => r2'
      | r1', ReNone => r1'
      | r1', r2' => ReAlt r1' r2'
      end
  | _ => r
  end.

Fixpoint matchesAll (r : Re) (s : string) : bool :=
  match s with
  | EmptyString => nullable r
  | String c s' => matchesAll (simp (deriv c r)) s'
  end.

(** Some prefix of [s] matches [r]. *)
Fixpoint matchesPrefix (r : Re) (s : string) : bool :=
  nullable r ||
  match s with
  | EmptyString => false
  | String c s' => matchesPrefix (simp (deriv c r)) s'
  end.

(** [re.test(s)] for an unanchored pattern without the [g]/[y] flags:
    some substring of [s] matches. *)
Fixpoint test (r : Re) (s : string) : bool :=
  matchesPrefix r s ||
  match s with
  | EmptyString => false
  | String _ s' => test r s'
  end.

(** The strings a regular expression denotes. *)
Inductive Matches : Re -> string -> Prop :=
| MatchEps : Matches ReEps ""
| MatchChr (p : ascii -> bool) (c : ascii) :
    p c = true -> Matches (ReChr p) (String c "")
| MatchCat (r1 r2 : Re) (s1 s2 : string) :
    Matches r1 s1 -> Matches r2 s2 -> Matches (ReCat r1 r2) (s1 ++ s2)
| MatchAltL (r1 r2 : Re) (s : string) :
    Matches r1 s -> Matches (ReAlt r1 r2) s
| MatchAltR (r1 r2 : Re) (s : string) :
    Matches r2 s -> Matches (ReAlt r1 r2) s
| MatchStarNil (r : Re) : Matches (ReStar r) ""
| MatchStarApp (r : Re) (s1 s2 : string) :
    Matches r s1 -> Matches (ReStar r) s2 -> Matches (ReStar r) (s1 ++ s2).

Definition lowerAscii (c : ascii) : ascii :=
  let n := nat_of_ascii c in
  if (65 <=? n)%nat && (n <=? 90)%nat then ascii_of_nat (n + 32) else c.

(** ASCII lower-casing of a string; under the [i] flag (without [u]) an
    ASCII pattern character matches exactly its two letter cases. *)
Fixpoint toLower (s : string) : string :=
  match s with
  | EmptyString => EmptyString
  | String c s' => String (lowerAscii c) (toLower s')
  end.

(** One literal character under the [i] flag. *)
Definition chrI (c : ascii) : Re :=
  ReChr (fun x => Ascii.eqb (lowerAscii x) (lowerAscii c)).

(** A literal under the [i] flag. *)
Fixpoint litI (s : string) : Re :=
  match s with
  | EmptyString => ReEps
  | String c s' => ReCat (chrI c) (litI s')
  end.

Definition isDigit (c : ascii) : bool :=
  let n := nat_of_ascii c in (48 <=? n)%nat && (n <=? 57)%nat.

(** [\d] *)
Definition digit : Re := ReChr isDigit.

(** [r+] *)
Definition plus (r : Re) : Re := ReCat r (ReStar r).

(** Only decimal digits. *)
Fixpoint allDigits (s : string) : bool :=
  match s with
  | EmptyString => true
  | String c s' => isDigit c && allDigits s'
  end.

(** [hay] contains [needle] up to ASCII letter case. *)
Definition containsIgnoringCase (needle hay : string) : Prop :=
  exists pre mid post, hay = pre ++ mid ++ post /\ toLower mid = toLower needle.

End Js.

(* ===================================================================== *)
(** * trpc.fetchers.retrier.ts *)
(* ===================================================================== *)

Module Retrier.
Import Js.

Record RetryProfile : Type := {
  baseDelayMs : Q;
  maxDelayMs : Q;
  jitterFactor : Q;
  maxAttempts : nat;
}.

(** [RETRY_PROFILES.network] *)
Definition network : RetryProfile :=
  {| baseDelayMs := 500; maxDelayMs := 8000; jitterFactor := 0.25; maxAttempts := 3 |}.

(** [RETRY_PROFILES.server] *)
Definition server : RetryProfile :=
  {| baseDelayMs := 1000; maxDelayMs := 10000; jitterFactor := 0.5; maxAttempts := 4 |}.

Definition RETRY_PROFILES : list RetryProfile := [network; server].

(** An entry of the denylist tests either a substring or a regexp. *)
Inductive DenyTest : Type :=
| TestString (s : string)
| TestRegExp (r : Re).

Definition _429_RETRY_DENYLIST : list (DenyTest * string) :=
  [ (TestRegExp (ReAlt (litI "quota") (litI "billing")), "quota/billing");
    (TestRegExp (ReAlt (litI "request too large")
                       (ReCat (litI "limit ")
                         (ReCat (plus digit)
                           (ReCat (litI ", requested ") (plus digit))))),
     "request-too-large");
    (TestString "rate limit of 0 input tokens per minute", "zero-rate-limit (no model access)");
    (TestString "Insufficient balance or no resource package", "insufficient-balance (Z.ai)") ].

(** The thrown values the classifier can see.  [TRPCFetcherError] is
    declared outside this module; of it the classifier reads [category],
    [httpStatus] (optional) and the inherited [message]. *)
Inductive ErrorValue : Type :=
| OtherError (description : string)
| TRPCFetcherError (category : string) (httpStatus : option Z) (message : string).

Definition denyEntryMatches (message : string) (entry : DenyTest * string) : bool :=
  match fst entry with
  | TestString s => includes s message
  | TestRegExp r => test r message
  end.

(** [_429_RETRY_DENYLIST.find(...)] *)
Definition denyMatch (message : string) : option (DenyTest * string) :=
  List.find (denyEntryMatches message) _429_RETRY_DENYLIST.

Definition selectRetryProfile (error : ErrorValue) : option RetryProfile :=
  match error with
  | OtherError _ => None
  | TRPCFetcherError category httpStatus message =>
      if String.eqb category "connection" then Some network
      else
        match httpStatus with
        | Some status =>
            if String.eqb category "http" && negb (status =? 0)%Z then
              if (status =? 429)%Z then
                match denyMatch message with
                | Some _ => None
                | None => Some server
                end
              else if existsb (Z.eqb status) [503; 502]%Z then Some server
              else None
            else None
        | None => None
        end
  end.

(** [RetryAttempt], the argument of the [onRetry] callback. *)
Record RetryAttempt : Type := {
  attempt : nat;
  ra_maxAttempts : nat;
  delayMs : Q;
  causeHttp : option Z;
  causeConn : option string;
}.

(** [Math.round]: nearest integer, halves towards +infinity. *)
Definition mathRound (x : Q) : Z := Qfloor (x + (1 # 2))%Q.

(** Lines 169-178: exponential backoff with jitter, computed while
    [attemptNumber] is still the number of the attempt that failed.
    [random] is the value returned by [Math.random()].  The arithmetic is
    exact, where the source's is that of doubles: a sum that lies within
    a rounding error of a half can be rounded by the source to the next
    integer.  What is proved about delays are bounds between integers,
    which hold of both; nothing below is an equation on a jittered
    delay of the source. *)
Definition backoffDelay (rp : RetryProfile) (attemptNumber : nat) (random : Q) : Q :=
  let exponentialDelay := (baseDelayMs rp * 2 ^ (Z.of_nat attemptNumber - 1))%Q in
  let delayMs := Qmin exponentialDelay (maxDelayMs rp) in
  if Qlt_le_dec 0 (jitterFactor rp) then
    let jitterRange := (delayMs * jitterFactor rp)%Q in
    let randomJitter := ((random * 2 - 1) * jitterRange)%Q in
    inject_Z (Z.max 1 (mathRound (delayMs + randomJitter)%Q))
  else delayMs.

Definition causeHttpOf (error : ErrorValue) : option Z :=
  match error with
  | TRPCFetcherError _ httpStatus _ => httpStatus
  | OtherError _ => None
  end.

Definition causeConnOf (error : ErrorValue) : option string :=
  match error with
  | TRPCFetcherError category _ _ => Some category
  | OtherError _ => None
  end.

Section CreateRetryablePromise.

(** The type of the operation's result. *)
Context {T : Type}.

(** How a promise ends: it settles, one way or the other, or it is left
    pending for ever. *)
Inductive Settled : Type :=
| Resolved (value : T)
| Rejected (error : ErrorValue)
| Pending.

(** What the scheduler does that its environment can observe. *)
Inductive Event : Type :=
| EvInvoke (attemptNumber : nat)        (* [await operationFn()] *)
| EvOnRetry (info : RetryAttempt)       (* [onRetry?.(...)] *)
| EvDelay (ms : Q).                     (* [abortableDelay(ms, signal)] *)

(** The environment of one call, indexed by attempt number:
    - [operationFn n]: how the promise of the n-th invocation of the
      operation ends;
    - [abortedAtCatch n]: [abortSignal.aborted] when the n-th failure is
      caught;
    - [onRetryThrows n]: whether the call [onRetry?.(...)] that announces
      the retry after the n-th failure throws ([false] also when no
      callback was given);
    - [abortableDelay n]: what [await abortableDelay(...)] after the n-th
      failure returns, [true] when the signal fired during the wait;
    - [mathRandom n]: the [Math.random()] draw for that delay. *)
Record Env : Type := {
  operationFn : nat -> Settled;
  abortedAtCatch : nat -> bool;
  onRetryThrows : nat -> bool;
  abortableDelay : nat -> bool;
  mathRandom : nat -> Q;
}.

(** The signal fires during the wait that follows the n-th failure: the
    announcement of the retry returned, so that the wait takes place, and
    [abortableDelay] reports the abort. *)
Definition abortedInDelay (env : Env) (n : nat) : bool :=
  negb (onRetryThrows env n) && abortableDelay env n.

Definition Run : Type := (Settled * list Event)%type.

Definition after (evs : list Event) (r : option Run) : option Run :=
  match r with
  | Some (s, evs') => Some (s, (evs ++ evs')%list)
  | None => None
  end.

(** The [while (true)] loop of the async executor; [fuel] bounds the
    number of iterations the model follows ([None]: the loop is still
    running after that many).  The promise ends as the executor calls
    [resolve] or [reject]; it is left [Pending] when the awaited operation
    never settles, and when [onRetry] throws: the call is unguarded,
    inside the [catch] block, so the exception ends the executor, which
    has called neither. *)
Fixpoint retryLoop (env : Env) (fuel : nat) (attemptNumber : nat) : option Run :=
  match fuel with
  | O => None
  | S fuel' =>
      match operationFn env attemptNumber with
      | Resolved result => Some (Resolved result, [EvInvoke attemptNumber])
      | Pending => Some (Pending, [EvInvoke attemptNumber])
      | Rejected error =>
          if abortedAtCatch env attemptNumber then
            Some (Rejected error, [EvInvoke attemptNumber])
          else
            match selectRetryProfile error with
            | None => Some (Rejected error, [EvInvoke attemptNumber])
            | Some rp =>
                if (maxAttempts rp <=? attemptNumber)%nat then
                  Some (Rejected error, [EvInvoke attemptNumber])
                else
                  let delayMs := backoffDelay rp attemptNumber (mathRandom env attemptNumber) in
                  let attemptNumber' := S attemptNumber in
                  (* let the caller know about the retry attempt *)
                  let retryInfo :=
                    {| attempt := attemptNumber';
                       ra_maxAttempts := maxAttempts rp;
                       delayMs := delayMs;
                       causeHttp := causeHttpOf error;
                       causeConn := causeConnOf error |} in
                  if onRetryThrows env attemptNumber then
                    Some (Pending, [EvInvoke attemptNumber; EvOnRetry retryInfo])
                  else
                    let evs :=
                      [ EvInvoke attemptNumber; EvOnRetry retryInfo; EvDelay delayMs ] in
                    (* abortable wait *)
                    if abortableDelay env attemptNumber then
                      Some (Rejected error, evs)
                    else
                      after evs (retryLoop env fuel' attemptNumber')
            end
      end
  end.

(** No profile allows more than four attempts, so the loop ends within
    four iterations (see [createRetryablePromise_settles]). *)
Definition loopBound : nat := 4.

Definition createRetryablePromise (env : Env) : option Run :=
  retryLoop env loopBound 1.

Definition isInvoke (ev : Event) : bool :=
  match ev with EvInvoke _ => true | _ => false end.

Definition isOnRetry (ev : Event) : bool :=
  match ev with EvOnRetry _ => true | _ => false end.

(** How many times the operation was invoked. *)
Definition invocations (evs : list Event) : nat :=
  List.length (List.filter isInvoke evs).

(** How many retries were announced. *)
Definition retries (evs : list Event) : nat :=
  List.length (List.filter isOnRetry evs).

End CreateRetryablePromise.

Arguments Settled : clear implicits.
Arguments Env : clear implicits.
Arguments Run : clear implicits.

(** The events of a run ([[]] while the loop is still running). *)
Definition traceOf {T} (r : option (Run T)) : list Event :=
  match r with Some (_, evs) => evs | None => [] end.

(** The bounds a delay [d] before attempt [n] is specified to satisfy:
    [base*2^(n-2)*(1-jitter) <= d <= min(max, base*2^(n-2))*(1+jitter)]
    and [d >= 1]. *)
Definition withinJitterBounds (rp : RetryProfile) (n : nat) (d : Q) : Prop :=
  let uncapped := (baseDelayMs rp * 2 ^ (Z.of_nat n - 2))%Q in
  (uncapped * (1 - jitterFactor rp) <= d)%Q
  /\ (d <= Qmin (maxDelayMs rp) uncapped * (1 + jitterFactor rp))%Q
  /\ (1 <= d)%Q.

(** ** Example environments *)

Definition connectionRefused : ErrorValue :=
  TRPCFetcherError "connection" None "connect ECONNREFUSED".

Definition serviceUnavailable : ErrorValue :=
  TRPCFetcherError "http" (Some 503%Z) "Service Unavailable".

(** The server is never reachable and nobody cancels. *)
Definition alwaysRefused : Env nat :=
  {| operationFn := fun _ => Rejected connectionRefused;
     abortedAtCatch := fun _ => false;
     onRetryThrows := fun _ => false;
     abortableDelay := fun _ => false;
     mathRandom := fun _ => 1 # 2 |}.

(** The server is overloaded and the user cancels during the first wait. *)
Definition cancelledInFirstWait : Env nat :=
  {| operationFn := fun _ => Rejected serviceUnavailable;
     abortedAtCatch := fun _ => false;
     onRetryThrows := fun _ => false;
     abortableDelay := fun n => Nat.eqb n 1;
     mathRandom := fun _ => 1 # 2 |}.

(** The server is overloaded, nobody cancels, and the [onRetry] callback
    of the caller throws. *)
Definition announcementThrows : Env nat :=
  {| operationFn := fun _ => Rejected serviceUnavailable;
     abortedAtCatch := fun _ => false;
     onRetryThrows := fun _ => true;
     abortableDelay := fun _ => false;
     mathRandom := fun _ => 1 # 2 |}.

End Retrier.


(* ===================================================================== *)
(** * llms.parameters.ts *)
(* ===================================================================== *)

Module LlmsParameters.
Import Js.

(** [DModelParameterValues]: a partial map from parameter id to value. *)
Abbreviation DModelParameterValues := (gmap string JsVal).

(** Implicit common parameters; [llmRef] deliberately has no fallback. *)
Definition LLMImplicitParamersRuntimeFallback : DModelParameterValues :=
  {[ "llmResponseTokens" := VNum 8192; "llmTemperature" := VNum (5 # 10) ]}.

(** Object spread [{ ...a, ...b }] of two layers: every own key of [b]
    shadows the same key of [a] (whatever its value); spreading [undefined]
    adds nothing. *)
Definition spread (a : DModelParameterValues) (b : option DModelParameterValues)
  : DModelParameterValues :=
  default ∅ b ∪ a.

Definition getAllModelParameterValues
    (initialParameters userParameters : option DModelParameterValues)
  : DModelParameterValues :=
  spread (spread LLMImplicitParamersRuntimeFallback initialParameters) userParameters.

(** The value a parameter gets when it "comes from the highest-precedence
    layer that defines it": [layers] are listed from the highest precedence
    down, and a layer defines a parameter when it has the key. *)
Fixpoint firstDefined (layers : list (option DModelParameterValues)) (p : string)
  : option JsVal :=
  match layers with
  | [] => None
  | layer :: lower =>
      match default ∅ layer !! p with
      | Some v => Some v
      | None => firstDefined lower p
      end
  end.

End LlmsParameters.

(* ===================================================================== *)
(** * aix.client.ts *)
(* ===================================================================== *)

Module AixClient.
Import Js.
Import LlmsParameters.

(** ** Thrown values and completions *)

(** An [Error] (or [DOMException]) instance, as far as this module looks
    into it: [name], [message], and whether [cause] is a [DOMException]
    named ['AbortError']. *)
Record JsError : Type := {
  name : string;
  message : string;
  causeIsAbortDOMException : bool;
}.

(** What a [throw] or a rejection carries. *)
Inductive Thrown : Type :=
| ThrownError (e : JsError)           (* [error instanceof Error] *)
| ThrownOther (description : string). (* any other thrown value *)

(** [new Error(message)] *)
Definition newError (message : string) : Thrown :=
  ThrownError {| name := "Error"; message := message; causeIsAbortDOMException := false |}.

(** [new DOMException(message, name)] *)
Definition newDOMException (message name : string) : Thrown :=
  ThrownError {| name := name; message := message; causeIsAbortDOMException := false |}.

(** How a call (or an awaited promise) completes. *)
Inductive Completion (A : Type) : Type :=
| Returns (a : A)
| Throws (t : Thrown).
Arguments Returns {A} a.
Arguments Throws {A} t.

(** ** Model configuration *)

(** The interface tags of [llms.types] that this module tests for. *)
Inductive DLLMInterface : Type :=
| LLM_IF_HOTFIX_NoTemperature
| LLM_IF_OAI_Responses
| LLM_IF_Outputs_Audio
| LLM_IF_Outputs_Image
| LLM_IF_Outputs_NoText
| LLM_IF_Other (tag : string).

#[global] Instance DLLMInterface_eq_dec : EqDecision DLLMInterface.
Proof. solve_decision. Defined.

(** [llmInterfaces.includes(tag)] *)
Definition ifIncludes (llmInterfaces : list DLLMInterface) (tag : DLLMInterface) : bool :=
  existsb (fun i => bool_decide (i = tag)) llmInterfaces.

(** The result of [webGeolocationCached()]. *)
Record WebGeolocation : Type := {
  wg_city : option string;
  wg_country : option string;
  wg_region : option string;
  wg_timezone : string;
}.

(** [AixAPI_Model.userGeolocation] *)
Record UserGeolocation : Type := {
  city : option string;
  country : option string;
  region : option string;
  timezone : string;
}.

(** [AixAPI_Model]; an omitted property is [None]. *)
Record AixAPI_Model : Type := {
  id : JsVal;
  acceptsOutputs : list string;
  temperature : option JsVal;
  maxTokens : option JsVal;
  topP : option JsVal;
  forceNoStream : option JsVal;
  vndAntThinkingBudget : option JsVal;
  vndGeminiShowThoughts : option JsVal;
  vndGeminiThinkingBudget : option JsVal;
  vndOaiResponsesAPI : option bool;
  vndOaiReasoningEffort : option JsVal;
  vndOaiRestoreMarkdown : option JsVal;
  vndOaiWebSearchContext : option JsVal;
  vndPerplexityDateFilter : option JsVal;
  vndPerplexitySearchMode : option JsVal;
  userGeolocation : option UserGeolocation;
  vndXaiSearchMode : option JsVal;
  vndXaiSearchSources : option JsVal;
  vndXaiSearchDateFilter : option JsVal;
}.

(** [...(v ? { key: v } : {})] *)
Definition ifTruthy (v : JsVal) : option JsVal :=
  if truthy v then Some v else None.

(** [...(v !== undefined ? { key: v } : {})] *)
Definition ifDefined (v : JsVal) : option JsVal :=
  if isDefined v then Some v else None.

(** [...(s ? { key: s } : {})] for an optional string *)
Definition ifNonEmpty (s : option string) : option string :=
  match s with
  | Some x => if nonEmpty x then Some x else None
  | None => None
  end.

(** The two collaborators of [aixCreateModelFromLLMOptions]:
    [JSON.stringify] (for the error message) and the cached geolocation. *)
Record ModelEnv : Type := {
  JSON_stringify : DModelParameterValues -> string;
  webGeolocationCached : option WebGeolocation;
}.

(** Lines 40-43: a copy of the override from which [llmRef] is deleted. *)
Definition overrideWithoutRef (_llmOptionsOverride : option DModelParameterValues)
  : option DModelParameterValues :=
  match _llmOptionsOverride with
  | Some o => Some (delete "llmRef" o)
  | None => None
  end.

(** Lines 53-56: the object the parameters are destructured from. *)
Definition resolvedOptions (llmOptions : DModelParameterValues)
    (_llmOptionsOverride : option DModelParameterValues) : DModelParameterValues :=
  spread llmOptions (overrideWithoutRef _llmOptionsOverride).

Definition aixCreateModelFromLLMOptions (E : ModelEnv)
    (llmInterfaces : list DLLMInterface)
    (llmOptions : DModelParameterValues)
    (_llmOptionsOverride : option DModelParameterValues)
    (debugLlmId : string) : Completion AixAPI_Model :=
  let o := resolvedOptions llmOptions _llmOptionsOverride in
  let llmRef := prop o "llmRef" in
  let llmTemperature := prop o "llmTemperature" in
  (* llmRef is absolutely required *)
  if negb (truthy llmRef) then
    Throws (newError ("AIX: Error in configuration for model " ++ debugLlmId
                      ++ " (missing ref, temperature): " ++ JSON_stringify E llmOptions))
  else
    (* Output modalities *)
    let acceptsOutputs :=
      ((if negb (ifIncludes llmInterfaces LLM_IF_Outputs_NoText) then ["text"] else [])
       ++ (if ifIncludes llmInterfaces LLM_IF_Outputs_Audio then ["audio"] else [])
       ++ (if ifIncludes llmInterfaces LLM_IF_Outputs_Image then ["image"] else []))%list in
    let llmVndOaiResponsesAPI := ifIncludes llmInterfaces LLM_IF_OAI_Responses in
    let hotfixOmitTemperature := ifIncludes llmInterfaces LLM_IF_HOTFIX_NoTemperature in
    (* User Geolocation *)
    let userGeolocation :=
      if truthy (prop o "llmVndOaiWebSearchGeolocation") then
        match webGeolocationCached E with
        | Some wg =>
            Some {| city := ifNonEmpty (wg_city wg);
                    country := ifNonEmpty (wg_country wg);
                    region := ifNonEmpty (wg_region wg);
                    timezone := wg_timezone wg |}
        | None => None
        end
      else None in
    Returns
      {| id := llmRef;
         acceptsOutputs := acceptsOutputs;
         temperature :=
           if hotfixOmitTemperature then Some VNull else ifDefined llmTemperature;
         maxTokens := ifTruthy (prop o "llmResponseTokens");
         topP := ifDefined (prop o "llmTopP");
         forceNoStream := ifTruthy (prop o "llmForceNoStream");
         vndAntThinkingBudget := ifDefined (prop o "llmVndAntThinkingBudget");
         vndGeminiShowThoughts := ifTruthy (prop o "llmVndGeminiShowThoughts");
         vndGeminiThinkingBudget := ifDefined (prop o "llmVndGeminiThinkingBudget");
         vndOaiResponsesAPI := if llmVndOaiResponsesAPI then Some true else None;
         vndOaiReasoningEffort := ifTruthy (prop o "llmVndOaiReasoningEffort");
         vndOaiRestoreMarkdown := ifTruthy (prop o "llmVndOaiRestoreMarkdown");
         vndOaiWebSearchContext := ifTruthy (prop o "llmVndOaiWebSearchContext");
         vndPerplexityDateFilter := ifTruthy (prop o "llmVndPerplexityDateFilter");
         vndPerplexitySearchMode := ifTruthy (prop o "llmVndPerplexitySearchMode");
         userGeolocation := userGeolocation;
         vndXaiSearchMode := ifTruthy (prop o "llmVndXaiSearchMode");
         vndXaiSearchSources := ifTruthy (prop o "llmVndXaiSearchSources");
         vndXaiSearchDateFilter := ifTruthy (prop o "llmVndXaiSearchDateFilter") |}.

(** ** Fragments and accumulators *)

(** [part.invocation] of a tool-invocation part. *)
Inductive Invocation : Type :=
| FunctionCall (name : string)   (* [type === 'function_call'] *)
| CodeExecution.

(** The parts of a [DMessageContentFragment], by their [pt] tag. *)
Inductive ContentPart : Type :=
| PtText (text : string)
| PtError (error : string)
| PtToolInvocation (id : string) (invocation : option Invocation)
| PtToolResponse
| PtReference
| PtImageRef
| PtSentinelC.

(** The parts of a [DMessageVoidFragment]. *)
Inductive VoidPart : Type :=
| PtAnnotations   (* citations *)
| PtMa            (* model annotations: thinking tokens *)
| PtPh            (* placeholder *)
| PtSentinelV.

(** [DMessageContentFragment | DMessageVoidFragment] *)
Inductive Fragment : Type :=
| ContentFragment (part : ContentPart)
| VoidFragment (part : VoidPart).

Definition isContentFragment (f : Fragment) : bool :=
  match f with ContentFragment _ => true | VoidFragment _ => false end.

(** [createErrorContentFragment(message)] *)
Definition createErrorContentFragment (message : string) : Fragment :=
  ContentFragment (PtError message).

(** Metrics objects ([DMetricsChatGenerate_Lg] / [_Md]) as dictionaries. *)
Abbreviation Metrics := (gmap string JsVal).

(** [AixChatGenerateContent_LL] *)
Record AixChatGenerateContent_LL : Type := {
  fragments : list Fragment;
  genMetricsLg : option Metrics;
  genModelName : option string;
  genTokenStopReason : option string;
}.

(** [DMessageGenerator] *)
Record DMessageGenerator : Type := {
  mgt : string;
  g_name : string;
  aix : option (string * string);   (* [{ vId, mId }] *)
  metrics : option Metrics;
  tokenStopReason : option string;
}.

(** [AixChatGenerateContent_DMessage] *)
Record AixChatGenerateContent_DMessage : Type := {
  d_fragments : list Fragment;
  generator : DMessageGenerator;
  pendingIncomplete : bool;
}.

(** [AixChatGenerateText_Simple] *)
Record AixChatGenerateText_Simple : Type := {
  text : option string;       (* [string | null] *)
  t_generator : DMessageGenerator;
  isDone : bool;
}.

(** [if (s)] on an optional string field *)
Definition present (s : option string) : bool :=
  match s with Some x => nonEmpty x | None => false end.

(** The three "copy over Generator's" assignments shared by [_llToText]
    and [_llToDMessage]. *)
Definition copyGeneratorPieces (lgToMd : Metrics -> Metrics)
    (src : AixChatGenerateContent_LL) (g : DMessageGenerator) : DMessageGenerator :=
  let g1 := match genMetricsLg src with
            | Some lg => {| mgt := mgt g; g_name := g_name g; aix := aix g;
                            metrics := Some (lgToMd lg);
                            tokenStopReason := tokenStopReason g |}
            | None => g
            end in
  let g2 := match genModelName src with
            | Some n => if nonEmpty n
                        then {| mgt := mgt g1; g_name := n; aix := aix g1;
                                metrics := metrics g1;
                                tokenStopReason := tokenStopReason g1 |}
                        else g1
            | None => g1
            end in
  if present (genTokenStopReason src)
  then {| mgt := mgt g2; g_name := g_name g2; aix := aix g2; metrics := metrics g2;
          tokenStopReason := genTokenStopReason src |}
  else g2.

Definition newline : string := String "010" "".

(** The [for] loop of [_llToText]: [acc] is [dest.text] so far; the result
    is the text reached and, if the loop threw, the thrown value. *)
Fixpoint llToTextLoop (frags : list Fragment) (acc : string) : string * option Thrown :=
  match frags with
  | [] => (acc, None)
  | fragment :: rest =>
      match fragment with
      | ContentFragment (PtText t) => llToTextLoop rest (acc ++ t)
      | ContentFragment (PtError e) =>
          llToTextLoop rest (acc ++ ((if nonEmpty acc then newline else "") ++ e))
      | ContentFragment (PtToolInvocation id invocation) =>
          (acc,
           Some (newError ("AIX: Unexpected tool invocation "
                           ++ match invocation with
                              | Some (FunctionCall n) => n
                              | _ => id
                              end
                           ++ " in the Text response.")))
      | ContentFragment PtToolResponse
      | ContentFragment PtReference
      | ContentFragment PtImageRef
      | ContentFragment PtSentinelC
      | VoidFragment _ => llToTextLoop rest acc
      end
  end.

(** [_llToText(src, dest)]: [dest] is updated in place, so the updated
    object is returned even when the call throws. *)
Definition _llToText (lgToMd : Metrics -> Metrics)
    (src : AixChatGenerateContent_LL) (dest : AixChatGenerateText_Simple)
  : AixChatGenerateText_Simple * option Thrown :=
  let g := copyGeneratorPieces lgToMd src (t_generator dest) in
  match fragments src with
  | [] => ({| text := text dest; t_generator := g; isDone := isDone dest |}, None)
  | _ :: _ =>
      let '(t, thrown) := llToTextLoop (fragments src) "" in
      ({| text := Some t; t_generator := g; isDone := isDone dest |}, thrown)
  end.

(** [_llToDMessage(src, dest)] *)
Definition _llToDMessage (lgToMd : Metrics -> Metrics)
    (src : AixChatGenerateContent_LL) (dest : AixChatGenerateContent_DMessage)
  : AixChatGenerateContent_DMessage :=
  {| d_fragments := match fragments src with [] => d_fragments dest | fs => fs end;
     generator := copyGeneratorPieces lgToMd src (generator dest);
     pendingIncomplete := pendingIncomplete dest |}.

(** ** ContentReassembler *)

(** The per-call state machine of the reassembler. *)
Inductive Phase : Type := Streaming | Aborted | Excepted | Completed.

(** Modelled from the spec: the [ContentReassembler] class
    ([./ContentReassembler], not part of the sources at hand), as far as
    [_aixChatGenerateContent_LL] drives it: the accumulator it owns, its
    phase, and whether a text fragment is still open. *)
Record ContentReassembler : Type := {
  accumulator : AixChatGenerateContent_LL;
  phase : Phase;
  openText : bool;
}.

(** Modelled from the spec: [setClientAborted()] marks the stop reason as
    user cancellation, keeps the fragments as they are, appends nothing,
    and moves to [Aborted]. *)
Definition setClientAborted (r : ContentReassembler) : ContentReassembler :=
  {| accumulator :=
       {| fragments := fragments (accumulator r);
          genMetricsLg := genMetricsLg (accumulator r);
          genModelName := genModelName (accumulator r);
          genTokenStopReason := Some "client-abort" |};
     phase := Aborted;
     openText := openText r |}.

(** Modelled from the spec: [setClientExcepted(message)] appends one
    error fragment carrying [message] after the fragments accumulated so
    far and moves to [Excepted]. *)
Definition setClientExcepted (errorMessage : string) (r : ContentReassembler)
  : ContentReassembler :=
  {| accumulator :=
       {| fragments := (fragments (accumulator r)
                        ++ [createErrorContentFragment errorMessage])%list;
          genMetricsLg := genMetricsLg (accumulator r);
          genModelName := genModelName (accumulator r);
          genTokenStopReason := genTokenStopReason (accumulator r) |};
     phase := Excepted;
     openText := openText r |}.

(** Modelled from the spec: [finalizeAccumulator()] seals the open text
    fragment and moves to [Completed] unless already [Aborted] or
    [Excepted]. *)
Definition finalizeAccumulator (r : ContentReassembler) : ContentReassembler :=
  {| accumulator := accumulator r;
     phase := match phase r with Streaming => Completed | p => p end;
     openText := false |}.

(** ** Collaborators *)

(** [DLLM], as far as the client reads it. *)
Record DLLM : Type := {
  l_id : string;
  sId : string;
  vId : string;
  interfaces : list DLLMInterface;
  initialParameters : option DModelParameterValues;
  userParameters : option DModelParameterValues;
  pricing_chat : option Metrics;
}.

(** The result of [findServiceAccessOrThrow]: the transport access and the
    vendor with its optional rate-limit hook, given by how the hook's
    promise settles when it is awaited. *)
Record ServiceAccess : Type := {
  transportAccess : string;
  rateLimitChatGenerate : option (Completion unit);
}.

(** [AbortSignal.aborted] is read twice: in the [catch] of the low-level
    call, and after that call has returned (text facade). *)
Record AbortSignal : Type := {
  abortedInCatch : bool;
  abortedOnReturn : bool;
}.

(** [new AbortController().signal]: nobody holds the controller. *)
Definition freshSignal : AbortSignal :=
  {| abortedInCatch := false; abortedOnReturn := false |}.

Inductive AbortSignalOption : Type :=
| NON_ABORTABLE
| Signal (s : AbortSignal).

(** [AixClientOptions] *)
Record AixClientOptions : Type := {
  abortSignal : AbortSignalOption;
  throttleParallelThreads : option nat;
  llmOptionsOverride : option DModelParameterValues;
}.

(** What happens between entering and leaving the [try] block of the
    low-level call, which is the business of the transport, the decimator
    and the reassembler: the accumulator snapshots for which the
    reassembler called [sendContentUpdate] (after decimation), the
    reassembler when the block is left, and the exception caught, if any. *)
Record WireRun : Type := {
  sentUpdates : list AixChatGenerateContent_LL;
  atExit : ContentReassembler;
  caught : option Thrown;
}.

(** [AixAPIChatGenerate_Request], opaque to this module. *)
Record AixAPIChatGenerate_Request : Type := {
  systemMessage : option string;
  chatSequence : list (string * string);
}.

(** Everything the client calls but does not define. *)
Record World : Type := {
  modelEnv : ModelEnv;
  llms : list DLLM;
  findServiceAccessOrThrow : string -> Completion ServiceAccess;
  clientHotFixGenerateRequest_ApplyAll :
    list DLLMInterface -> AixAPIChatGenerate_Request -> JsVal -> bool;
  aixCGR_FromSimpleText :
    option string -> list (string * string) -> AixAPIChatGenerate_Request;
  getLabsDevNoStreaming : bool;
  metricsChatGenerateLgToMd : Metrics -> Metrics;
  metricsComputeChatGenerateCostsMd :
    option Metrics -> option Metrics -> JsVal -> option Metrics;
  presentErrorToHumans : Thrown -> bool -> bool -> string;
  wire : WireRun;
}.

(** [findLLMOrThrow] (store-llms.ts) *)
Definition findLLMOrThrow (W : World) (llmId : string) : Completion DLLM :=
  match List.find (fun llm => String.eqb (l_id llm) llmId) (llms W) with
  | Some llm => Returns llm
  | None => Throws (newError ("Large Language Model " ++ llmId ++ " not found"))
  end.

(** ** Effects: caller state, observable events, exceptions *)

Inductive Event : Type :=
| EvStreamingUpdate (update : AixChatGenerateContent_DMessage) (isDone : bool)
| EvTextStreamUpdate (text : string) (isDone : bool) (generator : DMessageGenerator)
| EvRateLimitChatGenerate (llmId : string)
| EvChatGenerateContent (model : AixAPI_Model) (streaming : bool)
| EvMetricsStoreAdd (costs : Metrics) (inputTokens outputTokens : Q)
    (llmId : string) (debugCostSource : string).

(** A computation over the mutable object [S] that a tier closes over: it
    updates the object, emits events, and returns or throws.  The object
    survives a throw, as it does in JavaScript. *)
Definition Eff (S A : Type) : Type := S -> S * list Event * Completion A.

Definition ret {S A} (a : A) : Eff S A := fun s => (s, [], Returns a).

Definition bind {S A B} (c : Eff S A) (k : A -> Eff S B) : Eff S B :=
  fun s =>
    match c s with
    | (s1, evs1, Returns a) =>
        match k a s1 with
        | (s2, evs2, r) => (s2, (evs1 ++ evs2)%list, r)
        end
    | (s1, evs1, Throws t) => (s1, evs1, Throws t)
    end.

Declare Scope eff_scope.
Delimit Scope eff_scope with eff.
Notation "x <- c ;; k" := (bind c (fun x => k))
  (at level 100, c at next level, right associativity) : eff_scope.
Notation "c ;; k" := (bind c (fun _ => k))
  (at level 100, right associativity) : eff_scope.
Local Open Scope eff_scope.

Definition emit {S} (ev : Event) : Eff S unit := fun s => (s, [ev], Returns tt).
Definition throw {S A} (t : Thrown) : Eff S A := fun s => (s, [], Throws t).
Definition get {S} : Eff S S := fun s => (s, [], Returns s).
Definition modify {S} (f : S -> S) : Eff S unit := fun s => (f s, [], Returns tt).
Definition await {S A} (c : Completion A) : Eff S A := fun s => (s, [], c).

(** An exception raised while the reassembler runs a progress update stays
    inside the reassembler (its [#processWireBacklog.catch()]); what it
    makes of it is part of the [WireRun]. *)
Definition insideReassembler {S} (c : Eff S unit) : Eff S unit :=
  fun s => match c s with (s1, evs, _) => (s1, evs, Returns tt) end.

Fixpoint forEach {S A} (xs : list A) (f : A -> Eff S unit) : Eff S unit :=
  match xs with
  | [] => ret tt
  | x :: rest => f x ;; forEach rest f
  end.

(** ** Tier 0: [_aixChatGenerateContent_LL] *)

(** Line 689 *)
Definition isErrorAbort (error : Thrown) : bool :=
  match error with
  | ThrownError e => String.eqb (name e) "AbortError" || causeIsAbortDOMException e
  | ThrownOther _ => false
  end.

(** Lines 699-701 *)
Definition exceptedMessage (W : World) (error : Thrown)
    (accumulator_LL : AixChatGenerateContent_LL) : string :=
  let showAsBold := negb (Nat.eqb (List.length (fragments accumulator_LL)) 0) in
  let presented := presentErrorToHumans W error showAsBold true in
  let errorText :=
    replaceFirst "[TRPCClientError]" "" (if nonEmpty presented then presented else "Unknown error") in
  "An unexpected error occurred: " ++ errorText ++ " Please retry.".

(** The [catch] block, lines 685-704. *)
Definition onCaught (W : World) (abortSignal : AbortSignal) (error : Thrown)
    (reassembler : ContentReassembler) : ContentReassembler :=
  let isUserAbort := abortedInCatch abortSignal in
  if isUserAbort || isErrorAbort error then
    setClientAborted reassembler
  else
    setClientExcepted (exceptedMessage W error (accumulator reassembler)) reassembler.

Definition _aixChatGenerateContent_LL {S : Type} (W : World)
    (aixModel : AixAPI_Model) (aixStreaming : bool) (abortSignal : AbortSignal)
    (onGenerateContentUpdate :
       option (AixChatGenerateContent_LL -> bool -> Eff S unit))
  : Eff S AixChatGenerateContent_LL :=
  (* the decimated update: nothing is sent until there is content *)
  let sendContentUpdate (accumulator_LL : AixChatGenerateContent_LL) : Eff S unit :=
    match onGenerateContentUpdate with
    | None => ret tt
    | Some cb =>
        match fragments accumulator_LL with
        | [] => ret tt
        | _ :: _ => cb accumulator_LL false
        end
    end in
  (* try *)
  emit (EvChatGenerateContent aixModel
          (if getLabsDevNoStreaming W then false else aixStreaming)) ;;
  forEach (sentUpdates (wire W))
    (fun accumulator_LL => insideReassembler (sendContentUpdate accumulator_LL)) ;;
  (* catch *)
  let reassembler :=
    match caught (wire W) with
    | None => atExit (wire W)
    | Some error => onCaught W abortSignal error (atExit (wire W))
    end in
  (* and we're done *)
  let reassembler := finalizeAccumulator reassembler in
  let accumulator_LL := accumulator reassembler in
  (* final update *)
  match onGenerateContentUpdate with
  | Some cb => cb accumulator_LL true
  | None => ret tt
  end ;;
  ret accumulator_LL.

(** ** Cost computation *)

(** [(v || 0)] on a token counter *)
Definition orZero (v : JsVal) : Q :=
  match v with VNum q => q | _ => 0%Q end.

(** [a || b] *)
Definition jsOr (a b : JsVal) : JsVal := if truthy a then a else b.

(** [_updateGeneratorCostsInPlace(generator, llm, debugCostSource)]: the
    updated generator and the call to [metricsStoreAddChatGenerate], if it
    is reached. *)
Definition _updateGeneratorCostsInPlace (W : World) (generator : DMessageGenerator)
    (llm : DLLM) (debugCostSource : string) : DMessageGenerator * list Event :=
  let llmParameters := getAllModelParameterValues (initialParameters llm) (userParameters llm) in
  match metricsComputeChatGenerateCostsMd W (metrics generator) (pricing_chat llm)
          (jsOr (prop llmParameters "llmRef") (VStr (l_id llm))) with
  | None => (generator, [])
  | Some costs =>
      (* Object.assign(generator.metrics, costs) *)
      let generator' :=
        match metrics generator with
        | Some m => {| mgt := mgt generator; g_name := g_name generator; aix := aix generator;
                       metrics := Some (costs ∪ m);
                       tokenStopReason := tokenStopReason generator |}
        | None => generator
        end in
      let m := default ∅ (metrics generator') in
      let inputTokens :=
        (orZero (prop m "TIn") + orZero (prop m "TCacheRead") + orZero (prop m "TCacheWrite"))%Q in
      let outputTokens := orZero (prop m "TOut") in
      (generator', [EvMetricsStoreAdd costs inputTokens outputTokens (l_id llm) debugCostSource])
  end.

(** [await llmVendor.rateLimitChatGenerate?.(llm, llmServiceSettings)] *)
Definition applyRateLimit {S} (access : ServiceAccess) (llm : DLLM) : Eff S unit :=
  match rateLimitChatGenerate access with
  | Some outcome => emit (EvRateLimitChatGenerate (l_id llm)) ;; await outcome
  | None => ret tt
  end.

(** ** Tier 1: [aixChatGenerateContent_DMessage] *)

(** A caller-supplied [onStreamingUpdate]: what it does with the update is
    the caller's business; towards this module it returns or throws. *)
Definition StreamingUpdateFn : Type :=
  AixChatGenerateContent_DMessage -> bool -> Completion unit.

(** [await onStreamingUpdate?.(dMessage, isDone)] *)
Definition notifyStreamingUpdate (onStreamingUpdate : option StreamingUpdateFn)
    (isDone : bool) : Eff AixChatGenerateContent_DMessage unit :=
  match onStreamingUpdate with
  | Some cb => fun dMessage => (dMessage, [EvStreamingUpdate dMessage isDone], cb dMessage isDone)
  | None => ret tt
  end.

Definition setPendingIncomplete (b : bool) (d : AixChatGenerateContent_DMessage)
  : AixChatGenerateContent_DMessage :=
  {| d_fragments := d_fragments d; generator := generator d; pendingIncomplete := b |}.

Definition updateCostsOfDMessage (W : World) (llm : DLLM) (debugCostSource : string)
  : Eff AixChatGenerateContent_DMessage unit :=
  fun d =>
    let '(g, evs) := _updateGeneratorCostsInPlace W (generator d) llm debugCostSource in
    ({| d_fragments := d_fragments d; generator := g; pendingIncomplete := pendingIncomplete d |},
     evs, Returns tt).

(** The part of a tier that runs before its mutable object exists. *)
Definition andThen {A B} (c : Completion A) (k : A -> list Event * Completion B)
  : list Event * Completion B :=
  match c with
  | Returns a => k a
  | Throws t => ([], Throws t)
  end.

(** Run a computation from the initial object; the events and the completion. *)
Definition run {S A} (c : Eff S A) (s : S) : list Event * Completion A :=
  match c s with (_, evs, r) => (evs, r) end.

(** The callback Tier 1 hands to the low-level call (lines 484-490). *)
Definition onLLUpdate_DMessage (W : World) (onStreamingUpdate : option StreamingUpdateFn)
    (ll : AixChatGenerateContent_LL) (isDone : bool)
  : Eff AixChatGenerateContent_DMessage unit :=
  if isDone then ret tt   (* optimization: the final update follows below *)
  else match onStreamingUpdate with
       | Some _ =>
           modify (_llToDMessage (metricsChatGenerateLgToMd W) ll) ;;
           notifyStreamingUpdate onStreamingUpdate false
       | None => ret tt
       end.

Definition aixChatGenerateContent_DMessage (W : World)
    (llmId : string)
    (aixChatGenerate : AixAPIChatGenerate_Request)
    (aixContextName : string)
    (aixStreaming : bool)
    (clientOptions : AixClientOptions)
    (onStreamingUpdate : option StreamingUpdateFn)
  : list Event * Completion AixChatGenerateContent_DMessage :=
  (* Aix Access *)
  andThen (findLLMOrThrow W llmId) (fun llm =>
  andThen (findServiceAccessOrThrow W (sId llm)) (fun access =>
  (* Aix Model *)
  let llmParameters := getAllModelParameterValues (initialParameters llm) (userParameters llm) in
  andThen (aixCreateModelFromLLMOptions (modelEnv W) (interfaces llm) llmParameters
             (llmOptionsOverride clientOptions) llmId) (fun aixModel =>
  (* Client-side late stage model HotFixes *)
  let shallDisableStreaming :=
    clientHotFixGenerateRequest_ApplyAll W (interfaces llm) aixChatGenerate
      (jsOr (prop llmParameters "llmRef") (VStr (l_id llm))) in
  let aixStreaming := if shallDisableStreaming then false else aixStreaming in
  let dMessage :=
    {| d_fragments := [];
       generator := {| mgt := "aix"; g_name := llmId; aix := Some (vId llm, l_id llm);
                       metrics := None; tokenStopReason := None |};
       pendingIncomplete := true |} in
  run (
    (* streaming initial notification, for UI updates *)
    notifyStreamingUpdate onStreamingUpdate false ;;
    (* apply any vendor-specific rate limit *)
    applyRateLimit access llm ;;
    let abortSignal :=
      match abortSignal clientOptions with
      | NON_ABORTABLE => freshSignal
      | Signal s => s
      end in
    (* Aix Low-Level Chat Generation *)
    llAccumulator <-
      _aixChatGenerateContent_LL W aixModel aixStreaming abortSignal
        (Some (onLLUpdate_DMessage W onStreamingUpdate)) ;;
    (* Mark as complete *)
    modify (setPendingIncomplete false) ;;
    (* LLM Cost computation & Aggregations *)
    modify (_llToDMessage (metricsChatGenerateLgToMd W) llAccumulator) ;;
    updateCostsOfDMessage W llm ("aix_chatgenerate_content-" ++ aixContextName) ;;
    (* final update *)
    notifyStreamingUpdate onStreamingUpdate true ;;
    get
  ) dMessage))).

(** ** Tier 2: [aixChatGenerateText_Simple] *)

(** A caller-supplied [onTextStreamUpdate]. *)
Definition TextStreamUpdateFn : Type :=
  string -> bool -> DMessageGenerator -> Completion unit.

Definition notifyTextStreamUpdate (cb : TextStreamUpdateFn) (text : string) (isDone : bool)
  : Eff AixChatGenerateText_Simple unit :=
  fun state => (state, [EvTextStreamUpdate text isDone (t_generator state)],
                cb text isDone (t_generator state)).

(** [_llToText(ll, state)] on the state the facade closes over. *)
Definition llToTextInPlace (W : World) (ll : AixChatGenerateContent_LL)
  : Eff AixChatGenerateText_Simple unit :=
  fun state =>
    match _llToText (metricsChatGenerateLgToMd W) ll state with
    | (state', None) => (state', [], Returns tt)
    | (state', Some t) => (state', [], Throws t)
    end.

Definition setIsDone (b : bool) (state : AixChatGenerateText_Simple)
  : AixChatGenerateText_Simple :=
  {| text := text state; t_generator := t_generator state; isDone := b |}.

Definition updateCostsOfText (W : World) (llm : DLLM) (debugCostSource : string)
  : Eff AixChatGenerateText_Simple unit :=
  fun state =>
    let '(g, evs) := _updateGeneratorCostsInPlace W (t_generator state) llm debugCostSource in
    ({| text := text state; t_generator := g; isDone := isDone state |}, evs, Returns tt).

(** The text of an error-variant fragment, for the [filter]/[map] of
    lines 337-339. *)
Definition errorOf (f : Fragment) : option string :=
  match f with
  | ContentFragment (PtError e) => Some e
  | _ => None
  end.

(** Lines 337-339 *)
Definition joinedErrors (ll : AixChatGenerateContent_LL) : string :=
  join newline (omap errorOf (fragments ll)).

(** The callback Tier 2 hands to the low-level call when streaming
    (lines 313-317); [_isDone] is ignored. *)
Definition onLLUpdate_Text (W : World) (onTextStreamUpdate : option TextStreamUpdateFn)
    (ll : AixChatGenerateContent_LL) (_isDone : bool)
  : Eff AixChatGenerateText_Simple unit :=
  llToTextInPlace W ll ;;
  state <- get ;;
  match onTextStreamUpdate, text state with
  | Some cb, Some t => notifyTextStreamUpdate cb t false
  | _, _ => ret tt
  end.

(** Lines 320-346 of [aixChatGenerateText_Simple]: what the facade does
    with the accumulator [ll] that the low-level call resolved with. *)
Definition completeTextResponse (W : World) (llm : DLLM) (aixContextName : string)
    (abortSignal : AbortSignal) (onTextStreamUpdate : option TextStreamUpdateFn)
    (ll : AixChatGenerateContent_LL) : Eff AixChatGenerateText_Simple string :=
  (* Mark as complete *)
  modify (setIsDone true) ;;
  (* LLM Cost computation & Aggregations *)
  llToTextInPlace W ll ;;
  updateCostsOfText W llm ("aix_chatgenerate_text-" ++ aixContextName) ;;
  (* re-throw the user-initiated abort, as the former function catches it *)
  (if abortedOnReturn abortSignal
   then throw (newDOMException "Stopped." "AbortError")
   else ret tt) ;;
  (* throw if there was no text generated *)
  state <- get ;;
  match text state with
  | None => throw (newError "AIX: Empty text response.")
  | Some stateText =>
      (* throw if there are error fragments *)
      let errorMessage := joinedErrors ll in
      if nonEmpty errorMessage
      then throw (newError ("AIX: Error in response: " ++ errorMessage))
      else
        (* final update *)
        match onTextStreamUpdate with
        | Some cb => notifyTextStreamUpdate cb stateText true
        | None => ret tt
        end ;;
        ret stateText
  end.

Definition aixChatGenerateText_Simple (W : World)
    (llmId : string)
    (systemInstruction : option string)
    (aixTextMessages : list (string * string) + string)
    (aixContextName : string)
    (clientOptions : option AixClientOptions)
    (onTextStreamUpdate : option TextStreamUpdateFn)
  : list Event * Completion string :=
  (* Aix Access *)
  andThen (findLLMOrThrow W llmId) (fun llm =>
  andThen (findServiceAccessOrThrow W (sId llm)) (fun access =>
  (* Aix Model *)
  let llmParameters := getAllModelParameterValues (initialParameters llm) (userParameters llm) in
  andThen (aixCreateModelFromLLMOptions (modelEnv W) (interfaces llm) llmParameters
             (match clientOptions with Some o => llmOptionsOverride o | None => None end)
             llmId) (fun aixModel =>
  (* Aix ChatGenerate Request *)
  let aixChatGenerate :=
    aixCGR_FromSimpleText W systemInstruction
      (match aixTextMessages with
       | inr single => [("user", single)]
       | inl messages => messages
       end) in
  (* Aix Streaming - implicit if the callback is provided *)
  let aixStreaming := match onTextStreamUpdate with Some _ => true | None => false end in
  (* Client-side late stage model HotFixes *)
  let shallDisableStreaming :=
    clientHotFixGenerateRequest_ApplyAll W (interfaces llm) aixChatGenerate
      (jsOr (prop llmParameters "llmRef") (VStr (l_id llm))) in
  let aixStreaming := if shallDisableStreaming then false else aixStreaming in
  (* Variable to store the final text *)
  let state :=
    {| text := None;
       t_generator := {| mgt := "aix"; g_name := llmId; aix := Some (vId llm, l_id llm);
                         metrics := None; tokenStopReason := None |};
       isDone := false |} in
  run (
    (* apply any vendor-specific rate limit *)
    applyRateLimit access llm ;;
    (* Abort: if no signal is provided, we will create a dummy signal *)
    let abortSignal :=
      match clientOptions with
      | Some o => match abortSignal o with Signal s => s | NON_ABORTABLE => freshSignal end
      | None => freshSignal
      end in
    (* Aix Low-Level Chat Generation *)
    ll <-
      _aixChatGenerateContent_LL W aixModel aixStreaming abortSignal
        (if negb aixStreaming then None
         else Some (onLLUpdate_Text W onTextStreamUpdate)) ;;
    completeTextResponse W llm aixContextName abortSignal onTextStreamUpdate ll
  ) state))).

(** ** Notions used to state the properties *)

(** The accumulator the low-level call ends with: the reassembler as the
    [try] block left it, after the [catch] block (if an exception was
    caught) and [finalizeAccumulator]. *)
Definition finalAccumulator (W : World) (abortSignal : AbortSignal)
  : AixChatGenerateContent_LL :=
  accumulator
    (finalizeAccumulator
       (match caught (wire W) with
        | None => atExit (wire W)
        | Some error => onCaught W abortSignal error (atExit (wire W))
        end)).

(** The completion of a computation started from [s]. *)
Definition completionOf {S A} (c : Eff S A) (s : S) : Completion A :=
  match c s with (_, _, r) => r end.

(** [onStreamingUpdate(_, true)] *)
Definition isDoneUpdate (ev : Event) : bool :=
  match ev with EvStreamingUpdate _ true => true | _ => false end.

(** What the error of [_llToText] calls a tool invocation: the name of a
    function call, the id of anything else. *)
Definition toolInvocationLabel (f : Fragment) : option string :=
  match f with
  | ContentFragment (PtToolInvocation id (Some (FunctionCall n))) => Some n
  | ContentFragment (PtToolInvocation id _) => Some id
  | _ => None
  end.

(** The first tool invocation among the fragments, if any. *)
Definition firstToolInvocation (fs : list Fragment) : option string :=
  head (omap toolInvocationLabel fs).

Definition textOf (f : Fragment) : option string :=
  match f with
  | ContentFragment (PtText t) => Some t
  | _ => None
  end.

(** The concatenated text of the text fragments. *)
Definition concatenatedText (fs : list Fragment) : string :=
  String.concat "" (omap textOf fs).

(** The signal the facade ends up using. *)
Definition effectiveSignal (clientOptions : option AixClientOptions) : AbortSignal :=
  match clientOptions with
  | Some o => match abortSignal o with Signal s => s | NON_ABORTABLE => freshSignal end
  | None => freshSignal
  end.

(** The outcome of the facade as a function of the accumulator the
    low-level call ends with and of the abort flag read after it (see
    [text_facade_completion]). *)
Definition textOutcome (ll : AixChatGenerateContent_LL) (aborted : bool) : Completion string :=
  match llToTextLoop (fragments ll) "" with
  | (_, Some t) => Throws t
  | (stateText, None) =>
      if aborted then Throws (newDOMException "Stopped." "AbortError")
      else match fragments ll with
           | [] => Throws (newError "AIX: Empty text response.")
           | _ :: _ =>
               if nonEmpty (joinedErrors ll)
               then Throws (newError ("AIX: Error in response: " ++ joinedErrors ll))
               else Returns stateText
           end
  end.

(** ** Example worlds *)

(** The collaborators of the examples: a stub [JSON.stringify] and no
    geolocation. *)
Definition exampleModelEnv : ModelEnv :=
  {| JSON_stringify := fun _ => "{...}"; webGeolocationCached := None |}.

(** The four temperatures of the example. *)
Definition temperatureLayer (t : Q) : option DModelParameterValues :=
  Some {[ "llmTemperature" := VNum t ]}.

Definition exampleModel : AixAPI_Model :=
  {| id := VStr "model-a"; acceptsOutputs := ["text"]; temperature := Some (VNum 0.5);
     maxTokens := Some (VNum 8192); topP := None; forceNoStream := None;
     vndAntThinkingBudget := None; vndGeminiShowThoughts := None;
     vndGeminiThinkingBudget := None; vndOaiResponsesAPI := None;
     vndOaiReasoningEffort := None; vndOaiRestoreMarkdown := None;
     vndOaiWebSearchContext := None; vndPerplexityDateFilter := None;
     vndPerplexitySearchMode := None; userGeolocation := None;
     vndXaiSearchMode := None; vndXaiSearchSources := None;
     vndXaiSearchDateFilter := None |}.

Definition exampleLLM : DLLM :=
  {| l_id := "llm-1"; sId := "service-1"; vId := "vendor-1"; interfaces := [];
     initialParameters := Some {[ "llmRef" := VStr "model-a" ]};
     userParameters := None; pricing_chat := None |}.

Definition accumulatorOf (fs : list Fragment) : AixChatGenerateContent_LL :=
  {| fragments := fs; genMetricsLg := None; genModelName := None;
     genTokenStopReason := None |}.

Definition streamingWith (fs : list Fragment) : ContentReassembler :=
  {| accumulator := accumulatorOf fs; phase := Streaming; openText := false |}.

(** A world with one model, a vendor whose rate-limit hook settles as
    [hook], and a transport that behaves as [w]. *)
Definition exampleWorld (hook : option (Completion unit)) (w : WireRun) : World :=
  {| modelEnv := exampleModelEnv;
     llms := [exampleLLM];
     findServiceAccessOrThrow := fun _ =>
       Returns {| transportAccess := "access"; rateLimitChatGenerate := hook |};
     clientHotFixGenerateRequest_ApplyAll := fun _ _ _ => false;
     aixCGR_FromSimpleText := fun sys msgs => {| systemMessage := sys; chatSequence := msgs |};
     getLabsDevNoStreaming := false;
     metricsChatGenerateLgToMd := fun m => m;
     metricsComputeChatGenerateCostsMd := fun _ _ _ => None;
     presentErrorToHumans := fun _ _ _ => "fetch failed";
     wire := w |}.

Definition fetchFailed : Thrown :=
  ThrownError {| name := "TRPCClientError"; message := "fetch failed";
                 causeIsAbortDOMException := false |}.

(** The connection drops after "Hello" was received. *)
Definition droppedAfterHello : WireRun :=
  {| sentUpdates := [accumulatorOf [ContentFragment (PtText "Hello")]];
     atExit := streamingWith [ContentFragment (PtText "Hello")];
     caught := Some fetchFailed |}.



(** A caller that takes every update and returns. *)
Definition acceptingCaller : StreamingUpdateFn := fun _ _ => Returns tt.

Definition exampleRequest : AixAPIChatGenerate_Request :=
  {| systemMessage := None; chatSequence := [("user", "Hi")] |}.

Definition exampleOptions : AixClientOptions :=
  {| abortSignal := Signal freshSignal; throttleParallelThreads := None;
     llmOptionsOverride := None |}.

Definition rateLimited : Thrown := newError "Rate limit exceeded, try again later".

(** The stream delivers "Hello" and completes. *)
Definition helloAndDone : WireRun :=
  {| sentUpdates := [accumulatorOf [ContentFragment (PtText "Hello")]];
     atExit := streamingWith [ContentFragment (PtText "Hello")];
     caught := None |}.

(** The model only "thinks" and stops: one void fragment, no text. *)
Definition thoughtsOnly : WireRun :=
  {| sentUpdates := [];
     atExit := streamingWith [VoidFragment PtMa];
     caught := None |}.

(** The upstream sends an in-band error with an empty message. *)
Definition emptyErrorOnly : WireRun :=
  {| sentUpdates := [];
     atExit := streamingWith [ContentFragment (PtError "")];
     caught := None |}.

End AixClient.

(* ===================================================================== *)
(** * Reading a run of the retry scheduler *)
(* ===================================================================== *)

Module RetrierRuns.
Import Js Retrier.

(** The attempt numbers of the invocations of a run, in order. *)
Definition invokedAttempts (evs : list Event) : list nat :=
  omap (fun ev => match ev with EvInvoke n => Some n | _ => None end) evs.

(** The waits of a run, in order. *)
Definition delays (evs : list Event) : list Q :=
  omap (fun ev => match ev with EvDelay ms => Some ms | _ => None end) evs.

(** The time a run spends waiting between attempts. *)
Definition totalDelay (evs : list Event) : Q :=
  fold_right Qplus 0%Q (delays evs).

(** The longest time a run that is about to make attempt [a] can still
    spend waiting: after attempts 1, 2 and 3 the server profile waits at
    most 1500, 3000 and 6000 ms, and no attempt follows the fourth. *)
Definition longestWaitFrom (a : nat) : Q :=
  match a with
  | 0%nat | 1%nat => 10500 | 2%nat => 9000 | 3%nat => 6000 | _ => 0
  end.

(** Two failures with a 503, then a result. *)
Definition succeedsAtThird : Env nat :=
  {| operationFn := fun n => if (n <? 3)%nat then Rejected serviceUnavailable else Resolved n;
     abortedAtCatch := fun _ => false;
     onRetryThrows := fun _ => false;
     abortableDelay := fun _ => false;
     mathRandom := fun _ => 1 # 2 |}.

(** The promise is left pending after the attempt of a run with which it
    ends: the operation never settled, or it failed with a retryable error
    whose profile has attempts left while the signal was not set, and the
    announcement of the retry threw. *)
Definition leftPending {T : Type} (env : Env T) (k : nat) : Prop :=
  operationFn env k = Pending
  \/ exists error rp,
       operationFn env k = Rejected error
       /\ abortedAtCatch env k = false
       /\ selectRetryProfile error = Some rp
       /\ (k < maxAttempts rp)%nat
       /\ onRetryThrows env k = true.

End RetrierRuns.

(* ===================================================================== *)
(** * llms.parameters.ts: the registry and its utility functions *)
(* ===================================================================== *)

Module LlmsParameterSpecs.
Import Js LlmsParameters.

(** The [type] of a registry entry. *)
Inductive ParamType : Type := TInteger | TFloat | TString | TBoolean | TEnum.

(** An entry of [DModelParameterRegistry], without its [label] and
    [description]: an absent [range] or [initialValue] is [None], an enum
    lists its [values], [nullable] says whether the key is there. *)
Record RegistryDef : Type := {
  r_type : ParamType;
  r_range : option (Q * Q);
  r_nullable : bool;
  r_values : list string;
  r_initialValue : option JsVal;
}.

Definition stringDef (initialValue : option string) : RegistryDef :=
  {| r_type := TString; r_range := None; r_nullable := false; r_values := [];
     r_initialValue := VStr <$> initialValue |}.

Definition booleanDef (initialValue : option bool) : RegistryDef :=
  {| r_type := TBoolean; r_range := None; r_nullable := false; r_values := [];
     r_initialValue := VBool <$> initialValue |}.

Definition numberDef (type : ParamType) (range : option (Q * Q)) (nullable : bool)
    (initialValue : option Q) : RegistryDef :=
  {| r_type := type; r_range := range; r_nullable := nullable; r_values := [];
     r_initialValue := VNum <$> initialValue |}.

(** [_enumDef({ type: 'enum', values, initialValue })] *)
Definition _enumDef (values : list string) (initialValue : option string) : RegistryDef :=
  {| r_type := TEnum; r_range := None; r_nullable := false; r_values := values;
     r_initialValue := VStr <$> initialValue |}.

Definition DModelParameterRegistry : list (string * RegistryDef) :=
  [ ("llmRef", stringDef None);
    ("llmResponseTokens", numberDef TInteger None true None);
    ("llmTemperature", numberDef TFloat (Some (0, 2)%Q) true None);
    ("llmTopP", numberDef TFloat (Some (0, 1)%Q) false None);
    ("llmEffort",
     _enumDef ["none"; "minimal"; "low"; "medium"; "high"; "xhigh"; "max"] None);
    ("llmForceNoStream", booleanDef None);
    (* Anthropic *)
    ("llmVndAnt1MContext", booleanDef None);
    ("llmVndAntInfSpeed", _enumDef ["fast"] None);
    ("llmVndAntSkills", stringDef (Some ""));
    ("llmVndAntThinkingBudget",
     numberDef TInteger (Some (1024, 65536)%Q) true (Some 16384%Q));
    ("llmVndAntWebFetch", _enumDef ["auto"; "off"] None);
    ("llmVndAntWebSearch", _enumDef ["auto"; "off"] None);
    (* Gemini *)
    ("llmVndGeminiAspectRatio",
     _enumDef ["1:1"; "2:3"; "3:2"; "3:4"; "4:3"; "9:16"; "16:9"; "21:9"] None);
    ("llmVndGeminiCodeExecution", _enumDef ["auto"] None);
    ("llmVndGeminiComputerUse", _enumDef ["browser"] (Some "browser"));
    ("llmVndGeminiGoogleSearch",
     _enumDef ["unfiltered"; "1d"; "1w"; "1m"; "6m"; "1y"] None);
    ("llmVndGeminiImageSize", _enumDef ["1K"; "2K"; "4K"] None);
    ("llmVndGeminiMediaResolution", _enumDef ["mr_high"; "mr_medium"; "mr_low"] None);
    ("llmVndGeminiThinkingBudget", numberDef TInteger (Some (0, 24576)%Q) false None);
    (* Moonshot *)
    ("llmVndMoonshotWebSearch", _enumDef ["auto"] None);
    (* OpenAI *)
    ("llmVndOaiRestoreMarkdown", booleanDef (Some true));
    ("llmVndOaiVerbosity", _enumDef ["low"; "medium"; "high"] None);
    ("llmVndOaiWebSearchContext", _enumDef ["low"; "medium"; "high"] None);
    ("llmVndOaiWebSearchGeolocation", booleanDef (Some false));
    ("llmVndOaiImageGeneration", _enumDef ["mq"; "hq"; "hq_edit"; "hq_png"] None);
    ("llmVndOaiCodeInterpreter", _enumDef ["off"; "auto"] None);
    (* OpenRouter *)
    ("llmVndOrtWebSearch", _enumDef ["auto"] None);
    (* Perplexity *)
    ("llmVndPerplexityDateFilter", _enumDef ["unfiltered"; "1m"; "3m"; "6m"; "1y"] None);
    ("llmVndPerplexitySearchMode", _enumDef ["default"; "academic"] None);
    (* xAI *)
    ("llmVndXaiCodeExecution", _enumDef ["off"; "auto"] None);
    ("llmVndXaiSearchInterval",
     _enumDef ["unfiltered"; "1d"; "1w"; "1m"; "6m"; "1y"] None);
    ("llmVndXaiWebSearch", _enumDef ["off"; "auto"] None);
    ("llmVndXaiXSearch", _enumDef ["off"; "auto"] None);
    ("llmVndXaiXSearchHandles", stringDef None) ].

(** [DModelParameterRegistry[paramId]], as far as
    [applyModelParameterSpecsInitialValues] uses it: [None] where nothing
    is to be read off the entry.  That is an id that is no key of the
    registry, and also a name the registry inherits from
    [Object.prototype]: there the source reads a function (or, under
    ['__proto__'], the prototype), which is truthy but on which
    ['initialValue' in registryDef] is false. *)
Definition registryDef (paramId : string) : option RegistryDef :=
  snd <$> List.find (fun entry => String.eqb (fst entry) paramId) DModelParameterRegistry.

(** [DModelParameterSpec], as far as the utility functions read it; an
    absent [initialValue] reads as [undefined]. *)
Record DModelParameterSpec : Type := {
  paramId : string;
  initialValue : JsVal;
}.

(** The property names that a plain object inherits from
    [Object.prototype]. *)
Definition objectPrototypeNames : list string :=
  [ "constructor"; "__defineGetter__"; "__defineSetter__"; "hasOwnProperty";
    "__lookupGetter__"; "__lookupSetter__"; "isPrototypeOf"; "propertyIsEnumerable";
    "toString"; "valueOf"; "__proto__"; "toLocaleString" ].

Definition inherited (paramId : string) : bool :=
  existsb (String.eqb paramId) objectPrototypeNames.

(** [paramId in destValues], for a plain object: an own key, or a name
    inherited from [Object.prototype]. *)
Definition hasKey (values : DModelParameterValues) (paramId : string) : bool :=
  match values !! paramId with Some _ => true | None => inherited paramId end.

(** [destValues[paramId] = value]: the own property is set, or created.
    Only an assignment to ['__proto__'] that finds no own property of
    that name goes to the setter inherited from [Object.prototype]
    instead, which leaves the own properties as they are (given [null]
    it detaches the prototype, which is reached only with
    [overwriteExisting], where [in] is not evaluated). *)
Definition assign (paramId : string) (value : JsVal) (values : DModelParameterValues)
  : DModelParameterValues :=
  match values !! paramId with
  | None => if String.eqb paramId "__proto__" then values else <[paramId := value]> values
  | Some _ => <[paramId := value]> values
  end.

(** The body of the loop of [applyModelParameterSpecsInitialValues]. *)
Definition applyParameterSpec (overwriteExisting : bool)
    (destValues : DModelParameterValues) (parameterSpec : DModelParameterSpec)
  : DModelParameterValues :=
  let paramId := paramId parameterSpec in
  (* skip if already present *)
  if negb overwriteExisting && hasKey destValues paramId then destValues
  (* 1. (if present) apply Spec.initialValue *)
  else if isDefined (initialValue parameterSpec)
  then assign paramId (initialValue parameterSpec) destValues
  (* 2. (if present) apply Registry[paramId].initialValue *)
  else match registryDef paramId with
       | Some registryDef =>
           match r_initialValue registryDef with
           | Some v => if isDefined v then assign paramId v destValues else destValues
           | None => destValues
           end
       | None => destValues   (* console.warn, for an unknown id *)
       end.

(** [applyModelParameterSpecsInitialValues]: [destValues] is updated in
    place; the updated object is the result. *)
Definition applyModelParameterSpecsInitialValues (destValues : DModelParameterValues)
    (modelParameterSpecs : list DModelParameterSpec) (overwriteExisting : bool)
  : DModelParameterValues :=
  fold_left (applyParameterSpec overwriteExisting) modelParameterSpecs destValues.

(** One of the two lookups of [getModelParameterValueWithFallback]:
    [values && paramId in values], then [value !== undefined].  The
    values read are parameter values, held under own keys: under a name
    inherited from [Object.prototype] that is no own key, the source
    reads the inherited function here, as it does off the object that
    [getAllModelParameterValues] returns. *)
Definition definedIn (values : option DModelParameterValues) (paramId : string)
  : option JsVal :=
  match values with
  | Some o =>
      match o !! paramId with
      | Some value => if isDefined value then Some value else None
      | None => None
      end
  | None => None
  end.

Definition getModelParameterValueWithFallback (paramId : string)
    (initialValues userValues : option DModelParameterValues) (fallbackValue : JsVal)
  : JsVal :=
  (* check user values first *)
  match definedIn userValues paramId with
  | Some value => value
  | None =>
      (* then check initial values *)
      match definedIn initialValues paramId with
      | Some value => value
      | None => fallbackValue   (* then try provided fallback *)
      end
  end.

(** ** Notions used to state the properties *)

(** The initial value a spec brings for its parameter: its own, else the
    registry's. *)
Definition availableInitialValue (parameterSpec : DModelParameterSpec) : option JsVal :=
  if isDefined (initialValue parameterSpec) then Some (initialValue parameterSpec)
  else match registryDef (paramId parameterSpec) with
       | Some registryDef =>
           match r_initialValue registryDef with
           | Some v => if isDefined v then Some v else None
           | None => None
           end
       | None => None
       end.

(** What an assignment of [v] to [p] does to the entry [cur] of [p]
    ([None]: no own key). *)
Definition assignedEntry (p : string) (cur : option JsVal) (v : JsVal) : option JsVal :=
  match cur with
  | None => if String.eqb p "__proto__" then None else Some v
  | Some _ => Some v
  end.

(** What one spec does to the entry of parameter [p], given the entry
    [cur] that the destination holds for it ([None]: no own key). *)
Definition stepEntry (overwriteExisting : bool) (p : string) (cur : option JsVal)
    (parameterSpec : DModelParameterSpec) : option JsVal :=
  if String.eqb (paramId parameterSpec) p then
    if negb overwriteExisting && match cur with Some _ => true | None => inherited p end
    then cur
    else match availableInitialValue parameterSpec with
         | Some v => assignedEntry p cur v
         | None => cur
         end
  else cur.

(** A layer holds [undefined] under [paramId]. *)
Definition holdsUndefined (values : option DModelParameterValues) (paramId : string) : Prop :=
  default ∅ values !! paramId = Some VUndefined.

(** Two specs of a thinking model; the second has no initial value of
    its own. *)
Definition thinkingSpecs : list DModelParameterSpec :=
  [ {| paramId := "llmVndAntThinkingBudget"; initialValue := VNum 8192 |};
    {| paramId := "llmVndOaiRestoreMarkdown"; initialValue := VUndefined |} ].

End LlmsParameterSpecs.

(* ===================================================================== *)
(** * store-llms.ts *)
(* ===================================================================== *)

Module StoreLlms.
Import Js LlmsParameters.

(** ** The state *)

(** [DLLM] as the store holds it: what the client reads of it
    ([AixClient.DLLM]) and the two user edits besides [userParameters]
    that [setLLMs] carries over; an absent edit is [None]. *)
Record DLLM : Type := {
  core : AixClient.DLLM;
  userLabel : option string;
  userHidden : option bool;
}.

Definition idOf (llm : DLLM) : string := AixClient.l_id (core llm).
Definition sIdOf (llm : DLLM) : string := AixClient.sId (core llm).
Definition vIdOf (llm : DLLM) : string := AixClient.vId (core llm).
Definition userParametersOf (llm : DLLM) : option DModelParameterValues :=
  AixClient.userParameters (core llm).

(** [{ ...llm, userParameters }] *)
Definition withUserParameters (userParameters : option DModelParameterValues) (llm : DLLM)
  : DLLM :=
  {| core := {| AixClient.l_id := AixClient.l_id (core llm);
                AixClient.sId := AixClient.sId (core llm);
                AixClient.vId := AixClient.vId (core llm);
                AixClient.interfaces := AixClient.interfaces (core llm);
                AixClient.initialParameters := AixClient.initialParameters (core llm);
                AixClient.userParameters := userParameters;
                AixClient.pricing_chat := AixClient.pricing_chat (core llm) |};
     userLabel := userLabel llm;
     userHidden := userHidden llm |}.

(** [{ ...llm, vId }] *)
Definition withVId (vId : string) (llm : DLLM) : DLLM :=
  {| core := {| AixClient.l_id := AixClient.l_id (core llm);
                AixClient.sId := AixClient.sId (core llm);
                AixClient.vId := vId;
                AixClient.interfaces := AixClient.interfaces (core llm);
                AixClient.initialParameters := AixClient.initialParameters (core llm);
                AixClient.userParameters := AixClient.userParameters (core llm);
                AixClient.pricing_chat := AixClient.pricing_chat (core llm) |};
     userLabel := userLabel llm;
     userHidden := userHidden llm |}.

(** [DModelsService] *)
Record DModelsService : Type := {
  svc_id : string;
  svc_label : string;
  svc_vId : string;
  setup : gmap string JsVal;
}.

(** [IModelVendor], as far as [createModelsService] reads it;
    [initializeSetup] is given by the object it returns, if it exists. *)
Record IModelVendor : Type := {
  v_id : string;
  v_name : string;
  initializeSetup : option (gmap string JsVal);
}.

(** [LlmsRootState & LlmsAssignmentsState]; [null] is [None]. *)
Record LlmsStore : Type := {
  llms : list DLLM;
  sources : list DModelsService;
  confServiceId : option string;
  chatLLMId : option string;
  fastLLMId : option string;
}.

(** The object [llmsHeuristicUpdateAssignments] returns, which the actions
    spread into the new state: part of the assignments state, a key it
    does not have being [None]. *)
Record AssignmentsUpdate : Type := {
  new_chatLLMId : option (option string);
  new_fastLLMId : option (option string);
}.

(** What the store imports: the assignment heuristic of
    [store-llms-assignments_slice], which may throw, and the two interface
    tags of [llms.types] that [getLLMIdOrThrow] tests for. *)
Record StoreEnv : Type := {
  llmsHeuristicUpdateAssignments :
    list DLLM -> option string -> option string -> AixClient.Completion AssignmentsUpdate;
  LLM_IF_OAI_Fn : AixClient.DLLMInterface;
  LLM_IF_OAI_Vision : AixClient.DLLMInterface;
}.

(** [{ llms: newLlms, ...update }] merged into the state by [set]. *)
Definition setLlmsAndAssignments (newLlms : list DLLM) (update : AssignmentsUpdate)
    (state : LlmsStore) : LlmsStore :=
  {| llms := newLlms;
     sources := sources state;
     confServiceId := confServiceId state;
     chatLLMId := default (chatLLMId state) (new_chatLLMId update);
     fastLLMId := default (fastLLMId state) (new_fastLLMId update) |}.

(** [set(state => ({ llms: newLlms, ...llmsHeuristicUpdateAssignments(
    newLlms, state.chatLLMId, state.fastLLMId) }))]: if the heuristic
    throws, so does the action, and the state stays as it was. *)
Definition setWithAssignments (E : StoreEnv) (newLlms : list DLLM)
    (withSources : list DModelsService) (state : LlmsStore)
  : AixClient.Completion LlmsStore :=
  match llmsHeuristicUpdateAssignments E newLlms (chatLLMId state) (fastLLMId state) with
  | AixClient.Returns update =>
      AixClient.Returns
        (setLlmsAndAssignments newLlms update
           {| llms := llms state; sources := withSources;
              confServiceId := confServiceId state;
              chatLLMId := chatLLMId state; fastLLMId := fastLLMId state |})
  | AixClient.Throws t => AixClient.Throws t
  end.

(** ** Actions on the models *)

(** [llms.find(m => m.id === id)] *)
Definition findById (id : string) (llms : list DLLM) : option DLLM :=
  List.find (fun m => String.eqb (idOf m) id) llms.

(** Lines 75-83: an incoming model takes over the user edits of the model
    it replaces. *)
Definition keepEditsOf (state : LlmsStore) (llm : DLLM) : DLLM :=
  match findById (idOf llm) (llms state) with
  | None => llm
  | Some existing =>
      let llm1 :=
        match userParametersOf existing with
        | Some userParameters => withUserParameters (Some userParameters) llm
        | None => llm
        end in
      {| core := core llm1;
         userLabel := match userLabel existing with
                      | Some l => Some l
                      | None => userLabel llm
                      end;
         userHidden := match userHidden existing with
                       | Some h => Some h
                       | None => userHidden llm
                       end |}
  end.

Definition setLLMs (E : StoreEnv) (llms_ : list DLLM) (serviceId : string)
    (deleteExpiredVendorLlms keepUserEdits : bool) (state : LlmsStore)
  : AixClient.Completion LlmsStore :=
  (* keep existing model customizations *)
  let llms_ := if keepUserEdits then map (keepEditsOf state) llms_ else llms_ in
  let otherLlms :=
    if deleteExpiredVendorLlms
    then List.filter (fun llm => negb (String.eqb (sIdOf llm) serviceId)) (llms state)
    else llms state in
  (* replace existing llms with the same id *)
  let newLlms :=
    (llms_
     ++ List.filter (fun llm => negb (if findById (idOf llm) llms_ is Some _ then true else false))
          otherLlms)%list in
  setWithAssignments E newLlms (sources state) state.

Definition removeLLM (E : StoreEnv) (id : string) (state : LlmsStore)
  : AixClient.Completion LlmsStore :=
  let newLlms := List.filter (fun llm => negb (String.eqb (idOf llm) id)) (llms state) in
  setWithAssignments E newLlms (sources state) state.

(** [set(({ llms }) => ({ llms: llms.map(f) }))] *)
Definition mapLlms (f : DLLM -> DLLM) (state : LlmsStore) : LlmsStore :=
  {| llms := map f (llms state); sources := sources state;
     confServiceId := confServiceId state;
     chatLLMId := chatLLMId state; fastLLMId := fastLLMId state |}.

Definition updateLLMUserParameters (id : string)
    (partialUserParameters : DModelParameterValues) (state : LlmsStore) : LlmsStore :=
  mapLlms (fun llm =>
    if String.eqb (idOf llm) id
    then withUserParameters
           (Some (spread (default ∅ (userParametersOf llm)) (Some partialUserParameters))) llm
    else llm) state.

Definition deleteLLMUserParameter (id parameterId : string) (state : LlmsStore)
  : LlmsStore :=
  mapLlms (fun llm =>
    match userParametersOf llm with
    | Some userParameters =>
        if String.eqb (idOf llm) id
        then withUserParameters (Some (delete parameterId userParameters)) llm
        else llm
    | None => llm
    end) state.

(** ** Actions on the services *)

(** [`${serviceIdx}`]: a natural number in decimal. *)
Definition numberToString (n : nat) : string :=
  DecimalString.NilEmpty.string_of_uint (Nat.to_uint n).

(** [existingServices.find(s => s.id === serviceId)] *)
Definition findService (serviceId : string) (services : list DModelsService)
  : option DModelsService :=
  List.find (fun s => String.eqb (svc_id s) serviceId) services.

(** The [while] loop of [_locallyUniqueServiceId]; [fuel] bounds the
    iterations the model follows. *)
Fixpoint uniqueServiceIdLoop (fuel : nat) (vendorId : string)
    (existingServices : list DModelsService) (serviceId : string) (serviceIdx : nat)
  : option string :=
  match fuel with
  | O => None
  | S fuel' =>
      match findService serviceId existingServices with
      | Some _ =>
          let serviceIdx := S serviceIdx in
          uniqueServiceIdLoop fuel' vendorId existingServices
            (vendorId ++ "-" ++ numberToString serviceIdx) serviceIdx
      | None => Some serviceId
      end
  end.

(** One more test than there are services always finds a free id (see
    [locallyUniqueServiceId_fresh]). *)
Definition _locallyUniqueServiceId (vendorId : string)
    (existingServices : list DModelsService) : option string :=
  uniqueServiceIdLoop (S (List.length existingServices)) vendorId existingServices vendorId 0.

(** [/ #\d+$/] from the position it is tried at: a blank, a hash and
    digits up to the end of the string. *)
Definition numberSuffix : Re :=
  ReCat (ReChr (Ascii.eqb " ")) (ReCat (ReChr (Ascii.eqb "#")) (plus digit)).

(** [label.replace(/ #\d+$/, '')]: the match starts at the first position
    from which the rest of the string is a number suffix. *)
Fixpoint replaceNumberSuffix (label : string) : string :=
  if matchesAll numberSuffix label then ""
  else match label with
       | EmptyString => EmptyString
       | String c rest => String c (replaceNumberSuffix rest)
       end.

(** The [map] of [_relabelServicesFromSameVendor]; [n] is the counter the
    callback increments. *)
Fixpoint relabelFrom (vendorId : string) (n : nat) (services : list DModelsService)
  : list DModelsService :=
  match services with
  | [] => []
  | s :: rest =>
      if negb (String.eqb (svc_vId s) vendorId) then s :: relabelFrom vendorId n rest
      else
        let n := S n in
        {| svc_id := svc_id s;
           svc_label := replaceNumberSuffix (svc_label s)
                        ++ (if (1 <? n)%nat then " #" ++ numberToString n else "");
           svc_vId := svc_vId s;
           setup := setup s |}
        :: relabelFrom vendorId n rest
  end.

Definition _relabelServicesFromSameVendor (vendorId : string)
    (services : list DModelsService) : list DModelsService :=
  relabelFrom vendorId 0 services.

(** [createModelsService(vendor)]: the new state and the service returned
    ([None] while the search for an id is still running). *)
Definition createModelsService (vendor : IModelVendor) (state : LlmsStore)
  : option (LlmsStore * DModelsService) :=
  match _locallyUniqueServiceId (v_id vendor) (sources state) with
  | None => None
  | Some id =>
      (* create the service *)
      let newService :=
        {| svc_id := id; svc_label := v_name vendor; svc_vId := v_id vendor;
           setup := default ∅ (initializeSetup vendor) |} in
      let newServices :=
        _relabelServicesFromSameVendor (v_id vendor) (sources state ++ [newService])%list in
      Some ({| llms := llms state;
               sources := newServices;
               confServiceId := match confServiceId state with
                                | Some c => Some c
                                | None => Some (svc_id newService)
                                end;
               chatLLMId := chatLLMId state;
               fastLLMId := fastLLMId state |},
            List.last newServices newService)
  end.

Definition removeService (E : StoreEnv) (id : string) (state : LlmsStore)
  : AixClient.Completion LlmsStore :=
  let llms_ := List.filter (fun llm => negb (String.eqb (sIdOf llm) id)) (llms state) in
  setWithAssignments E llms_
    (List.filter (fun s => negb (String.eqb (svc_id s) id)) (sources state)) state.

(** [set(state => ({ sources: state.sources.map(f) }))] *)
Definition mapSources (f : DModelsService -> DModelsService) (state : LlmsStore)
  : LlmsStore :=
  {| llms := llms state; sources := map f (sources state);
     confServiceId := confServiceId state;
     chatLLMId := chatLLMId state; fastLLMId := fastLLMId state |}.

(** [{ ...s, setup: { ...s.setup, ...partialSettings } }] *)
Definition withSettings (partialSettings : gmap string JsVal) (s : DModelsService)
  : DModelsService :=
  {| svc_id := svc_id s; svc_label := svc_label s; svc_vId := svc_vId s;
     setup := partialSettings ∪ setup s |}.

Definition updateServiceSettings (id : string) (partialSettings : gmap string JsVal)
    (state : LlmsStore) : LlmsStore :=
  mapSources (fun s => if String.eqb (svc_id s) id then withSettings partialSettings s else s)
    state.

Definition setConfServiceId (id : option string) (state : LlmsStore) : LlmsStore :=
  {| llms := llms state; sources := sources state; confServiceId := id;
     chatLLMId := chatLLMId state; fastLLMId := fastLLMId state |}.

Definition setOpenRouterKey (key : string) (state : LlmsStore) : LlmsStore :=
  match List.find (fun s => String.eqb (svc_vId s) "openrouter") (sources state) with
  | None => state
  | Some firstOpenRouterService =>
      mapSources (fun s =>
        if String.eqb (svc_id s) (svc_id firstOpenRouterService)
        then withSettings {[ "oaiKey" := VStr key ]} s
        else s) state
  end.

(** ** Post-loading *)

(** Lines 296-303: the model survives if its service exists and has a
    vendor; a model without a vendor takes the vendor of its service. *)
Definition rehydrateLLM (state : LlmsStore) (llm : DLLM) : option DLLM :=
  match findService (sIdOf llm) (sources state) with
  | None => None
  | Some service =>
      if negb (nonEmpty (svc_vId service)) then None
      else Some (if nonEmpty (vIdOf llm) then llm else withVId (svc_vId service) llm)
  end.

(** [if (!id)] on an assignment *)
Definition assigned (id : option string) : bool :=
  match id with Some s => nonEmpty s | None => false end.

(** The callback [onRehydrateStorage] returns, on a defined state. *)
Definition onRehydrateStorage (E : StoreEnv) (state : LlmsStore) : LlmsStore :=
  (* [GC] remove models that do not refer to a valid service *)
  let llms_ := omap (rehydrateLLM state) (llms state) in
  let state1 :=
    {| llms := llms_; sources := sources state; confServiceId := confServiceId state;
       chatLLMId := chatLLMId state; fastLLMId := fastLLMId state |} in
  (* Select the best LLMs automatically, if not set *)
  if negb (assigned (chatLLMId state1)) || negb (assigned (fastLLMId state1)) then
    match llmsHeuristicUpdateAssignments E llms_ (chatLLMId state1) (fastLLMId state1) with
    | AixClient.Returns update => setLlmsAndAssignments llms_ update state1
    | AixClient.Throws _ => state1   (* console.error *)
    end
  else state1.

(** ** Lookups *)

Definition findLLMOrThrow (state : LlmsStore) (llmId : string) : AixClient.Completion DLLM :=
  match findById llmId (llms state) with
  | Some llm => AixClient.Returns llm
  | None => AixClient.Throws
              (AixClient.newError ("Large Language Model " ++ llmId ++ " not found"))
  end.

Definition findModelsServiceOrNull (state : LlmsStore) (serviceId : string)
  : option DModelsService :=
  findService serviceId (sources state).

Definition getChatLLMId (state : LlmsStore) : option string := chatLLMId state.

(** ['chat' | 'fast'] *)
Inductive Preference : Type := chat | fast.

Definition preferenceName (preference : Preference) : string :=
  match preference with chat => "chat" | fast => "fast" end.

(** The [for] loop of [getLLMIdOrThrow]: the id it returns, if it
    returns from inside the loop. *)
Fixpoint getLLMIdLoop (E : StoreEnv) (state : LlmsStore) (order : list Preference)
    (supportsFunctionCallTool supportsImageInput : bool) : option string :=
  match order with
  | [] => None
  | preference :: rest =>
      let next := getLLMIdLoop E state rest supportsFunctionCallTool supportsImageInput in
      let llmId := match preference with
                   | chat => chatLLMId state
                   | fast => fastLLMId state
                   end in
      match llmId with
      | Some llmId =>
          (* we don't have one of those assigned, skip *)
          if negb (nonEmpty llmId) then next
          else
            match findLLMOrThrow state llmId with
            | AixClient.Returns llm =>
                if supportsFunctionCallTool
                   && negb (AixClient.ifIncludes (AixClient.interfaces (core llm))
                              (LLM_IF_OAI_Fn E))
                then next
                else if supportsImageInput
                        && negb (AixClient.ifIncludes (AixClient.interfaces (core llm))
                                   (LLM_IF_OAI_Vision E))
                then next
                else Some llmId
            | AixClient.Throws _ => next   (* Try next or fall back to the error *)
            end
      | None => next
      end
  end.

Definition getLLMIdOrThrow (E : StoreEnv) (state : LlmsStore) (order : list Preference)
    (supportsFunctionCallTool supportsImageInput : bool) (useCaseLabel : string)
  : AixClient.Completion string :=
  match getLLMIdLoop E state order supportsFunctionCallTool supportsImageInput with
  | Some llmId => AixClient.Returns llmId
  | None =>
      AixClient.Throws
        (AixClient.newError
           ("No model available for '" ++ useCaseLabel ++ "'. Pease select a "
            ++ join " or " (map preferenceName order)
            ++ " model that supports"
            ++ (if supportsFunctionCallTool then " function calls" else " text input")
            ++ (if supportsImageInput then " and image input" else "")
            ++ " in the Model Configuration."))
  end.

(** ** Notions used to state the properties *)

(** The value the client resolves for parameter [p] of model [id]: the
    overlay of the fallback, the initial and the user parameters. *)
Definition resolvedParameter (state : LlmsStore) (id p : string) : option JsVal :=
  match findById id (llms state) with
  | Some llm =>
      Some (prop (getAllModelParameterValues
                    (AixClient.initialParameters (core llm)) (userParametersOf llm)) p)
  | None => None
  end.

(** The same without the user layer. *)
Definition initialParameter (state : LlmsStore) (id p : string) : option JsVal :=
  match findById id (llms state) with
  | Some llm =>
      Some (prop (getAllModelParameterValues
                    (AixClient.initialParameters (core llm)) None) p)
  | None => None
  end.

(** The models are told apart by their ids. *)
Definition uniqueIds (llms : list DLLM) : Prop := List.NoDup (map idOf llms).

(** The services are told apart by their ids. *)
Definition uniqueServiceIds (services : list DModelsService) : Prop :=
  List.NoDup (map svc_id services).

(** How many of [services] belong to [vendorId]. *)
Definition countOfVendor (vendorId : string) (services : list DModelsService) : nat :=
  List.length (List.filter (fun s => String.eqb (svc_vId s) vendorId) services).

(** The ids [_locallyUniqueServiceId] tries, in order: the vendor id, then
    the vendor id with [-1], [-2], ... appended. *)
Definition candidateServiceId (vendorId : string) (serviceIdx : nat) : string :=
  match serviceIdx with
  | O => vendorId
  | S _ => vendorId ++ "-" ++ numberToString serviceIdx
  end.

(** The label of the [n]-th service of a vendor after relabelling. *)
Definition numberedLabel (label : string) (n : nat) : string :=
  replaceNumberSuffix label ++ (if (1 <? n)%nat then " #" ++ numberToString n else "").

(** [{ ...s, label }] *)
Definition withLabel (label : string) (s : DModelsService) : DModelsService :=
  {| svc_id := svc_id s; svc_label := label; svc_vId := svc_vId s; setup := setup s |}.

(** The model belongs to one of the services, and that service has a
    vendor. *)
Definition hasService (services : list DModelsService) (llm : DLLM) : Prop :=
  exists service,
    findService (sIdOf llm) services = Some service /\ svc_vId service <> "".

(** What [getLLMIdOrThrow] asks of the model assigned to a preference. *)
Definition qualifies (E : StoreEnv) (state : LlmsStore)
    (supportsFunctionCallTool supportsImageInput : bool) (llmId : string) : Prop :=
  llmId <> ""
  /\ exists llm,
       findById llmId (llms state) = Some llm
       /\ (supportsFunctionCallTool = true ->
           In (LLM_IF_OAI_Fn E) (AixClient.interfaces (core llm)))
       /\ (supportsImageInput = true ->
           In (LLM_IF_OAI_Vision E) (AixClient.interfaces (core llm))).

(** The id assigned to a preference. *)
Definition assignedTo (state : LlmsStore) (preference : Preference) : option string :=
  match preference with chat => chatLLMId state | fast => fastLLMId state end.

(** ** An example store *)

(** A heuristic that leaves the assignments alone. *)
Definition exampleEnv : StoreEnv :=
  {| llmsHeuristicUpdateAssignments := fun _ _ _ =>
       AixClient.Returns {| new_chatLLMId := None; new_fastLLMId := None |};
     LLM_IF_OAI_Fn := AixClient.LLM_IF_Other "oai-chat-fn";
     LLM_IF_OAI_Vision := AixClient.LLM_IF_Other "oai-chat-vision" |}.

Definition exampleModelOf (id sId : string)
    (interfaces : list AixClient.DLLMInterface)
    (userParameters : option DModelParameterValues) (userLabel : option string) : DLLM :=
  {| core := {| AixClient.l_id := id; AixClient.sId := sId; AixClient.vId := "openai";
                AixClient.interfaces := interfaces;
                AixClient.initialParameters :=
                  Some {[ "llmRef" := VStr id; "llmTemperature" := VNum (7 # 10) ]};
                AixClient.userParameters := userParameters;
                AixClient.pricing_chat := None |};
     userLabel := userLabel; userHidden := None |}.

Definition exampleService (id label : string) : DModelsService :=
  {| svc_id := id; svc_label := label; svc_vId := "openai"; setup := ∅ |}.

(** Two services of one vendor; two models of the first, one of which the
    user renamed and tuned, and one model of the second. *)
Definition exampleStore : LlmsStore :=
  {| llms := [ exampleModelOf "gpt-a" "openai" [AixClient.LLM_IF_Other "oai-chat-fn"]
                 (Some {[ "llmTemperature" := VNum (9 # 10) ]}) (Some "My model");
               exampleModelOf "gpt-b" "openai" [] None None;
               exampleModelOf "gpt-c" "openai-1" [] None None ];
     sources := [ exampleService "openai" "OpenAI"; exampleService "openai-1" "OpenAI #2" ];
     confServiceId := Some "openai";
     chatLLMId := Some "gpt-b";
     fastLLMId := Some "gpt-a" |}.

(** A store with two OpenRouter services, after one of another vendor. *)
Definition exampleRouters : LlmsStore :=
  {| llms := [];
     sources := [ exampleService "openai" "OpenAI";
                  {| svc_id := "openrouter"; svc_label := "OpenRouter";
                     svc_vId := "openrouter";
                     setup := {[ "oaiHost" := VStr "https://openrouter.ai/api" ]} |};
                  {| svc_id := "openrouter-1"; svc_label := "OpenRouter #2";
                     svc_vId := "openrouter"; setup := ∅ |} ];
     confServiceId := None;
     chatLLMId := None;
     fastLLMId := None |}.

(** The vendor sends the first model again, and a new one. *)
Definition refreshedModels : list DLLM :=
  [ exampleModelOf "gpt-a" "openai" [] None None;
    exampleModelOf "gpt-d" "openai" [] None None ].

End StoreLlms.

(* ===================================================================== *)
(** * store-llms.ts: migrations of the persisted state *)
(* ===================================================================== *)

Module StoreMigration.
Import Js LlmsParameters.

(** [llmV3.options], as the port tests it. *)
Inductive V3Options : Type :=
| NoOptions                             (* no ['options'] key *)
| OptionsNotAnObject                    (* [typeof options !== 'object'] *)
| OptionsNull                           (* [null], whose [typeof] is ['object'] *)
| OptionsObject (o : gmap string JsVal).

(** An optional property that holds an object: no such key, a key that
    holds [null] or [undefined], or the object. *)
Inductive ObjectProperty : Type :=
| KeyMissing
| KeyFalsy
| KeyObject (o : DModelParameterValues).

(** A persisted model, as the migrations read and write it:
    [maxOutputTokens] is [None] when [undefined], [Some None] when [null];
    [contextTokens] is a number or [null]; [tags] is whether there is
    such a key; [pricing] stands for what [portModelPricingV2toV3] works
    on.  Numbers are finite, as in the rest of the development, and the
    properties have the types of [DLLM] when they are truthy. *)
Record PersistedLLM {Pricing : Type} : Type := {
  maxOutputTokens : option (option Q);
  contextTokens : option Q;
  tags : bool;
  interfaces : list string;
  pricing : Pricing;
  initialParameters : ObjectProperty;
  userParameters : ObjectProperty;
  options : V3Options;
}.
Arguments PersistedLLM : clear implicits.

Section Migrations.
Context {Pricing : Type}.

(** [typeof v === 'number'] *)
Definition numberOf (v : option JsVal) : option Q :=
  match v with Some (VNum q) => Some q | _ => None end.

(** [Math.max(0, Math.min(1, t))] *)
Definition clampTemperature (t : Q) : Q := Qmax 0 (Qmin 1 t).

(** Lines 385-390: what the port takes over from the options. *)
Definition parametersOfOptions (o : gmap string JsVal) : DModelParameterValues :=
  let p0 : DModelParameterValues := ∅ in
  let p1 := match o !! "llmRef" with
            | Some llmRef => <["llmRef" := llmRef]> p0
            | None => p0
            end in
  let p2 := match numberOf (o !! "llmTemperature") with
            | Some t => <["llmTemperature" := VNum (clampTemperature t)]> p1
            | None => p1
            end in
  match numberOf (o !! "llmResponseTokens") with
  | Some n => <["llmResponseTokens" := VNum n]> p2
  | None => p2
  end.

(** [_port_V3Options_to_V4Parameters_inline(llm)]: the model is updated
    in place, so the updated model is returned also when the call throws
    (the [TypeError] of ['llmRef' in null], whose message is the
    engine's). *)
Definition _port_V3Options_to_V4Parameters_inline (typeErrorMessage : string)
    (llm : PersistedLLM Pricing) : PersistedLLM Pricing * option AixClient.Thrown :=
  match initialParameters llm with
  | KeyFalsy | KeyObject _ => (llm, None)   (* skip if already migrated *)
  | KeyMissing =>
      (* initialize initialParameters and userParameters if they don't exist *)
      let userParameters :=
        match userParameters llm with
        | KeyObject u => KeyObject u
        | KeyMissing | KeyFalsy => KeyObject ∅
        end in
      let with_ (initialParameters : DModelParameterValues) (options : V3Options) :=
        {| maxOutputTokens := maxOutputTokens llm; contextTokens := contextTokens llm;
           tags := tags llm; interfaces := interfaces llm; pricing := pricing llm;
           initialParameters := KeyObject initialParameters;
           userParameters := userParameters;
           options := options |} in
      (* migrate options to initialParameters/userParameters *)
      match options llm with
      | NoOptions => (with_ ∅ NoOptions, None)
      | OptionsNotAnObject => (with_ ∅ OptionsNotAnObject, None)
      | OptionsNull =>
          (with_ ∅ OptionsNull,
           Some (AixClient.ThrownError
                   {| AixClient.name := "TypeError";
                      AixClient.message := typeErrorMessage;
                      AixClient.causeIsAbortDOMException := false |}))
      | OptionsObject o => (with_ (parametersOfOptions o) NoOptions, None)
      end
  end.

(** [llms.forEach(f)] with an [f] that updates its argument in place and
    may throw: the models up to the one [f] throws on are updated, the
    others are left, and the exception goes on. *)
Fixpoint forEachInPlace {A : Type} (f : A -> A * option AixClient.Thrown) (l : list A)
  : list A * option AixClient.Thrown :=
  match l with
  | [] => ([], None)
  | x :: rest =>
      match f x with
      | (x', Some t) => (x' :: rest, Some t)
      | (x', None) =>
          let '(rest', thrown) := forEachInPlace f rest in (x' :: rest', thrown)
      end
  end.

(** The persisted state the migration works on. *)
Record PersistedState : Type := {
  llms : list (PersistedLLM Pricing);
  chatLLMId : option string;
  fastLLMId : option string;
}.

(** What [migrate] imports or inherits from the engine:
    [portModelPricingV2toV3], which updates a model in place and may
    throw, and the message of the engine's [TypeError]. *)
Record MigrationEnv : Type := {
  portModelPricingV2toV3 : PersistedLLM Pricing -> PersistedLLM Pricing * option AixClient.Thrown;
  typeErrorMessage : string;
}.

(** 0 -> 1: add 'maxOutputTokens' where missing *)
Definition addMaxOutputTokens (llm : PersistedLLM Pricing) : PersistedLLM Pricing :=
  match maxOutputTokens llm with
  | Some _ => llm
  | None =>
      {| maxOutputTokens :=
           Some (match contextTokens llm with
                 | Some n => if Qeq_bool n 0 then None
                             else Some (inject_Z (Retrier.mathRound (n / 2)))
                 | None => None
                 end);
         contextTokens := contextTokens llm; tags := tags llm;
         interfaces := interfaces llm; pricing := pricing llm;
         initialParameters := initialParameters llm;
         userParameters := userParameters llm; options := options llm |}
  end.

(** 1 -> 2: large changes *)
Definition resetInterfaces (llm : PersistedLLM Pricing) : PersistedLLM Pricing :=
  {| maxOutputTokens := maxOutputTokens llm; contextTokens := contextTokens llm;
     tags := false; interfaces := ["oai-chat"]; pricing := pricing llm;
     initialParameters := initialParameters llm;
     userParameters := userParameters llm; options := options llm |}.

Definition withLlms (llms : list (PersistedLLM Pricing)) (state : PersistedState)
  : PersistedState :=
  {| llms := llms; chatLLMId := chatLLMId state; fastLLMId := fastLLMId state |}.

(** [migrate(_state, fromVersion)]; a falsy [_state] is [None], and a
    state has its array of models. *)
Definition migrate (E : MigrationEnv) (_state : option PersistedState) (fromVersion : nat)
  : option PersistedState :=
  match _state with
  | None => None
  | Some state =>
      (* 0 -> 1 *)
      let state :=
        if (fromVersion <? 1)%nat then withLlms (map addMaxOutputTokens (llms state)) state
        else state in
      (* 1 -> 2 *)
      let state :=
        if (fromVersion <? 2)%nat
        then {| llms := map resetInterfaces (llms state);
                chatLLMId := None; fastLLMId := None |}
        else state in
      (* 2 -> 3: if there's any error, ignore *)
      let state :=
        if (fromVersion <? 3)%nat
        then withLlms (fst (forEachInPlace (portModelPricingV2toV3 E) (llms state))) state
        else state in
      (* 3 -> 4: if there's any error, ignore *)
      let state :=
        if (fromVersion <? 4)%nat
        then withLlms
               (fst (forEachInPlace
                       (_port_V3Options_to_V4Parameters_inline (typeErrorMessage E))
                       (llms state))) state
        else state in
      Some state
  end.

End Migrations.

Arguments PersistedState : clear implicits.
Arguments MigrationEnv : clear implicits.

(** ** Notions used to state the properties *)

(** The model is in the V4 format: both parameter objects exist and the
    V3 options are gone. *)
Definition ported {Pricing : Type} (llm : PersistedLLM Pricing) : Prop :=
  (exists i, initialParameters llm = KeyObject i)
  /\ (exists u, userParameters llm = KeyObject u)
  /\ options llm = NoOptions.

(** A V3 model: a temperature out of range and an option that V4 does
    not know. *)
Definition exampleV3Options : gmap string JsVal :=
  {[ "llmRef" := VStr "gpt-4"; "llmTemperature" := VNum (3 # 2);
     "llmResponseTokens" := VNum 1024; "other" := VBool true ]}.

Definition exampleWithOptions (options : V3Options) : PersistedLLM unit :=
  {| maxOutputTokens := None; contextTokens := Some 8191%Q; tags := true;
     interfaces := ["chat"]; pricing := tt;
     initialParameters := KeyMissing; userParameters := KeyMissing;
     options := options |}.

Definition exampleV3 : PersistedLLM unit :=
  exampleWithOptions (OptionsObject exampleV3Options).

Definition exampleMigrationEnv : MigrationEnv unit :=
  {| portModelPricingV2toV3 := fun llm => (llm, None);
     typeErrorMessage := "Cannot use 'in' operator to search for 'llmRef' in null" |}.

End StoreMigration.

(* ===================================================================== *)
(** * aix.client.ts: generation from a conversation *)
(* ===================================================================== *)

Module AixConversation.
Import Js LlmsParameters AixClient.

(** [StreamMessageStatus.outcome] *)
Inductive Outcome : Type := success | aborted | errored.

(** [StreamMessageStatus]; an absent [errorMessage] is [None]. *)
Record StreamMessageStatus : Type := {
  outcome : Outcome;
  lastDMessage : AixChatGenerateContent_DMessage;
  errorMessage : option string;
}.

(** How line 193 sees a caught value that is not an [Error]: a string; or
    [null] or [undefined], off which [message] cannot be read; or anything
    else, with its [message] if that is a string and [""] if it is not. *)
Inductive CaughtValue : Type :=
| CaughtString (s : string)
| CaughtNullish
| CaughtObject (message : string).

(** What the function awaits or reads besides the Tier 1 call: the two
    request builders of [aix.client.chatGenerateRequest], given by how
    their promises settle; what a caught value that is not an [Error] is,
    by its description; and the message of the engine's [TypeError]. *)
Record ConversationEnv : Type := {
  aixCGR_SystemMessage_FromDMessageOrThrow : Completion (option string);
  aixCGR_ChatSequence_FromDMessagesOrThrow : Completion (list (string * string));
  caughtValue : string -> CaughtValue;
  typeErrorMessage : string;
}.

(** [lastDMessage = update], for every update handed to the callback: the
    message last handed over, or the initial one.  The update is the
    object Tier 1 works on, and Tier 1 throws only where it has just
    handed that object over (the two notifications, the rate-limit hook),
    so what the object holds when the exception is caught is what the last
    notification carried. *)
Definition lastUpdate (initial : AixChatGenerateContent_DMessage) (evs : list Event)
  : AixChatGenerateContent_DMessage :=
  fold_left (fun last ev => match ev with
                            | EvStreamingUpdate update _ => update
                            | _ => last
                            end) evs initial.

(** Line 193: [error.message || (typeof error === 'string' ? error :
    'Chat stopped.')] *)
Definition errorMessageOf (C : ConversationEnv) (error : Thrown) : Completion string :=
  match error with
  | ThrownError e =>
      Returns (if nonEmpty (message e) then message e else "Chat stopped.")
  | ThrownOther description =>
      match caughtValue C description with
      | CaughtString s => Returns s
      | CaughtNullish =>
          Throws (ThrownError {| name := "TypeError"; message := typeErrorMessage C;
                                 causeIsAbortDOMException := false |})
      | CaughtObject m => Returns (if nonEmpty m then m else "Chat stopped.")
      end
  end.

(** Lines 194-199 *)
Definition withIssue (errorMessage : string) (lastDMessage : AixChatGenerateContent_DMessage)
  : AixChatGenerateContent_DMessage :=
  {| d_fragments := (d_fragments lastDMessage
                     ++ [createErrorContentFragment ("Issue: " ++ errorMessage)])%list;
     generator := {| mgt := mgt (generator lastDMessage);
                     g_name := g_name (generator lastDMessage);
                     aix := aix (generator lastDMessage);
                     metrics := metrics (generator lastDMessage);
                     tokenStopReason := Some "issue" |};
     pendingIncomplete := false |}.

(** Lines 205-209 *)
Definition statusOf (errorMessage : option string)
    (lastDMessage : AixChatGenerateContent_DMessage) : StreamMessageStatus :=
  let truthy := match errorMessage with Some m => nonEmpty m | None => false end in
  {| outcome :=
       if truthy then errored
       else match tokenStopReason (generator lastDMessage) with
            | Some reason => if String.eqb reason "client-abort" then aborted else success
            | None => success
            end;
     lastDMessage := lastDMessage;
     errorMessage := if truthy then errorMessage else None |}.

(** The [try] block, lines 165-184: the request is built and handed to
    Tier 1; its events, and how it completes. *)
Definition tryGenerate (W : World) (C : ConversationEnv) (llmId : string)
    (aixContextName : string) (clientOptions : AixClientOptions)
    (onStreamingUpdate : StreamingUpdateFn)
  : list Event * Completion AixChatGenerateContent_DMessage :=
  andThen (aixCGR_SystemMessage_FromDMessageOrThrow C) (fun systemMessage =>
  andThen (aixCGR_ChatSequence_FromDMessagesOrThrow C) (fun chatSequence =>
    aixChatGenerateContent_DMessage W llmId
      {| systemMessage := systemMessage; chatSequence := chatSequence |}
      aixContextName true clientOptions (Some onStreamingUpdate))).

(** The initial [lastDMessage], lines 156-163. *)
Definition initialDMessage (llmId : string) : AixChatGenerateContent_DMessage :=
  {| d_fragments := [];
     generator := {| mgt := "named"; g_name := llmId; aix := None;
                     metrics := None; tokenStopReason := None |};
     pendingIncomplete := true |}.

Definition aixChatGenerateContent_DMessage_FromConversation (W : World)
    (C : ConversationEnv)
    (llmId : string)
    (aixContextName : string)
    (clientOptions : AixClientOptions)
    (onStreamingUpdate : StreamingUpdateFn)
  : list Event * Completion StreamMessageStatus :=
  let initial := initialDMessage llmId in
  (* try *)
  let '(evs, completion) :=
    tryGenerate W C llmId aixContextName clientOptions onStreamingUpdate in
  let lastDMessage := lastUpdate initial evs in
  match completion with
  | Returns _ => (evs, Returns (statusOf None lastDMessage))
  | Throws error =>
      (* catch *)
      match errorMessageOf C error with
      | Returns errorMessage =>
          (evs, Returns (statusOf (Some errorMessage) (withIssue errorMessage lastDMessage)))
      | Throws typeError => (evs, Throws typeError)
      end
  end.

(** ** Notions used to state the properties *)

(** [onTextStreamUpdate(_, true, _)] *)
Definition isDoneTextUpdate (ev : Event) : bool :=
  match ev with EvTextStreamUpdate _ true _ => true | _ => false end.

Definition isTextUpdate (ev : Event) : bool :=
  match ev with EvTextStreamUpdate _ _ _ => true | _ => false end.

(** The request builders of the examples succeed. *)
Definition exampleConversation : ConversationEnv :=
  {| aixCGR_SystemMessage_FromDMessageOrThrow := Returns None;
     aixCGR_ChatSequence_FromDMessagesOrThrow := Returns [("user", "Hi")];
     caughtValue := fun s => CaughtString s;
     typeErrorMessage := "Cannot read properties of null (reading 'message')" |}.

End AixConversation.

(* ===================================================================== *)
(** * Properties of strings and regular expressions *)
(* ===================================================================== *)

Section StringFacts.

Lemma append_empty_r (s : string) : s ++ "" = s.
Proof.
  induction s as [| c s IH]; [reflexivity |].
  change (String c (s ++ "") = String c s). now rewrite IH.
Qed.

Lemma append_assoc (s1 s2 s3 : string) : (s1 ++ s2) ++ s3 = s1 ++ (s2 ++ s3).
Proof.
  induction s1 as [| c s1 IH]; [reflexivity |].
  change (String c ((s1 ++ s2) ++ s3) = String c (s1 ++ (s2 ++ s3))). now rewrite IH.
Qed.

Lemma append_cons (c : ascii) (s t : string) : String c s ++ t = String c (s ++ t).
Proof. reflexivity. Qed.

Lemma append_eq_empty (s1 s2 : string) : s1 ++ s2 = "" -> s1 = "" /\ s2 = "".
Proof. destruct s1; [auto | discriminate]. Qed.

(** Splitting a non-empty concatenation at its first character. *)
Lemma append_eq_cons (s1 s2 : string) (c : ascii) (s : string) :
  s1 ++ s2 = String c s ->
  (s1 = "" /\ s2 = String c s) \/ (exists s1', s1 = String c s1' /\ s = s1' ++ s2).
Proof.
  destruct s1 as [| c1 s1]; [auto |].
  rewrite append_cons. intros [= -> <-]. right. eauto.
Qed.

Lemma concat_empty_cons (x : string) (xs : list string) :
  String.concat "" (x :: xs) = x ++ String.concat "" xs.
Proof.
  destruct xs as [| y ys]; [symmetry; apply append_empty_r | reflexivity].
Qed.

End StringFacts.

Section RegExpFacts.
Import Js.

Lemma Matches_none_inv (s : string) : Matches ReNone s -> False.
Proof. inversion 1. Qed.

Lemma Matches_eps_inv (s : string) : Matches ReEps s -> s = "".
Proof. now inversion 1. Qed.

Lemma Matches_chr_inv (p : ascii -> bool) (s : string) :
  Matches (ReChr p) s -> exists c, s = String c "" /\ p c = true.
Proof. inversion 1; subst; eauto. Qed.

Lemma Matches_cat_inv (r1 r2 : Re) (s : string) :
  Matches (ReCat r1 r2) s -> exists s1 s2, s = s1 ++ s2 /\ Matches r1 s1 /\ Matches r2 s2.
Proof. inversion 1; subst; eauto. Qed.

Lemma Matches_alt_inv (r1 r2 : Re) (s : string) :
  Matches (ReAlt r1 r2) s -> Matches r1 s \/ Matches r2 s.
Proof. inversion 1; subst; auto. Qed.

Lemma nullable_spec (r : Re) : nullable r = true <-> Matches r "".
Proof.
  induction r as [| | p | r1 IH1 r2 IH2 | r1 IH1 r2 IH2 | r IH]; cbn [nullable].
  - split; [discriminate | intros H; destruct (Matches_none_inv _ H)].
  - split; [constructor | reflexivity].
  - split; [discriminate |].
    intros H. destruct (Matches_chr_inv _ _ H) as (c & Heq & _). discriminate.
  - rewrite andb_true_iff, IH1, IH2. split.
    + intros [H1 H2]. exact (MatchCat _ _ "" "" H1 H2).
    + intros H. destruct (Matches_cat_inv _ _ _ H) as (s1 & s2 & Heq & H1 & H2).
      symmetry in Heq. destruct (append_eq_empty _ _ Heq) as [-> ->]. auto.
  - rewrite orb_true_iff, IH1, IH2. split.
    + intros [H | H]; [now apply MatchAltL | now apply MatchAltR].
    + apply Matches_alt_inv.
  - split; [constructor | reflexivity].
Qed.

(** A match of [r*] that starts with [c] starts with a match of [r] that
    starts with [c]. *)
Lemma star_cons (r : Re) (c : ascii) (s : string) :
  Matches (ReStar r) (String c s) ->
  exists s1 s2, s = s1 ++ s2 /\ Matches r (String c s1) /\ Matches (ReStar r) s2.
Proof.
  intros H. remember (ReStar r) as r' eqn:Hr. remember (String c s) as t eqn:Ht.
  revert s Ht.
  induction H as [| | | | | r0 | r0 t1 t2 H1 _ H2 IH2]; intros u Ht; try discriminate.
  injection Hr as ->.
  destruct (append_eq_cons _ _ _ _ Ht) as [[-> ->] | (t1' & -> & ->)].
  - apply IH2; reflexivity.
  - exists t1', t2. auto.
Qed.

Lemma deriv_spec (c : ascii) (r : Re) (s : string) :
  Matches (deriv c r) s <-> Matches r (String c s).
Proof.
  revert s. induction r as [| | p | r1 IH1 r2 IH2 | r1 IH1 r2 IH2 | r IH];
    intros s; cbn [deriv].
  - split; intros H; destruct (Matches_none_inv _ H).
  - split; intros H; [destruct (Matches_none_inv _ H) |].
    apply Matches_eps_inv in H. discriminate.
  - split.
    + destruct (p c) eqn:Hp; intros H; [| destruct (Matches_none_inv _ H)].
      apply Matches_eps_inv in H as ->. now constructor.
    + intros H. destruct (Matches_chr_inv _ _ H) as (c' & [= -> ->] & Hp).
      rewrite Hp. constructor.
  - assert (Hcat : Matches (ReCat (deriv c r1) r2) s ->
                   Matches (ReCat r1 r2) (String c s)).
    { intros H. destruct (Matches_cat_inv _ _ _ H) as (s1 & s2 & -> & H1 & H2).
      rewrite <- append_cons. constructor; [now apply IH1 | assumption]. }
    assert (Hinv : Matches (ReCat r1 r2) (String c s) ->
                   (Matches r1 "" /\ Matches r2 (String c s))
                   \/ Matches (ReCat (deriv c r1) r2) s).
    { intros H. destruct (Matches_cat_inv _ _ _ H) as (s1 & s2 & Heq & H1 & H2).
      symmetry in Heq.
      destruct (append_eq_cons _ _ _ _ Heq) as [[-> ->] | (s1' & -> & ->)].
      - left. auto.
      - right. constructor; [now apply IH1 | assumption]. }
    destruct (nullable r1) eqn:Hn; split.
    + intros H. destruct (Matches_alt_inv _ _ _ H) as [H1 | H2]; [now apply Hcat |].
      apply (MatchCat r1 r2 "" (String c s)); [now apply nullable_spec | now apply IH2].
    + intros H. destruct (Hinv H) as [[_ H2] | H1].
      * apply MatchAltR. now apply IH2.
      * now apply MatchAltL.
    + exact Hcat.
    + intros H. destruct (Hinv H) as [[H1 _] | H1]; [| exact H1].
      apply nullable_spec in H1. congruence.
  - split; intros H; destruct (Matches_alt_inv _ _ _ H);
      (apply MatchAltL; now apply IH1) || (apply MatchAltR; now apply IH2).
  - split.
    + intros H. destruct (Matches_cat_inv _ _ _ H) as (s1 & s2 & -> & H1 & H2).
      rewrite <- append_cons. constructor; [now apply IH | assumption].
    + intros H. destruct (star_cons _ _ _ H) as (s1 & s2 & -> & H1 & H2).
      constructor; [now apply IH | assumption].
Qed.

Lemma Matches_cat_congr (r1 r1' r2 r2' : Re) :
  (forall s, Matches r1' s <-> Matches r1 s) ->
  (forall s, Matches r2' s <-> Matches r2 s) ->
  forall s, Matches (ReCat r1' r2') s <-> Matches (ReCat r1 r2) s.
Proof.
  intros E1 E2 s. split; intros H;
    destruct (Matches_cat_inv _ _ _ H) as (s1 & s2 & -> & H1 & H2);
    constructor; (apply E1 || apply E2); assumption.
Qed.

Lemma Matches_alt_congr (r1 r1' r2 r2' : Re) :
  (forall s, Matches r1' s <-> Matches r1 s) ->
  (forall s, Matches r2' s <-> Matches r2 s) ->
  forall s, Matches (ReAlt r1' r2') s <-> Matches (ReAlt r1 r2) s.
Proof.
  intros E1 E2 s. split; intros H; destruct (Matches_alt_inv _ _ _ H);
    (apply MatchAltL; now apply E1) || (apply MatchAltR; now apply E2).
Qed.

Lemma Matches_cat_none_l (r : Re) (s : string) : Matches (ReCat ReNone r) s <-> Matches ReNone s.
Proof.
  split; intros H; [| destruct (Matches_none_inv _ H)].
  destruct (Matches_cat_inv _ _ _ H) as (s1 & s2 & _ & H1 & _).
  destruct (Matches_none_inv _ H1).
Qed.

Lemma Matches_cat_none_r (r : Re) (s : string) : Matches (ReCat r ReNone) s <-> Matches ReNone s.
Proof.
  split; intros H; [| destruct (Matches_none_inv _ H)].
  destruct (Matches_cat_inv _ _ _ H) as (s1 & s2 & _ & _ & H2).
  destruct (Matches_none_inv _ H2).
Qed.

Lemma Matches_cat_eps_l (r : Re) (s : string) : Matches (ReCat ReEps r) s <-> Matches r s.
Proof.
  split; intros H.
  - destruct (Matches_cat_inv _ _ _ H) as (s1 & s2 & -> & H1 & H2).
    apply Matches_eps_inv in H1 as ->. exact H2.
  - exact (MatchCat ReEps r "" s MatchEps H).
Qed.

Lemma Matches_alt_none_l (r : Re) (s : string) : Matches (ReAlt ReNone r) s <-> Matches r s.
Proof.
  split; intros H; [| now apply MatchAltR].
  destruct (Matches_alt_inv _ _ _ H) as [H1 | H2]; [destruct (Matches_none_inv _ H1) | exact H2].
Qed.

Lemma Matches_alt_none_r (r : Re) (s : string) : Matches (ReAlt r ReNone) s <-> Matches r s.
Proof.
  split; intros H; [| now apply MatchAltL].
  destruct (Matches_alt_inv _ _ _ H) as [H1 | H2]; [exact H1 | destruct (Matches_none_inv _ H2)].
Qed.

(** Pruning does not change what an expression denotes. *)
Lemma simp_spec (r : Re) (s : string) : Matches (simp r) s <-> Matches r s.
Proof.
  revert s. induction r as [| | p | r1 IH1 r2 IH2 | r1 IH1 r2 IH2 | r IH];
    intros s; cbn [simp]; try reflexivity.
  - rewrite <- (Matches_cat_congr r1 (simp r1) r2 (simp r2) IH1 IH2 s). clear IH1 IH2.
    destruct (simp r1) as [| | p1 | a1 b1 | a1 b1 | a1];
      destruct (simp r2) as [| | p2 | a2 b2 | a2 b2 | a2];
      try reflexivity;
      first [ symmetry; apply Matches_cat_none_l
            | symmetry; apply Matches_cat_none_r
            | symmetry; apply Matches_cat_eps_l ].
  - rewrite <- (Matches_alt_congr r1 (simp r1) r2 (simp r2) IH1 IH2 s). clear IH1 IH2.
    destruct (simp r1) as [| | p1 | a1 b1 | a1 b1 | a1];
      destruct (simp r2) as [| | p2 | a2 b2 | a2 b2 | a2];
      try reflexivity;
      first [ symmetry; apply Matches_alt_none_l
            | symmetry; apply Matches_alt_none_r ].
Qed.

Lemma matchesAll_spec (r : Re) (s : string) : matchesAll r s = true <-> Matches r s.
Proof.
  revert r. induction s as [| c s IH]; intros r; cbn [matchesAll].
  - apply nullable_spec.
  - rewrite IH, simp_spec. apply deriv_spec.
Qed.

Lemma matchesPrefix_spec (r : Re) (s : string) :
  matchesPrefix r s = true <-> exists s1 s2, s = s1 ++ s2 /\ Matches r s1.
Proof.
  revert r. induction s as [| c s IH]; intros r; cbn [matchesPrefix];
    rewrite orb_true_iff, nullable_spec.
  - split.
    + intros [H | H]; [| discriminate]. exists "", "". auto.
    + intros (s1 & s2 & Heq & H). left.
      symmetry in Heq. destruct (append_eq_empty _ _ Heq) as [-> _]. exact H.
  - rewrite IH. split.
    + intros [H | (s1 & s2 & -> & H)].
      * exists "", (String c s). auto.
      * exists (String c s1), s2. split; [reflexivity |].
        apply deriv_spec. now apply simp_spec.
    + intros (s1 & s2 & Heq & H). symmetry in Heq.
      destruct (append_eq_cons _ _ _ _ Heq) as [[-> _] | (s1' & -> & ->)].
      * now left.
      * right. exists s1', s2. split; [reflexivity |].
        apply simp_spec. now apply deriv_spec.
Qed.

(** [test] decides whether some substring is denoted by the expression. *)
Lemma test_spec (r : Re) (s : string) :
  test r s = true <-> exists s0 s1 s2, s = s0 ++ s1 ++ s2 /\ Matches r s1.
Proof.
  induction s as [| c s IH]; cbn [test]; rewrite orb_true_iff, matchesPrefix_spec.
  - split.
    + intros [(s1 & s2 & -> & H) | H]; [| discriminate]. exists "", s1, s2. auto.
    + intros (s0 & s1 & s2 & Heq & H). left. symmetry in Heq.
      destruct (append_eq_empty _ _ Heq) as [-> Heq'].
      exists s1, s2. auto.
  - rewrite IH. split.
    + intros [(s1 & s2 & -> & H) | (s0 & s1 & s2 & -> & H)].
      * exists "", s1, s2. auto.
      * exists (String c s0), s1, s2. auto.
    + intros (s0 & s1 & s2 & Heq & H).
      destruct s0 as [| c0 s0].
      * left. exists s1, s2. auto.
      * right. rewrite append_cons in Heq. injection Heq as -> ->.
        exists s0, s1, s2. auto.
Qed.

(** Likewise for [includes]. *)
Lemma startsWith_spec (needle hay : string) :
  startsWith needle hay = true <-> exists rest, hay = needle ++ rest.
Proof.
  revert hay. induction needle as [| a n IH]; intros hay; cbn [startsWith].
  - split; [intros _; exists hay; reflexivity | reflexivity].
  - destruct hay as [| b h].
    + split; [discriminate | intros (rest & Heq); discriminate].
    + rewrite andb_true_iff, IH. split.
      * intros [Hab (rest & ->)]. apply Ascii.eqb_eq in Hab as ->. exists rest. reflexivity.
      * intros (rest & Heq). rewrite append_cons in Heq. injection Heq as -> ->.
        split; [apply Ascii.eqb_refl | eauto].
Qed.

Lemma includes_spec (needle hay : string) :
  includes needle hay = true <-> exists pre post, hay = pre ++ needle ++ post.
Proof.
  induction hay as [| c h IH];
    (* [includes] is a fixpoint on [hay]: unfold one step *)
    change (includes needle ?h) with
      (startsWith needle h || match h with "" => false | String _ h' => includes needle h' end);
    cbn [includes]; rewrite orb_true_iff, startsWith_spec.
  - split.
    + intros [(rest & ->) | H]; [| discriminate]. exists "", rest. reflexivity.
    + intros (pre & post & Heq). left. symmetry in Heq.
      destruct (append_eq_empty _ _ Heq) as [-> Heq']. exists post. now rewrite Heq'.
  - rewrite IH. split.
    + intros [(rest & ->) | (pre & post & ->)].
      * exists "", rest. reflexivity.
      * exists (String c pre), post. reflexivity.
    + intros (pre & post & Heq). destruct pre as [| c0 pre].
      * left. exists post. exact Heq.
      * right. rewrite append_cons in Heq. injection Heq as -> ->. eauto.
Qed.

(** A literal under the [i] flag denotes the strings equal to it up to
    ASCII letter case. *)
Lemma Matches_litI (s m : string) : Matches (litI s) m <-> toLower m = toLower s.
Proof.
  revert m. induction s as [| c s IH]; intros m; cbn [litI toLower].
  - split.
    + intros H. apply Matches_eps_inv in H as ->. reflexivity.
    + destruct m; [constructor | discriminate].
  - split.
    + intros H. destruct (Matches_cat_inv _ _ _ H) as (s1 & s2 & -> & H1 & H2).
      destruct (Matches_chr_inv _ _ H1) as (x & -> & Hx).
      apply Ascii.eqb_eq in Hx. apply IH in H2.
      rewrite append_cons. cbn [toLower]. change ("" ++ s2) with s2. congruence.
    + destruct m as [| x m]; [discriminate |]. cbn [toLower]. intros [= Hx Hm].
      change (String x m) with (String x "" ++ m).
      constructor; [| now apply IH].
      constructor. rewrite Hx. apply Ascii.eqb_refl.
Qed.

Lemma test_litI (s m : string) :
  test (litI s) m = true <-> containsIgnoringCase s m.
Proof.
  rewrite test_spec. unfold containsIgnoringCase.
  split; intros (pre & mid & post & Heq & H); exists pre, mid, post;
    (split; [exact Heq | now apply Matches_litI]).
Qed.

Lemma Matches_star_digit (d : string) : Matches (ReStar digit) d <-> allDigits d = true.
Proof.
  induction d as [| c d IH]; cbn [allDigits].
  - split; [reflexivity | constructor].
  - rewrite andb_true_iff, <- IH. split.
    + intros H. destruct (star_cons _ _ _ H) as (s1 & s2 & -> & H1 & H2).
      destruct (Matches_chr_inv _ _ H1) as (x & [= -> ->] & Hx). auto.
    + intros [Hc Hd]. change (String c d) with (String c "" ++ d).
      constructor; [now constructor | exact Hd].
Qed.

(** [\d+] denotes the non-empty digit strings. *)
Lemma Matches_plus_digit (d : string) :
  Matches (plus digit) d <-> d <> "" /\ allDigits d = true.
Proof.
  unfold plus. split.
  - intros H. destruct (Matches_cat_inv _ _ _ H) as (s1 & s2 & -> & H1 & H2).
    destruct (Matches_chr_inv _ _ H1) as (x & -> & Hx).
    rewrite append_cons. change ("" ++ s2) with s2.
    split; [discriminate |]. cbn [allDigits]. rewrite Hx. now apply Matches_star_digit.
  - intros [Hne Hd]. destruct d as [| c d]; [contradiction |].
    cbn [allDigits] in Hd. apply andb_true_iff in Hd as [Hc Hd].
    change (String c d) with (String c "" ++ d).
    constructor; [now constructor | now apply Matches_star_digit].
Qed.

End RegExpFacts.

(* ===================================================================== *)
(** * Properties of the retry engine *)
(* ===================================================================== *)

Section RetrierProperties.
Import Js Retrier.

(** ** The classifier *)

Lemma selectRetryProfile_range (error : ErrorValue) (rp : RetryProfile) :
  selectRetryProfile error = Some rp -> rp = network \/ rp = server.
Proof.
  unfold selectRetryProfile.
  destruct error as [d | category [status |] msg]; try discriminate.
  - destruct (String.eqb category "connection"); [intros [= <-]; now left |].
    destruct (String.eqb category "http" && negb (status =? 0)%Z); [| discriminate].
    destruct (status =? 429)%Z.
    + destruct (denyMatch msg); [discriminate | intros [= <-]; now right].
    + destruct (existsb _ _); [intros [= <-]; now right | discriminate].
  - destruct (String.eqb category "connection"); [intros [= <-]; now left | discriminate].
Qed.

Lemma maxAttempts_range (error : ErrorValue) (rp : RetryProfile) :
  selectRetryProfile error = Some rp -> (3 <= maxAttempts rp <= 4)%nat.
Proof.
  intros H. destruct (selectRetryProfile_range _ _ H) as [-> | ->]; simpl; lia.
Qed.

(** The denylist is exactly the four tests, tried in order. *)
Lemma denyMatch_None (message : string) :
  denyMatch message = None <->
    test (ReAlt (litI "quota") (litI "billing")) message = false
    /\ test (ReAlt (litI "request too large")
                   (ReCat (litI "limit ")
                     (ReCat (plus digit) (ReCat (litI ", requested ") (plus digit)))))
            message = false
    /\ includes "rate limit of 0 input tokens per minute" message = false
    /\ includes "Insufficient balance or no resource package" message = false.
Proof.
  unfold denyMatch, _429_RETRY_DENYLIST. cbn [List.find denyEntryMatches fst].
  repeat match goal with |- context [if ?b then _ else _] => destruct b end;
    split; intros H; try discriminate; try (repeat split; reflexivity);
    destruct H as (? & ? & ? & ?); discriminate.
Qed.

(** What the four tests of the denylist mean for the message: it contains
    "quota" or "billing" in any letter case; or "request too large", or
    "limit <digits>, requested <digits>", in any letter case; or one of the
    two fixed phrases, verbatim. *)
Lemma denyMatch_meaning (message : string) :
  denyMatch message <> None <->
    (containsIgnoringCase "quota" message \/ containsIgnoringCase "billing" message)
    \/ (containsIgnoringCase "request too large" message
        \/ exists pre a d1 b d2 post,
             message = pre ++ (a ++ d1 ++ b ++ d2) ++ post
             /\ toLower a = "limit " /\ (d1 <> "" /\ allDigits d1 = true)
             /\ toLower b = ", requested " /\ (d2 <> "" /\ allDigits d2 = true))
    \/ (exists pre post,
          message = pre ++ "rate limit of 0 input tokens per minute" ++ post)
    \/ (exists pre post,
          message = pre ++ "Insufficient balance or no resource package" ++ post).
Proof.
  rewrite <- !test_litI, <- !includes_spec.
  set (limitRe := ReCat (litI "limit ")
                    (ReCat (plus digit) (ReCat (litI ", requested ") (plus digit)))).
  assert (Hlimit : test limitRe message = true <->
            exists pre a d1 b d2 post,
              message = pre ++ (a ++ d1 ++ b ++ d2) ++ post
              /\ toLower a = "limit " /\ (d1 <> "" /\ allDigits d1 = true)
              /\ toLower b = ", requested " /\ (d2 <> "" /\ allDigits d2 = true)).
  { rewrite test_spec. unfold limitRe. split.
    - intros (pre & mid & post & -> & H).
      destruct (Matches_cat_inv _ _ _ H) as (a & r1 & -> & Ha & H1).
      destruct (Matches_cat_inv _ _ _ H1) as (d1 & r2 & -> & Hd1 & H2).
      destruct (Matches_cat_inv _ _ _ H2) as (b & d2 & -> & Hb & Hd2).
      exists pre, a, d1, b, d2, post.
      apply Matches_litI in Ha, Hb. apply Matches_plus_digit in Hd1, Hd2. auto.
    - intros (pre & a & d1 & b & d2 & post & -> & Ha & Hd1 & Hb & Hd2).
      exists pre, (a ++ d1 ++ b ++ d2), post. split; [reflexivity |].
      repeat constructor; solve [now apply Matches_litI | now apply Matches_plus_digit]. }
  rewrite <- Hlimit. clear Hlimit.
  assert (Halt : forall r1 r2,
             test (ReAlt r1 r2) message = true <->
             test r1 message = true \/ test r2 message = true).
  { intros r1 r2. rewrite !test_spec. split.
    - intros (pre & mid & post & Heq & H).
      destruct (Matches_alt_inv _ _ _ H); [left | right]; eauto.
    - intros [(pre & mid & post & Heq & H) | (pre & mid & post & Heq & H)];
        exists pre, mid, post; (split; [exact Heq |]);
        [now apply MatchAltL | now apply MatchAltR]. }
  rewrite <- !Halt. clear Halt. fold limitRe.
  pose proof (denyMatch_None message) as Hnone. fold limitRe in Hnone.
  destruct (test (ReAlt (litI "quota") (litI "billing")) message),
    (test (ReAlt (litI "request too large") limitRe) message),
    (includes "rate limit of 0 input tokens per minute" message),
    (includes "Insufficient balance or no resource package" message);
    (split;
     [ intros Hne;
       first [ now (exfalso; apply Hne; apply Hnone; repeat split) | auto 6 ]
     | intros H Hn; apply Hnone in Hn; destruct Hn as (? & ? & ? & ?);
       try discriminate; intuition discriminate ]).
Qed.

Lemma selectRetryProfile_429 (message : string) :
  selectRetryProfile (TRPCFetcherError "http" (Some 429%Z) message)
  = match denyMatch message with Some _ => None | None => Some server end.
Proof. reflexivity. Qed.

(** C3. [selectRetryProfile] is a function of the error value alone and
    classifies it as follows: connection-category errors get the network
    profile (500 ms base, 8000 ms cap, 25% jitter, 3 attempts); HTTP 502
    and 503 get the server profile (1000 ms base, 10000 ms cap, 50% jitter,
    4 attempts); an HTTP 429 whose message matches the denylist is not
    retryable, any other HTTP 429 gets the server profile; every other
    value, fetcher error or not, is not retryable.  A message matches the
    denylist when it mentions a quota or billing, a request too large (or
    "limit N, requested M"), in any letter case, or contains one of the two
    fixed phrases about a zero rate limit and an insufficient balance. *)
Theorem selectRetryProfile_classification :
  (forall status message,
      selectRetryProfile (TRPCFetcherError "connection" status message) = Some network)
  /\ (baseDelayMs network == 500 /\ maxDelayMs network == 8000
      /\ jitterFactor network == 25 # 100 /\ maxAttempts network = 3%nat)%Q
  /\ (forall status message,
        status = 502%Z \/ status = 503%Z ->
        selectRetryProfile (TRPCFetcherError "http" (Some status) message) = Some server)
  /\ (baseDelayMs server == 1000 /\ maxDelayMs server == 10000
      /\ jitterFactor server == 50 # 100 /\ maxAttempts server = 4%nat)%Q
  /\ (forall message,
        denyMatch message <> None ->
        selectRetryProfile (TRPCFetcherError "http" (Some 429%Z) message) = None)
  /\ (forall message,
        denyMatch message = None ->
        selectRetryProfile (TRPCFetcherError "http" (Some 429%Z) message) = Some server)
  /\ (forall error,
        (forall status message, error <> TRPCFetcherError "connection" status message) ->
        (forall status message,
            error = TRPCFetcherError "http" (Some status) message ->
            status <> 429%Z /\ status <> 502%Z /\ status <> 503%Z) ->
        selectRetryProfile error = None)
  /\ (forall message,
        denyMatch message <> None <->
          (containsIgnoringCase "quota" message \/ containsIgnoringCase "billing" message)
          \/ (containsIgnoringCase "request too large" message
              \/ exists pre a d1 b d2 post,
                   message = pre ++ (a ++ d1 ++ b ++ d2) ++ post
                   /\ toLower a = "limit " /\ (d1 <> "" /\ allDigits d1 = true)
                   /\ toLower b = ", requested " /\ (d2 <> "" /\ allDigits d2 = true))
          \/ (exists pre post,
                message = pre ++ "rate limit of 0 input tokens per minute" ++ post)
          \/ (exists pre post,
                message = pre ++ "Insufficient balance or no resource package" ++ post)).
Proof.
  split; [| split; [| split; [| split; [| split; [| split; [| split]]]]]];
    [ | | | | | | | exact denyMatch_meaning ];
    repeat split; try reflexivity.
  - intros status message [-> | ->]; reflexivity.
  - intros message H. rewrite selectRetryProfile_429.
    destruct (denyMatch message); congruence.
  - intros message H. rewrite selectRetryProfile_429. now rewrite H.
  - intros error Hconn Hhttp. unfold selectRetryProfile.
    destruct error as [d | category status message]; [reflexivity |].
    destruct (String.eqb_spec category "connection") as [-> | _].
    { now destruct (Hconn status message). }
    destruct status as [status |]; [| reflexivity].
    destruct (String.eqb_spec category "http") as [-> | _]; [| reflexivity].
    destruct (Hhttp status message eq_refl) as (H429 & H502 & H503).
    cbn [andb]. destruct (negb (status =? 0)%Z); [| reflexivity].
    destruct (Z.eqb_spec status 429); [contradiction |].
    cbn [existsb]. destruct (Z.eqb_spec status 503); [contradiction |].
    destruct (Z.eqb_spec status 502); [contradiction | reflexivity].
Qed.

(** Messages on and off the denylist. *)
Example selectRetryProfile_429_examples :
  selectRetryProfile
    (TRPCFetcherError "http" (Some 429%Z) "You exceeded your current QUOTA") = None
  /\ selectRetryProfile
       (TRPCFetcherError "http" (Some 429%Z)
          "Request too large for o3: Limit 30000, Requested 56108") = None
  /\ selectRetryProfile
       (TRPCFetcherError "http" (Some 429%Z) "xx limit 3, requested 5") = None
  /\ selectRetryProfile
       (TRPCFetcherError "http" (Some 429%Z)
          "rate limit of 0 input tokens per minute") = None
  /\ selectRetryProfile
       (TRPCFetcherError "http" (Some 429%Z)
          "Insufficient balance or no resource package") = None
  /\ selectRetryProfile
       (TRPCFetcherError "http" (Some 429%Z) "Rate limit reached, slow down") = Some server
  /\ selectRetryProfile
       (TRPCFetcherError "http" (Some 429%Z) "limit , requested 5") = Some server
  /\ selectRetryProfile (TRPCFetcherError "http" (Some 500%Z) "quota") = None
  /\ selectRetryProfile (OtherError "TypeError") = None.
Proof. repeat split; vm_compute; reflexivity. Qed.

End RetrierProperties.

(** ** The scheduler *)

Section SchedulerProperties.
Import Js Retrier.
Context {T : Type}.
Implicit Types (env : Env T) (r : Settled T) (evs : list Event).

(** One iteration that retries. *)
Lemma retryLoop_retry env fuel a error rp :
  operationFn env a = Rejected error ->
  abortedAtCatch env a = false ->
  selectRetryProfile error = Some rp ->
  (a < maxAttempts rp)%nat ->
  onRetryThrows env a = false ->
  abortedInDelay env a = false ->
  retryLoop env (S fuel) a
  = after [EvInvoke a;
           EvOnRetry {| attempt := S a; ra_maxAttempts := maxAttempts rp;
                        delayMs := backoffDelay rp a (mathRandom env a);
                        causeHttp := causeHttpOf error; causeConn := causeConnOf error |};
           EvDelay (backoffDelay rp a (mathRandom env a))]
          (retryLoop env fuel (S a)).
Proof.
  intros Hop Hab Hrp Hlt Hcb Hdl. unfold abortedInDelay in Hdl. rewrite Hcb in Hdl.
  cbn [negb andb] in Hdl. cbn [retryLoop]. rewrite Hop, Hab, Hrp, Hcb, Hdl.
  destruct (Nat.leb_spec (maxAttempts rp) a); [lia | reflexivity].
Qed.

(** One iteration that gives up because the attempts are used up. *)
Lemma retryLoop_exhausted env fuel a error rp :
  operationFn env a = Rejected error ->
  abortedAtCatch env a = false ->
  selectRetryProfile error = Some rp ->
  (maxAttempts rp <= a)%nat ->
  retryLoop env (S fuel) a = Some (Rejected error, [EvInvoke a]).
Proof.
  intros Hop Hab Hrp Hle. cbn [retryLoop]. rewrite Hop, Hab, Hrp.
  destruct (Nat.leb_spec (maxAttempts rp) a); [reflexivity | lia].
Qed.

(** The loop ends as soon as the fuel covers the attempts left. *)
Lemma retryLoop_settles env fuel a :
  (1 <= fuel)%nat -> (5 <= fuel + a)%nat ->
  exists run, retryLoop env fuel a = Some run.
Proof.
  revert a. induction fuel as [| fuel IH]; intros a Hf Hfa; [lia |].
  cbn [retryLoop].
  destruct (operationFn env a) as [v | error |]; [eauto | | eauto].
  destruct (abortedAtCatch env a); [eauto |].
  destruct (selectRetryProfile error) as [rp |] eqn:Hrp; [| eauto].
  destruct (Nat.leb_spec (maxAttempts rp) a); [eauto |].
  destruct (onRetryThrows env a); [eauto |].
  destruct (abortableDelay env a); [eauto |].
  pose proof (maxAttempts_range _ _ Hrp).
  destruct (IH (S a)) as [[s evs] ->]; [lia | lia |].
  cbn. eauto.
Qed.

(** Once the loop has ended, more iterations change nothing: the bound
    on the iterations does not show in the result. *)
Lemma retryLoop_fuel_irrelevant env fuel :
  forall a run (fuel' : nat),
    retryLoop env fuel a = Some run -> (fuel <= fuel')%nat ->
    retryLoop env fuel' a = Some run.
Proof.
  induction fuel as [| fuel IH]; intros a run fuel' Hrun Hle; [discriminate |].
  destruct fuel' as [| fuel']; [lia |].
  cbn [retryLoop] in Hrun |- *.
  destruct (operationFn env a) as [v | error |]; [exact Hrun | | exact Hrun].
  destruct (abortedAtCatch env a); [exact Hrun |].
  destruct (selectRetryProfile error) as [rp |]; [| exact Hrun].
  destruct (maxAttempts rp <=? a)%nat; [exact Hrun |].
  destruct (onRetryThrows env a); [exact Hrun |].
  destruct (abortableDelay env a); [exact Hrun |].
  destruct (retryLoop env fuel (S a)) as [run' |] eqn:Hnext; [| discriminate].
  rewrite (IH _ _ fuel' Hnext) by lia. exact Hrun.
Qed.

(** The loop of [createRetryablePromise] always ends: the promise
    settles, or it is left pending for good. *)
Lemma createRetryablePromise_settles env :
  exists r evs, createRetryablePromise env = Some (r, evs).
Proof.
  destruct (retryLoop_settles env loopBound 1) as [[r evs] H];
    [unfold loopBound; lia | unfold loopBound; lia |].
  exists r, evs. exact H.
Qed.

Lemma invocations_cons_invoke a evs :
  invocations (EvInvoke a :: evs) = S (invocations evs).
Proof. reflexivity. Qed.

(** When every attempt fails with an error of profile [P] and nobody
    aborts, the loop started at attempt [a] runs up to attempt
    [maxAttempts P]. *)
Lemma retryLoop_all_fail env (P : RetryProfile) :
  (forall n, exists error,
      operationFn env n = Rejected error /\ selectRetryProfile error = Some P) ->
  (forall n, abortedAtCatch env n = false /\ abortedInDelay env n = false) ->
  (forall n, onRetryThrows env n = false) ->
  forall k a fuel,
    (a + k = maxAttempts P)%nat -> (k < fuel)%nat ->
    exists error evs,
      retryLoop env fuel a = Some (Rejected error, evs)
      /\ operationFn env (maxAttempts P) = Rejected error
      /\ invocations evs = S k
      /\ retries evs = k.
Proof.
  intros Hfail Hquiet Hcb. induction k as [| k IH]; intros a fuel Ha Hfuel.
  - destruct fuel as [| fuel]; [lia |].
    destruct (Hfail a) as (error & Hop & Hrp). destruct (Hquiet a) as [Hab _].
    exists error, [EvInvoke a]. split; [| split; [| split]]; try reflexivity.
    + apply (retryLoop_exhausted _ _ _ _ P); auto. lia.
    + replace (maxAttempts P) with a by lia. exact Hop.
  - destruct fuel as [| fuel]; [lia |].
    destruct (Hfail a) as (error & Hop & Hrp). destruct (Hquiet a) as [Hab Hdl].
    destruct (IH (S a) fuel) as (last & evs & Hrun & Hlast & Hinv & Hret); [lia | lia |].
    rewrite (retryLoop_retry _ _ _ _ P Hop Hab Hrp) by (auto; lia).
    rewrite Hrun. cbn [after]. eexists _, _. split; [reflexivity |].
    split; [exact Hlast |]. split.
    + cbn [app]. rewrite invocations_cons_invoke.
      unfold invocations in *. cbn [List.filter isInvoke]. now rewrite Hinv.
    + unfold retries in *. cbn [app List.filter isOnRetry List.length]. now rewrite Hret.
Qed.

(** What the scheduler does for an operation that keeps failing, as long
    as the announcements return.  If every invocation of the operation
    fails with an error that the classifier maps to profile [P], the
    cancellation signal never fires, and no call of [onRetry] throws, the
    operation is invoked exactly [maxAttempts P] times, that is
    [maxAttempts P - 1] retries after the first attempt, and the promise
    then rejects with the error of the last attempt. *)
Lemma createRetryablePromise_exhausts_attempts env (P : RetryProfile) :
  (forall n, exists error,
      operationFn env n = Rejected error /\ selectRetryProfile error = Some P) ->
  (forall n, abortedAtCatch env n = false /\ abortedInDelay env n = false) ->
  (forall n, onRetryThrows env n = false) ->
  exists error evs,
    createRetryablePromise env = Some (Rejected error, evs)
    /\ operationFn env (maxAttempts P) = Rejected error
    /\ invocations evs = maxAttempts P
    /\ retries evs = (maxAttempts P - 1)%nat.
Proof.
  intros Hfail Hquiet Hcb.
  destruct (Hfail 1%nat) as (e1 & _ & Hrp1).
  pose proof (maxAttempts_range _ _ Hrp1) as HP.
  destruct (retryLoop_all_fail env P Hfail Hquiet Hcb (maxAttempts P - 1) 1 loopBound)
    as (error & evs & Hrun & Hlast & Hinv & Hret);
    [lia | unfold loopBound; lia |].
  exists error, evs. unfold createRetryablePromise. repeat split; auto. lia.
Qed.

(** What one run of the loop from attempt [a] looks like, whatever the
    environment: every invocation it makes is numbered at least [a], and an
    invocation that failed under a set signal, or whose backoff wait was
    interrupted, is the last one and its error is the rejection. *)
Lemma retryLoop_abort env fuel :
  forall a r evs n error,
    retryLoop env fuel a = Some (r, evs) ->
    In (EvInvoke n) evs ->
    (a <= n)%nat
    /\ (operationFn env n = Rejected error ->
        abortedAtCatch env n = true \/ abortedInDelay env n = true ->
        r = Rejected error
        /\ (forall m, In (EvInvoke m) evs -> (m <= n)%nat)
        /\ invocations evs = (S n - a)%nat).
Proof.
  induction fuel as [| fuel IH]; intros a r evs n error Hrun Hin; [discriminate |].
  cbn [retryLoop] in Hrun.
  (* an iteration that settles the promise at attempt [a] *)
  assert (Hstop : forall error',
             operationFn env a = Rejected error' ->
             (r, evs) = (Rejected error', [EvInvoke a]) ->
             (a <= n)%nat
             /\ (operationFn env n = Rejected error ->
                 abortedAtCatch env n = true \/ abortedInDelay env n = true ->
                 r = Rejected error
                 /\ (forall m, In (EvInvoke m) evs -> (m <= n)%nat)
                 /\ invocations evs = (S n - a)%nat)).
  { intros error' Hop [= -> ->]. destruct Hin as [[= <-] | []].
    split; [lia |]. intros Hop' _. rewrite Hop in Hop'. injection Hop' as ->.
    split; [reflexivity |]. split.
    - intros m [[= <-] | []]. lia.
    - cbn. lia. }
  destruct (operationFn env a) as [v | error' |] eqn:Hop.
  { injection Hrun as <- <-. destruct Hin as [[= <-] | []].
    split; [lia |]. intros Hop'. congruence. }
  2: { injection Hrun as <- <-. destruct Hin as [[= <-] | []].
       split; [lia |]. intros Hop'. congruence. }
  destruct (abortedAtCatch env a) eqn:Hab.
  { apply (Hstop error'); congruence. }
  destruct (selectRetryProfile error') as [rp |] eqn:Hrp.
  2: { apply (Hstop error'); congruence. }
  destruct (Nat.leb_spec (maxAttempts rp) a).
  { apply (Hstop error'); congruence. }
  destruct (onRetryThrows env a) eqn:Hcb.
  { (* the announcement throws: no wait, and the signal was not set *)
    injection Hrun as <- <-. destruct Hin as [[= <-] | [[=] | []]].
    split; [lia |]. intros _ [Hc | Hc]; [congruence |].
    unfold abortedInDelay in Hc. rewrite Hcb in Hc. discriminate. }
  assert (Hwait : abortedInDelay env a = abortableDelay env a)
    by (unfold abortedInDelay; now rewrite Hcb).
  rewrite <- Hwait in Hrun.
  destruct (abortedInDelay env a) eqn:Hdl.
  - (* the wait is interrupted *)
    injection Hrun as <- <-.
    destruct Hin as [[= <-] | [[=] | [[=] | []]]].
    split; [lia |]. intros Hop' _. rewrite Hop in Hop'. injection Hop' as ->.
    split; [reflexivity |]. split.
    + intros m [[= <-] | [[=] | [[=] | []]]]. lia.
    + cbn. lia.
  - (* the loop goes on *)
    destruct (retryLoop env fuel (S a)) as [[r' evs'] |] eqn:Hnext; [| discriminate].
    cbn [after] in Hrun. injection Hrun as <- <-.
    destruct Hin as [[= <-] | [[=] | [[=] | Hin]]].
    + split; [lia |]. intros _ [Hc | Hc]; congruence.
    + destruct (IH _ _ _ _ error Hnext Hin) as [Hle Hrest].
      split; [lia |]. intros Hop' Hsig.
      destruct (Hrest Hop' Hsig) as (Hr & Hmax & Hcount).
      split; [exact Hr |]. split.
      * intros m [[= <-] | [[=] | [[=] | Hm]]]; [lia | auto].
      * cbn [app]. rewrite invocations_cons_invoke.
        unfold invocations in *. cbn [List.filter isInvoke]. rewrite Hcount. lia.
Qed.

(** C4. If attempt [n] of a run fails while the cancellation signal is
    already set, or the signal fires during the backoff wait that follows
    it, the promise rejects with the very error of attempt [n] and the
    operation is not invoked again: [n] invocations were made in all. *)
Theorem createRetryablePromise_abort_rejects_with_cause env (n : nat) (error : ErrorValue) :
  In (EvInvoke n) (traceOf (createRetryablePromise env)) ->
  operationFn env n = Rejected error ->
  abortedAtCatch env n = true \/ abortedInDelay env n = true ->
  exists evs,
    createRetryablePromise env = Some (Rejected error, evs)
    /\ invocations evs = n
    /\ (forall m, In (EvInvoke m) evs -> (m <= n)%nat).
Proof.
  intros Hin Hop Hsig.
  destruct (createRetryablePromise env) as [[r evs] |] eqn:Hrun; [| destruct Hin].
  cbn [traceOf] in Hin. unfold createRetryablePromise in Hrun.
  destruct (retryLoop_abort _ _ _ _ _ _ error Hrun Hin) as [Hle Hrest].
  destruct (Hrest Hop Hsig) as (-> & Hmax & Hcount).
  exists evs. repeat split; auto. rewrite Hcount. lia.
Qed.

(** A 429 whose message mentions a quota, in any letter case, is not
    retried: one attempt, then the rejection. *)
Corollary quota_429_is_attempted_once env (message : string) :
  operationFn env 1 = Rejected (TRPCFetcherError "http" (Some 429%Z) message) ->
  containsIgnoringCase "quota" message ->
  createRetryablePromise env
  = Some (Rejected (TRPCFetcherError "http" (Some 429%Z) message), [EvInvoke 1]).
Proof.
  intros Hop Hquota.
  assert (Hrp : selectRetryProfile (TRPCFetcherError "http" (Some 429%Z) message) = None).
  { rewrite selectRetryProfile_429.
    assert (Hdeny : denyMatch message <> None) by (apply denyMatch_meaning; auto).
    now destruct (denyMatch message). }
  unfold createRetryablePromise, loopBound. cbn [retryLoop]. rewrite Hop, Hrp.
  now destruct (abortedAtCatch env 1).
Qed.

End SchedulerProperties.

(** ** The backoff delay *)

Section DelayProperties.
Import Js Retrier.
Local Open Scope Q_scope.

(** [Math.round] keeps a value between two integers between them. *)
Lemma mathRound_between (x : Q) (lo hi : Z) :
  inject_Z lo <= x -> x <= inject_Z hi -> (lo <= mathRound x <= hi)%Z.
Proof.
  intros Hlo Hhi. unfold mathRound. split.
  - rewrite <- (Qfloor_Z lo). apply Qfloor_resp_le.
    generalize dependent (inject_Z lo). intros q Hq. lra.
  - assert (H : (Qfloor (x + (1 # 2)) < hi + 1)%Z).
    { rewrite Zlt_Qlt. eapply Qle_lt_trans; [apply Qfloor_le |].
      rewrite inject_Z_plus. change (inject_Z 1) with 1.
      generalize dependent (inject_Z hi). intros q Hq. lra. }
    lia.
Qed.

(** One case of the delay: the value before rounding lies between the
    integers [lo] and [hi], which are the claimed bounds evaluated. *)
Ltac within_integers Hround x lo hi :=
  let H1 := fresh "H1" in
  let H2 := fresh "H2" in
  let H3 := fresh "H3" in
  destruct (Hround x lo hi) as [[H1 H2] H3];
  [ lia
  | change (inject_Z lo) with (lo # 1); lra
  | change (inject_Z hi) with (hi # 1); lra
  | split; [| split];
    [ eapply Qle_trans; [| exact H1]; vm_compute; discriminate
    | eapply Qle_trans; [exact H2 |]; vm_compute; discriminate
    | exact H3 ] ].

(** The delay computed after failed attempt [k] (so: before attempt
    [k + 1]) under either profile, for any draw of [Math.random]. *)
Lemma backoffDelay_within_bounds (rp : RetryProfile) (k : nat) (random : Q) :
  In rp RETRY_PROFILES -> (1 <= k < maxAttempts rp)%nat -> 0 <= random <= 1 ->
  withinJitterBounds rp (S k) (backoffDelay rp k random).
Proof.
  intros Hrp Hk Hr. unfold withinJitterBounds.
  assert (Hcases : (rp = network /\ (k = 1 \/ k = 2)%nat)
                   \/ (rp = server /\ (k = 1 \/ k = 2 \/ k = 3)%nat)).
  { destruct Hrp as [<- | [<- | []]]; cbn in Hk; [left | right]; split; auto; lia. }
  assert (Hround : forall x (lo hi : Z), (1 <= lo)%Z ->
             inject_Z lo <= x -> x <= inject_Z hi ->
             inject_Z lo <= inject_Z (Z.max 1 (mathRound x)) <= inject_Z hi
             /\ 1 <= inject_Z (Z.max 1 (mathRound x))).
  { intros x lo hi Hlo H1 H2. destruct (mathRound_between x lo hi H1 H2).
    rewrite <- !Zle_Qle. change 1 with (inject_Z 1). rewrite <- Zle_Qle. lia. }
  assert (Hjit : forall rp', In rp' RETRY_PROFILES ->
             exists H, Qlt_le_dec 0 (jitterFactor rp') = left H).
  { intros rp' [<- | [<- | []]];
      (destruct (Qlt_le_dec 0 _) as [H | H]; [eauto | exfalso; vm_compute in H; auto]). }
  destruct (Hjit rp Hrp) as [Hpos Hdec].
  unfold backoffDelay. rewrite Hdec. clear Hdec Hjit.
  destruct Hcases as [[-> Hk'] | [-> Hk']].
  - destruct Hk' as [-> | ->].
    + within_integers Hround (500 + (random * 2 - 1) * (500 * 0.25)) 375%Z 625%Z.
    + within_integers Hround (1000 + (random * 2 - 1) * (1000 * 0.25)) 750%Z 1250%Z.
  - destruct Hk' as [-> | [-> | ->]].
    + within_integers Hround (1000 + (random * 2 - 1) * (1000 * 0.5)) 500%Z 1500%Z.
    + within_integers Hround (2000 + (random * 2 - 1) * (2000 * 0.5)) 1000%Z 3000%Z.
    + within_integers Hround (4000 + (random * 2 - 1) * (4000 * 0.5)) 2000%Z 6000%Z.
Qed.

(** Past the cap the lower bound would not hold: it is the attempt limits
    of the profiles that keep every scheduled delay below the cap. *)
Remark lower_bound_needs_uncapped_delay :
  ~ withinJitterBounds network 7 (backoffDelay network 6 (1 # 2)).
Proof.
  intros (Hlow & _). vm_compute in Hlow. apply Hlow. reflexivity.
Qed.

Section Announced.
Context {T : Type}.
Implicit Types (env : Env T).

(** Every retry a run announces was computed from the failure just before
    it, under the profile of that failure, with attempts still left. *)
Lemma retryLoop_announces env fuel :
  forall a r evs info,
    retryLoop env fuel a = Some (r, evs) ->
    In (EvOnRetry info) evs ->
    exists k error rp,
      (a <= k)%nat /\ attempt info = S k
      /\ operationFn env k = Rejected error
      /\ selectRetryProfile error = Some rp
      /\ (k < maxAttempts rp)%nat
      /\ ra_maxAttempts info = maxAttempts rp
      /\ delayMs info = backoffDelay rp k (mathRandom env k).
Proof.
  induction fuel as [| fuel IH]; intros a r evs info Hrun Hin; [discriminate |].
  cbn [retryLoop] in Hrun.
  destruct (operationFn env a) as [v | error |] eqn:Hop.
  { injection Hrun as <- <-. destruct Hin as [[=] | []]. }
  2: { injection Hrun as <- <-. destruct Hin as [[=] | []]. }
  destruct (abortedAtCatch env a).
  { injection Hrun as <- <-. destruct Hin as [[=] | []]. }
  destruct (selectRetryProfile error) as [rp |] eqn:Hrp.
  2: { injection Hrun as <- <-. destruct Hin as [[=] | []]. }
  destruct (Nat.leb_spec (maxAttempts rp) a).
  { injection Hrun as <- <-. destruct Hin as [[=] | []]. }
  assert (Hhere : forall info',
             EvOnRetry info' = EvOnRetry info ->
             info' = {| attempt := S a; ra_maxAttempts := maxAttempts rp;
                        delayMs := backoffDelay rp a (mathRandom env a);
                        causeHttp := causeHttpOf error; causeConn := causeConnOf error |} ->
             exists k error0 rp0,
               (a <= k)%nat /\ attempt info = S k
               /\ operationFn env k = Rejected error0
               /\ selectRetryProfile error0 = Some rp0
               /\ (k < maxAttempts rp0)%nat
               /\ ra_maxAttempts info = maxAttempts rp0
               /\ delayMs info = backoffDelay rp0 k (mathRandom env k)).
  { intros info' [= <-] ->. exists a, error, rp; cbn; auto 10. }
  destruct (onRetryThrows env a).
  { injection Hrun as <- <-.
    destruct Hin as [[=] | [Hin | []]]. eapply Hhere; eauto. }
  destruct (abortableDelay env a).
  - injection Hrun as <- <-.
    destruct Hin as [[=] | [Hin | [[=] | []]]]. eapply Hhere; eauto.
  - destruct (retryLoop env fuel (S a)) as [[r' evs'] |] eqn:Hnext; [| discriminate].
    cbn [after] in Hrun. injection Hrun as <- <-.
    destruct Hin as [[=] | [Hin | [[=] | Hin]]].
    + eapply Hhere; eauto.
    + destruct (IH _ _ _ _ Hnext Hin) as (k & e & rp0 & Hk & Hrest).
      exists k, e, rp0. split; [lia | exact Hrest].
Qed.

(** C5. For every retry that [createRetryablePromise] announces, say of
    attempt [n] with delay [d], under the profile (base, max, jitter) of
    the failure that caused it, and whatever [Math.random] returned in
    [[0, 1]] (a jitter source in [[-1, 1]]): [n >= 2],
    [base*2^(n-2)*(1-jitter) <= d <= min(max, base*2^(n-2))*(1+jitter)]
    and [d >= 1]. *)
Theorem announced_delay_within_jitter_bounds env (info : RetryAttempt) :
  (forall k, 0 <= mathRandom env k <= 1) ->
  In (EvOnRetry info) (traceOf (createRetryablePromise env)) ->
  exists rp,
    In rp RETRY_PROFILES
    /\ ra_maxAttempts info = maxAttempts rp
    /\ (2 <= attempt info <= maxAttempts rp)%nat
    /\ withinJitterBounds rp (attempt info) (delayMs info).
Proof.
  intros Hrandom Hin.
  destruct (createRetryablePromise env) as [[r evs] |] eqn:Hrun; [| destruct Hin].
  cbn [traceOf] in Hin. unfold createRetryablePromise in Hrun.
  destruct (retryLoop_announces _ _ _ _ _ _ Hrun Hin)
    as (k & error & rp & Hk & Hn & Hop & Hrp & Hlt & Hmax & Hd).
  assert (Hprofile : In rp RETRY_PROFILES).
  { destruct (selectRetryProfile_range _ _ Hrp) as [-> | ->]; cbn; auto. }
  exists rp. split; [exact Hprofile |]. split; [exact Hmax |].
  split; [lia |]. rewrite Hn, Hd.
  apply backoffDelay_within_bounds; auto.
Qed.

End Announced.
End DelayProperties.

(** ** The scheduler on the example environments *)

Section SchedulerExamples.
Import Js Retrier.

Lemma createRetryablePromise_exhausts_attempts_witness :
  exists error evs,
    createRetryablePromise alwaysRefused = Some (Rejected error, evs)
    /\ operationFn alwaysRefused 3 = Rejected error
    /\ invocations evs = 3%nat
    /\ retries evs = 2%nat.
Proof.
  apply (createRetryablePromise_exhausts_attempts alwaysRefused network).
  - intros n. exists connectionRefused. split; reflexivity.
  - intros n. split; reflexivity.
  - intros n. reflexivity.
Defined.

Lemma createRetryablePromise_abort_rejects_with_cause_witness :
  exists evs,
    createRetryablePromise cancelledInFirstWait = Some (Rejected serviceUnavailable, evs)
    /\ invocations evs = 1%nat
    /\ (forall m, In (EvInvoke m) evs -> (m <= 1)%nat).
Proof.
  apply (createRetryablePromise_abort_rejects_with_cause cancelledInFirstWait 1
           serviceUnavailable).
  - vm_compute. left. reflexivity.
  - reflexivity.
  - right. reflexivity.
Defined.

Lemma announced_delay_within_jitter_bounds_witness :
  exists rp,
    In rp RETRY_PROFILES
    /\ 3%nat = maxAttempts rp
    /\ (2 <= 2 <= maxAttempts rp)%nat
    /\ withinJitterBounds rp 2 500.
Proof.
  apply (announced_delay_within_jitter_bounds alwaysRefused
           {| attempt := 2; ra_maxAttempts := 3; delayMs := 500;
              causeHttp := None; causeConn := Some "connection" |}).
  - intros k. cbn. split; [apply Qle_bool_imp_le | apply Qle_bool_imp_le]; reflexivity.
  - vm_compute. right. left. reflexivity.
Defined.

(** C2. The code does not do what the claim says when the caller's
    [onRetry] callback throws.  Here the operation fails each time with a
    503 (server profile, four attempts) and the signal never fires, as the
    claim supposes, and [onRetry] throws on the first announcement: the
    operation has been invoked once, no wait and no further attempt
    follow, and the promise is left pending.  The claim has it reject
    with the last error after four invocations, and the documentation of
    the function has the promise resolve or reject. *)
Theorem throwing_onRetry_leaves_the_promise_pending :
  (forall n, exists error,
      operationFn announcementThrows n = Rejected error
      /\ selectRetryProfile error = Some server)
  /\ (forall n, abortedAtCatch announcementThrows n = false
                /\ abortedInDelay announcementThrows n = false)
  /\ maxAttempts server = 4%nat
  /\ createRetryablePromise announcementThrows
     = Some (Pending,
             [EvInvoke 1;
              EvOnRetry {| attempt := 2; ra_maxAttempts := 4; delayMs := 1000;
                           causeHttp := Some 503%Z; causeConn := Some "http" |}])
  /\ invocations (traceOf (createRetryablePromise announcementThrows)) = 1%nat.
Proof.
  split; [intros n; exists serviceUnavailable; split; reflexivity |].
  split; [intros n; split; reflexivity |].
  split; [reflexivity |].
  split; vm_compute; reflexivity.
Qed.

(** The whole run against a server that is never reachable. *)
Example alwaysRefused_run :
  createRetryablePromise alwaysRefused
  = Some (Rejected connectionRefused,
          [EvInvoke 1;
           EvOnRetry {| attempt := 2; ra_maxAttempts := 3; delayMs := 500;
                        causeHttp := None; causeConn := Some "connection" |};
           EvDelay 500;
           EvInvoke 2;
           EvOnRetry {| attempt := 3; ra_maxAttempts := 3; delayMs := 1000;
                        causeHttp := None; causeConn := Some "connection" |};
           EvDelay 1000;
           EvInvoke 3]).
Proof. vm_compute. reflexivity. Qed.

End SchedulerExamples.

Import Js LlmsParameters AixClient.
Local Open Scope eff_scope.

(* ===================================================================== *)
(** * Properties of the parameter overlay and the model configuration *)
(* ===================================================================== *)

Section OverlayProperties.
Import Js LlmsParameters AixClient.
Implicit Types (initial user override : option DModelParameterValues) (p : string).

Lemma lookup_spread (a : DModelParameterValues) (b : option DModelParameterValues) p :
  spread a b !! p = match default ∅ b !! p with Some v => Some v | None => a !! p end.
Proof.
  unfold spread. rewrite lookup_union.
  destruct (default ∅ b !! p), (a !! p); reflexivity.
Qed.

(** The three layers merged by [getAllModelParameterValues]. *)
Lemma getAllModelParameterValues_lookup initial user p :
  getAllModelParameterValues initial user !! p
  = firstDefined [user; initial; Some LLMImplicitParamersRuntimeFallback] p.
Proof.
  unfold getAllModelParameterValues. rewrite !lookup_spread. cbn [firstDefined].
  destruct (default ∅ user !! p); [reflexivity |].
  destruct (default ∅ initial !! p); [reflexivity |].
  change (default ∅ (Some LLMImplicitParamersRuntimeFallback))
    with LLMImplicitParamersRuntimeFallback.
  destruct (LLMImplicitParamersRuntimeFallback !! p); reflexivity.
Qed.

Lemma fallback_has_no_llmRef :
  LLMImplicitParamersRuntimeFallback !! "llmRef" = None.
Proof. reflexivity. Qed.

Lemma overrideWithoutRef_lookup override p :
  default ∅ (overrideWithoutRef override) !! p
  = if decide (p = "llmRef") then None else default ∅ override !! p.
Proof.
  destruct override as [o |]; cbn [overrideWithoutRef default].
  - destruct (decide (p = "llmRef")) as [-> | Hne].
    + apply lookup_delete_eq.
    + apply lookup_delete_ne. congruence.
  - rewrite lookup_empty. now destruct (decide _).
Qed.

(** The object the configuration is built from, key by key. *)
Lemma resolvedOptions_lookup (llmOptions : DModelParameterValues) override p :
  resolvedOptions llmOptions override !! p
  = if decide (p = "llmRef") then llmOptions !! p
    else match default ∅ override !! p with Some v => Some v | None => llmOptions !! p end.
Proof.
  unfold resolvedOptions. rewrite lookup_spread, overrideWithoutRef_lookup.
  destruct (decide (p = "llmRef")); reflexivity.
Qed.


(** C7 (as amended). For every parameter other than [llmRef], the value
    the model configuration is built from comes from the highest-precedence
    layer that defines it, among (low to high) the implicit runtime
    fallback, the model's initial parameters, the user overrides and the
    per-call override; [llmRef] comes from the highest of the first three,
    the per-call override having no say.  With temperatures 0.5 (fallback),
    0.7 (initial), 0.9 (user) and 1.1 (per call) the resolved temperature is
    1.1, and 0.9, 0.7, 0.5 as the layers are taken away from the top. *)
Theorem resolved_parameter_from_highest_layer :
  (forall initial user override p,
      p <> "llmRef" ->
      resolvedOptions (getAllModelParameterValues initial user) override !! p
      = firstDefined [override; user; initial; Some LLMImplicitParamersRuntimeFallback] p)
  /\ (forall initial user override,
        resolvedOptions (getAllModelParameterValues initial user) override !! "llmRef"
        = firstDefined [user; initial; Some LLMImplicitParamersRuntimeFallback] "llmRef")
  /\ LLMImplicitParamersRuntimeFallback !! "llmTemperature" = Some (VNum 0.5)
  /\ prop (resolvedOptions
             (getAllModelParameterValues (temperatureLayer 0.7) (temperatureLayer 0.9))
             (temperatureLayer 1.1)) "llmTemperature" = VNum 1.1
  /\ prop (resolvedOptions
             (getAllModelParameterValues (temperatureLayer 0.7) (temperatureLayer 0.9))
             None) "llmTemperature" = VNum 0.9
  /\ prop (resolvedOptions
             (getAllModelParameterValues (temperatureLayer 0.7) None)
             None) "llmTemperature" = VNum 0.7
  /\ prop (resolvedOptions (getAllModelParameterValues None None) None) "llmTemperature"
     = VNum 0.5.
Proof.
  split; [| split].
  - intros initial user override p Hp.
    rewrite resolvedOptions_lookup, getAllModelParameterValues_lookup.
    destruct (decide (p = "llmRef")); [contradiction | reflexivity].
  - intros initial user override.
    rewrite resolvedOptions_lookup, getAllModelParameterValues_lookup.
    destruct (decide ("llmRef" = "llmRef")); [reflexivity | contradiction].
  - repeat split; vm_compute; reflexivity.
Qed.


(** C7, as stated, fails for [llmRef]: a per-call override that carries an
    [llmRef] is the highest-precedence layer defining it, yet the resolved
    [llmRef], and the [id] of the configuration, come from the model's
    initial parameters. *)
Lemma override_llmRef_is_not_resolved :
  let initial := Some ({[ "llmRef" := VStr "model-a" ]} : DModelParameterValues) in
  let override := Some ({[ "llmRef" := VStr "model-b" ]} : DModelParameterValues) in
  firstDefined [override; None; initial; Some LLMImplicitParamersRuntimeFallback] "llmRef"
    = Some (VStr "model-b")
  /\ resolvedOptions (getAllModelParameterValues initial None) override !! "llmRef"
     = Some (VStr "model-a")
  /\ exists model,
       aixCreateModelFromLLMOptions exampleModelEnv []
         (getAllModelParameterValues initial None) override "llm-1" = Returns model
       /\ id model = VStr "model-a".
Proof.
  split; [vm_compute; reflexivity |]. split; [vm_compute; reflexivity |].
  eexists. split; [vm_compute; reflexivity | reflexivity].
Qed.

Lemma resolvedOptions_overrideWithoutRef (llmOptions : DModelParameterValues) override :
  resolvedOptions llmOptions (overrideWithoutRef override) = resolvedOptions llmOptions override.
Proof.
  apply map_eq. intros p. rewrite !resolvedOptions_lookup, overrideWithoutRef_lookup.
  destruct (decide (p = "llmRef")); reflexivity.
Qed.

Lemma resolvedOptions_llmRef (llmOptions : DModelParameterValues) override :
  prop (resolvedOptions llmOptions override) "llmRef" = prop llmOptions "llmRef".
Proof.
  unfold prop. rewrite resolvedOptions_lookup.
  destruct (decide ("llmRef" = "llmRef")); [reflexivity | contradiction].
Qed.

(** [aixCreateModelFromLLMOptions] throws exactly when the [llmRef] of
    [llmOptions] is falsy, and otherwise returns a configuration with that
    [llmRef] as its [id]. *)
Lemma aixCreateModelFromLLMOptions_cases (E : ModelEnv) (llmInterfaces : list DLLMInterface)
    (llmOptions : DModelParameterValues) override (debugLlmId : string) :
  (truthy (prop llmOptions "llmRef") = false
   /\ aixCreateModelFromLLMOptions E llmInterfaces llmOptions override debugLlmId
      = Throws (newError ("AIX: Error in configuration for model " ++ debugLlmId
                          ++ " (missing ref, temperature): " ++ JSON_stringify E llmOptions)))
  \/ (truthy (prop llmOptions "llmRef") = true
      /\ exists model,
           aixCreateModelFromLLMOptions E llmInterfaces llmOptions override debugLlmId
           = Returns model
           /\ id model = prop llmOptions "llmRef").
Proof.
  unfold aixCreateModelFromLLMOptions. rewrite resolvedOptions_llmRef.
  destruct (truthy (prop llmOptions "llmRef")); cbn [negb].
  - right. split; [reflexivity |]. eexists. split; reflexivity.
  - left. split; reflexivity.
Qed.

(** C8. Whatever the per-call override contains, an [llmRef] entry
    included, [aixCreateModelFromLLMOptions] ignores the override's
    [llmRef]: the result is the same as without that entry, the [id] of a
    returned configuration is the [llmRef] of [llmOptions] (the merged
    fallback, initial and user layers), and a configuration is returned
    whenever that [llmRef] is set. *)
Theorem override_never_redefines_llmRef (E : ModelEnv) (llmInterfaces : list DLLMInterface)
    (llmOptions : DModelParameterValues) override (debugLlmId : string) :
  aixCreateModelFromLLMOptions E llmInterfaces llmOptions override debugLlmId
  = aixCreateModelFromLLMOptions E llmInterfaces llmOptions (overrideWithoutRef override)
      debugLlmId
  /\ (forall (o : DModelParameterValues) (v : JsVal),
        override = Some (<["llmRef" := v]> o) ->
        aixCreateModelFromLLMOptions E llmInterfaces llmOptions override debugLlmId
        = aixCreateModelFromLLMOptions E llmInterfaces llmOptions (Some (delete "llmRef" o))
            debugLlmId)
  /\ (forall model,
        aixCreateModelFromLLMOptions E llmInterfaces llmOptions override debugLlmId
        = Returns model ->
        id model = prop llmOptions "llmRef")
  /\ (truthy (prop llmOptions "llmRef") = true ->
      exists model,
        aixCreateModelFromLLMOptions E llmInterfaces llmOptions override debugLlmId
        = Returns model
        /\ id model = prop llmOptions "llmRef").
Proof.
  split; [| split; [| split]].
  - unfold aixCreateModelFromLLMOptions.
    now rewrite resolvedOptions_overrideWithoutRef.
  - intros o v ->. unfold aixCreateModelFromLLMOptions.
    rewrite <- (resolvedOptions_overrideWithoutRef _ (Some (<["llmRef" := v]> o))).
    rewrite <- (resolvedOptions_overrideWithoutRef _ (Some (delete "llmRef" o))).
    cbn [overrideWithoutRef]. now rewrite delete_insert_eq, delete_delete_eq.
  - intros model Hm.
    destruct (aixCreateModelFromLLMOptions_cases E llmInterfaces llmOptions override debugLlmId)
      as [[_ Hthrow] | [_ (model' & Hret & Hid)]]; congruence.
  - intros Href.
    destruct (aixCreateModelFromLLMOptions_cases E llmInterfaces llmOptions override debugLlmId)
      as [[Hno _] | [_ H]]; [congruence | exact H].
Qed.

(** An override that tries to redirect the call to another model. *)
Example override_with_llmRef_is_ignored :
  exists model,
    aixCreateModelFromLLMOptions exampleModelEnv [LLM_IF_OAI_Responses]
      (getAllModelParameterValues (Some {[ "llmRef" := VStr "model-a" ]}) None)
      (Some {[ "llmRef" := VStr "model-b"; "llmTemperature" := VNum 1.1 ]}) "llm-1"
    = Returns model
    /\ id model = VStr "model-a"
    /\ temperature model = Some (VNum 1.1)
    /\ maxTokens model = Some (VNum 8192)
    /\ acceptsOutputs model = ["text"]
    /\ vndOaiResponsesAPI model = Some true.
Proof. eexists. split; [vm_compute; reflexivity | repeat split]. Qed.

(** The [llmRef] of the merged fallback, initial and user layers: the
    fallback defines none. *)
Lemma getAllModelParameterValues_llmRef initial user :
  prop (getAllModelParameterValues initial user) "llmRef"
  = default VUndefined (firstDefined [user; initial] "llmRef").
Proof.
  unfold prop. rewrite getAllModelParameterValues_lookup. cbn [firstDefined].
  destruct (default ∅ user !! "llmRef"); [reflexivity |].
  destruct (default ∅ initial !! "llmRef"); reflexivity.
Qed.

(** C10, as stated, fails in its "exactly when": a model reference defined
    by the per-call override alone does not prevent the throw (the
    override's [llmRef] is deleted first), and neither does one defined as
    the empty string by the initial parameters (the test is [!llmRef]). *)
Lemma llmRef_defined_yet_missing :
  let override := Some ({[ "llmRef" := VStr "model-b" ]} : DModelParameterValues) in
  let initial := Some ({[ "llmRef" := VStr "" ]} : DModelParameterValues) in
  (default ∅ override !! "llmRef" = Some (VStr "model-b")
   /\ aixCreateModelFromLLMOptions exampleModelEnv []
        (getAllModelParameterValues None None) override "llm-1"
      = Throws (newError
          "AIX: Error in configuration for model llm-1 (missing ref, temperature): {...}"))
  /\ (default ∅ initial !! "llmRef" = Some (VStr "")
      /\ aixCreateModelFromLLMOptions exampleModelEnv []
           (getAllModelParameterValues initial None) None "llm-1"
         = Throws (newError
             "AIX: Error in configuration for model llm-1 (missing ref, temperature): {...}")).
Proof. repeat split; vm_compute; reflexivity. Qed.

(** C10 (as amended). [aixCreateModelFromLLMOptions] throws an [Error]
    exactly when the [llmRef] resolved from the model's initial parameters
    and the user overrides (the fallback defines none, and the per-call
    override is not consulted) is missing or falsy; in particular it throws
    when the whole merged overlay has no [llmRef].  In Tier 1 and Tier 2 the
    throw comes before the first notification, the rate-limit hook and the
    transport call: the call rejects with no event at all. *)
Theorem missing_llmRef_throws_before_transport :
  (forall (E : ModelEnv) (llmInterfaces : list DLLMInterface) initial user override
          (debugLlmId : string),
      let llmRef := default VUndefined (firstDefined [user; initial] "llmRef") in
      (truthy llmRef = false ->
       aixCreateModelFromLLMOptions E llmInterfaces
         (getAllModelParameterValues initial user) override debugLlmId
       = Throws (newError ("AIX: Error in configuration for model " ++ debugLlmId
                           ++ " (missing ref, temperature): "
                           ++ JSON_stringify E (getAllModelParameterValues initial user))))
      /\ (truthy llmRef = true ->
          exists model,
            aixCreateModelFromLLMOptions E llmInterfaces
              (getAllModelParameterValues initial user) override debugLlmId
            = Returns model))
  /\ (forall (E : ModelEnv) (llmInterfaces : list DLLMInterface) initial user override
            (debugLlmId : string),
        spread (getAllModelParameterValues initial user) override !! "llmRef" = None ->
        exists t,
          aixCreateModelFromLLMOptions E llmInterfaces
            (getAllModelParameterValues initial user) override debugLlmId
          = Throws t)
  /\ (forall (W : World) (llmId : string) aixChatGenerate (aixContextName : string)
            (aixStreaming : bool) clientOptions onStreamingUpdate llm access,
        findLLMOrThrow W llmId = Returns llm ->
        findServiceAccessOrThrow W (sId llm) = Returns access ->
        truthy (default VUndefined
                  (firstDefined [userParameters llm; initialParameters llm] "llmRef")) = false ->
        exists t,
          aixChatGenerateContent_DMessage W llmId aixChatGenerate aixContextName
            aixStreaming clientOptions onStreamingUpdate = ([], Throws t))
  /\ (forall (W : World) (llmId : string) systemInstruction aixTextMessages
            (aixContextName : string) clientOptions onTextStreamUpdate llm access,
        findLLMOrThrow W llmId = Returns llm ->
        findServiceAccessOrThrow W (sId llm) = Returns access ->
        truthy (default VUndefined
                  (firstDefined [userParameters llm; initialParameters llm] "llmRef")) = false ->
        exists t,
          aixChatGenerateText_Simple W llmId systemInstruction aixTextMessages
            aixContextName clientOptions onTextStreamUpdate = ([], Throws t)).
Proof.
  assert (Hcreate : forall (E : ModelEnv) (llmInterfaces : list DLLMInterface)
                           initial user override (debugLlmId : string),
             truthy (default VUndefined (firstDefined [user; initial] "llmRef")) = false ->
             aixCreateModelFromLLMOptions E llmInterfaces
               (getAllModelParameterValues initial user) override debugLlmId
             = Throws (newError ("AIX: Error in configuration for model " ++ debugLlmId
                                 ++ " (missing ref, temperature): "
                                 ++ JSON_stringify E (getAllModelParameterValues initial user)))).
  { intros E ifs initial user override debugLlmId Href.
    rewrite <- getAllModelParameterValues_llmRef in Href.
    destruct (aixCreateModelFromLLMOptions_cases E ifs
                (getAllModelParameterValues initial user) override debugLlmId)
      as [[_ H] | [H _]]; [exact H | congruence]. }
  split; [| split; [| split]].
  - intros E ifs initial user override debugLlmId llmRef. subst llmRef. split.
    + apply Hcreate.
    + intros Href. rewrite <- getAllModelParameterValues_llmRef in Href.
      destruct (aixCreateModelFromLLMOptions_cases E ifs
                  (getAllModelParameterValues initial user) override debugLlmId)
        as [[H _] | [_ (model & H & _)]]; [congruence | eauto].
  - intros E ifs initial user override debugLlmId Hnone.
    eexists. apply Hcreate. rewrite <- getAllModelParameterValues_llmRef.
    rewrite lookup_spread in Hnone. unfold prop.
    destruct (default ∅ override !! "llmRef"); [discriminate |].
    now rewrite Hnone.
  - intros W llmId req ctx streaming opts cb llm access Hllm Hacc Href.
    eexists. unfold aixChatGenerateContent_DMessage.
    rewrite Hllm. cbn [andThen]. rewrite Hacc. cbn [andThen].
    rewrite (Hcreate _ _ _ _ _ _ Href). reflexivity.
  - intros W llmId sys msgs ctx opts cb llm access Hllm Hacc Href.
    eexists. unfold aixChatGenerateText_Simple.
    rewrite Hllm. cbn [andThen]. rewrite Hacc. cbn [andThen].
    rewrite (Hcreate _ _ _ _ _ _ Href). reflexivity.
Qed.

End OverlayProperties.

(* ===================================================================== *)
(** * Properties of Tier 0 *)
(* ===================================================================== *)

Section Tier0Properties.

Context {S : Type}.
Implicit Types (W : World) (s : S).

(** The updates sent while the wire is read never make the call throw,
    and without content in any snapshot nothing is sent at all. *)
Lemma sentUpdates_run (cb : option (AixChatGenerateContent_LL -> bool -> Eff S unit))
    (updates : list AixChatGenerateContent_LL) s :
  exists s' evs,
    forEach updates
      (fun acc => insideReassembler
                    (match cb with
                     | None => ret tt
                     | Some f => match fragments acc with
                                 | [] => ret tt
                                 | _ :: _ => f acc false
                                 end
                     end)) s
    = (s', evs, Returns tt)
    /\ (cb = None \/ Forall (fun u => fragments u = []) updates -> s' = s /\ evs = []).
Proof.
  revert s. induction updates as [| acc updates IH]; intros s; cbn [forEach].
  - exists s, []. split; [reflexivity | auto].
  - unfold bind at 1. unfold insideReassembler at 1.
    destruct (match cb with
              | None => ret tt
              | Some f => match fragments acc with
                          | [] => ret tt
                          | _ :: _ => f acc false
                          end
              end s) as [[s1 evs1] c1] eqn:Hhead.
    destruct (IH s1) as (s2 & evs2 & -> & Hsame). exists s2, (evs1 ++ evs2)%list.
    split; [reflexivity |].
    intros Hquiet.
    assert (Hs1 : s1 = s /\ evs1 = []).
    { destruct Hquiet as [-> | Hall]; [now injection Hhead as <- <- |].
      inversion Hall as [| ? ? Hacc Hrest]; subst. rewrite Hacc in Hhead.
      destruct cb; now injection Hhead as <- <-. }
    destruct Hs1 as [-> ->]. destruct Hsame as [-> ->]; [| auto].
    destruct Hquiet as [-> | Hall]; [now left | right; now inversion Hall].
Qed.

(** The low-level call: the transport request and the updates of the wire
    run, then the final update with the final accumulator, whose outcome is
    the outcome of the call. *)
Lemma LL_unfold W (aixModel : AixAPI_Model) (aixStreaming : bool) (abortSignal : AbortSignal)
    (cb : option (AixChatGenerateContent_LL -> bool -> Eff S unit)) s :
  exists s1 evs1,
    _aixChatGenerateContent_LL W aixModel aixStreaming abortSignal cb s
    = match cb with
      | None => (s1, evs1, Returns (finalAccumulator W abortSignal))
      | Some f =>
          match f (finalAccumulator W abortSignal) true s1 with
          | (s2, evs2, Returns _) =>
              (s2, (evs1 ++ evs2)%list, Returns (finalAccumulator W abortSignal))
          | (s2, evs2, Throws t) => (s2, (evs1 ++ evs2)%list, Throws t)
          end
      end
    /\ (cb = None \/ Forall (fun u => fragments u = []) (sentUpdates (wire W)) -> s1 = s).
Proof.
  unfold _aixChatGenerateContent_LL.
  fold (finalAccumulator W abortSignal).
  set (final := finalAccumulator W abortSignal).
  set (request := EvChatGenerateContent _ _).
  destruct (sentUpdates_run cb (sentUpdates (wire W)) s) as (s1 & evs1 & Hupd & Hsame).
  exists s1, (request :: evs1).
  split; [| intros H; now destruct (Hsame H)].
  unfold bind at 1. unfold emit. unfold bind at 1. rewrite Hupd.
  unfold bind. destruct cb as [f |].
  - destruct (f final true s1) as [[s2 evs2] [[] | t]]; cbn;
      rewrite ?app_nil_r; reflexivity.
  - cbn. rewrite ?app_nil_r. reflexivity.
Qed.

(** The two ways out of the [catch] block. *)
Lemma onCaught_cases W (abortSignal : AbortSignal) (error : Thrown) (r : ContentReassembler) :
  (abortedInCatch abortSignal || isErrorAbort error = true
   /\ onCaught W abortSignal error r = setClientAborted r)
  \/ (abortedInCatch abortSignal || isErrorAbort error = false
      /\ onCaught W abortSignal error r
         = setClientExcepted (exceptedMessage W error (accumulator r)) r).
Proof.
  unfold onCaught. destruct (abortedInCatch abortSignal || isErrorAbort error); auto.
Qed.

(** What the [catch] block and the lines after it do with a failure of
    the transport or the stream.  If the abort signal is set or the error
    is an [AbortError], the reassembler is told [setClientAborted];
    otherwise [setClientExcepted] is given the message "An unexpected
    error occurred: ... Please retry.".  What these two do to the
    fragments is that of the reassembler modelled above.  The call then
    resolves with the final accumulator, unless the update callback throws
    on the final ([isDone = true]) update, which is issued outside the
    [try]: that exception, and nothing else, rejects the call. *)
Lemma transport_failure_is_converted W (aixModel : AixAPI_Model) (aixStreaming : bool)
    (abortSignal : AbortSignal)
    (cb : option (AixChatGenerateContent_LL -> bool -> Eff S unit)) s (error : Thrown) :
  caught (wire W) = Some error ->
  let before := accumulator (atExit (wire W)) in
  let final := finalAccumulator W abortSignal in
  (* clean abort, or an appended error fragment *)
  (abortedInCatch abortSignal || isErrorAbort error = true ->
   onCaught W abortSignal error (atExit (wire W)) = setClientAborted (atExit (wire W))
   /\ fragments final = fragments before
   /\ genTokenStopReason final = Some "client-abort")
  /\ (abortedInCatch abortSignal || isErrorAbort error = false ->
      onCaught W abortSignal error (atExit (wire W))
      = setClientExcepted (exceptedMessage W error before) (atExit (wire W))
      /\ fragments final
         = (fragments before ++ [createErrorContentFragment (exceptedMessage W error before)])%list
      /\ exists errorText,
           exceptedMessage W error before
           = "An unexpected error occurred: " ++ errorText ++ " Please retry.")
  (* nothing accumulated is lost *)
  /\ (exists appended, fragments final = (fragments before ++ appended)%list)
  (* the call resolves, unless the final update throws *)
  /\ (completionOf (_aixChatGenerateContent_LL W aixModel aixStreaming abortSignal cb) s
      = Returns final
      \/ exists f s1 t,
           cb = Some f
           /\ completionOf (f final true) s1 = Throws t
           /\ completionOf (_aixChatGenerateContent_LL W aixModel aixStreaming abortSignal cb) s
              = Throws t)
  /\ ((forall f s1, cb = Some f -> completionOf (f final true) s1 = Returns tt) ->
      completionOf (_aixChatGenerateContent_LL W aixModel aixStreaming abortSignal cb) s
      = Returns final).
Proof.
  intros Hcaught before final.
  assert (Hfinal : final
                   = accumulator (finalizeAccumulator
                                    (onCaught W abortSignal error (atExit (wire W))))).
  { unfold final, finalAccumulator. now rewrite Hcaught. }
  destruct (LL_unfold W aixModel aixStreaming abortSignal cb s) as (s1 & evs1 & Hrun & _).
  fold final in Hrun.
  split; [| split; [| split; [| split]]].
  - intros Hcond.
    destruct (onCaught_cases W abortSignal error (atExit (wire W))) as [[_ H] | [H _]];
      [| congruence].
    rewrite Hfinal, H. repeat split; reflexivity.
  - intros Hcond.
    destruct (onCaught_cases W abortSignal error (atExit (wire W))) as [[H _] | [_ H]];
      [congruence |].
    rewrite Hfinal, H. repeat split; try reflexivity.
    eexists. reflexivity.
  - rewrite Hfinal.
    destruct (onCaught_cases W abortSignal error (atExit (wire W))) as [[_ H] | [_ H]];
      rewrite H.
    + exists []. cbn. now rewrite app_nil_r.
    + eexists. reflexivity.
  - unfold completionOf. rewrite Hrun. destruct cb as [f |]; [| now left].
    destruct (f final true s1) as [[s2 evs2] [[] | t]] eqn:Hf; [now left |].
    right. exists f, s1, t. unfold completionOf. rewrite Hf. auto.
  - intros Hcb. unfold completionOf. rewrite Hrun. destruct cb as [f |]; [| reflexivity].
    specialize (Hcb f s1 eq_refl). unfold completionOf in Hcb.
    destruct (f final true s1) as [[s2 evs2] [[] | t]]; [reflexivity | discriminate].
Qed.

End Tier0Properties.

(** The connection drops after "Hello": the call resolves with "Hello"
    followed by the error fragment. *)
Lemma transport_failure_is_converted_witness :
  completionOf
    (_aixChatGenerateContent_LL (S := unit) (exampleWorld None droppedAfterHello)
       exampleModel true freshSignal None) tt
  = Returns
      {| fragments :=
           [ContentFragment (PtText "Hello");
            ContentFragment
              (PtError "An unexpected error occurred: fetch failed Please retry.")];
         genMetricsLg := None; genModelName := None; genTokenStopReason := None |}.
Proof.
  pose proof (transport_failure_is_converted (S := unit)
                (exampleWorld None droppedAfterHello) exampleModel true freshSignal
                None tt fetchFailed eq_refl) as (_ & _ & _ & _ & H).
  rewrite H; [reflexivity | discriminate].
Defined.


(* ===================================================================== *)
(** * Properties of Tier 1 *)
(* ===================================================================== *)

Section EffLemmas.
Context {S : Type}.

Lemma bind_returns {A B} (c : Eff S A) (k : A -> Eff S B) (s s1 : S) evs1 (a : A) :
  c s = (s1, evs1, Returns a) ->
  bind c k s = match k a s1 with (s2, evs2, r) => (s2, (evs1 ++ evs2)%list, r) end.
Proof. intros H. unfold bind. now rewrite H. Qed.

Lemma bind_throws {A B} (c : Eff S A) (k : A -> Eff S B) (s s1 : S) evs1 (t : Thrown) :
  c s = (s1, evs1, Throws t) -> bind c k s = (s1, evs1, Throws t).
Proof. intros H. unfold bind. now rewrite H. Qed.

Lemma completionOf_bind {A B} (c : Eff S A) (k : A -> Eff S B) (s : S) :
  completionOf (bind c k) s
  = match c s with
    | (s1, _, Returns a) => completionOf (k a) s1
    | (_, _, Throws t) => Throws t
    end.
Proof.
  unfold completionOf, bind.
  destruct (c s) as [[s1 evs1] [a | t]]; [| reflexivity].
  destruct (k a s1) as [[s2 evs2] r]. reflexivity.
Qed.

Lemma snd_run {A} (c : Eff S A) (s : S) : snd (run c s) = completionOf c s.
Proof. unfold run, completionOf. now destruct (c s) as [[s1 evs] r]. Qed.

End EffLemmas.

Section Tier1Properties.
Implicit Types (W : World) (d : AixChatGenerateContent_DMessage).

(** While the wire is read, Tier 1 forwards updates with [isDone = false]
    only. *)
Lemma tier1_updates_not_done W (cb : StreamingUpdateFn)
    (updates : list AixChatGenerateContent_LL) d :
  exists d' sent,
    forEach updates
      (fun acc => insideReassembler
                    (match fragments acc with
                     | [] => ret tt
                     | _ :: _ => onLLUpdate_DMessage W (Some cb) acc false
                     end)) d
    = (d', map (fun u => EvStreamingUpdate u false) sent, Returns tt).
Proof.
  revert d. induction updates as [| acc updates IH]; intros d; cbn [forEach].
  - exists d, []. reflexivity.
  - destruct (fragments acc) as [| f fs].
    + destruct (IH d) as (d' & sent & Hrest). exists d', sent.
      rewrite (bind_returns _ _ d d [] tt) by reflexivity. now rewrite Hrest.
    + set (d1 := _llToDMessage (metricsChatGenerateLgToMd W) acc d).
      destruct (IH d1) as (d' & sent & Hrest). exists d', (d1 :: sent).
      rewrite (bind_returns _ _ d d1 [EvStreamingUpdate d1 false] tt).
      * now rewrite Hrest.
      * unfold insideReassembler, onLLUpdate_DMessage, bind, modify, notifyStreamingUpdate.
        reflexivity.
Qed.

(** The low-level call as Tier 1 makes it: the transport request, updates
    with [isDone = false], and no event for the final update. *)
Lemma tier1_low_level_call W (cb : StreamingUpdateFn) (aixModel : AixAPI_Model)
    (aixStreaming : bool) (abortSignal : AbortSignal) d :
  exists d' sent,
    _aixChatGenerateContent_LL W aixModel aixStreaming abortSignal
      (Some (onLLUpdate_DMessage W (Some cb))) d
    = (d',
       EvChatGenerateContent aixModel (if getLabsDevNoStreaming W then false else aixStreaming)
         :: map (fun u => EvStreamingUpdate u false) sent,
       Returns (finalAccumulator W abortSignal)).
Proof.
  unfold _aixChatGenerateContent_LL. fold (finalAccumulator W abortSignal).
  destruct (tier1_updates_not_done W cb (sentUpdates (wire W)) d) as (d' & sent & Hupd).
  exists d', sent.
  unfold bind at 1. unfold emit. unfold bind at 1. rewrite Hupd.
  cbn. rewrite !app_nil_r. reflexivity.
Qed.

(** The cost step emits at most the call to the metrics store. *)
Lemma updateGeneratorCosts_events W (g : DMessageGenerator) (llm : DLLM) (source : string) :
  snd (_updateGeneratorCostsInPlace W g llm source) = []
  \/ exists costs inputTokens outputTokens,
       snd (_updateGeneratorCostsInPlace W g llm source)
       = [EvMetricsStoreAdd costs inputTokens outputTokens (l_id llm) source].
Proof.
  unfold _updateGeneratorCostsInPlace.
  destruct (metricsComputeChatGenerateCostsMd W _ _ _); [right | left; reflexivity].
  eexists _, _, _. reflexivity.
Qed.

(** C9 (as amended). When a streaming callback is supplied and the call
    gets through (the model, its service and its configuration are found,
    the rate-limit hook, if any, resolves, and the callback returns), the
    events of [aixChatGenerateContent_DMessage] are, in order: one initial
    notification with [isDone = false]; the rate-limit hook; the transport
    call; notifications with [isDone = false]; the cost aggregation; one
    notification with [isDone = true], which is the last event and carries
    the message the call resolves with.  So exactly one notification has
    [isDone = true]. *)
Theorem tier1_notifications W (llmId : string) (aixChatGenerate : AixAPIChatGenerate_Request)
    (aixContextName : string) (aixStreaming : bool) (clientOptions : AixClientOptions)
    (cb : StreamingUpdateFn) (llm : DLLM) (access : ServiceAccess) (aixModel : AixAPI_Model) :
  findLLMOrThrow W llmId = Returns llm ->
  findServiceAccessOrThrow W (sId llm) = Returns access ->
  aixCreateModelFromLLMOptions (modelEnv W) (interfaces llm)
    (getAllModelParameterValues (initialParameters llm) (userParameters llm))
    (llmOptionsOverride clientOptions) llmId = Returns aixModel ->
  rateLimitChatGenerate access = None \/ rateLimitChatGenerate access = Some (Returns tt) ->
  (forall update isDone, cb update isDone = Returns tt) ->
  exists first hook streaming sent costs last events,
    aixChatGenerateContent_DMessage W llmId aixChatGenerate aixContextName aixStreaming
      clientOptions (Some cb) = (events, Returns last)
    /\ events
       = ([EvStreamingUpdate first false] ++ hook
          ++ [EvChatGenerateContent aixModel streaming]
          ++ map (fun u => EvStreamingUpdate u false) sent
          ++ costs ++ [EvStreamingUpdate last true])%list
    /\ (d_fragments first = [] /\ pendingIncomplete first = true)
    /\ (hook = [] \/ hook = [EvRateLimitChatGenerate (l_id llm)])
    /\ (costs = []
        \/ exists c i o source, costs = [EvMetricsStoreAdd c i o (l_id llm) source])
    /\ pendingIncomplete last = false
    /\ List.length (List.filter isDoneUpdate events) = 1%nat.
Proof.
  intros Hllm Hacc Hmodel Hhook Hcb.
  unfold aixChatGenerateContent_DMessage.
  rewrite Hllm. cbn [andThen]. rewrite Hacc. cbn [andThen]. rewrite Hmodel. cbn [andThen].
  set (streaming := if clientHotFixGenerateRequest_ApplyAll W _ _ _ then false else aixStreaming).
  set (d0 := {| d_fragments := []; generator := _; pendingIncomplete := true |}).
  set (signal := match abortSignal clientOptions with
                 | NON_ABORTABLE => freshSignal
                 | Signal s => s
                 end).
  unfold run.
  (* the initial notification *)
  rewrite (bind_returns _ _ d0 d0 [EvStreamingUpdate d0 false] tt)
    by (cbn; now rewrite Hcb).
  (* the rate-limit hook *)
  assert (Hrl : exists hook,
             applyRateLimit (S := AixChatGenerateContent_DMessage) access llm d0
             = (d0, hook, Returns tt)
             /\ (hook = [] \/ hook = [EvRateLimitChatGenerate (l_id llm)])).
  { unfold applyRateLimit. destruct Hhook as [-> | ->].
    - exists []. split; [reflexivity | now left].
    - exists [EvRateLimitChatGenerate (l_id llm)]. split; [reflexivity | now right]. }
  destruct Hrl as (hook & Hrl & Hhook').
  rewrite (bind_returns _ _ d0 d0 hook tt Hrl).
  (* the low-level call *)
  destruct (tier1_low_level_call W cb aixModel streaming signal d0) as (d1 & sent & Hlow).
  rewrite (bind_returns _ _ d0 d1 _ _ Hlow).
  (* marking complete, the last copy, the costs *)
  unfold bind, modify, updateCostsOfDMessage, notifyStreamingUpdate, get.
  set (d2 := _llToDMessage _ _ (setPendingIncomplete false d1)).
  pose proof (updateGeneratorCosts_events W (generator d2) llm
                ("aix_chatgenerate_content-" ++ aixContextName)) as Hcosts.
  destruct (_updateGeneratorCostsInPlace W (generator d2) llm
              ("aix_chatgenerate_content-" ++ aixContextName)) as [g costs].
  cbn [snd] in Hcosts. rewrite Hcb.
  set (last := {| d_fragments := d_fragments d2; generator := g;
                  pendingIncomplete := pendingIncomplete d2 |}).
  exists d0, hook, (if getLabsDevNoStreaming W then false else streaming), sent, costs, last.
  eexists. split; [reflexivity |].
  split; [cbn; rewrite ?app_nil_r; reflexivity |].
  split; [split; reflexivity |]. split; [exact Hhook' |].
  split; [destruct Hcosts as [-> | (c & i & o & ->)]; [now left | right; eauto] |].
  split; [reflexivity |].
  cbn [app List.filter isDoneUpdate].
  rewrite !List.filter_app. cbn [List.filter isDoneUpdate].
  assert (Hsent : List.filter isDoneUpdate (map (fun u => EvStreamingUpdate u false) sent) = []).
  { clear. induction sent as [| u sent IH]; [reflexivity | exact IH]. }
  assert (Hh : List.filter isDoneUpdate hook = [])
    by (destruct Hhook' as [-> | ->]; reflexivity).
  assert (Hc : List.filter isDoneUpdate costs = [])
    by (destruct Hcosts as [-> | (c & i & o & ->)]; reflexivity).
  rewrite !List.filter_app, Hsent, Hh, Hc. reflexivity.
Qed.

End Tier1Properties.

(** A call that streams "Hello". *)
Lemma tier1_notifications_witness :
  exists first hook streaming sent costs last events,
    aixChatGenerateContent_DMessage (exampleWorld (Some (Returns tt)) helloAndDone)
      "llm-1" exampleRequest "conversation" true exampleOptions (Some acceptingCaller)
    = (events, Returns last)
    /\ events
       = ([EvStreamingUpdate first false] ++ hook
          ++ [EvChatGenerateContent exampleModel streaming]
          ++ map (fun u => EvStreamingUpdate u false) sent
          ++ costs ++ [EvStreamingUpdate last true])%list
    /\ (d_fragments first = [] /\ pendingIncomplete first = true)
    /\ (hook = [] \/ hook = [EvRateLimitChatGenerate (l_id exampleLLM)])
    /\ (costs = []
        \/ exists c i o source, costs = [EvMetricsStoreAdd c i o (l_id exampleLLM) source])
    /\ pendingIncomplete last = false
    /\ List.length (List.filter isDoneUpdate events) = 1%nat.
Proof.
  apply (tier1_notifications (exampleWorld (Some (Returns tt)) helloAndDone)
           "llm-1" exampleRequest "conversation" true exampleOptions acceptingCaller
           exampleLLM
           {| transportAccess := "access"; rateLimitChatGenerate := Some (Returns tt) |}
           exampleModel).
  - reflexivity.
  - reflexivity.
  - vm_compute. reflexivity.
  - right. reflexivity.
  - reflexivity.
Defined.

(** C9, as stated, fails for a call that does not get through.  For an
    unknown model [findLLMOrThrow] throws and no notification is sent at
    all, not even the initial one.  When the vendor's rate-limit hook
    rejects, the initial notification has been sent, the call rejects, and
    no notification with [isDone = true] is ever sent. *)
Lemma failed_call_sends_no_done :
  aixChatGenerateContent_DMessage (exampleWorld None helloAndDone)
    "llm-unknown" exampleRequest "conversation" true exampleOptions (Some acceptingCaller)
  = ([], Throws (newError "Large Language Model llm-unknown not found"))
  /\ exists first,
       aixChatGenerateContent_DMessage (exampleWorld (Some (Throws rateLimited)) helloAndDone)
         "llm-1" exampleRequest "conversation" true exampleOptions (Some acceptingCaller)
       = ([EvStreamingUpdate first false; EvRateLimitChatGenerate "llm-1"], Throws rateLimited)
       /\ List.length
            (List.filter isDoneUpdate
               [EvStreamingUpdate first false; EvRateLimitChatGenerate "llm-1"]) = 0%nat.
Proof.
  split; [vm_compute; reflexivity |].
  eexists. split; [vm_compute; reflexivity | reflexivity].
Qed.

(* ===================================================================== *)
(** * Properties of Tier 2 *)
(* ===================================================================== *)

Section Tier2Properties.
Implicit Types (W : World) (state : AixChatGenerateText_Simple)
  (ll : AixChatGenerateContent_LL) (fs : list Fragment).

(** The loop of [_llToText] throws at the first tool invocation, and only
    there. *)
Lemma llToTextLoop_thrown fs (acc : string) :
  snd (llToTextLoop fs acc)
  = match firstToolInvocation fs with
    | Some label =>
        Some (newError ("AIX: Unexpected tool invocation " ++ label
                        ++ " in the Text response."))
    | None => None
    end.
Proof.
  revert acc. unfold firstToolInvocation.
  induction fs as [| f fs IH]; intros acc; [reflexivity |].
  destruct f as [[t | e | id [[n |] |] | | | |] | v]; cbn; auto.
Qed.

(** Without error fragments and tool invocations the loop concatenates the
    text fragments. *)
Lemma llToTextLoop_text fs (acc : string) :
  omap errorOf fs = [] -> firstToolInvocation fs = None ->
  fst (llToTextLoop fs acc) = acc ++ concatenatedText fs.
Proof.
  revert acc. unfold firstToolInvocation, concatenatedText.
  induction fs as [| f fs IH]; intros acc Herr Htool.
  - cbn. now rewrite append_empty_r.
  - destruct f as [[t | e | id inv | | | |] | v]; cbn in Herr, Htool;
      try discriminate; cbn [llToTextLoop omap textOf]; try (now apply IH).
    + rewrite IH, append_assoc by assumption. f_equal.
      symmetry. exact (concat_empty_cons t (omap textOf fs)).
    + destruct inv as [[n |] |]; discriminate.
Qed.

(** [_llToText]: the generator pieces are copied, the text is rebuilt from
    the fragments when there are any, and the loop's exception is thrown. *)
Lemma llToTextInPlace_run W ll state :
  llToTextInPlace W ll state
  = ({| text := match fragments ll with
                | [] => text state
                | _ :: _ => Some (fst (llToTextLoop (fragments ll) ""))
                end;
        t_generator := copyGeneratorPieces (metricsChatGenerateLgToMd W) ll
                         (t_generator state);
        isDone := isDone state |},
     [],
     match snd (llToTextLoop (fragments ll) "") with
     | Some t => Throws t
     | None => Returns tt
     end).
Proof.
  unfold llToTextInPlace, _llToText.
  destruct (fragments ll) as [| f fs]; [reflexivity |].
  destruct (llToTextLoop (f :: fs) "") as [t [thrown |]]; reflexivity.
Qed.

(** Lines 320-346, from a state whose text is still [null] if nothing was
    received. *)
Lemma completeTextResponse_outcome W (llm : DLLM) (aixContextName : string)
    (signal : AbortSignal) (onTextStreamUpdate : option TextStreamUpdateFn) ll state :
  (fragments ll = [] -> text state = None) ->
  (forall cb t isDone g, onTextStreamUpdate = Some cb -> cb t isDone g = Returns tt) ->
  completionOf (completeTextResponse W llm aixContextName signal onTextStreamUpdate ll) state
  = textOutcome ll (abortedOnReturn signal).
Proof.
  intros Hnull Hcb. unfold completeTextResponse, textOutcome.
  rewrite completionOf_bind. cbn [modify].
  rewrite completionOf_bind, llToTextInPlace_run.
  destruct (llToTextLoop (fragments ll) "") as [stateText [t |]] eqn:Hloop;
    cbn [fst snd]; [reflexivity |].
  rewrite completionOf_bind. unfold updateCostsOfText.
  destruct (_updateGeneratorCostsInPlace W _ llm _) as [g costs]. cbn [text isDone].
  rewrite completionOf_bind.
  destruct (abortedOnReturn signal); [reflexivity |]. cbn [ret].
  rewrite completionOf_bind. cbn [get text].
  destruct (fragments ll) as [| f fs].
  - unfold setIsDone. cbn [text]. rewrite (Hnull eq_refl). reflexivity.
  - destruct (nonEmpty (joinedErrors ll)); [reflexivity |].
    rewrite completionOf_bind.
    destruct onTextStreamUpdate as [cb |]; [| reflexivity].
    unfold notifyTextStreamUpdate. now rewrite (Hcb cb _ _ _ eq_refl).
Qed.

(** The streaming callback of the facade: [_llToText], then the caller's
    update if there is text. *)
Lemma onLLUpdate_Text_run W (onTextStreamUpdate : option TextStreamUpdateFn) ll
    (isDone : bool) state :
  (forall cb t isDone g, onTextStreamUpdate = Some cb -> cb t isDone g = Returns tt) ->
  exists evs,
    onLLUpdate_Text W onTextStreamUpdate ll isDone state
    = ({| text := match fragments ll with
                  | [] => text state
                  | _ :: _ => Some (fst (llToTextLoop (fragments ll) ""))
                  end;
          t_generator := copyGeneratorPieces (metricsChatGenerateLgToMd W) ll
                           (t_generator state);
          isDone := AixClient.isDone state |},
       evs,
       match snd (llToTextLoop (fragments ll) "") with
       | Some t => Throws t
       | None => Returns tt
       end).
Proof.
  intros Hcb. unfold onLLUpdate_Text, bind. rewrite llToTextInPlace_run.
  destruct (snd (llToTextLoop (fragments ll) "")) as [t |]; [eexists; reflexivity |].
  cbn [get]. set (st := {| text := _; t_generator := _; isDone := _ |}).
  destruct onTextStreamUpdate as [cb |]; [| eexists; reflexivity].
  destruct (text st) as [t |]; [| eexists; reflexivity].
  unfold notifyTextStreamUpdate. rewrite (Hcb cb _ _ _ eq_refl). eexists. reflexivity.
Qed.

Lemma textOutcome_thrown ll (aborted : bool) (t : Thrown) :
  snd (llToTextLoop (fragments ll) "") = Some t -> textOutcome ll aborted = Throws t.
Proof.
  unfold textOutcome. destruct (llToTextLoop (fragments ll) "") as [txt thrown].
  cbn. now intros ->.
Qed.

(** The facade, once it has its model and configuration: its completion
    is [textOutcome] of the accumulator the low-level call ends with. *)
Lemma text_facade_completion W (llmId : string) (systemInstruction : option string)
    (aixTextMessages : list (string * string) + string) (aixContextName : string)
    (clientOptions : option AixClientOptions)
    (onTextStreamUpdate : option TextStreamUpdateFn)
    (llm : DLLM) (access : ServiceAccess) (aixModel : AixAPI_Model) :
  findLLMOrThrow W llmId = Returns llm ->
  findServiceAccessOrThrow W (sId llm) = Returns access ->
  aixCreateModelFromLLMOptions (modelEnv W) (interfaces llm)
    (getAllModelParameterValues (initialParameters llm) (userParameters llm))
    (match clientOptions with Some o => llmOptionsOverride o | None => None end)
    llmId = Returns aixModel ->
  rateLimitChatGenerate access = None \/ rateLimitChatGenerate access = Some (Returns tt) ->
  (forall cb t isDone g, onTextStreamUpdate = Some cb -> cb t isDone g = Returns tt) ->
  (fragments (finalAccumulator W (effectiveSignal clientOptions)) = [] ->
   Forall (fun u => fragments u = []) (sentUpdates (wire W))) ->
  snd (aixChatGenerateText_Simple W llmId systemInstruction aixTextMessages aixContextName
         clientOptions onTextStreamUpdate)
  = textOutcome (finalAccumulator W (effectiveSignal clientOptions))
      (abortedOnReturn (effectiveSignal clientOptions)).
Proof.
  intros Hllm Hacc Hmodel Hhook Hcb Hgrow.
  unfold aixChatGenerateText_Simple.
  rewrite Hllm. cbn [andThen]. rewrite Hacc. cbn [andThen]. rewrite Hmodel. cbn [andThen].
  fold (effectiveSignal clientOptions).
  set (signal := effectiveSignal clientOptions) in *.
  set (final := finalAccumulator W signal) in *.
  set (state0 := {| text := None; t_generator := _; isDone := false |}).
  set (cbopt := if negb _ then None else Some (onLLUpdate_Text W onTextStreamUpdate)).
  set (streaming := if clientHotFixGenerateRequest_ApplyAll W _ _ _ then false else _).
  rewrite snd_run.
  change (completionOf
            (applyRateLimit access llm ;;
             ll <- _aixChatGenerateContent_LL W aixModel streaming signal cbopt ;;
             completeTextResponse W llm aixContextName signal onTextStreamUpdate ll) state0
          = textOutcome final (abortedOnReturn signal)).
  rewrite completionOf_bind.
  assert (Hrl : exists hook,
             applyRateLimit (S := AixChatGenerateText_Simple) access llm state0
             = (state0, hook, Returns tt)).
  { unfold applyRateLimit. destruct Hhook as [-> | ->]; eexists; reflexivity. }
  destruct Hrl as (hook & ->).
  rewrite completionOf_bind.
  destruct (LL_unfold W aixModel streaming signal cbopt state0) as (s1 & evs1 & -> & Hsame).
  fold final.
  destruct cbopt as [f |] eqn:Hcbopt.
  - assert (Hf : f = onLLUpdate_Text W onTextStreamUpdate).
    { unfold cbopt in Hcbopt. destruct (negb _); congruence. }
    subst f.
    destruct (onLLUpdate_Text_run W onTextStreamUpdate final true s1 Hcb) as (evs2 & ->).
    destruct (snd (llToTextLoop (fragments final) "")) as [t |] eqn:Hthrown.
    + symmetry. now apply textOutcome_thrown.
    + apply completeTextResponse_outcome; [| exact Hcb].
      intros Hnil. cbn [text]. rewrite Hnil.
      rewrite (Hsame (or_intror (Hgrow Hnil))). reflexivity.
  - rewrite (Hsame (or_introl eq_refl)).
    apply completeTextResponse_outcome; [reflexivity | exact Hcb].
Qed.

Lemma firstToolInvocation_In fs (id : string) (invocation : option Invocation) :
  In (ContentFragment (PtToolInvocation id invocation)) fs ->
  exists label, firstToolInvocation fs = Some label.
Proof.
  unfold firstToolInvocation.
  induction fs as [| f fs IH]; intros Hin; [destruct Hin |].
  destruct Hin as [-> | Hin].
  - destruct invocation as [[n |] |]; eexists; reflexivity.
  - destruct (IH Hin) as (label & Hl).
    destruct f as [[t | e | id' [[n |] |] | | | |] | v]; cbn; eauto.
Qed.

(** How the text facade ends.  Once it has its model and configuration
    and the low-level call has run (the rate-limit hook resolved, the
    caller's callback returns, fragments are only ever appended), its
    outcome is decided by the final accumulator and the abort flag, in this
    order: a tool invocation among the fragments makes it throw an [Error]
    naming the invocation; otherwise a set abort signal makes it throw an
    [AbortError]; otherwise no fragment at all makes it throw
    "AIX: Empty text response."; otherwise the texts of the error fragments,
    joined by newlines, if non-empty, are thrown as
    "AIX: Error in response: ..."; otherwise it resolves with the text
    built from the fragments, which is the concatenation of the text
    fragments when there is no error fragment. *)
Lemma text_facade_outcomes W (llmId : string) (systemInstruction : option string)
    (aixTextMessages : list (string * string) + string) (aixContextName : string)
    (clientOptions : option AixClientOptions)
    (onTextStreamUpdate : option TextStreamUpdateFn)
    (llm : DLLM) (access : ServiceAccess) (aixModel : AixAPI_Model) :
  findLLMOrThrow W llmId = Returns llm ->
  findServiceAccessOrThrow W (sId llm) = Returns access ->
  aixCreateModelFromLLMOptions (modelEnv W) (interfaces llm)
    (getAllModelParameterValues (initialParameters llm) (userParameters llm))
    (match clientOptions with Some o => llmOptionsOverride o | None => None end)
    llmId = Returns aixModel ->
  rateLimitChatGenerate access = None \/ rateLimitChatGenerate access = Some (Returns tt) ->
  (forall cb t isDone g, onTextStreamUpdate = Some cb -> cb t isDone g = Returns tt) ->
  (fragments (finalAccumulator W (effectiveSignal clientOptions)) = [] ->
   Forall (fun u => fragments u = []) (sentUpdates (wire W))) ->
  let ll := finalAccumulator W (effectiveSignal clientOptions) in
  let aborted := abortedOnReturn (effectiveSignal clientOptions) in
  let outcome :=
    snd (aixChatGenerateText_Simple W llmId systemInstruction aixTextMessages
           aixContextName clientOptions onTextStreamUpdate) in
  (forall id invocation,
      In (ContentFragment (PtToolInvocation id invocation)) (fragments ll) ->
      exists label,
        firstToolInvocation (fragments ll) = Some label
        /\ outcome = Throws (newError ("AIX: Unexpected tool invocation " ++ label
                                        ++ " in the Text response.")))
  /\ (firstToolInvocation (fragments ll) = None ->
      (aborted = true -> outcome = Throws (newDOMException "Stopped." "AbortError"))
      /\ (aborted = false -> fragments ll = [] ->
          outcome = Throws (newError "AIX: Empty text response."))
      /\ (aborted = false -> fragments ll <> [] -> joinedErrors ll <> "" ->
          outcome = Throws (newError ("AIX: Error in response: " ++ joinedErrors ll)))
      /\ (aborted = false -> fragments ll <> [] -> joinedErrors ll = "" ->
          outcome = Returns (fst (llToTextLoop (fragments ll) ""))
          /\ (omap errorOf (fragments ll) = [] ->
              outcome = Returns (concatenatedText (fragments ll))))).
Proof.
  intros Hllm Hacc Hmodel Hhook Hcb Hgrow ll aborted outcome.
  assert (Hout : outcome = textOutcome ll aborted).
  { unfold outcome, ll, aborted. now apply (text_facade_completion _ _ _ _ _ _ _ llm access aixModel). }
  clearbody outcome. subst outcome. clear Hgrow.
  unfold textOutcome.
  pose proof (llToTextLoop_thrown (fragments ll) "") as Hthrown.
  destruct (llToTextLoop (fragments ll) "") as [stateText thrown] eqn:Hloop.
  cbn [snd] in Hthrown. split.
  - intros id invocation Hin.
    destruct (firstToolInvocation_In _ _ _ Hin) as (label & Hlabel).
    exists label. split; [exact Hlabel |]. rewrite Hlabel in Hthrown. now subst thrown.
  - intros Hnone. rewrite Hnone in Hthrown. subst thrown.
    split; [intros ->; reflexivity |].
    split; [intros -> ->; reflexivity |].
    split.
    + intros -> Hfs Herr. destruct (fragments ll) as [| f fs]; [contradiction |].
      unfold nonEmpty. destruct (String.eqb_spec (joinedErrors ll) ""); [contradiction |].
      reflexivity.
    + intros -> Hfs Herr. destruct (fragments ll) as [| f fs] eqn:Hfrag; [contradiction |].
      unfold nonEmpty. rewrite Herr. cbn [String.eqb negb].
      split; [reflexivity |]. intros Hnoerr.
      pose proof (llToTextLoop_text (f :: fs) "" Hnoerr Hnone) as Htext.
      rewrite Hloop in Htext. cbn [fst] in Htext. now rewrite Htext.
Qed.

End Tier2Properties.

(** "Hello" is received and the stream completes: the facade resolves
    with "Hello". *)
Lemma text_facade_outcomes_witness :
  snd (aixChatGenerateText_Simple (exampleWorld None helloAndDone) "llm-1" None
         (inr "Hi") "conversation" None None)
  = Returns "Hello".
Proof.
  pose proof (text_facade_outcomes (exampleWorld None helloAndDone) "llm-1" None
                (inr "Hi") "conversation" None None exampleLLM
                {| transportAccess := "access"; rateLimitChatGenerate := None |}
                exampleModel) as H.
  destruct H as (_ & H).
  - reflexivity.
  - reflexivity.
  - vm_compute. reflexivity.
  - left. reflexivity.
  - discriminate.
  - discriminate.
  - destruct (H eq_refl) as (_ & _ & _ & Hok).
    destruct Hok as (_ & Hok).
    + reflexivity.
    + discriminate.
    + reflexivity.
    + apply Hok. reflexivity.
Defined.

(** C6. The code does not do what the claim says on results without text
    that are not empty.  The test for "no text generated" is
    [state.text === null], which [_llToText] makes [''] as soon as there
    is any fragment, and the test for "error fragments" is the truthiness
    of their joined texts.  So a result holding only model "thinking", and
    a result holding only an error fragment with an empty message, both
    make the facade resolve with the empty string, although no text at all
    was produced and, in the second case, an error fragment is present:
    against the claim, and against the comments on the two tests ("throw
    if there was no text generated", "throw if there are error fragments")
    and the contract of the function ("no Empty messages"). *)
Theorem text_facade_resolves_without_text :
  (fragments (finalAccumulator (exampleWorld None thoughtsOnly) freshSignal)
   = [VoidFragment PtMa]
   /\ concatenatedText [VoidFragment PtMa] = ""
   /\ snd (aixChatGenerateText_Simple (exampleWorld None thoughtsOnly) "llm-1" None
             (inr "Hi") "conversation" None None)
      = Returns "")
  /\ (fragments (finalAccumulator (exampleWorld None emptyErrorOnly) freshSignal)
      = [ContentFragment (PtError "")]
      /\ snd (aixChatGenerateText_Simple (exampleWorld None emptyErrorOnly) "llm-1" None
                (inr "Hi") "conversation" None None)
         = Returns "").
Proof. repeat split; vm_compute; reflexivity. Qed.

(* ===================================================================== *)
(** * More on the retry scheduler *)
(* ===================================================================== *)

Section SchedulerRuns.
Import Js Retrier RetrierRuns.
Context {T : Type}.
Implicit Types (env : Env T) (r : Settled T) (evs : list Event).

(** The invocations of a run from attempt [a] are numbered [a], [a+1],
    ... up to some [k], the invocation with which the run ends; going on
    past [a] means that [k] is at most 4.  The promise is left pending if
    that invocation never settles or the announcement after it throws, and
    otherwise ends as that invocation did. *)
Lemma retryLoop_shape env fuel :
  forall a r evs,
    retryLoop env fuel a = Some (r, evs) ->
    exists k,
      (a <= k)%nat /\ (k = a \/ k <= 4)%nat
      /\ invokedAttempts evs = seq a (S k - a)
      /\ ((leftPending env k /\ r = Pending)
          \/ (~ leftPending env k /\ r = operationFn env k)).
Proof.
  induction fuel as [| fuel IH]; intros a r evs Hrun; [discriminate |].
  cbn [retryLoop] in Hrun.
  assert (Hone : (S a - a)%nat = 1%nat) by lia.
  assert (Hstop : ~ leftPending env a ->
                  (r, evs) = (operationFn env a, [EvInvoke a]) ->
                  exists k, (a <= k)%nat /\ (k = a \/ k <= 4)%nat
                            /\ invokedAttempts evs = seq a (S k - a)
                            /\ ((leftPending env k /\ r = Pending)
                                \/ (~ leftPending env k /\ r = operationFn env k))).
  { intros Hnot [= -> ->]. exists a. split; [lia |]. split; [now left |].
    rewrite Hone. split; [reflexivity |]. right. split; [exact Hnot | reflexivity]. }
  destruct (operationFn env a) as [v | error |] eqn:Hop.
  { apply Hstop; [| congruence].
    intros [H | (e & rp & H & _)]; congruence. }
  2: { injection Hrun as <- <-. exists a. split; [lia |]. split; [now left |].
       rewrite Hone. split; [reflexivity |]. left. split; [now left | reflexivity]. }
  destruct (abortedAtCatch env a) eqn:Hab.
  { apply Hstop; [| congruence].
    intros [H | (e & rp & _ & H & _)]; congruence. }
  destruct (selectRetryProfile error) as [rp |] eqn:Hrp.
  2: { apply Hstop; [| congruence].
       intros [H | (e & rp & He & _ & H & _)]; congruence. }
  destruct (Nat.leb_spec (maxAttempts rp) a).
  { apply Hstop; [| congruence].
    intros [Hp | (e & rp' & He & _ & Hrp' & Hlt & _)]; [congruence |].
    assert (e = error) by congruence. subst e.
    assert (rp' = rp) by congruence. subst rp'. lia. }
  destruct (onRetryThrows env a) eqn:Hcb.
  { injection Hrun as <- <-. exists a. split; [lia |]. split; [now left |].
    rewrite Hone. split; [reflexivity |]. left. split; [| reflexivity].
    right. exists error, rp. auto. }
  destruct (abortableDelay env a).
  - injection Hrun as <- <-. exists a. split; [lia |]. split; [now left |].
    rewrite Hone. split; [reflexivity |]. right. split; [| now rewrite Hop].
    intros [Hp | (e & rp' & _ & _ & _ & _ & H')]; congruence.
  - destruct (retryLoop env fuel (S a)) as [[r' evs'] |] eqn:Hnext; [| discriminate].
    cbn [after] in Hrun. injection Hrun as <- <-.
    destruct (IH _ _ _ Hnext) as (k & Hk & Hbound & Hinv & Hlast).
    pose proof (maxAttempts_range _ _ Hrp).
    exists k. split; [lia |]. split; [right; lia |]. split; [| exact Hlast].
    replace (S k - a)%nat with (S (S k - S a)) by lia.
    cbn [seq]. rewrite <- Hinv. reflexivity.
Qed.

(** X1. Whatever the operation, the signal and the callback do, the loop
    ends after at most four invocations of the operation, which are the
    attempts 1, 2, ..., k without gaps or repetition, and the promise ends
    exactly as the last invocation did, with its value or with its error,
    with one exception: when that invocation failed with a retryable
    error whose profile has attempts left, the signal was not set, and
    [onRetry] threw on the announcement of the retry, the promise is left
    pending.  It is pending in no other case, except when the operation
    itself never settled.  In particular, when no call of [onRetry]
    throws, the promise ends as the last invocation did. *)
Theorem createRetryablePromise_ends_as_last_invocation env :
  exists r evs k,
    createRetryablePromise env = Some (r, evs)
    /\ (1 <= k <= 4)%nat
    /\ invokedAttempts evs = seq 1 k
    /\ invocations evs = k
    /\ (r = Pending <-> leftPending env k)
    /\ (~ leftPending env k -> r = operationFn env k)
    /\ ((forall n, onRetryThrows env n = false) -> r = operationFn env k).
Proof.
  destruct (createRetryablePromise_settles env) as (r & evs & Hrun).
  destruct (retryLoop_shape _ _ _ _ _ Hrun) as (k & Hk & Hbound & Hinv & Hlast).
  exists r, evs, k. split; [exact Hrun |]. split; [lia |].
  replace (S k - 1)%nat with k in Hinv by lia.
  split; [exact Hinv |]. split.
  { assert (Hlen : forall l, invocations l = List.length (invokedAttempts l)).
    { clear. induction l as [| [n | i | d] l IHl]; cbn in *; auto. }
    rewrite Hlen, Hinv. apply length_seq. }
  split; [| split].
  - destruct Hlast as [[Hp ->] | [Hnot ->]]; [tauto |].
    split; [| tauto]. intros Hop. exfalso. apply Hnot. now left.
  - intros Hnot. destruct Hlast as [[Hp _] | [_ ->]]; [contradiction | reflexivity].
  - intros Hcb. destruct Hlast as [[Hp ->] | [_ ->]]; [| reflexivity].
    destruct Hp as [Hp | (e & rp & _ & _ & _ & _ & Hthrows)]; [now rewrite Hp |].
    rewrite Hcb in Hthrows. discriminate.
Qed.

(** Where an invocation sits in a run that reaches it. *)
Lemma retryLoop_continues env fuel :
  forall a r evs n error rp,
    retryLoop env fuel a = Some (r, evs) ->
    In (EvInvoke n) evs ->
    operationFn env n = Rejected error ->
    abortedAtCatch env n = false ->
    selectRetryProfile error = Some rp ->
    (n < maxAttempts rp)%nat ->
    exists before rest,
      evs = (before
             ++ [EvInvoke n;
                 EvOnRetry {| attempt := S n; ra_maxAttempts := maxAttempts rp;
                              delayMs := backoffDelay rp n (mathRandom env n);
                              causeHttp := causeHttpOf error;
                              causeConn := causeConnOf error |}]
             ++ rest)%list
      /\ (onRetryThrows env n = true -> rest = [] /\ r = Pending)
      /\ (onRetryThrows env n = false ->
          exists rest',
            rest = EvDelay (backoffDelay rp n (mathRandom env n)) :: rest'
            /\ (abortableDelay env n = true -> rest' = [] /\ r = Rejected error)
            /\ (abortableDelay env n = false ->
                exists rest'', rest' = EvInvoke (S n) :: rest'')).
Proof.
  induction fuel as [| fuel IH]; intros a r evs n error rp Hrun Hin Hop Hab Hrp Hlt;
    [discriminate |].
  cbn [retryLoop] in Hrun.
  destruct (operationFn env a) as [v | error' |] eqn:Hop'.
  { injection Hrun as <- <-. destruct Hin as [[= <-] | []]. congruence. }
  2: { injection Hrun as <- <-. destruct Hin as [[= <-] | []]. congruence. }
  destruct (abortedAtCatch env a) eqn:Hab'.
  { injection Hrun as <- <-. destruct Hin as [[= <-] | []]. congruence. }
  destruct (selectRetryProfile error') as [rp' |] eqn:Hrp'.
  2: { injection Hrun as <- <-. destruct Hin as [[= <-] | []]. congruence. }
  destruct (Nat.leb_spec (maxAttempts rp') a).
  { injection Hrun as <- <-. destruct Hin as [[= <-] | []].
    assert (error' = error) by congruence. subst. assert (rp' = rp) by congruence. subst. lia. }
  destruct (onRetryThrows env a) eqn:Hcb.
  { injection Hrun as <- <-.
    destruct Hin as [[= <-] | [[=] | []]].
    assert (error' = error) by congruence. subst. assert (rp' = rp) by congruence. subst.
    exists [], []. split; [reflexivity |]. split; [auto | congruence]. }
  destruct (abortableDelay env a) eqn:Hdl.
  - injection Hrun as <- <-.
    destruct Hin as [[= <-] | [[=] | [[=] | []]]].
    assert (error' = error) by congruence. subst. assert (rp' = rp) by congruence. subst.
    exists [], [EvDelay (backoffDelay rp a (mathRandom env a))].
    split; [reflexivity |]. split; [congruence |]. intros _.
    eexists. split; [reflexivity |]. split; [auto | congruence].
  - destruct (retryLoop env fuel (S a)) as [[r' evs'] |] eqn:Hnext; [| discriminate].
    cbn [after] in Hrun. injection Hrun as <- <-.
    destruct Hin as [[= <-] | [[=] | [[=] | Hin]]].
    + assert (error' = error) by congruence. subst. assert (rp' = rp) by congruence. subst.
      exists [], (EvDelay (backoffDelay rp a (mathRandom env a)) :: evs').
      split; [reflexivity |]. split; [congruence |]. intros _.
      eexists. split; [reflexivity |]. split; [congruence |]. intros _.
      (* the next iteration starts by invoking the operation *)
      destruct fuel as [| fuel']; [discriminate |]. cbn [retryLoop] in Hnext.
      destruct (operationFn env (S a)) as [v2 | error2 |];
        [injection Hnext as <- <-; eauto | | injection Hnext as <- <-; eauto].
      destruct (abortedAtCatch env (S a)); [injection Hnext as <- <-; eauto |].
      destruct (selectRetryProfile error2) as [rp2 |]; [| injection Hnext as <- <-; eauto].
      destruct (maxAttempts rp2 <=? S a)%nat; [injection Hnext as <- <-; eauto |].
      destruct (onRetryThrows env (S a)); [injection Hnext as <- <-; eauto |].
      destruct (abortableDelay env (S a)); [injection Hnext as <- <-; eauto |].
      destruct (retryLoop env fuel' (S (S a))) as [[r'' evs''] |]; [| discriminate].
      cbn [after] in Hnext. injection Hnext as <- <-. eauto.
    + destruct (IH _ _ _ _ _ _ Hnext Hin Hop Hab Hrp Hlt) as (before & rest & -> & Hrest).
      eexists (_ :: _ :: _ :: before), rest. split; [reflexivity | exact Hrest].
Qed.

(** X2. The scheduler never gives up early of its own.  If an attempt
    that the run makes fails with an error of profile [rp] while the
    signal is not set and [rp] has attempts left, then the retry is
    announced to [onRetry] as attempt [n + 1] of [maxAttempts rp], with a
    delay and the cause (HTTP status, category) of that failure.  If
    [onRetry] throws, nothing follows and the promise is left pending.
    If it returns, the scheduler waits for exactly the announced delay;
    and unless the signal fires during that wait, in which case the
    promise rejects with this error, the next thing it does is invoke the
    operation again. *)
Theorem createRetryablePromise_retries_while_allowed env (n : nat) (error : ErrorValue)
    (rp : RetryProfile) :
  In (EvInvoke n) (traceOf (createRetryablePromise env)) ->
  operationFn env n = Rejected error ->
  abortedAtCatch env n = false ->
  selectRetryProfile error = Some rp ->
  (n < maxAttempts rp)%nat ->
  exists (d : Q) r before rest,
    createRetryablePromise env
    = Some (r, (before
                ++ [EvInvoke n;
                    EvOnRetry {| attempt := S n; ra_maxAttempts := maxAttempts rp;
                                 delayMs := d;
                                 causeHttp := causeHttpOf error;
                                 causeConn := causeConnOf error |}]
                ++ rest)%list)
    /\ (onRetryThrows env n = true -> rest = [] /\ r = Pending)
    /\ (onRetryThrows env n = false ->
        exists rest',
          rest = EvDelay d :: rest'
          /\ (abortableDelay env n = true -> rest' = [] /\ r = Rejected error)
          /\ (abortableDelay env n = false ->
              exists rest'', rest' = EvInvoke (S n) :: rest'')).
Proof.
  intros Hin Hop Hab Hrp Hlt.
  destruct (createRetryablePromise env) as [[r evs] |] eqn:Hrun; [| destruct Hin].
  cbn [traceOf] in Hin. unfold createRetryablePromise in Hrun.
  destruct (retryLoop_continues _ _ _ _ _ _ _ _ Hrun Hin Hop Hab Hrp Hlt)
    as (before & rest & -> & Hrest).
  exists (backoffDelay rp n (mathRandom env n)), r, before, rest.
  split; [reflexivity | exact Hrest].
Qed.

(** A run whose attempts [a .. k-1] fail retryably, undisturbed, and whose
    attempt [k] succeeds. *)
Lemma retryLoop_resolves env (v : T) (k : nat) :
  operationFn env k = Resolved v ->
  (forall j, (1 <= j < k)%nat ->
     exists error rp,
       operationFn env j = Rejected error
       /\ selectRetryProfile error = Some rp /\ (j < maxAttempts rp)%nat
       /\ abortedAtCatch env j = false /\ onRetryThrows env j = false
       /\ abortedInDelay env j = false) ->
  forall d a fuel,
    (1 <= a)%nat -> (a + d = k)%nat -> (d < fuel)%nat ->
    exists evs,
      retryLoop env fuel a = Some (Resolved v, evs)
      /\ invocations evs = S d /\ retries evs = d
      /\ List.last evs (EvInvoke 0) = EvInvoke k.
Proof.
  intros Hok Hfail. induction d as [| d IH]; intros a fuel Ha Hk Hfuel.
  - destruct fuel as [| fuel]; [lia |]. replace a with k by lia.
    exists [EvInvoke k]. cbn [retryLoop]. rewrite Hok. repeat split.
  - destruct fuel as [| fuel]; [lia |].
    destruct (Hfail a) as (error & rp & Hop & Hrp & Hlt & Hab & Hcb & Hdl); [lia |].
    destruct (IH (S a) fuel) as (evs & Hrun & Hinv & Hret & Hlast); [lia | lia | lia |].
    rewrite (retryLoop_retry _ _ _ _ rp Hop Hab Hrp Hlt Hcb Hdl), Hrun. cbn [after].
    eexists. split; [reflexivity |]. split; [| split].
    + cbn [app]. rewrite invocations_cons_invoke.
      unfold invocations in *. cbn [List.filter isInvoke]. now rewrite Hinv.
    + unfold retries in *. cbn [app List.filter isOnRetry List.length]. now rewrite Hret.
    + destruct evs as [| ev evs]; [discriminate |]. cbn [app]. exact Hlast.
Qed.

(** X3. Success after retries.  If attempts 1 to [k - 1] fail with
    retryable errors whose profiles still have attempts left, the signal
    stays quiet, the announcements of the retries return, and attempt [k]
    succeeds with [v], then the promise resolves with [v] after exactly
    [k] invocations and [k - 1] announced retries, the successful
    invocation being the last thing that happens. *)
Theorem createRetryablePromise_resolves_after_retries env (v : T) (k : nat) :
  (1 <= k)%nat ->
  operationFn env k = Resolved v ->
  (forall j, (1 <= j < k)%nat ->
     exists error rp,
       operationFn env j = Rejected error
       /\ selectRetryProfile error = Some rp /\ (j < maxAttempts rp)%nat
       /\ abortedAtCatch env j = false /\ onRetryThrows env j = false
       /\ abortedInDelay env j = false) ->
  exists evs,
    createRetryablePromise env = Some (Resolved v, evs)
    /\ invocations evs = k /\ retries evs = (k - 1)%nat
    /\ List.last evs (EvInvoke 0) = EvInvoke k.
Proof.
  intros Hk Hok Hfail.
  assert (Hk4 : (k <= 4)%nat).
  { destruct (Nat.le_gt_cases k 1) as [| Hgt]; [lia |].
    destruct (Hfail (k - 1)%nat) as (error & rp & _ & Hrp & Hlt & _); [lia |].
    pose proof (maxAttempts_range _ _ Hrp). lia. }
  destruct (retryLoop_resolves env v k Hok Hfail (k - 1) 1 loopBound)
    as (evs & Hrun & Hinv & Hret & Hlast); [lia | lia | unfold loopBound; lia |].
  exists evs. unfold createRetryablePromise. repeat split; auto. lia.
Qed.

End SchedulerRuns.

Section SchedulerWaits.
Import Js Retrier RetrierRuns.
Local Open Scope Q_scope.
Context {T : Type}.
Implicit Types (env : Env T).

(** Both profiles have jitter, so every delay is rounded to a whole number
    of milliseconds and is at least 1. *)
Lemma backoffDelay_whole (rp : RetryProfile) (a : nat) (random : Q) :
  In rp RETRY_PROFILES ->
  exists z, (1 <= z)%Z /\ backoffDelay rp a random = inject_Z z.
Proof.
  intros [<- | [<- | []]]; unfold backoffDelay;
    (destruct (Qlt_le_dec 0 _) as [H | H];
     [eexists; split; [| reflexivity]; lia | exfalso; vm_compute in H; auto]).
Qed.

(** The wait after failed attempt [a] against what is left of the budget. *)
Lemma backoffDelay_budget (rp : RetryProfile) (a : nat) (random : Q) :
  In rp RETRY_PROFILES -> (1 <= a < maxAttempts rp)%nat -> 0 <= random <= 1 ->
  backoffDelay rp a random <= 6000
  /\ backoffDelay rp a random + longestWaitFrom (S a) <= longestWaitFrom a.
Proof.
  intros Hrp Ha Hr.
  destruct (backoffDelay_within_bounds rp a random Hrp Ha Hr) as (_ & Hup & _).
  revert Hup. generalize (backoffDelay rp a random). intros d Hup.
  assert (Hcases : (rp = network /\ (a = 1 \/ a = 2)%nat)
                   \/ (rp = server /\ (a = 1 \/ a = 2 \/ a = 3)%nat)).
  { destruct Hrp as [<- | [<- | []]]; cbn in Ha; [left | right]; split; auto; lia. }
  destruct Hcases as [[-> [-> | ->]] | [-> [-> | [-> | ->]]]];
    cbn [longestWaitFrom];
    match type of Hup with
    | d <= ?b => let v := eval vm_compute in b in
                 assert (Hd : d <= v) by (eapply Qle_trans; [exact Hup |]; vm_compute; discriminate)
    end; clear Hup; split; lra.
Qed.

Lemma delays_retry (a : nat) (info : RetryAttempt) (d : Q) (evs : list Event) :
  delays (EvInvoke a :: EvOnRetry info :: EvDelay d :: evs) = d :: delays evs.
Proof. reflexivity. Qed.

Lemma invokedAttempts_retry (a : nat) (info : RetryAttempt) (d : Q) (evs : list Event) :
  invokedAttempts (EvInvoke a :: EvOnRetry info :: EvDelay d :: evs)
  = a :: invokedAttempts evs.
Proof. reflexivity. Qed.

Lemma retryLoop_waits env fuel :
  (forall k, 0 <= mathRandom env k <= 1) ->
  forall a r evs,
    (1 <= a)%nat ->
    retryLoop env fuel a = Some (r, evs) ->
    (forall ms, In (EvDelay ms) evs -> exists z, (1 <= z <= 6000)%Z /\ ms = inject_Z z)
    /\ totalDelay evs <= longestWaitFrom a.
Proof.
  intros Hrandom. induction fuel as [| fuel IH]; intros a r evs Ha Hrun; [discriminate |].
  cbn [retryLoop] in Hrun.
  assert (Hnonneg : 0 <= longestWaitFrom a).
  { destruct a as [| [| [| [| a]]]]; cbn; lra. }
  assert (Hstop : forall s, Some (s, [EvInvoke a]) = Some (r, evs) ->
            (forall ms, In (EvDelay ms) evs -> exists z, (1 <= z <= 6000)%Z /\ ms = inject_Z z)
            /\ totalDelay evs <= longestWaitFrom a).
  { intros s [= <- <-]. split; [intros ms [[=] | []] | exact Hnonneg]. }
  destruct (operationFn env a) as [v | error |] eqn:Hop;
    [exact (Hstop _ Hrun) | | exact (Hstop _ Hrun)].
  destruct (abortedAtCatch env a); [exact (Hstop _ Hrun) |].
  destruct (selectRetryProfile error) as [rp |] eqn:Hrp; [| exact (Hstop _ Hrun)].
  destruct (Nat.leb_spec (maxAttempts rp) a); [exact (Hstop _ Hrun) |].
  assert (Hprofile : In rp RETRY_PROFILES).
  { destruct (selectRetryProfile_range _ _ Hrp) as [-> | ->]; cbn; auto. }
  destruct (backoffDelay_whole rp a (mathRandom env a) Hprofile) as (z & Hz & Hd).
  destruct (backoffDelay_budget rp a (mathRandom env a) Hprofile) as [H6000 Hbudget];
    [lia | apply Hrandom |].
  assert (Hz' : (1 <= z <= 6000)%Z).
  { split; [exact Hz |]. rewrite Hd in H6000. change 6000 with (inject_Z 6000) in H6000.
    now rewrite <- Zle_Qle in H6000. }
  assert (Hnext0 : 0 <= longestWaitFrom (S a)).
  { destruct a as [| [| [| a]]]; cbn; lra. }
  destruct (onRetryThrows env a).
  { injection Hrun as <- <-. split.
    - intros ms [[=] | [[=] | []]].
    - unfold totalDelay. cbn. exact Hnonneg. }
  destruct (abortableDelay env a).
  - injection Hrun as <- <-. split.
    + intros ms [[=] | [[=] | [[= <-] | []]]]. eauto.
    + unfold totalDelay. cbn. lra.
  - destruct (retryLoop env fuel (S a)) as [[r' evs'] |] eqn:Hnext; [| discriminate].
    cbn [after] in Hrun. injection Hrun as <- <-.
    destruct (IH (S a) r' evs') as [Heach Htotal]; [lia | exact Hnext |]. split.
    + intros ms [[=] | [[=] | [[= <-] | Hin]]]; eauto.
    + unfold totalDelay in *. cbn [app]. rewrite delays_retry.
      cbn [fold_right]. lra.
Qed.

(** X4. With [Math.random] in [[0, 1]], a call never waits long: every
    wait between attempts is a whole number of milliseconds between 1 and
    6000, so below the 10 s a heartbeat tolerates; there are at most three
    waits; and all the waits of a call together take at most 10.5 s. *)
Theorem createRetryablePromise_waits_bounded env :
  (forall k, 0 <= mathRandom env k <= 1) ->
  (forall ms, In (EvDelay ms) (traceOf (createRetryablePromise env)) ->
     exists z, (1 <= z <= 6000)%Z /\ ms = inject_Z z)
  /\ (List.length (delays (traceOf (createRetryablePromise env))) <= 3)%nat
  /\ totalDelay (traceOf (createRetryablePromise env)) <= 10500.
Proof.
  intros Hrandom.
  destruct (createRetryablePromise_settles env) as (r & evs & Hrun).
  rewrite Hrun. cbn [traceOf].
  destruct (retryLoop_waits env _ Hrandom _ _ _ (le_n 1) Hrun) as [Heach Htotal].
  split; [exact Heach |]. split; [| exact Htotal].
  (* a wait is followed by an invocation or is the last event *)
  destruct (retryLoop_shape _ _ _ _ _ Hrun) as (k & Hk & Hbound & Hinv & _).
  assert (Hcount : forall fuel a r' evs',
             retryLoop env fuel a = Some (r', evs') ->
             (List.length (delays evs') <= List.length (invokedAttempts evs'))%nat
             /\ (List.length (delays evs') < List.length (invokedAttempts evs')
                 \/ exists error rp, operationFn env (a + List.length (delays evs') - 1)
                                     = Rejected error
                                     /\ selectRetryProfile error = Some rp
                                     /\ (a + List.length (delays evs') - 1 < maxAttempts rp))%nat).
  { clear. induction fuel as [| fuel IH]; intros a r evs Hrun; [discriminate |].
    cbn [retryLoop] in Hrun.
    destruct (operationFn env a) as [v | error |] eqn:Hop;
      [injection Hrun as <- <-; cbn; split; [lia | left; lia] |
      | injection Hrun as <- <-; cbn; split; [lia | left; lia]].
    destruct (abortedAtCatch env a);
      [injection Hrun as <- <-; cbn; split; [lia | left; lia] |].
    destruct (selectRetryProfile error) as [rp |] eqn:Hrp;
      [| injection Hrun as <- <-; cbn; split; [lia | left; lia]].
    destruct (Nat.leb_spec (maxAttempts rp) a);
      [injection Hrun as <- <-; cbn; split; [lia | left; lia] |].
    destruct (onRetryThrows env a);
      [injection Hrun as <- <-; cbn; split; [lia | left; lia] |].
    destruct (abortableDelay env a).
    - injection Hrun as <- <-. cbn. split; [lia |]. right. exists error, rp.
      replace (a + 1 - 1)%nat with a by lia. auto.
    - destruct (retryLoop env fuel (S a)) as [[r' evs'] |] eqn:Hnext; [| discriminate].
      cbn [after] in Hrun. injection Hrun as <- <-.
      destruct (IH _ _ _ Hnext) as [Hle Hor].
      cbn [app]. rewrite delays_retry, invokedAttempts_retry.
      cbn [List.length]. split; [lia |].
      destruct Hor as [Hlt | (e & rp' & He & Hrp' & Hlt)]; [left; lia |].
      right. exists e, rp'.
      replace (a + S (List.length (delays evs')) - 1)%nat
        with (S a + List.length (delays evs') - 1)%nat by lia. auto. }
  destruct (Hcount _ _ _ _ Hrun) as [Hle Hor].
  rewrite Hinv, length_seq in Hle, Hor.
  destruct Hor as [Hlt | (e & rp & _ & Hrp & Hlt)]; [lia |].
  pose proof (maxAttempts_range _ _ Hrp). lia.
Qed.

End SchedulerWaits.

(** A server that answers 503 twice and then succeeds. *)
Lemma createRetryablePromise_retries_while_allowed_witness :
  exists (d : Q) r before rest,
    Retrier.createRetryablePromise RetrierRuns.succeedsAtThird
    = Some (r, (before
                ++ [Retrier.EvInvoke 2;
                    Retrier.EvOnRetry
                      {| Retrier.attempt := 3; Retrier.ra_maxAttempts := 4;
                         Retrier.delayMs := d;
                         Retrier.causeHttp := Some 503%Z;
                         Retrier.causeConn := Some "http" |}]
                ++ rest)%list)
    /\ (false = true -> rest = [] /\ r = Retrier.Pending)
    /\ (false = false ->
        exists rest',
          rest = Retrier.EvDelay d :: rest'
          /\ (false = true ->
              rest' = [] /\ r = Retrier.Rejected Retrier.serviceUnavailable)
          /\ (false = false -> exists rest'', rest' = Retrier.EvInvoke 3 :: rest'')).
Proof.
  apply (createRetryablePromise_retries_while_allowed RetrierRuns.succeedsAtThird 2
           Retrier.serviceUnavailable Retrier.server).
  - vm_compute. tauto.
  - reflexivity.
  - reflexivity.
  - reflexivity.
  - cbn. lia.
Defined.

Lemma createRetryablePromise_resolves_after_retries_witness :
  exists evs,
    Retrier.createRetryablePromise RetrierRuns.succeedsAtThird
    = Some (Retrier.Resolved 3%nat, evs)
    /\ Retrier.invocations evs = 3%nat /\ Retrier.retries evs = (3 - 1)%nat
    /\ List.last evs (Retrier.EvInvoke 0) = Retrier.EvInvoke 3.
Proof.
  apply (createRetryablePromise_resolves_after_retries RetrierRuns.succeedsAtThird 3%nat 3).
  - lia.
  - reflexivity.
  - intros j Hj. exists Retrier.serviceUnavailable, Retrier.server.
    assert (Hj' : j = 1%nat \/ j = 2%nat) by lia.
    destruct Hj' as [-> | ->]; cbn; repeat split; lia.
Defined.

Lemma createRetryablePromise_waits_bounded_witness :
  (forall ms, In (Retrier.EvDelay ms)
                (Retrier.traceOf (Retrier.createRetryablePromise RetrierRuns.succeedsAtThird)) ->
     exists z, (1 <= z <= 6000)%Z /\ ms = inject_Z z)
  /\ (List.length (RetrierRuns.delays
                     (Retrier.traceOf
                        (Retrier.createRetryablePromise RetrierRuns.succeedsAtThird))) <= 3)%nat
  /\ (RetrierRuns.totalDelay
        (Retrier.traceOf (Retrier.createRetryablePromise RetrierRuns.succeedsAtThird))
      <= 10500)%Q.
Proof.
  apply (createRetryablePromise_waits_bounded RetrierRuns.succeedsAtThird).
  intros k. cbn. split; apply Qle_bool_imp_le; reflexivity.
Defined.

(* ===================================================================== *)
(** * Properties of the parameter utilities *)
(* ===================================================================== *)

Section ParameterSpecProperties.
Import Js LlmsParameters LlmsParameterSpecs.
Implicit Types (dest : DModelParameterValues) (spec : DModelParameterSpec)
  (specs : list DModelParameterSpec) (p : string) (cur : option JsVal).

Lemma lookup_assign dest (q : string) (v : JsVal) p :
  assign q v dest !! p = if String.eqb q p then assignedEntry p (dest !! p) v else dest !! p.
Proof.
  unfold assign, assignedEntry.
  destruct (String.eqb_spec q p) as [<- | Hne].
  - destruct (dest !! q) eqn:Hq.
    + apply lookup_insert_eq.
    + destruct (String.eqb q "__proto__"); [exact Hq | apply lookup_insert_eq].
  - destruct (dest !! q); [now apply lookup_insert_ne |].
    destruct (String.eqb q "__proto__"); [reflexivity | now apply lookup_insert_ne].
Qed.

(** One spec, key by key. *)
Lemma applyParameterSpec_lookup (overwriteExisting : bool) dest spec p :
  applyParameterSpec overwriteExisting dest spec !! p
  = stepEntry overwriteExisting p (dest !! p) spec.
Proof.
  unfold applyParameterSpec, stepEntry, availableInitialValue, hasKey.
  destruct (String.eqb_spec (paramId spec) p) as [<- | Hne].
  - destruct (negb overwriteExisting
              && match dest !! paramId spec with
                 | Some _ => true
                 | None => inherited (paramId spec)
                 end); [reflexivity |].
    destruct (isDefined (initialValue spec)).
    { rewrite lookup_assign, String.eqb_refl. reflexivity. }
    destruct (registryDef (paramId spec)) as [def |]; [| reflexivity].
    destruct (r_initialValue def) as [w |]; [| reflexivity].
    destruct (isDefined w); [| reflexivity].
    rewrite lookup_assign, String.eqb_refl. reflexivity.
  - apply String.eqb_neq in Hne.
    destruct (negb overwriteExisting && _); [reflexivity |].
    destruct (isDefined (initialValue spec)); [now rewrite lookup_assign, Hne |].
    destruct (registryDef (paramId spec)) as [def |]; [| reflexivity].
    destruct (r_initialValue def) as [w |]; [| reflexivity].
    destruct (isDefined w); [now rewrite lookup_assign, Hne | reflexivity].
Qed.

(** All the specs, key by key. *)
Lemma applyModelParameterSpecsInitialValues_lookup (overwriteExisting : bool) specs :
  forall dest p,
    applyModelParameterSpecsInitialValues dest specs overwriteExisting !! p
    = fold_left (stepEntry overwriteExisting p) specs (dest !! p).
Proof.
  unfold applyModelParameterSpecsInitialValues.
  induction specs as [| spec specs IH]; intros dest p; [reflexivity |].
  cbn [fold_left]. rewrite IH, applyParameterSpec_lookup. reflexivity.
Qed.

Lemma stepEntry_keeps specs p (v : JsVal) :
  fold_left (stepEntry false p) specs (Some v) = Some v.
Proof.
  induction specs as [| spec specs IH]; [reflexivity |].
  cbn [fold_left]. unfold stepEntry at 2.
  destruct (String.eqb (paramId spec) p); exact IH.
Qed.

(** X5. Without [overwriteExisting], applying the initial values of any
    list of specs never changes a parameter that the destination already
    has: whatever value it holds, [undefined] and [null] included, it
    holds afterwards. *)
Theorem applyModelParameterSpecsInitialValues_keeps_existing dest specs p (v : JsVal) :
  dest !! p = Some v ->
  applyModelParameterSpecsInitialValues dest specs false !! p = Some v.
Proof.
  intros Hp. rewrite applyModelParameterSpecsInitialValues_lookup, Hp.
  apply stepEntry_keeps.
Qed.

Lemma stepEntry_other (overwriteExisting : bool) specs p cur :
  ~ In p (map paramId specs) ->
  fold_left (stepEntry overwriteExisting p) specs cur = cur.
Proof.
  revert cur. induction specs as [| spec specs IH]; intros cur Hnot; [reflexivity |].
  cbn [fold_left]. unfold stepEntry at 2.
  destruct (String.eqb_spec (paramId spec) p) as [Heq | Hne].
  - exfalso. apply Hnot. left. exact Heq.
  - apply IH. intros Hin. apply Hnot. now right.
Qed.

(** X6. When no parameter is listed twice, the result is read off the
    specs one by one.  A parameter that no spec lists is left as it was.
    A listed parameter that the destination already has, as [in] sees it
    (an own key, or a name inherited from [Object.prototype] such as
    [toString]), is left as it was unless [overwriteExisting] is set;
    otherwise it gets the initial value of its spec, or else the initial
    value of the registry, or else, when neither exists, it is left as it
    was (absent, if it was absent).  The one key an assignment does not
    create is ['__proto__'], which the inherited setter takes. *)
Theorem applyModelParameterSpecsInitialValues_result (overwriteExisting : bool) dest specs :
  List.NoDup (map paramId specs) ->
  (forall p, ~ In p (map paramId specs) ->
     applyModelParameterSpecsInitialValues dest specs overwriteExisting !! p = dest !! p)
  /\ (forall spec, In spec specs ->
        applyModelParameterSpecsInitialValues dest specs overwriteExisting !! paramId spec
        = if negb overwriteExisting && hasKey dest (paramId spec)
          then dest !! paramId spec
          else match availableInitialValue spec, dest !! paramId spec with
               | Some v, Some _ => Some v
               | Some v, None =>
                   if String.eqb (paramId spec) "__proto__" then None else Some v
               | None, cur => cur
               end).
Proof.
  intros Hnodup. split.
  - intros p Hnot. rewrite applyModelParameterSpecsInitialValues_lookup.
    now apply stepEntry_other.
  - intros spec Hin. rewrite applyModelParameterSpecsInitialValues_lookup.
    unfold hasKey. generalize (dest !! paramId spec). intros cur.
    revert cur. induction specs as [| spec0 specs IH]; intros cur; [destruct Hin |].
    cbn [map] in Hnodup. apply NoDup_cons_iff in Hnodup as [Hfresh Hnodup].
    cbn [fold_left]. destruct Hin as [-> | Hin].
    + rewrite stepEntry_other by exact Hfresh.
      unfold stepEntry, assignedEntry. rewrite String.eqb_refl.
      destruct (negb overwriteExisting && _); [reflexivity |].
      destruct (availableInitialValue spec), cur; reflexivity.
    + assert (Hne : paramId spec0 <> paramId spec).
      { intros Heq. apply Hfresh. rewrite Heq. now apply in_map. }
      unfold stepEntry at 2. apply String.eqb_neq in Hne. rewrite Hne.
      now apply IH.
Qed.



(** The three layers that [getAllModelParameterValues] merges, as
    [getModelParameterValueWithFallback] reads them. *)
Lemma definedIn_lookup (values : option DModelParameterValues) p :
  definedIn values p
  = match default ∅ values !! p with
    | Some v => if isDefined v then Some v else None
    | None => None
    end.
Proof.
  destruct values as [o |]; cbn [definedIn default]; [reflexivity |].
  now rewrite lookup_empty.
Qed.

(** X8. [getModelParameterValueWithFallback], given the implicit runtime
    fallback of the parameter as its fallback value, returns what
    [getAllModelParameterValues] holds for that parameter, provided neither
    layer holds [undefined] under it.  The two differ exactly there: a
    layer that holds [undefined] is skipped by the former, so that the
    user layer then counts for nothing, while it shadows the layers below
    in the latter, which then reads [undefined]. *)
Theorem getModelParameterValueWithFallback_agrees p
    (initial user : option DModelParameterValues) :
  (~ holdsUndefined user p -> ~ holdsUndefined initial p ->
   getModelParameterValueWithFallback p initial user
     (prop LLMImplicitParamersRuntimeFallback p)
   = prop (getAllModelParameterValues initial user) p)
  /\ (holdsUndefined user p ->
      forall fallbackValue,
        getModelParameterValueWithFallback p initial user fallbackValue
        = getModelParameterValueWithFallback p initial None fallbackValue
        /\ prop (getAllModelParameterValues initial user) p = VUndefined).
Proof.
  unfold holdsUndefined, getModelParameterValueWithFallback, prop.
  rewrite getAllModelParameterValues_lookup. cbn [firstDefined].
  rewrite !definedIn_lookup.
  change (default ∅ (Some LLMImplicitParamersRuntimeFallback))
    with LLMImplicitParamersRuntimeFallback.
  split.
  - intros Hu Hi.
    destruct (default ∅ user !! p) as [[] |];
      try reflexivity; try (exfalso; now apply Hu);
      destruct (default ∅ initial !! p) as [[] |];
      try reflexivity; try (exfalso; now apply Hi);
      now destruct (LLMImplicitParamersRuntimeFallback !! p).
  - intros Hu fallbackValue. rewrite Hu. cbn [isDefined default].
    split; reflexivity.
Qed.

End ParameterSpecProperties.

(** A destination that already has a thinking budget keeps it. *)
Lemma applyModelParameterSpecsInitialValues_keeps_existing_witness :
  LlmsParameterSpecs.applyModelParameterSpecsInitialValues
    {[ "llmVndAntThinkingBudget" := VNull ]} LlmsParameterSpecs.thinkingSpecs false
    !! "llmVndAntThinkingBudget" = Some VNull.
Proof.
  apply (applyModelParameterSpecsInitialValues_keeps_existing
           {[ "llmVndAntThinkingBudget" := VNull ]} LlmsParameterSpecs.thinkingSpecs
           "llmVndAntThinkingBudget" VNull).
  reflexivity.
Defined.

(** The two specs of the example on an empty destination: the budget of
    the spec, and the registry's default for restoring Markdown. *)
Lemma applyModelParameterSpecsInitialValues_result_witness :
  LlmsParameterSpecs.applyModelParameterSpecsInitialValues ∅
    LlmsParameterSpecs.thinkingSpecs true !! "llmVndAntThinkingBudget" = Some (VNum 8192)
  /\ LlmsParameterSpecs.applyModelParameterSpecsInitialValues ∅
       LlmsParameterSpecs.thinkingSpecs true !! "llmVndOaiRestoreMarkdown"
     = Some (VBool true)
  /\ LlmsParameterSpecs.applyModelParameterSpecsInitialValues ∅
       LlmsParameterSpecs.thinkingSpecs true !! "llmTemperature" = None.
Proof.
  destruct (applyModelParameterSpecsInitialValues_result true ∅
              LlmsParameterSpecs.thinkingSpecs) as [Hother Hlisted].
  - cbn. repeat constructor; cbn; intuition discriminate.
  - split; [| split].
    + apply (Hlisted {| LlmsParameterSpecs.paramId := "llmVndAntThinkingBudget";
                        LlmsParameterSpecs.initialValue := VNum 8192 |}).
      cbn. auto.
    + apply (Hlisted {| LlmsParameterSpecs.paramId := "llmVndOaiRestoreMarkdown";
                        LlmsParameterSpecs.initialValue := VUndefined |}).
      cbn. auto.
    + rewrite Hother; [reflexivity |]. cbn. intuition discriminate.
Defined.

(** A user who set the response tokens: both read 1024. *)
Lemma getModelParameterValueWithFallback_agrees_witness :
  LlmsParameterSpecs.getModelParameterValueWithFallback "llmResponseTokens" None
    (Some {[ "llmResponseTokens" := VNum 1024 ]})
    (prop LLMImplicitParamersRuntimeFallback "llmResponseTokens")
  = prop (getAllModelParameterValues None (Some {[ "llmResponseTokens" := VNum 1024 ]}))
      "llmResponseTokens".
Proof.
  apply (proj1 (getModelParameterValueWithFallback_agrees "llmResponseTokens" None
                  (Some {[ "llmResponseTokens" := VNum 1024 ]})));
    intros H; vm_compute in H; discriminate.
Defined.

(* ===================================================================== *)
(** * Properties of the models store *)
(* ===================================================================== *)

Section ListFacts.
Context {A : Type}.

Lemma find_app_first (f : A -> bool) (l1 l2 : list A) :
  List.find f (l1 ++ l2)%list
  = match List.find f l1 with Some x => Some x | None => List.find f l2 end.
Proof.
  induction l1 as [| x l1 IH]; [reflexivity |].
  cbn [app List.find]. now destruct (f x).
Qed.

(** A filter that lets through everything [f] accepts does not change
    what [find f] finds. *)
Lemma find_filter_through (f q : A -> bool) (l : list A) :
  (forall x, f x = true -> q x = true) ->
  List.find f (List.filter q l) = List.find f l.
Proof.
  intros Hq. induction l as [| x l IH]; [reflexivity |].
  cbn [List.filter List.find]. destruct (f x) eqn:Hf.
  - rewrite (Hq x Hf). cbn [List.find]. now rewrite Hf.
  - destruct (q x); [cbn [List.find]; now rewrite Hf | exact IH].
Qed.

(** A filter that stops everything [f] accepts leaves [find f] nothing. *)
Lemma find_filter_stopped (f q : A -> bool) (l : list A) :
  (forall x, f x = true -> q x = false) ->
  List.find f (List.filter q l) = None.
Proof.
  intros Hq. induction l as [| x l IH]; [reflexivity |].
  cbn [List.filter]. destruct (q x) eqn:Hqx; [| exact IH].
  cbn [List.find]. destruct (f x) eqn:Hf; [| exact IH].
  rewrite (Hq x Hf) in Hqx. discriminate.
Qed.

Lemma find_map {B : Type} (g : A -> B) (f : B -> bool) (l : list A) :
  List.find f (map g l) = g <$> List.find (fun x => f (g x)) l.
Proof.
  induction l as [| x l IH]; [reflexivity |].
  cbn [map List.find]. now destruct (f (g x)).
Qed.

Lemma find_pointwise (f g : A -> bool) (l : list A) :
  (forall x, f x = g x) -> List.find f l = List.find g l.
Proof.
  intros Hfg. induction l as [| x l IH]; [reflexivity |].
  cbn [List.find]. now rewrite Hfg, IH.
Qed.

Lemma NoDup_map_filter {B : Type} (g : A -> B) (q : A -> bool) (l : list A) :
  List.NoDup (map g l) -> List.NoDup (map g (List.filter q l)).
Proof.
  induction l as [| x l IH]; intros Hnd; [constructor |].
  cbn [map] in Hnd. apply NoDup_cons_iff in Hnd as [Hfresh Hnd].
  cbn [List.filter]. destruct (q x); [| now apply IH].
  cbn [map]. constructor; [| now apply IH].
  intros Hin. apply Hfresh. apply in_map_iff in Hin as (y & Hy & Hin).
  apply filter_In in Hin as [Hin _]. apply in_map_iff. eauto.
Qed.

End ListFacts.

Section StoreModels.
Import Js LlmsParameters AixClient StoreLlms.
Implicit Types (E : StoreEnv) (state : LlmsStore) (llm : StoreLlms.DLLM)
  (id p : string).

(** The client finds in a world what the store holds. *)
Lemma findLLMOrThrow_of_store (W : World) state id :
  AixClient.llms W = map core (llms state) ->
  AixClient.findLLMOrThrow W id
  = match StoreLlms.findLLMOrThrow state id with
    | Returns llm => Returns (core llm)
    | Throws t => Throws t
    end.
Proof.
  intros HW. unfold AixClient.findLLMOrThrow, StoreLlms.findLLMOrThrow, findById.
  rewrite HW, find_map. unfold idOf.
  now destruct (List.find _ (llms state)).
Qed.

Lemma setWithAssignments_returns E (newLlms : list StoreLlms.DLLM)
    (withSources : list DModelsService) state state' :
  setWithAssignments E newLlms withSources state = Returns state' ->
  llms state' = newLlms /\ sources state' = withSources
  /\ confServiceId state' = confServiceId state.
Proof.
  unfold setWithAssignments.
  destruct (llmsHeuristicUpdateAssignments E _ _ _); [| discriminate].
  intros [= <-]. repeat split.
Qed.

Lemma findById_removed id (l : list StoreLlms.DLLM) :
  findById id (List.filter (fun llm => negb (String.eqb (idOf llm) id)) l) = None.
Proof.
  apply find_filter_stopped. intros x Hx. now rewrite Hx.
Qed.

Lemma findById_remove_other id id' (l : list StoreLlms.DLLM) :
  id' <> id ->
  findById id' (List.filter (fun llm => negb (String.eqb (idOf llm) id)) l)
  = findById id' l.
Proof.
  intros Hne. apply find_filter_through. intros x Hx.
  apply String.eqb_eq in Hx. rewrite Hx.
  apply String.eqb_neq in Hne. now rewrite Hne.
Qed.

(** X9. Once [removeLLM] has removed a model, [findLLMOrThrow] throws
    "not found" for its id, every other id is found exactly as before, and
    the services are untouched.  For the client this means that a
    generation asked of the removed model fails before anything is sent:
    no notification, no rate-limit hook, no transport call. *)
Theorem removeLLM_forgets_the_model E id state state' :
  removeLLM E id state = Returns state' ->
  StoreLlms.findLLMOrThrow state' id
  = Throws (newError ("Large Language Model " ++ id ++ " not found"))
  /\ (forall id', id' <> id ->
        StoreLlms.findLLMOrThrow state' id' = StoreLlms.findLLMOrThrow state id')
  /\ sources state' = sources state
  /\ (forall (W : World) aixChatGenerate (aixContextName : string) (aixStreaming : bool)
        clientOptions onStreamingUpdate,
        AixClient.llms W = map core (llms state') ->
        aixChatGenerateContent_DMessage W id aixChatGenerate aixContextName aixStreaming
          clientOptions onStreamingUpdate
        = ([], Throws (newError ("Large Language Model " ++ id ++ " not found")))).
Proof.
  intros Hremove. unfold removeLLM in Hremove.
  apply setWithAssignments_returns in Hremove as (Hllms & Hsources & _).
  assert (Hgone : StoreLlms.findLLMOrThrow state' id
                  = Throws (newError ("Large Language Model " ++ id ++ " not found"))).
  { unfold StoreLlms.findLLMOrThrow. now rewrite Hllms, findById_removed. }
  split; [exact Hgone |]. split; [| split; [exact Hsources |]].
  - intros id' Hne. unfold StoreLlms.findLLMOrThrow.
    now rewrite Hllms, findById_remove_other.
  - intros W aixChatGenerate aixContextName aixStreaming clientOptions onStreamingUpdate HW.
    unfold aixChatGenerateContent_DMessage.
    rewrite (findLLMOrThrow_of_store W state' id HW), Hgone. reflexivity.
Qed.

Lemma idOf_keepEditsOf state llm : idOf (keepEditsOf state llm) = idOf llm.
Proof.
  unfold keepEditsOf. destruct (findById _ _) as [existing |]; [| reflexivity].
  now destruct (userParametersOf existing).
Qed.

Lemma findById_keepEdits state id (incoming : list StoreLlms.DLLM) :
  findById id (map (keepEditsOf state) incoming)
  = keepEditsOf state <$> findById id incoming.
Proof.
  unfold findById. rewrite find_map. f_equal.
  induction incoming as [| x l IH]; [reflexivity |].
  cbn [List.find]. rewrite idOf_keepEditsOf. now rewrite IH.
Qed.

(** The models of the state [setLLMs] returns. *)
Lemma setLLMs_llms E (incoming : list StoreLlms.DLLM) (serviceId : string)
    (deleteExpiredVendorLlms keepUserEdits : bool) state state' :
  setLLMs E incoming serviceId deleteExpiredVendorLlms keepUserEdits state = Returns state' ->
  llms state'
  = ((if keepUserEdits then map (keepEditsOf state) incoming else incoming)
     ++ List.filter
          (fun llm =>
             negb (if findById (idOf llm)
                        (if keepUserEdits then map (keepEditsOf state) incoming else incoming)
                   is Some _ then true else false))
          (if deleteExpiredVendorLlms
           then List.filter (fun llm => negb (String.eqb (sIdOf llm) serviceId)) (llms state)
           else llms state))%list.
Proof.
  intros Hset. unfold setLLMs in Hset.
  now apply setWithAssignments_returns in Hset as (Hllms & _).
Qed.

Lemma findById_incoming (keepUserEdits : bool) state id (incoming : list StoreLlms.DLLM) :
  findById id (if keepUserEdits then map (keepEditsOf state) incoming else incoming)
  = (fun llm => if keepUserEdits then keepEditsOf state llm else llm)
      <$> findById id incoming.
Proof.
  destruct keepUserEdits.
  - apply findById_keepEdits.
  - now destruct (findById id incoming).
Qed.

(** X10. What the store holds after [setLLMs], id by id.  An incoming
    model takes the place of the stored model with its id, and with
    [keepUserEdits] it takes over that model's edits.  Under any other id
    the store finds what it found before; except that with
    [deleteExpiredVendorLlms] the models of the refreshed service that did
    not come in again are gone. *)
Theorem setLLMs_lookup E (incoming : list StoreLlms.DLLM) (serviceId : string)
    (deleteExpiredVendorLlms keepUserEdits : bool) state state' :
  setLLMs E incoming serviceId deleteExpiredVendorLlms keepUserEdits state = Returns state' ->
  forall id,
    findById id (llms state')
    = match findById id incoming with
      | Some llm => Some (if keepUserEdits then keepEditsOf state llm else llm)
      | None =>
          findById id
            (if deleteExpiredVendorLlms
             then List.filter (fun llm => negb (String.eqb (sIdOf llm) serviceId)) (llms state)
             else llms state)
      end.
Proof.
  intros Hset id. rewrite (setLLMs_llms _ _ _ _ _ _ _ Hset).
  unfold findById at 1. rewrite find_app_first.
  fold (findById id (if keepUserEdits then map (keepEditsOf state) incoming else incoming)).
  rewrite findById_incoming.
  destruct (findById id incoming) as [llm |] eqn:Hfound; [reflexivity |].
  cbn [fmap option_fmap option_map].
  apply find_filter_through. intros x Hx. apply String.eqb_eq in Hx.
  rewrite Hx, findById_incoming, Hfound. reflexivity.
Qed.

(** X11. Refreshing the models with [keepUserEdits] never loses an edit.
    If the stored model with the id of an incoming model has a user label,
    a hidden flag or user parameters, the model stored afterwards under
    that id has the same; what the stored model did not have is as the
    incoming model has it, and so is everything else. *)
Theorem setLLMs_keeps_user_edits E (incoming : list StoreLlms.DLLM) (serviceId : string)
    (deleteExpiredVendorLlms : bool) state state' id (llm existing : StoreLlms.DLLM) :
  setLLMs E incoming serviceId deleteExpiredVendorLlms true state = Returns state' ->
  findById id incoming = Some llm ->
  findById id (llms state) = Some existing ->
  exists kept,
    findById id (llms state') = Some kept
    /\ userLabel kept = match userLabel existing with
                        | Some l => Some l
                        | None => userLabel llm
                        end
    /\ userHidden kept = match userHidden existing with
                         | Some h => Some h
                         | None => userHidden llm
                         end
    /\ userParametersOf kept = match userParametersOf existing with
                               | Some u => Some u
                               | None => userParametersOf llm
                               end
    /\ idOf kept = id /\ sIdOf kept = sIdOf llm /\ vIdOf kept = vIdOf llm
    /\ interfaces (core kept) = interfaces (core llm)
    /\ initialParameters (core kept) = initialParameters (core llm)
    /\ pricing_chat (core kept) = pricing_chat (core llm).
Proof.
  intros Hset Hincoming Hexisting.
  exists (keepEditsOf state llm). split.
  { rewrite (setLLMs_llms _ _ _ _ _ _ _ Hset). unfold findById at 1.
    rewrite find_app_first. fold (findById id (map (keepEditsOf state) incoming)).
    now rewrite findById_keepEdits, Hincoming. }
  assert (Hid : idOf llm = id).
  { apply find_some in Hincoming as [_ Hid]. now apply String.eqb_eq in Hid. }
  unfold keepEditsOf. rewrite Hid, Hexisting.
  destruct (userParametersOf existing) as [u |]; cbn; repeat split; auto.
Qed.

Lemma map_idOf_preserved (f : StoreLlms.DLLM -> StoreLlms.DLLM) (l : list StoreLlms.DLLM) :
  (forall llm, idOf (f llm) = idOf llm) -> map idOf (map f l) = map idOf l.
Proof.
  intros Hf. rewrite map_map. apply map_ext. exact Hf.
Qed.

Lemma rehydrateLLM_id state llm (llm' : StoreLlms.DLLM) :
  rehydrateLLM state llm = Some llm' -> idOf llm' = idOf llm /\ sIdOf llm' = sIdOf llm.
Proof.
  unfold rehydrateLLM. destruct (findService _ _) as [service |]; [| discriminate].
  destruct (negb _); [discriminate |].
  destruct (nonEmpty (vIdOf llm)); intros [= <-]; split; reflexivity.
Qed.

Lemma uniqueIds_rehydrated state (l : list StoreLlms.DLLM) :
  uniqueIds l -> uniqueIds (omap (rehydrateLLM state) l).
Proof.
  unfold uniqueIds. induction l as [| x l IH]; intros Hnd; [constructor |].
  cbn [map] in Hnd. apply NoDup_cons_iff in Hnd as [Hfresh Hnd].
  cbn [omap list_omap]. fold (omap (rehydrateLLM state) l).
  destruct (rehydrateLLM state x) as [x' |] eqn:Hx; [| now apply IH].
  cbn [map]. constructor; [| now apply IH].
  destruct (rehydrateLLM_id _ _ _ Hx) as [-> _].
  intros Hin. apply Hfresh. clear -Hin.
  induction l as [| y l IH]; [destruct Hin |].
  cbn [omap list_omap] in Hin. fold (omap (rehydrateLLM state) l) in Hin.
  destruct (rehydrateLLM state y) as [y' |] eqn:Hy.
  - destruct Hin as [Hin | Hin].
    + left. destruct (rehydrateLLM_id _ _ _ Hy) as [<- _]. exact Hin.
    + right. now apply IH.
  - right. now apply IH.
Qed.

Lemma llms_onRehydrateStorage E state :
  llms (onRehydrateStorage E state) = omap (rehydrateLLM state) (llms state).
Proof.
  unfold onRehydrateStorage. cbn [chatLLMId fastLLMId].
  destruct (negb _ || negb _); [| reflexivity].
  now destruct (llmsHeuristicUpdateAssignments E _ _ _).
Qed.

(** X12. The store keeps the ids of its models distinct.  If they are
    distinct, they still are after [setLLMs] (given incoming models with
    distinct ids), [removeLLM], [removeService], [updateLLMUserParameters],
    [deleteLLMUserParameter] and [onRehydrateStorage]. *)
Theorem store_actions_keep_ids_unique E state :
  uniqueIds (llms state) ->
  (forall (incoming : list StoreLlms.DLLM) (serviceId : string)
          (deleteExpiredVendorLlms keepUserEdits : bool) state',
      uniqueIds incoming ->
      setLLMs E incoming serviceId deleteExpiredVendorLlms keepUserEdits state = Returns state' ->
      uniqueIds (llms state'))
  /\ (forall id state', removeLLM E id state = Returns state' -> uniqueIds (llms state'))
  /\ (forall id state', removeService E id state = Returns state' -> uniqueIds (llms state'))
  /\ (forall id (partialUserParameters : DModelParameterValues),
        uniqueIds (llms (updateLLMUserParameters id partialUserParameters state)))
  /\ (forall id p, uniqueIds (llms (deleteLLMUserParameter id p state)))
  /\ uniqueIds (llms (onRehydrateStorage E state)).
Proof.
  intros Hunique. unfold uniqueIds in *. repeat split.
  - intros incoming serviceId deleteExpiredVendorLlms keepUserEdits state' Hincoming Hset.
    rewrite (setLLMs_llms _ _ _ _ _ _ _ Hset), map_app.
    set (incoming' := if keepUserEdits then map (keepEditsOf state) incoming else incoming).
    assert (Hids : map idOf incoming' = map idOf incoming).
    { subst incoming'. destruct keepUserEdits; [| reflexivity].
      apply map_idOf_preserved. apply idOf_keepEditsOf. }
    apply List.NoDup_app.
    + now rewrite Hids.
    + apply NoDup_map_filter. destruct deleteExpiredVendorLlms; [| exact Hunique].
      now apply NoDup_map_filter.
    + intros a Ha Hb. apply in_map_iff in Hb as (x & <- & Hx).
      apply filter_In in Hx as [_ Hq].
      destruct (findById (idOf x) incoming') as [y |] eqn:Hfind; [discriminate |].
      apply in_map_iff in Ha as (y & Hy & Hin).
      pose proof (find_none _ _ Hfind y Hin) as Hno. cbn in Hno.
      rewrite Hy, String.eqb_refl in Hno. discriminate.
  - intros id state' Hremove. unfold removeLLM in Hremove.
    apply setWithAssignments_returns in Hremove as (-> & _).
    now apply NoDup_map_filter.
  - intros id state' Hremove. unfold removeService in Hremove.
    apply setWithAssignments_returns in Hremove as (-> & _).
    now apply NoDup_map_filter.
  - intros id partialUserParameters. unfold updateLLMUserParameters, mapLlms. cbn [llms].
    rewrite map_idOf_preserved; [exact Hunique |].
    intros llm. now destruct (String.eqb (idOf llm) id).
  - intros id p. unfold deleteLLMUserParameter, mapLlms. cbn [llms].
    rewrite map_idOf_preserved; [exact Hunique |].
    intros llm. destruct (userParametersOf llm); [| reflexivity].
    now destruct (String.eqb (idOf llm) id).
  - rewrite llms_onRehydrateStorage. now apply uniqueIds_rehydrated.
Qed.

Lemma findById_map_update id id' (f : StoreLlms.DLLM -> StoreLlms.DLLM)
    (l : list StoreLlms.DLLM) :
  (forall llm, idOf (f llm) = idOf llm) ->
  (forall llm, idOf llm <> id -> f llm = llm) ->
  findById id' (map f l)
  = (if String.eqb id' id then f else fun llm => llm) <$> findById id' l.
Proof.
  intros Hid Hother. unfold findById. rewrite find_map.
  replace (List.find (fun x => String.eqb (idOf (f x)) id') l)
    with (List.find (fun m => String.eqb (idOf m) id') l).
  2: { apply find_pointwise. intros x. now rewrite Hid. }
  destruct (List.find _ l) as [llm |] eqn:Hfind; [| reflexivity].
  cbn. f_equal. apply find_some in Hfind as [_ Hllm]. apply String.eqb_eq in Hllm.
  destruct (String.eqb_spec id' id) as [-> | Hne]; [reflexivity |].
  apply Hother. congruence.
Qed.

(** X13. The user layer of a model behaves as a map under the two store
    actions that edit it, read through the overlay the client resolves
    parameters with.  After [updateLLMUserParameters id partial], a
    parameter that [partial] defines resolves to the value given, and any
    other parameter resolves as before.  After [deleteLLMUserParameter id
    p], [p] resolves as if there were no user layer, and any other
    parameter resolves as before.  Models with another id are not
    affected by either. *)
Theorem user_parameters_set_and_delete state id p
    (partialUserParameters : DModelParameterValues) :
  (* set *)
  (forall v llm, findById id (llms state) = Some llm ->
     partialUserParameters !! p = Some v ->
     resolvedParameter (updateLLMUserParameters id partialUserParameters state) id p = Some v)
  /\ (partialUserParameters !! p = None ->
      resolvedParameter (updateLLMUserParameters id partialUserParameters state) id p
      = resolvedParameter state id p)
  (* delete *)
  /\ resolvedParameter (deleteLLMUserParameter id p state) id p = initialParameter state id p
  /\ (forall q, q <> p ->
        resolvedParameter (deleteLLMUserParameter id p state) id q
        = resolvedParameter state id q)
  (* the other models *)
  /\ (forall id' q, id' <> id ->
        resolvedParameter (updateLLMUserParameters id partialUserParameters state) id' q
        = resolvedParameter state id' q
        /\ resolvedParameter (deleteLLMUserParameter id p state) id' q
           = resolvedParameter state id' q).
Proof.
  set (set_ := fun llm : StoreLlms.DLLM =>
         if String.eqb (idOf llm) id
         then withUserParameters
                (Some (spread (default ∅ (userParametersOf llm)) (Some partialUserParameters)))
                llm
         else llm).
  set (delete_ := fun llm : StoreLlms.DLLM =>
         match userParametersOf llm with
         | Some userParameters =>
             if String.eqb (idOf llm) id
             then withUserParameters (Some (delete p userParameters)) llm
             else llm
         | None => llm
         end).
  assert (Hset : forall id', findById id' (llms (updateLLMUserParameters id partialUserParameters state))
                 = (if String.eqb id' id then set_ else fun llm => llm)
                     <$> findById id' (llms state)).
  { intros id'. unfold updateLLMUserParameters, mapLlms. cbn [llms].
    apply (findById_map_update id id' set_).
    - intros llm. unfold set_. now destruct (String.eqb (idOf llm) id).
    - intros llm Hne. unfold set_. apply String.eqb_neq in Hne. now rewrite Hne. }
  assert (Hdel : forall id', findById id' (llms (deleteLLMUserParameter id p state))
                 = (if String.eqb id' id then delete_ else fun llm => llm)
                     <$> findById id' (llms state)).
  { intros id'. unfold deleteLLMUserParameter, mapLlms. cbn [llms].
    apply (findById_map_update id id' delete_).
    - intros llm. unfold delete_. destruct (userParametersOf llm); [| reflexivity].
      now destruct (String.eqb (idOf llm) id).
    - intros llm Hne. unfold delete_. apply String.eqb_neq in Hne. rewrite Hne.
      now destruct (userParametersOf llm). }
  assert (Hid : forall llm, findById id (llms state) = Some llm -> idOf llm = id).
  { intros llm Hfound. apply find_some in Hfound as [_ H]. now apply String.eqb_eq in H. }
  unfold resolvedParameter, initialParameter.
  split; [| split; [| split; [| split]]].
  - intros v llm Hfound Hv. rewrite Hset, Hfound, String.eqb_refl.
    cbn [fmap option_fmap option_map]. unfold set_. rewrite (Hid _ Hfound), String.eqb_refl.
    cbn [core withUserParameters userParametersOf initialParameters userParameters].
    unfold prop. rewrite getAllModelParameterValues_lookup. cbn [firstDefined default]. unfold Datatypes.id.
    rewrite lookup_spread. cbn [default]. unfold Datatypes.id. now rewrite Hv.
  - intros Hnone. rewrite Hset, String.eqb_refl.
    destruct (findById id (llms state)) as [llm |] eqn:Hfound; [| reflexivity].
    cbn [fmap option_fmap option_map]. unfold set_. rewrite (Hid _ eq_refl), String.eqb_refl.
    cbn [core withUserParameters userParametersOf initialParameters userParameters].
    unfold prop. rewrite !getAllModelParameterValues_lookup. cbn [firstDefined default]. unfold Datatypes.id.
    rewrite lookup_spread. cbn [default]. unfold Datatypes.id. rewrite Hnone. reflexivity.
  - rewrite Hdel, String.eqb_refl.
    destruct (findById id (llms state)) as [llm |] eqn:Hfound; [| reflexivity].
    cbn [fmap option_fmap option_map]. unfold delete_.
    unfold prop. rewrite !getAllModelParameterValues_lookup. cbn [firstDefined default]. unfold Datatypes.id.
    destruct (userParametersOf llm) as [u |] eqn:Hu.
    + rewrite (Hid _ eq_refl), String.eqb_refl.
      cbn [core withUserParameters userParametersOf initialParameters userParameters default].
      unfold Datatypes.id.
      rewrite lookup_delete_eq, lookup_empty. reflexivity.
    + rewrite Hu. reflexivity.
  - intros q Hne. rewrite Hdel, String.eqb_refl.
    destruct (findById id (llms state)) as [llm |] eqn:Hfound; [| reflexivity].
    cbn [fmap option_fmap option_map]. unfold delete_.
    unfold prop. rewrite !getAllModelParameterValues_lookup. cbn [firstDefined default]. unfold Datatypes.id.
    destruct (userParametersOf llm) as [u |] eqn:Hu.
    + rewrite (Hid _ eq_refl), String.eqb_refl.
      cbn [core withUserParameters userParametersOf initialParameters userParameters default].
      unfold Datatypes.id.
      rewrite lookup_delete_ne by congruence. reflexivity.
    + rewrite Hu. reflexivity.
  - intros id' q Hne. rewrite Hset, Hdel.
    apply String.eqb_neq in Hne. rewrite Hne.
    destruct (findById id' (llms state)); split; reflexivity.
Qed.

End StoreModels.

(* ===================================================================== *)
(** * Properties of the services of the store *)
(* ===================================================================== *)

Section DecimalFacts.
Import StoreLlms.

Lemma numberToString_inj (n m : nat) : numberToString n = numberToString m -> n = m.
Proof.
  unfold numberToString. intros Heq.
  apply DecimalNat.Unsigned.to_uint_inj.
  assert (Hsome : Some (Nat.to_uint n) = Some (Nat.to_uint m)).
  { rewrite <- !DecimalString.NilEmpty.usu. now rewrite Heq. }
  now injection Hsome.
Qed.

Lemma string_of_uint_digits (d : Decimal.uint) :
  Js.allDigits (DecimalString.NilEmpty.string_of_uint d) = true.
Proof. induction d; cbn; auto. Qed.

(** A number prints as one or more decimal digits. *)
Lemma numberToString_digits (n : nat) :
  numberToString n <> "" /\ Js.allDigits (numberToString n) = true.
Proof.
  unfold numberToString. split; [| apply string_of_uint_digits].
  assert (Hnonnil : Nat.to_uint n <> Decimal.Nil).
  { rewrite <- (DecimalNat.Unsigned.of_to n) at 1.
    rewrite DecimalNat.Unsigned.to_of. apply DecimalFacts.unorm_nonnil. }
  destruct (Nat.to_uint n); [congruence | ..]; discriminate.
Qed.

Lemma length_append (s t : string) :
  String.length (s ++ t) = (String.length s + String.length t)%nat.
Proof.
  induction s as [| c s IH]; [reflexivity |].
  rewrite append_cons. cbn [String.length]. now rewrite IH.
Qed.

Lemma append_inv_head (s t u : string) : s ++ t = s ++ u -> t = u.
Proof.
  induction s as [| c s IH]; [auto |].
  rewrite !append_cons. intros [= H]. auto.
Qed.

(** The candidate ids are pairwise different. *)
Lemma candidateServiceId_inj (vendorId : string) (i j : nat) :
  candidateServiceId vendorId i = candidateServiceId vendorId j -> i = j.
Proof.
  assert (Hlonger : forall k, candidateServiceId vendorId (S k) <> vendorId).
  { intros k Heq. apply (f_equal String.length) in Heq. cbn [candidateServiceId] in Heq.
    rewrite length_append, append_cons in Heq. cbn [String.length] in Heq. lia. }
  destruct i as [| i], j as [| j]; intros Heq.
  - reflexivity.
  - symmetry in Heq. now apply Hlonger in Heq.
  - now apply Hlonger in Heq.
  - cbn [candidateServiceId] in Heq. apply append_inv_head in Heq.
    rewrite !append_cons in Heq. injection Heq as Heq.
    now apply numberToString_inj.
Qed.

End DecimalFacts.

Section StoreServices.
Import Js LlmsParameters AixClient StoreLlms.
Implicit Types (E : StoreEnv) (state : LlmsStore) (services : list DModelsService)
  (vendorId id : string).

Lemma findService_In services id :
  findService id services <> None <-> In id (map svc_id services).
Proof.
  unfold findService. split.
  - destruct (List.find _ services) as [s |] eqn:Hfind; [intros _ | congruence].
    apply find_some in Hfind as [Hin Hs]. apply String.eqb_eq in Hs.
    apply in_map_iff. eauto.
  - intros Hin Hnone. apply in_map_iff in Hin as (s & <- & Hin).
    pose proof (find_none _ _ Hnone s Hin) as H. cbn in H.
    rewrite String.eqb_refl in H. discriminate.
Qed.

(** Among more candidates than there are services, one is free. *)
Lemma free_candidate vendorId services :
  exists j, (j <= List.length services)%nat
            /\ findService (candidateServiceId vendorId j) services = None.
Proof.
  assert (Hsearch : forall m,
             (exists j, (j < m)%nat
                        /\ findService (candidateServiceId vendorId j) services = None)
             \/ (forall j, (j < m)%nat ->
                   findService (candidateServiceId vendorId j) services <> None)).
  { induction m as [| m [(j & Hj & Hfree) | Hall]].
    - right. intros j Hj. lia.
    - left. exists j. split; [lia | exact Hfree].
    - destruct (findService (candidateServiceId vendorId m) services) eqn:Hm.
      + right. intros j Hj. destruct (Nat.eq_dec j m) as [-> | Hne]; [congruence |].
        apply Hall. lia.
      + left. exists m. split; [lia | exact Hm]. }
  destruct (Hsearch (S (List.length services))) as [(j & Hj & Hfree) | Hall].
  - exists j. split; [lia | exact Hfree].
  - exfalso.
    set (candidates := map (candidateServiceId vendorId) (seq 0 (S (List.length services)))).
    assert (Hnodup : List.NoDup candidates).
    { subst candidates. generalize (seq_NoDup (S (List.length services)) 0).
      generalize (seq 0 (S (List.length services))). intros l Hl.
      induction Hl as [| i l Hfresh Hl IH]; [constructor |].
      cbn [map]. constructor; [| exact IH].
      intros Hin. apply in_map_iff in Hin as (j & Heq & Hj).
      apply candidateServiceId_inj in Heq. subst j. now apply Hfresh. }
    assert (Hincl : incl candidates (map svc_id services)).
    { intros c Hc. subst candidates. apply in_map_iff in Hc as (j & <- & Hj).
      apply in_seq in Hj. apply findService_In. apply Hall. lia. }
    pose proof (NoDup_incl_length Hnodup Hincl) as Hlen.
    subst candidates. rewrite !length_map, length_seq in Hlen. lia.
Qed.

Lemma uniqueServiceIdLoop_finds vendorId services :
  forall fuel i j,
    (i <= j < i + fuel)%nat ->
    findService (candidateServiceId vendorId j) services = None ->
    (forall k, (i <= k < j)%nat ->
       findService (candidateServiceId vendorId k) services <> None) ->
    uniqueServiceIdLoop fuel vendorId services (candidateServiceId vendorId i) i
    = Some (candidateServiceId vendorId j).
Proof.
  induction fuel as [| fuel IH]; intros i j Hij Hfree Htaken; [lia |].
  cbn [uniqueServiceIdLoop].
  destruct (findService (candidateServiceId vendorId i) services) as [s |] eqn:Hi.
  - assert (Hne : i <> j) by (intros ->; congruence).
    apply (IH (S i) j); [lia | exact Hfree |]. intros k Hk. apply Htaken. lia.
  - destruct (Nat.eq_dec i j) as [-> | Hne]; [reflexivity |].
    exfalso. apply (Htaken i); [lia | exact Hi].
Qed.

(** The id [_locallyUniqueServiceId] returns. *)
Lemma locallyUniqueServiceId_fresh_aux vendorId services :
  exists serviceIdx,
    _locallyUniqueServiceId vendorId services
    = Some (candidateServiceId vendorId serviceIdx)
    /\ (serviceIdx <= List.length services)%nat
    /\ findService (candidateServiceId vendorId serviceIdx) services = None
    /\ (forall k, (k < serviceIdx)%nat ->
          findService (candidateServiceId vendorId k) services <> None).
Proof.
  (* the first free candidate *)
  assert (Hfirst : forall m,
             (exists j, (j <= m)%nat
                        /\ findService (candidateServiceId vendorId j) services = None) ->
             exists j, (j <= m)%nat
                       /\ findService (candidateServiceId vendorId j) services = None
                       /\ (forall k, (k < j)%nat ->
                             findService (candidateServiceId vendorId k) services <> None)).
  { induction m as [| m IH]; intros (j & Hj & Hfree).
    - exists 0%nat. replace j with 0%nat in Hfree by lia.
      split; [lia |]. split; [exact Hfree |]. intros k Hk. lia.
    - destruct (findService (candidateServiceId vendorId 0) services) eqn:H0.
      2: { exists 0%nat. split; [lia |]. split; [exact H0 |]. intros k Hk. lia. }
      destruct (Nat.le_gt_cases j m) as [Hle | Hgt].
      + destruct IH as (j' & Hj' & Hfree' & Hmin); [eauto |].
        exists j'. split; [lia | auto].
      + assert (j = S m) by lia. subst j.
        assert (Hdec : (exists j', (j' <= m)%nat
                          /\ findService (candidateServiceId vendorId j') services = None)
                       \/ (forall k, (k <= m)%nat ->
                             findService (candidateServiceId vendorId k) services <> None)).
        { clear. induction m as [| m [(j' & Hj' & Hf) | Hall]].
          - destruct (findService (candidateServiceId vendorId 0) services) eqn:H0.
            + right. intros k Hk. replace k with 0%nat by lia. congruence.
            + left. exists 0%nat. auto.
          - left. exists j'. split; [lia | exact Hf].
          - destruct (findService (candidateServiceId vendorId (S m)) services) eqn:Hm.
            + right. intros k Hk. destruct (Nat.eq_dec k (S m)) as [-> | Hne];
                [congruence | apply Hall; lia].
            + left. exists (S m). auto. }
        destruct Hdec as [Hex | Hall].
        * destruct (IH Hex) as (j' & Hj' & Hfree' & Hmin). exists j'. split; [lia | auto].
        * exists (S m). split; [lia |]. split; [exact Hfree |].
          intros k Hk. apply Hall. lia. }
  destruct (Hfirst (List.length services) (free_candidate vendorId services))
    as (j & Hj & Hfree & Hmin).
  exists j. split; [| auto].
  unfold _locallyUniqueServiceId.
  apply (uniqueServiceIdLoop_finds vendorId services _ 0 j); [lia | exact Hfree |].
  intros k Hk. apply Hmin. lia.
Qed.

(** X14. [_locallyUniqueServiceId] always returns, and what it returns is
    an id that no existing service has: the first free one among the
    vendor id itself and the vendor id followed by [-1], [-2], and so on.
    With [n] existing services it looks no further than [-n]. *)
Theorem locallyUniqueServiceId_fresh vendorId services :
  exists serviceIdx,
    _locallyUniqueServiceId vendorId services
    = Some (candidateServiceId vendorId serviceIdx)
    /\ (serviceIdx <= List.length services)%nat
    /\ findService (candidateServiceId vendorId serviceIdx) services = None
    /\ (forall k, (k < serviceIdx)%nat ->
          findService (candidateServiceId vendorId k) services <> None).
Proof.
  destruct (locallyUniqueServiceId_fresh_aux vendorId services)
    as (serviceIdx & Hid & Hbound & Hfree & Hfirst).
  exists serviceIdx. auto.
Qed.

(** What [/ #\d+$/] matches from where it is tried. *)
Lemma numberSuffix_spec (s : string) :
  matchesAll numberSuffix s = true
  <-> exists d, s = " #" ++ d /\ d <> "" /\ allDigits d = true.
Proof.
  rewrite matchesAll_spec. unfold numberSuffix. split.
  - intros H. destruct (Matches_cat_inv _ _ _ H) as (s1 & s2 & -> & H1 & H2).
    destruct (Matches_chr_inv _ _ H1) as (c1 & -> & Hc1). apply Ascii.eqb_eq in Hc1. subst c1.
    destruct (Matches_cat_inv _ _ _ H2) as (s3 & d & -> & H3 & Hd).
    destruct (Matches_chr_inv _ _ H3) as (c2 & -> & Hc2). apply Ascii.eqb_eq in Hc2. subst c2.
    exists d. split; [reflexivity |]. now apply Matches_plus_digit.
  - intros (d & -> & Hd). change (" #" ++ d) with (" " ++ ("#" ++ d)).
    constructor; [constructor; reflexivity |]. constructor; [constructor; reflexivity |].
    now apply Matches_plus_digit.
Qed.

Lemma allDigits_app (a b : string) : allDigits (a ++ b) = allDigits a && allDigits b.
Proof.
  induction a as [| c a IH]; [reflexivity |].
  rewrite append_cons. cbn [allDigits]. now rewrite IH, andb_assoc.
Qed.

(** Where the label does not end in a number suffix, nothing is replaced. *)
Lemma replaceNumberSuffix_none (label : string) :
  (forall pre d, label = pre ++ " #" ++ d -> d = "" \/ allDigits d = false) ->
  replaceNumberSuffix label = label.
Proof.
  induction label as [| c label IH]; intros Hnone.
  - cbn [replaceNumberSuffix].
    destruct (matchesAll numberSuffix "") eqn:Hm; [| reflexivity].
    apply numberSuffix_spec in Hm as (d & Heq & _). discriminate.
  - cbn [replaceNumberSuffix].
    destruct (matchesAll numberSuffix (String c label)) eqn:Hm.
    + exfalso. apply numberSuffix_spec in Hm as (d & Heq & Hne & Hd).
      destruct (Hnone "" d Heq) as [-> | Hno]; congruence.
    + f_equal. apply IH. intros pre d ->.
      apply (Hnone (String c pre) d). now rewrite append_cons.
Qed.

(** A number suffix that is appended is the one that is replaced. *)
Lemma replaceNumberSuffix_appended (label d : string) :
  d <> "" -> allDigits d = true ->
  replaceNumberSuffix (label ++ " #" ++ d) = label.
Proof.
  intros Hne Hd. induction label as [| c label IH].
  - change ("" ++ " #" ++ d) with (" #" ++ d).
    assert (Hm : matchesAll numberSuffix (" #" ++ d) = true)
      by (apply numberSuffix_spec; eauto).
    change (" #" ++ d) with (String " " (String "#" d)) in *.
    cbn [replaceNumberSuffix]. now rewrite Hm.
  - rewrite append_cons. cbn [replaceNumberSuffix].
    destruct (matchesAll numberSuffix (String c (label ++ " #" ++ d))) eqn:Hm.
    + exfalso. apply numberSuffix_spec in Hm as (d' & Heq & _ & Hd').
      change (" #" ++ d') with (String " " (String "#" d')) in Heq.
      injection Heq as -> Heq.
      destruct label as [| c' label].
      * change ("" ++ " #" ++ d) with (String " " (String "#" d)) in Heq. discriminate.
      * rewrite append_cons in Heq. injection Heq as -> <-.
        rewrite allDigits_app in Hd'. apply andb_true_iff in Hd' as [_ Hd'].
        discriminate.
    + now rewrite IH.
Qed.

Lemma numberedLabel_stable (label : string) (n : nat) :
  ((n <= 1)%nat ->
   replaceNumberSuffix (replaceNumberSuffix label) = replaceNumberSuffix label) ->
  numberedLabel (numberedLabel label n) n = numberedLabel label n.
Proof.
  intros Hfirst. unfold numberedLabel at 1 2.
  destruct (Nat.ltb_spec 1 n) as [Hgt | Hle].
  - destruct (numberToString_digits n) as [Hne Hd].
    rewrite replaceNumberSuffix_appended by assumption.
    unfold numberedLabel. destruct (Nat.ltb_spec 1 n); [reflexivity | lia].
  - rewrite !append_empty_r, Hfirst by exact Hle.
    unfold numberedLabel. destruct (Nat.ltb_spec 1 n); [lia |].
    now rewrite append_empty_r.
Qed.

Lemma countOfVendor_cons vendorId (s : DModelsService) services :
  countOfVendor vendorId (s :: services)
  = ((if String.eqb (svc_vId s) vendorId then 1 else 0)
     + countOfVendor vendorId services)%nat.
Proof.
  unfold countOfVendor. cbn [List.filter].
  now destruct (String.eqb (svc_vId s) vendorId).
Qed.

Lemma relabelFrom_nth vendorId services :
  forall n i s,
    nth_error services i = Some s ->
    nth_error (relabelFrom vendorId n services) i
    = Some (if String.eqb (svc_vId s) vendorId
            then withLabel
                   (numberedLabel (svc_label s)
                      (n + countOfVendor vendorId (firstn (S i) services)))
                   s
            else s).
Proof.
  induction services as [| s0 services IH]; intros n i s Hnth; [now destruct i |].
  change (firstn (S i) (s0 :: services)) with (s0 :: firstn i services).
  rewrite countOfVendor_cons. cbn [relabelFrom].
  destruct i as [| i]; cbn [nth_error] in Hnth.
  - injection Hnth as ->. change (firstn 0 services) with (@nil DModelsService).
    destruct (String.eqb (svc_vId s) vendorId); cbn [negb nth_error]; [| reflexivity].
    change (countOfVendor vendorId []) with 0%nat.
    replace (n + (1 + 0))%nat with (S n) by lia. reflexivity.
  - destruct (String.eqb (svc_vId s0) vendorId); cbn [negb nth_error].
    + rewrite (IH (S n) i s Hnth).
      replace (n + (1 + countOfVendor vendorId (firstn (S i) services)))%nat
        with (S n + countOfVendor vendorId (firstn (S i) services))%nat by lia.
      reflexivity.
    + apply (IH n i s Hnth).
Qed.

Lemma length_relabelFrom vendorId services :
  forall n, List.length (relabelFrom vendorId n services) = List.length services.
Proof.
  induction services as [| s services IH]; intros n; [reflexivity |].
  cbn [relabelFrom]. destruct (negb _); cbn [List.length]; now rewrite IH.
Qed.

(** X15. [_relabelServicesFromSameVendor] touches labels only, and only
    those of the vendor: the services keep their number, order, ids,
    vendors and settings, and a service of another vendor is returned as it
    is.  The [k]-th service of the vendor, counting from 1 in list order,
    gets its label with a trailing [" #<digits>"] removed and, for [k > 1],
    [" #k"] appended. *)
Theorem relabelServicesFromSameVendor_numbers vendorId services :
  List.length (_relabelServicesFromSameVendor vendorId services) = List.length services
  /\ (forall i s,
        nth_error services i = Some s ->
        nth_error (_relabelServicesFromSameVendor vendorId services) i
        = Some (if String.eqb (svc_vId s) vendorId
                then withLabel
                       (numberedLabel (svc_label s)
                          (countOfVendor vendorId (firstn (S i) services)))
                       s
                else s)).
Proof.
  unfold _relabelServicesFromSameVendor. split; [apply length_relabelFrom |].
  intros i s Hnth. now rewrite (relabelFrom_nth vendorId services 0 i s Hnth).
Qed.

Lemma relabelFrom_stable vendorId services :
  (forall s, In s services -> svc_vId s = vendorId ->
     replaceNumberSuffix (replaceNumberSuffix (svc_label s))
     = replaceNumberSuffix (svc_label s)) ->
  forall n,
    relabelFrom vendorId n (relabelFrom vendorId n services)
    = relabelFrom vendorId n services.
Proof.
  induction services as [| s services IH]; intros Hlabels n; [reflexivity |].
  cbn [relabelFrom].
  destruct (String.eqb_spec (svc_vId s) vendorId) as [Hv | Hv]; cbn [negb relabelFrom svc_vId].
  - apply String.eqb_eq in Hv as Hv'. rewrite Hv'. cbn [negb svc_id svc_label setup].
    f_equal.
    + f_equal. apply (numberedLabel_stable (svc_label s) (S n)).
      intros _. apply Hlabels; [now left | exact Hv].
    + apply IH. intros s' Hin. apply Hlabels. now right.
  - apply String.eqb_neq in Hv as Hv'. rewrite Hv'. cbn [negb].
    f_equal. apply IH. intros s' Hin. apply Hlabels. now right.
Qed.

(** X16. Relabelling is stable: relabelling the services of a vendor a
    second time changes nothing, provided that no label of that vendor
    carries two number suffixes in a row (removing the number suffix from a
    label leaves a label without one).  In particular the [" #k"] that the
    function appends is exactly what it removes the next time. *)
Theorem relabelServicesFromSameVendor_stable vendorId services :
  (forall s, In s services -> svc_vId s = vendorId ->
     replaceNumberSuffix (replaceNumberSuffix (svc_label s))
     = replaceNumberSuffix (svc_label s)) ->
  _relabelServicesFromSameVendor vendorId
    (_relabelServicesFromSameVendor vendorId services)
  = _relabelServicesFromSameVendor vendorId services.
Proof.
  intros Hlabels. unfold _relabelServicesFromSameVendor.
  now apply relabelFrom_stable.
Qed.

Lemma map_svc_id_relabelFrom vendorId services :
  forall n, map svc_id (relabelFrom vendorId n services) = map svc_id services.
Proof.
  induction services as [| s services IH]; intros n; [reflexivity |].
  cbn [relabelFrom]. destruct (negb _); cbn [map svc_id]; now rewrite IH.
Qed.

Lemma relabelFrom_app vendorId services (more : list DModelsService) :
  forall n,
    relabelFrom vendorId n (services ++ more)
    = (relabelFrom vendorId n services
       ++ relabelFrom vendorId (n + countOfVendor vendorId services) more)%list.
Proof.
  induction services as [| s services IH]; intros n.
  - cbn [app relabelFrom]. change (countOfVendor vendorId []) with 0%nat.
    now rewrite Nat.add_0_r.
  - cbn [app relabelFrom]. rewrite countOfVendor_cons.
    destruct (String.eqb (svc_vId s) vendorId); cbn [negb app]; rewrite IH.
    + replace (n + (1 + countOfVendor vendorId services))%nat
        with (S n + countOfVendor vendorId services)%nat by lia.
      reflexivity.
    + reflexivity.
Qed.

(** X17. [createModelsService] always returns, and the service it returns
    is new: its id is one that no existing service has (so distinct ids
    stay distinct), it belongs to the vendor, carries the vendor's initial
    setup (or an empty one), is the last of the services, and is labelled
    with the vendor's name, numbered [" #k"] if it is the [k]-th service of
    that vendor with [k > 1].  The existing services keep their ids and
    order, the models and the assignments are untouched, and the new
    service becomes the one being configured only if none was. *)
Theorem createModelsService_adds_a_service (vendor : IModelVendor) state :
  exists state' service,
    createModelsService vendor state = Some (state', service)
    /\ findService (svc_id service) (sources state) = None
    /\ svc_vId service = v_id vendor
    /\ setup service = default ∅ (initializeSetup vendor)
    /\ svc_label service
       = numberedLabel (v_name vendor) (S (countOfVendor (v_id vendor) (sources state)))
    /\ sources state'
       = (_relabelServicesFromSameVendor (v_id vendor) (sources state) ++ [service])%list
    /\ map svc_id (sources state') = (map svc_id (sources state) ++ [svc_id service])%list
    /\ (uniqueServiceIds (sources state) -> uniqueServiceIds (sources state'))
    /\ confServiceId state' = Some (default (svc_id service) (confServiceId state))
    /\ llms state' = llms state
    /\ chatLLMId state' = chatLLMId state /\ fastLLMId state' = fastLLMId state.
Proof.
  destruct (locallyUniqueServiceId_fresh_aux (v_id vendor) (sources state))
    as (idx & Hid & _ & Hfree & _).
  unfold createModelsService. rewrite Hid.
  set (newService := {| svc_id := candidateServiceId (v_id vendor) idx;
                        svc_label := v_name vendor; svc_vId := v_id vendor;
                        setup := default ∅ (initializeSetup vendor) |}).
  assert (Hnew : _relabelServicesFromSameVendor (v_id vendor) (sources state ++ [newService])
                 = (_relabelServicesFromSameVendor (v_id vendor) (sources state)
                    ++ [withLabel
                          (numberedLabel (v_name vendor)
                             (S (countOfVendor (v_id vendor) (sources state))))
                          newService])%list).
  { unfold _relabelServicesFromSameVendor. rewrite relabelFrom_app. f_equal.
    cbn [relabelFrom svc_vId newService]. rewrite String.eqb_refl. reflexivity. }
  rewrite Hnew, last_last.
  eexists _, _. split; [reflexivity |]. cbn [withLabel svc_id svc_vId setup svc_label sources
    confServiceId llms chatLLMId fastLLMId newService].
  assert (Hids : map svc_id
                   (_relabelServicesFromSameVendor (v_id vendor) (sources state)
                    ++ [withLabel
                          (numberedLabel (v_name vendor)
                             (S (countOfVendor (v_id vendor) (sources state))))
                          newService])%list
                 = (map svc_id (sources state) ++ [candidateServiceId (v_id vendor) idx])%list).
  { rewrite map_app. unfold _relabelServicesFromSameVendor.
    now rewrite map_svc_id_relabelFrom. }
  repeat split; try reflexivity; try assumption.
  - intros Hunique. unfold uniqueServiceIds in *. rewrite Hids.
    apply List.NoDup_app; [exact Hunique | repeat constructor; intros [] |].
    intros a Ha [<- | []]. apply findService_In in Ha. congruence.
  - now destruct (confServiceId state).
Qed.

Lemma findService_removed id services :
  findService id (List.filter (fun s => negb (String.eqb (svc_id s) id)) services) = None.
Proof.
  apply find_filter_stopped. intros x Hx. now rewrite Hx.
Qed.

Lemma findService_remove_other id id' services :
  id' <> id ->
  findService id' (List.filter (fun s => negb (String.eqb (svc_id s) id)) services)
  = findService id' services.
Proof.
  intros Hne. apply find_filter_through. intros x Hx.
  apply String.eqb_eq in Hx. rewrite Hx.
  apply String.eqb_neq in Hne. now rewrite Hne.
Qed.

(** X18. [removeService] removes the service and its models together.
    Afterwards no service has the id and no model belongs to it; the other
    services are found as before, and the other models are all there, in
    their order.  So the action leaves no orphans: if every model had its
    service before, every model has its service after. *)
Theorem removeService_removes_its_models E id state state' :
  removeService E id state = Returns state' ->
  findModelsServiceOrNull state' id = None
  /\ (forall id', id' <> id ->
        findModelsServiceOrNull state' id' = findModelsServiceOrNull state id')
  /\ llms state'
     = List.filter (fun llm => negb (String.eqb (sIdOf llm) id)) (llms state)
  /\ (forall llm, In llm (llms state') <-> In llm (llms state) /\ sIdOf llm <> id)
  /\ (Forall (hasService (sources state)) (llms state) ->
      Forall (hasService (sources state')) (llms state')).
Proof.
  intros Hremove. unfold removeService in Hremove.
  apply setWithAssignments_returns in Hremove as (Hllms & Hsources & _).
  unfold findModelsServiceOrNull. rewrite Hllms, Hsources.
  split; [apply findService_removed |].
  split; [intros id' Hne; now apply findService_remove_other |].
  split; [reflexivity |].
  assert (Hin : forall llm,
             In llm (List.filter (fun llm0 => negb (String.eqb (sIdOf llm0) id)) (llms state))
             <-> In llm (llms state) /\ sIdOf llm <> id).
  { intros llm. rewrite filter_In, negb_true_iff, String.eqb_neq. reflexivity. }
  split; [exact Hin |].
  intros Hall. apply List.Forall_forall. intros llm Hllm. apply Hin in Hllm as [Hllm Hne].
  rewrite List.Forall_forall in Hall. destruct (Hall llm Hllm) as (service & Hfound & Hv).
  exists service. split; [| exact Hv].
  now rewrite findService_remove_other.
Qed.

Lemma rehydrateLLM_Some state (llm llm' : StoreLlms.DLLM) :
  rehydrateLLM state llm = Some llm' ->
  hasService (sources state) llm
  /\ llm' = (if nonEmpty (vIdOf llm) then llm
             else withVId (match findService (sIdOf llm) (sources state) with
                           | Some service => svc_vId service
                           | None => ""
                           end) llm).
Proof.
  unfold rehydrateLLM, hasService.
  destruct (findService (sIdOf llm) (sources state)) as [service |]; [| discriminate].
  destruct (nonEmpty (svc_vId service)) eqn:Hv; [| discriminate]. cbn [negb].
  intros [= <-]. split; [| reflexivity].
  exists service. split; [reflexivity |]. intros Heq. rewrite Heq in Hv. discriminate.
Qed.

Lemma rehydrateLLM_healthy state (llm : StoreLlms.DLLM) :
  hasService (sources state) llm -> vIdOf llm <> "" ->
  rehydrateLLM state llm = Some llm.
Proof.
  intros (service & Hfound & Hv) Hvid. unfold rehydrateLLM. rewrite Hfound.
  apply String.eqb_neq in Hv. apply String.eqb_neq in Hvid.
  unfold nonEmpty. now rewrite Hv, Hvid.
Qed.

Lemma sources_onRehydrateStorage E state :
  sources (onRehydrateStorage E state) = sources state.
Proof.
  unfold onRehydrateStorage. cbn [chatLLMId fastLLMId].
  destruct (negb _ || negb _); [| reflexivity].
  now destruct (llmsHeuristicUpdateAssignments E _ _ _).
Qed.

Lemma In_omap_rehydrate state (l : list StoreLlms.DLLM) (llm' : StoreLlms.DLLM) :
  In llm' (omap (rehydrateLLM state) l)
  <-> exists llm, In llm l /\ rehydrateLLM state llm = Some llm'.
Proof.
  induction l as [| x l IH]; [cbn; firstorder |].
  cbn [omap list_omap]. fold (omap (rehydrateLLM state) l).
  destruct (rehydrateLLM state x) as [x' |] eqn:Hx.
  - cbn [In]. rewrite IH. split.
    + intros [<- | (llm & Hin & H)]; [exists x; auto | exists llm; auto].
    + intros (llm & [-> | Hin] & H); [left; congruence | right; eauto].
  - rewrite IH. split.
    + intros (llm & Hin & H). exists llm. cbn; auto.
    + intros (llm & [-> | Hin] & H); [congruence | eauto].
Qed.

(** X19. After [onRehydrateStorage] every model belongs to an existing
    service that has a vendor, and has a vendor itself.  The services are
    untouched.  Every model left comes from a stored one: either as it was,
    or, if it had no vendor, with the vendor of its service filled in and
    nothing else changed; a model that already met the condition is kept
    as it was.  Running it a second time leaves the models as they are. *)
Theorem onRehydrateStorage_collects_orphans E state :
  sources (onRehydrateStorage E state) = sources state
  /\ Forall (fun llm => hasService (sources state) llm /\ vIdOf llm <> "")
       (llms (onRehydrateStorage E state))
  /\ (forall llm', In llm' (llms (onRehydrateStorage E state)) ->
        exists llm service,
          In llm (llms state)
          /\ findService (sIdOf llm) (sources state) = Some service
          /\ llm' = (if nonEmpty (vIdOf llm) then llm else withVId (svc_vId service) llm))
  /\ (forall llm, In llm (llms state) ->
        hasService (sources state) llm -> vIdOf llm <> "" ->
        In llm (llms (onRehydrateStorage E state)))
  /\ llms (onRehydrateStorage E (onRehydrateStorage E state))
     = llms (onRehydrateStorage E state).
Proof.
  split; [apply sources_onRehydrateStorage |].
  assert (Hhealthy : Forall (fun llm => hasService (sources state) llm /\ vIdOf llm <> "")
                       (omap (rehydrateLLM state) (llms state))).
  { apply List.Forall_forall. intros llm' Hin.
    apply In_omap_rehydrate in Hin as (llm & _ & Hre).
    destruct (rehydrateLLM_Some _ _ _ Hre) as [(service & Hfound & Hv) ->].
    rewrite Hfound. destruct (nonEmpty (vIdOf llm)) eqn:Hvid.
    - split; [exists service; auto |]. intros Heq. unfold nonEmpty in Hvid.
      rewrite Heq in Hvid. discriminate.
    - split; [exists service; auto | exact Hv]. }
  rewrite !llms_onRehydrateStorage.
  split; [exact Hhealthy |]. split; [| split].
  - intros llm' Hin. apply In_omap_rehydrate in Hin as (llm & Hin & Hre).
    destruct (rehydrateLLM_Some _ _ _ Hre) as [(service & Hfound & _) ->].
    exists llm, service. rewrite Hfound. auto.
  - intros llm Hin Hservice Hvid. apply In_omap_rehydrate.
    exists llm. split; [exact Hin | now apply rehydrateLLM_healthy].
  - assert (Hsame : forall llm, rehydrateLLM (onRehydrateStorage E state) llm
                                = rehydrateLLM state llm).
    { intros llm. unfold rehydrateLLM. now rewrite sources_onRehydrateStorage. }
    revert Hhealthy. generalize (omap (rehydrateLLM state) (llms state)).
    intros l Hl. induction Hl as [| llm l [Hs Hv] Hl IH]; [reflexivity |].
    cbn [omap list_omap]. fold (omap (rehydrateLLM (onRehydrateStorage E state)) l).
    rewrite Hsame, (rehydrateLLM_healthy _ _ Hs Hv). now rewrite IH.
Qed.

Lemma ifIncludes_In (llmInterfaces : list DLLMInterface) (tag : DLLMInterface) :
  ifIncludes llmInterfaces tag = true <-> In tag llmInterfaces.
Proof.
  unfold ifIncludes. rewrite existsb_exists. split.
  - intros (x & Hin & Hx). apply bool_decide_eq_true in Hx. now subst.
  - intros Hin. exists tag. split; [exact Hin | now apply bool_decide_eq_true].
Qed.

(** The test of one iteration of the loop of [getLLMIdOrThrow]. *)
Lemma getLLMIdLoop_cons E state (preference : Preference) (rest : list Preference)
    (supportsFunctionCallTool supportsImageInput : bool) :
  (exists llmId,
      assignedTo state preference = Some llmId
      /\ qualifies E state supportsFunctionCallTool supportsImageInput llmId
      /\ getLLMIdLoop E state (preference :: rest) supportsFunctionCallTool supportsImageInput
         = Some llmId)
  \/ ((forall llmId, assignedTo state preference = Some llmId ->
         ~ qualifies E state supportsFunctionCallTool supportsImageInput llmId)
      /\ getLLMIdLoop E state (preference :: rest) supportsFunctionCallTool supportsImageInput
         = getLLMIdLoop E state rest supportsFunctionCallTool supportsImageInput).
Proof.
  cbn [getLLMIdLoop]. fold (assignedTo state preference).
  destruct (assignedTo state preference) as [llmId |]; [| right; split; [discriminate | reflexivity]].
  destruct (String.eqb_spec llmId "") as [-> | Hne].
  { right. split; [| reflexivity]. intros ? [= <-] [Hq _]. now apply Hq. }
  unfold nonEmpty. apply String.eqb_neq in Hne as Hne'. rewrite Hne'. cbn [negb].
  unfold StoreLlms.findLLMOrThrow.
  destruct (findById llmId (llms state)) as [llm |] eqn:Hfound.
  2: { right. split; [| reflexivity]. intros ? [= <-] (_ & llm & Hllm & _). congruence. }
  destruct (supportsFunctionCallTool
            && negb (ifIncludes (interfaces (core llm)) (LLM_IF_OAI_Fn E))) eqn:Hfn.
  { right. split; [| reflexivity]. intros ? [= <-] (_ & llm' & Hllm & Hf & _).
    assert (llm' = llm) by congruence. subst llm'.
    apply andb_true_iff in Hfn as [-> Hno]. apply negb_true_iff in Hno.
    specialize (Hf eq_refl). apply ifIncludes_In in Hf. congruence. }
  destruct (supportsImageInput
            && negb (ifIncludes (interfaces (core llm)) (LLM_IF_OAI_Vision E))) eqn:Himg.
  { right. split; [| reflexivity]. intros ? [= <-] (_ & llm' & Hllm & _ & Hi).
    assert (llm' = llm) by congruence. subst llm'.
    apply andb_true_iff in Himg as [-> Hno]. apply negb_true_iff in Hno.
    specialize (Hi eq_refl). apply ifIncludes_In in Hi. congruence. }
  left. exists llmId. split; [reflexivity |]. split; [| reflexivity].
  split; [exact Hne |]. exists llm. split; [exact Hfound |]. split.
  - intros ->. cbn [andb] in Hfn. apply negb_false_iff in Hfn. now apply ifIncludes_In.
  - intros ->. cbn [andb] in Himg. apply negb_false_iff in Himg. now apply ifIncludes_In.
Qed.

(** X20. [getLLMIdOrThrow] returns the id assigned to the first preference
    of [order] whose model qualifies: the id is not empty, the store finds
    the model, and the model has the function-call interface if
    [supportsFunctionCallTool] and the vision interface if
    [supportsImageInput].  It throws exactly when no preference of [order]
    has such a model, and the error then names the use case, the order and
    the capabilities asked for. *)
Theorem getLLMIdOrThrow_first_qualifying E state (order : list Preference)
    (supportsFunctionCallTool supportsImageInput : bool) (useCaseLabel : string) :
  (exists before preference rest llmId,
      getLLMIdOrThrow E state order supportsFunctionCallTool supportsImageInput useCaseLabel
      = Returns llmId
      /\ order = (before ++ preference :: rest)%list
      /\ assignedTo state preference = Some llmId
      /\ qualifies E state supportsFunctionCallTool supportsImageInput llmId
      /\ (forall earlier id, In earlier before -> assignedTo state earlier = Some id ->
            ~ qualifies E state supportsFunctionCallTool supportsImageInput id))
  \/ (getLLMIdOrThrow E state order supportsFunctionCallTool supportsImageInput useCaseLabel
      = Throws
          (newError
             ("No model available for '" ++ useCaseLabel ++ "'. Pease select a "
              ++ join " or " (map preferenceName order)
              ++ " model that supports"
              ++ (if supportsFunctionCallTool then " function calls" else " text input")
              ++ (if supportsImageInput then " and image input" else "")
              ++ " in the Model Configuration."))
      /\ (forall preference id, In preference order ->
            assignedTo state preference = Some id ->
            ~ qualifies E state supportsFunctionCallTool supportsImageInput id)).
Proof.
  unfold getLLMIdOrThrow.
  assert (Hloop : (exists before preference rest llmId,
                      getLLMIdLoop E state order supportsFunctionCallTool supportsImageInput
                      = Some llmId
                      /\ order = (before ++ preference :: rest)%list
                      /\ assignedTo state preference = Some llmId
                      /\ qualifies E state supportsFunctionCallTool supportsImageInput llmId
                      /\ (forall earlier id, In earlier before ->
                            assignedTo state earlier = Some id ->
                            ~ qualifies E state supportsFunctionCallTool supportsImageInput id))
                  \/ (getLLMIdLoop E state order supportsFunctionCallTool supportsImageInput
                      = None
                      /\ (forall preference id, In preference order ->
                            assignedTo state preference = Some id ->
                            ~ qualifies E state supportsFunctionCallTool supportsImageInput id))).
  { generalize order. clear order. induction order as [| preference order IH].
    - right. split; [reflexivity |]. intros preference id [].
    - destruct (getLLMIdLoop_cons E state preference order
                  supportsFunctionCallTool supportsImageInput)
        as [(llmId & Hassigned & Hq & Hret) | [Hnot Hskip]].
      + left. exists [], preference, order, llmId.
        split; [exact Hret |]. split; [reflexivity |]. split; [exact Hassigned |].
        split; [exact Hq |]. intros earlier id [].
      + rewrite Hskip.
        destruct IH as [(before & p & rest & llmId & Hret & -> & Ha & Hq & Hearlier)
                       | [Hnone Hall]].
        * left. exists (preference :: before), p, rest, llmId.
          split; [exact Hret |]. split; [reflexivity |]. split; [exact Ha |].
          split; [exact Hq |].
          intros earlier id [<- | Hin]; [apply Hnot | now apply Hearlier].
        * right. split; [exact Hnone |].
          intros p id [<- | Hin]; [apply Hnot | now apply Hall]. }
  destruct Hloop as [(before & p & rest & llmId & Hret & Horder & Ha & Hq & Hearlier)
                    | [Hnone Hall]].
  - left. exists before, p, rest, llmId. rewrite Hret. auto.
  - right. rewrite Hnone. auto.
Qed.

End StoreServices.

(** ** The store on the example *)

Section StoreExamples.
Import Js LlmsParameters AixClient StoreLlms.

(** Removing the second model of the example store. *)
Lemma removeLLM_forgets_the_model_witness :
  exists state',
    removeLLM exampleEnv "gpt-b" exampleStore = Returns state'
    /\ StoreLlms.findLLMOrThrow state' "gpt-b"
       = Throws (newError "Large Language Model gpt-b not found")
    /\ (forall id', id' <> "gpt-b" ->
          StoreLlms.findLLMOrThrow state' id' = StoreLlms.findLLMOrThrow exampleStore id')
    /\ sources state' = sources exampleStore.
Proof.
  eexists. split; [reflexivity |].
  destruct (removeLLM_forgets_the_model exampleEnv "gpt-b" exampleStore _ eq_refl)
    as (Hgone & Hothers & Hsources & _).
  split; [exact Hgone |]. split; [exact Hothers | exact Hsources].
Defined.

(** Refreshing the first service, expired models deleted, edits kept. *)
Lemma setLLMs_lookup_witness :
  exists state',
    setLLMs exampleEnv refreshedModels "openai" true true exampleStore = Returns state'
    /\ forall id,
         findById id (llms state')
         = match findById id refreshedModels with
           | Some llm => Some (keepEditsOf exampleStore llm)
           | None =>
               findById id
                 (List.filter (fun llm => negb (String.eqb (sIdOf llm) "openai"))
                    (llms exampleStore))
           end.
Proof.
  eexists. split; [reflexivity |].
  apply (setLLMs_lookup exampleEnv refreshedModels "openai" true true exampleStore).
  reflexivity.
Defined.

(** The renamed and tuned model keeps its label and its temperature. *)
Lemma setLLMs_keeps_user_edits_witness :
  exists state' kept,
    setLLMs exampleEnv refreshedModels "openai" true true exampleStore = Returns state'
    /\ findById "gpt-a" (llms state') = Some kept
    /\ userLabel kept = Some "My model"
    /\ userParametersOf kept = Some {[ "llmTemperature" := VNum (9 # 10) ]}.
Proof.
  eexists.
  destruct (setLLMs_keeps_user_edits exampleEnv refreshedModels "openai" true exampleStore
              _ "gpt-a"
              (exampleModelOf "gpt-a" "openai" [] None None)
              (exampleModelOf "gpt-a" "openai" [AixClient.LLM_IF_Other "oai-chat-fn"]
                 (Some {[ "llmTemperature" := VNum (9 # 10) ]}) (Some "My model"))
              eq_refl eq_refl eq_refl)
    as (kept & Hfound & Hlabel & _ & Hparameters & _).
  exists kept. split; [reflexivity |]. split; [exact Hfound |].
  split; [exact Hlabel | exact Hparameters].
Defined.

Lemma store_actions_keep_ids_unique_witness :
  uniqueIds (llms exampleStore)
  /\ uniqueIds (llms (onRehydrateStorage exampleEnv exampleStore))
  /\ uniqueIds (llms (deleteLLMUserParameter "gpt-a" "llmTemperature" exampleStore)).
Proof.
  assert (Hunique : uniqueIds (llms exampleStore)).
  { unfold uniqueIds. cbn. repeat constructor; cbn; intuition discriminate. }
  destruct (store_actions_keep_ids_unique exampleEnv exampleStore Hunique)
    as (_ & _ & _ & _ & Hdelete & Hrehydrate).
  split; [exact Hunique |]. split; [exact Hrehydrate | apply Hdelete].
Defined.

(** The labels "OpenAI" and "OpenAI #2" of the example carry at most one
    number suffix. *)
Lemma relabelServicesFromSameVendor_stable_witness :
  _relabelServicesFromSameVendor "openai"
    (_relabelServicesFromSameVendor "openai" (sources exampleStore))
  = _relabelServicesFromSameVendor "openai" (sources exampleStore).
Proof.
  apply (relabelServicesFromSameVendor_stable "openai" (sources exampleStore)).
  intros s [<- | [<- | []]] _; reflexivity.
Defined.

(** Removing the second service of the example store, and its model. *)
Lemma removeService_removes_its_models_witness :
  exists state',
    removeService exampleEnv "openai-1" exampleStore = Returns state'
    /\ findModelsServiceOrNull state' "openai-1" = None
    /\ map idOf (llms state') = ["gpt-a"; "gpt-b"].
Proof.
  eexists. split; [reflexivity |].
  destruct (removeService_removes_its_models exampleEnv "openai-1" exampleStore _ eq_refl)
    as (Hgone & _ & Hllms & _).
  split; [exact Hgone |]. rewrite Hllms. reflexivity.
Defined.

End StoreExamples.

(* ===================================================================== *)
(** * store-llms.ts: the settings of a service *)
(* ===================================================================== *)

Section ServiceSettings.
Import StoreLlms.

Lemma lookup_withSettings partialSettings s (k : string) :
  setup (withSettings partialSettings s) !! k
  = match partialSettings !! k with
    | Some v => Some v
    | None => setup s !! k
    end.
Proof.
  unfold withSettings. cbn [setup]. rewrite lookup_union.
  destruct (partialSettings !! k), (setup s !! k); reflexivity.
Qed.

Lemma findService_map_update id id' (f : DModelsService -> DModelsService)
    (l : list DModelsService) :
  (forall s, svc_id (f s) = svc_id s) ->
  findService id' (map (fun s => if String.eqb (svc_id s) id then f s else s) l)
  = (if String.eqb id' id then f else fun s => s) <$> findService id' l.
Proof.
  intros Hid. unfold findService. rewrite find_map.
  replace (List.find
             (fun x => String.eqb (svc_id (if String.eqb (svc_id x) id then f x else x)) id') l)
    with (List.find (fun s => String.eqb (svc_id s) id') l).
  2: { apply find_pointwise. intros x. destruct (String.eqb (svc_id x) id); [| reflexivity].
       now rewrite Hid. }
  destruct (List.find _ l) as [s |] eqn:Hfind; [| reflexivity].
  cbn. f_equal. apply find_some in Hfind as [_ Hs]. apply String.eqb_eq in Hs.
  subst id'. destruct (String.eqb (svc_id s) id); reflexivity.
Qed.

(** X27.  [updateServiceSettings] merges the partial settings into the
    service with the given id: there a key of the partial settings takes
    their value (also an explicit [undefined]) and every other key keeps
    the service's; the service keeps its id, label and vendor.  Every
    other service is found as before, an unknown id changes no service,
    and models, assignments and the configured service are not touched. *)
Theorem updateServiceSettings_merges
    (id : string) (partialSettings : gmap string JsVal) (state : LlmsStore) :
  let state' := updateServiceSettings id partialSettings state in
  (forall s, findService id (sources state) = Some s ->
     exists s',
       findService id (sources state') = Some s'
       /\ svc_id s' = id /\ svc_label s' = svc_label s /\ svc_vId s' = svc_vId s
       /\ forall k : string,
            setup s' !! k = match partialSettings !! k with
                            | Some v => Some v
                            | None => setup s !! k
                            end)
  /\ (forall id', id' <> id ->
        findService id' (sources state') = findService id' (sources state))
  /\ (findService id (sources state) = None -> sources state' = sources state)
  /\ map svc_id (sources state') = map svc_id (sources state)
  /\ llms state' = llms state
  /\ chatLLMId state' = chatLLMId state
  /\ fastLLMId state' = fastLLMId state
  /\ confServiceId state' = confServiceId state.
Proof.
  cbn zeta. unfold updateServiceSettings, mapSources. cbn [sources llms chatLLMId fastLLMId confServiceId].
  split; [| split; [| split; [| split]]].
  - intros s Hs. exists (withSettings partialSettings s).
    rewrite findService_map_update by reflexivity.
    rewrite Hs, String.eqb_refl. cbn.
    split; [reflexivity |].
    split.
    { unfold findService in Hs. apply find_some in Hs as [_ Hs].
      now apply String.eqb_eq in Hs. }
    split; [reflexivity |]. split; [reflexivity |].
    intros k. apply lookup_withSettings.
  - intros id' Hne. rewrite findService_map_update by reflexivity.
    apply String.eqb_neq in Hne. rewrite Hne.
    destruct (findService id' (sources state)); reflexivity.
  - intros Hnone. unfold findService in Hnone.
    induction (sources state) as [| s l IH]; [reflexivity |].
    cbn [List.find] in Hnone. cbn [map].
    destruct (String.eqb (svc_id s) id); [discriminate |].
    now rewrite IH.
  - rewrite map_map. apply map_ext. intros s.
    destruct (String.eqb (svc_id s) id); reflexivity.
  - repeat split.
Qed.

Lemma map_update_unique (id : string) (f : DModelsService -> DModelsService)
    (l : list DModelsService) :
  ~ In id (map svc_id l) ->
  map (fun s => if String.eqb (svc_id s) id then f s else s) l = l.
Proof.
  induction l as [| s l IH]; intros Hfresh; [reflexivity |].
  cbn [map]. cbn [map In] in Hfresh.
  destruct (String.eqb (svc_id s) id) eqn:Hs.
  - apply String.eqb_eq in Hs. tauto.
  - rewrite IH by tauto. reflexivity.
Qed.

(** X28.  In a store whose services have distinct ids, [setOpenRouterKey]
    changes the first service of the vendor ['openrouter'] and no other
    one, also no later service of that vendor: that service gets the key
    under ['oaiKey'] and keeps its other settings.  Without such a
    service the state is returned as it is. *)
Theorem setOpenRouterKey_sets_the_first_service
    (key : string) (state : LlmsStore) (before rest : list DModelsService) :
  uniqueServiceIds (sources state) ->
  sources state = (before ++ rest)%list ->
  List.Forall (fun s => svc_vId s <> "openrouter") before ->
  (forall first after, rest = first :: after -> svc_vId first = "openrouter") ->
  match rest with
  | [] => setOpenRouterKey key state = state
  | first :: after =>
      exists first',
        sources (setOpenRouterKey key state) = (before ++ first' :: after)%list
        /\ svc_id first' = svc_id first
        /\ svc_label first' = svc_label first
        /\ svc_vId first' = "openrouter"
        /\ setup first' !! "oaiKey" = Some (VStr key)
        /\ (forall k : string, k <> "oaiKey" -> setup first' !! k = setup first !! k)
        /\ llms (setOpenRouterKey key state) = llms state
        /\ chatLLMId (setOpenRouterKey key state) = chatLLMId state
        /\ fastLLMId (setOpenRouterKey key state) = fastLLMId state
        /\ confServiceId (setOpenRouterKey key state) = confServiceId state
  end.
Proof.
  intros Huniq Hsources Hbefore Hrest.
  assert (Hnotfound : List.find (fun s => String.eqb (svc_vId s) "openrouter") before = None).
  { clear Hsources. induction Hbefore as [| s l Hs _ IH]; [reflexivity |].
    cbn [List.find]. apply String.eqb_neq in Hs. rewrite Hs. exact IH. }
  unfold setOpenRouterKey. rewrite Hsources, find_app_first, Hnotfound.
  destruct rest as [| first after]; [reflexivity |].
  pose proof (Hrest _ _ eq_refl) as Hvendor.
  cbn [List.find]. rewrite Hvendor. cbn [String.eqb Ascii.eqb Bool.eqb].
  exists (withSettings {[ "oaiKey" := VStr key ]} first).
  unfold mapSources. cbn [sources llms chatLLMId fastLLMId confServiceId].
  unfold uniqueServiceIds in Huniq. rewrite Hsources, map_app in Huniq. cbn [map] in Huniq.
  pose proof (List.NoDup_remove _ _ _ Huniq) as [_ Hfresh].
  split.
  { rewrite Hsources, map_app. cbn [map]. rewrite String.eqb_refl.
    rewrite !map_update_unique; [reflexivity | |];
      intros Hin; apply Hfresh, in_or_app; [right | left]; exact Hin. }
  split; [reflexivity |]. split; [reflexivity |]. split; [exact Hvendor |].
  split.
  { rewrite lookup_withSettings, lookup_singleton_eq. reflexivity. }
  split.
  { intros k Hk. rewrite lookup_withSettings, lookup_singleton_ne by congruence.
    reflexivity. }
  repeat split.
Qed.

End ServiceSettings.

Section ServiceSettingsExamples.
Import StoreLlms.

Lemma setOpenRouterKey_sets_the_first_service_witness :
  exists first',
    sources (setOpenRouterKey "sk-or" exampleRouters)
    = [ exampleService "openai" "OpenAI"; first';
        {| svc_id := "openrouter-1"; svc_label := "OpenRouter #2";
           svc_vId := "openrouter"; setup := ∅ |} ]
    /\ setup first' !! "oaiKey" = Some (VStr "sk-or")
    /\ setup first' !! "oaiHost" = Some (VStr "https://openrouter.ai/api").
Proof.
  destruct (setOpenRouterKey_sets_the_first_service "sk-or" exampleRouters
              [exampleService "openai" "OpenAI"]
              [ {| svc_id := "openrouter"; svc_label := "OpenRouter";
                   svc_vId := "openrouter";
                   setup := {[ "oaiHost" := VStr "https://openrouter.ai/api" ]} |};
                {| svc_id := "openrouter-1"; svc_label := "OpenRouter #2";
                   svc_vId := "openrouter"; setup := ∅ |} ])
    as (first' & Hsources & _ & _ & _ & Hkey & Hother & _).
  - unfold uniqueServiceIds. cbn. repeat constructor; cbn; intuition discriminate.
  - reflexivity.
  - constructor; [discriminate | constructor].
  - intros first after [= <- <-]. reflexivity.
  - exists first'. split; [exact Hsources |]. split; [exact Hkey |].
    rewrite Hother by discriminate. reflexivity.
Defined.

End ServiceSettingsExamples.

(* ===================================================================== *)
(** * store-llms.ts: the migration of the V3 options *)
(* ===================================================================== *)

Section MigrationProperties.
Import StoreMigration.
Context {Pricing : Type}.
Implicit Types (llm : PersistedLLM Pricing) (o : gmap string JsVal).
Local Open Scope Q_scope.

Lemma clampTemperature_range (t : Q) :
  0 <= clampTemperature t <= 1.
Proof.
  unfold clampTemperature. split.
  - apply Q.le_max_l.
  - apply Q.max_lub; [lra | apply Q.le_min_l].
Qed.

Lemma clampTemperature_inside (t : Q) :
  0 <= t <= 1 -> clampTemperature t == t.
Proof.
  intros [H0 H1]. unfold clampTemperature.
  rewrite (Q.min_r 1 t) by exact H1.
  apply Q.max_r. exact H0.
Qed.

Lemma parametersOfOptions_llmRef o :
  parametersOfOptions o !! "llmRef" = o !! "llmRef".
Proof.
  unfold parametersOfOptions.
  destruct (numberOf (o !! "llmResponseTokens"));
    destruct (numberOf (o !! "llmTemperature"));
    destruct (o !! "llmRef");
    repeat (rewrite lookup_insert_ne by discriminate);
    try rewrite lookup_insert_eq; try rewrite lookup_empty; reflexivity.
Qed.

Lemma parametersOfOptions_llmTemperature o :
  parametersOfOptions o !! "llmTemperature"
  = match numberOf (o !! "llmTemperature") with
    | Some t => Some (VNum (clampTemperature t))
    | None => None
    end.
Proof.
  unfold parametersOfOptions.
  destruct (numberOf (o !! "llmResponseTokens"));
    destruct (numberOf (o !! "llmTemperature"));
    destruct (o !! "llmRef");
    repeat (rewrite lookup_insert_ne by discriminate);
    try rewrite lookup_insert_eq; try rewrite lookup_empty; reflexivity.
Qed.

Lemma parametersOfOptions_llmResponseTokens o :
  parametersOfOptions o !! "llmResponseTokens"
  = match numberOf (o !! "llmResponseTokens") with
    | Some n => Some (VNum n)
    | None => None
    end.
Proof.
  unfold parametersOfOptions.
  destruct (numberOf (o !! "llmResponseTokens"));
    destruct (numberOf (o !! "llmTemperature"));
    destruct (o !! "llmRef");
    repeat (rewrite lookup_insert_ne by discriminate);
    try rewrite lookup_insert_eq; try rewrite lookup_empty; reflexivity.
Qed.

Lemma parametersOfOptions_other o (k : string) :
  k <> "llmRef" -> k <> "llmTemperature" -> k <> "llmResponseTokens" ->
  parametersOfOptions o !! k = None.
Proof.
  intros H1 H2 H3. unfold parametersOfOptions.
  destruct (numberOf (o !! "llmResponseTokens"));
    destruct (numberOf (o !! "llmTemperature"));
    destruct (o !! "llmRef");
    repeat (rewrite lookup_insert_ne by congruence);
    apply lookup_empty.
Qed.

(** X24.  Porting a V3 model (no [initialParameters] key, an [options]
    object) does not throw and leaves a V4 model: the options are gone,
    the user parameters are the model's own or a new empty object, and
    the initial parameters hold the options' [llmRef], their
    [llmTemperature] if it is a number, brought into [0, 1] (unchanged
    when it was there already), their [llmResponseTokens] if it is a
    number, and nothing else: every other option is dropped. *)
Theorem port_V3Options_takes_over_three_options
    (msg : string) llm o :
  initialParameters llm = KeyMissing ->
  options llm = OptionsObject o ->
  exists llm' i u,
    _port_V3Options_to_V4Parameters_inline msg llm = (llm', None)
    /\ initialParameters llm' = KeyObject i
    /\ userParameters llm' = KeyObject u
    /\ (forall u0, userParameters llm = KeyObject u0 -> u = u0)
    /\ (userParameters llm = KeyMissing \/ userParameters llm = KeyFalsy -> u = ∅)
    /\ options llm' = NoOptions
    /\ i !! "llmRef" = o !! "llmRef"
    /\ (forall t, o !! "llmTemperature" = Some (VNum t) ->
          exists t', i !! "llmTemperature" = Some (VNum t')
                     /\ 0 <= t' <= 1 /\ (0 <= t <= 1 -> t' == t))
    /\ (numberOf (o !! "llmTemperature") = None -> i !! "llmTemperature" = None)
    /\ (forall n, o !! "llmResponseTokens" = Some (VNum n) ->
          i !! "llmResponseTokens" = Some (VNum n))
    /\ (numberOf (o !! "llmResponseTokens") = None -> i !! "llmResponseTokens" = None)
    /\ (forall k : string,
          k <> "llmRef" -> k <> "llmTemperature" -> k <> "llmResponseTokens" ->
          i !! k = None).
Proof.
  intros Hkey Hopt.
  unfold _port_V3Options_to_V4Parameters_inline. rewrite Hkey, Hopt.
  set (u := match userParameters llm with KeyObject u => u | _ => ∅ end).
  assert (Hu : match userParameters llm with
               | KeyObject u => KeyObject u
               | KeyMissing | KeyFalsy => KeyObject ∅
               end = KeyObject u)
    by (subst u; destruct (userParameters llm); reflexivity).
  rewrite Hu.
  eexists; exists (parametersOfOptions o), u.
  split; [| split; [| split; [| split; [| split; [| split]]]]].
  - reflexivity.
  - reflexivity.
  - reflexivity.
  - intros u0 Hu0. subst u. rewrite Hu0. reflexivity.
  - intros [Hu0 | Hu0]; subst u; rewrite Hu0; reflexivity.
  - reflexivity.
  - split; [apply parametersOfOptions_llmRef |].
    split.
    { intros t Ht. exists (clampTemperature t).
      rewrite parametersOfOptions_llmTemperature, Ht. cbn [numberOf].
      split; [reflexivity |].
      split; [apply clampTemperature_range | apply clampTemperature_inside]. }
    split.
    { intros Hnone. rewrite parametersOfOptions_llmTemperature, Hnone. reflexivity. }
    split.
    { intros n Hn. rewrite parametersOfOptions_llmResponseTokens, Hn. reflexivity. }
    split.
    { intros Hnone. rewrite parametersOfOptions_llmResponseTokens, Hnone. reflexivity. }
    apply parametersOfOptions_other.
Qed.

(** X25.  The port throws exactly on a model without [initialParameters]
    key whose [options] are [null]; a model that has the key is left as
    it is, whatever its options; and a model that went through the port
    once, also one the port threw on, is left as it is by a second run,
    which does not throw. *)
Theorem port_V3Options_runs_once (msg : string) llm :
  (snd (_port_V3Options_to_V4Parameters_inline msg llm) <> None
   <-> initialParameters llm = KeyMissing /\ options llm = OptionsNull)
  /\ (initialParameters llm <> KeyMissing ->
      _port_V3Options_to_V4Parameters_inline msg llm = (llm, None))
  /\ _port_V3Options_to_V4Parameters_inline msg
       (fst (_port_V3Options_to_V4Parameters_inline msg llm))
     = (fst (_port_V3Options_to_V4Parameters_inline msg llm), None).
Proof.
  unfold _port_V3Options_to_V4Parameters_inline.
  split; [| split].
  - destruct (initialParameters llm) eqn:Hkey, (options llm) eqn:Hopt; cbn [snd];
      split; try (intros H; contradiction); try (intros [? ?]; discriminate);
      try (intros _; split; reflexivity); intros _; discriminate.
  - intros Hkey. destruct (initialParameters llm); [contradiction | reflexivity ..].
  - destruct (initialParameters llm) eqn:Hkey.
    + destruct (options llm); reflexivity.
    + cbn [fst]. rewrite Hkey. reflexivity.
    + cbn [fst]. rewrite Hkey. reflexivity.
Qed.

Lemma forEachInPlace_all {A : Type} (f : A -> A * option AixClient.Thrown) (l : list A) :
  List.Forall (fun x => snd (f x) = None) l ->
  forEachInPlace f l = (map (fun x => fst (f x)) l, None).
Proof.
  induction 1 as [| x l Hx _ IH]; [reflexivity |].
  cbn [forEachInPlace map]. destruct (f x) as [x' thrown]. cbn [snd] in Hx. subst thrown.
  rewrite IH. reflexivity.
Qed.

Lemma forEachInPlace_stops {A : Type} (f : A -> A * option AixClient.Thrown)
    (before : list A) (bad : A) (after : list A) :
  List.Forall (fun x => snd (f x) = None) before ->
  snd (f bad) <> None ->
  forEachInPlace f (before ++ bad :: after)%list
  = ((map (fun x => fst (f x)) before ++ fst (f bad) :: after)%list, snd (f bad)).
Proof.
  intros Hbefore Hbad. induction Hbefore as [| x l Hx _ IH].
  - cbn [app map forEachInPlace]. destruct (f bad) as [bad' [t |]]; [reflexivity |].
    cbn [snd] in Hbad. contradiction.
  - cbn [app map forEachInPlace]. destruct (f x) as [x' thrown]. cbn [snd] in Hx.
    subst thrown. rewrite IH. reflexivity.
Qed.

(** X26.  Migrating a state persisted by version 3 ports the models in
    their order and stops at the first one the port throws on: the
    models before it are ported, that model keeps what the port did
    before it threw, and the models after it are left in the V3 format.
    Nothing else of the state changes, and the migration itself returns.
    When the port throws on no model, all of them are ported. *)
Theorem migrate_ports_until_first_failure
    (E : MigrationEnv Pricing) (state : PersistedState Pricing)
    (before rest : list (PersistedLLM Pricing)) :
  llms state = (before ++ rest)%list ->
  List.Forall (fun llm => snd (_port_V3Options_to_V4Parameters_inline (typeErrorMessage E) llm) = None) before ->
  (forall bad after, rest = bad :: after -> snd (_port_V3Options_to_V4Parameters_inline (typeErrorMessage E) bad) <> None) ->
  migrate E (Some state) 3
  = Some {| llms :=
              (map (fun llm =>
                      fst (_port_V3Options_to_V4Parameters_inline (typeErrorMessage E) llm))
                   before
               ++ match rest with
                  | [] => []
                  | bad :: after =>
                      fst (_port_V3Options_to_V4Parameters_inline (typeErrorMessage E) bad)
                      :: after
                  end)%list;
            chatLLMId := chatLLMId state;
            fastLLMId := fastLLMId state |}.
Proof.
  intros Hllms Hbefore Hrest.
  unfold migrate. cbn [Nat.ltb Nat.leb]. unfold withLlms. rewrite Hllms.
  destruct rest as [| bad after].
  - rewrite !List.app_nil_r.
    rewrite (forEachInPlace_all
               (_port_V3Options_to_V4Parameters_inline (typeErrorMessage E)) before Hbefore).
    reflexivity.
  - rewrite (forEachInPlace_stops (_port_V3Options_to_V4Parameters_inline (typeErrorMessage E)) before bad after Hbefore (Hrest _ _ eq_refl)).
    reflexivity.
Qed.

End MigrationProperties.

Section MigrationExamples.
Import StoreMigration.
Local Open Scope Q_scope.

Lemma port_V3Options_takes_over_three_options_witness :
  exists llm' i,
    _port_V3Options_to_V4Parameters_inline "TypeError" exampleV3 = (llm', None)
    /\ initialParameters llm' = KeyObject i
    /\ options llm' = NoOptions
    /\ i !! "llmRef" = Some (VStr "gpt-4")
    /\ (exists t', i !! "llmTemperature" = Some (VNum t') /\ 0 <= t' <= 1)
    /\ i !! "llmResponseTokens" = Some (VNum 1024)
    /\ i !! "other" = None.
Proof.
  destruct (port_V3Options_takes_over_three_options "TypeError" exampleV3
              exampleV3Options eq_refl eq_refl)
    as (llm' & i & u & Hrun & Hi & _ & _ & _ & Hopt & Href & Htemp & _ & Htokens & _ & Hother).
  exists llm', i.
  split; [exact Hrun |]. split; [exact Hi |]. split; [exact Hopt |].
  split; [rewrite Href; reflexivity |].
  split.
  { destruct (Htemp (3 # 2) eq_refl) as (t' & Hlookup & Hrange & _).
    exists t'. split; [exact Hlookup | exact Hrange]. }
  split; [apply Htokens; reflexivity |].
  apply Hother; discriminate.
Defined.

Lemma migrate_ports_until_first_failure_witness :
  exists ported failed,
    migrate exampleMigrationEnv
      (Some {| llms := [exampleV3; exampleWithOptions OptionsNull; exampleV3];
               chatLLMId := Some "a"; fastLLMId := None |}) 3
    = Some {| llms := [ported; failed; exampleV3];
              chatLLMId := Some "a"; fastLLMId := None |}
    /\ options ported = NoOptions
    /\ options failed = OptionsNull.
Proof.
  eexists _, _. split; [| split].
  - apply (migrate_ports_until_first_failure exampleMigrationEnv
             {| llms := [exampleV3; exampleWithOptions OptionsNull; exampleV3];
                chatLLMId := Some "a"; fastLLMId := None |}
             [exampleV3] [exampleWithOptions OptionsNull; exampleV3]).
    + reflexivity.
    + constructor; [reflexivity | constructor].
    + intros bad after [= <- <-]. discriminate.
  - reflexivity.
  - reflexivity.
Defined.

End MigrationExamples.

(* ===================================================================== *)
(** * More on the generation tiers *)
(* ===================================================================== *)

Section Tier1Runs.
Import AixConversation.
Implicit Types (W : World) (d : AixChatGenerateContent_DMessage).

Lemma filter_isDoneUpdate_sent (sent : list AixChatGenerateContent_DMessage) :
  List.filter isDoneUpdate (map (fun u => EvStreamingUpdate u false) sent) = [].
Proof. induction sent as [| u sent IH]; [reflexivity | exact IH]. Qed.

(** What a Tier 1 call with a callback does, whatever the world and the
    callback: either it stops before the final notification, or its last
    event is the final notification, which carries a message that is no
    longer pending, and the call completes as the callback does on it. *)
Lemma tier1_run W (llmId : string) (aixChatGenerate : AixAPIChatGenerate_Request)
    (aixContextName : string) (aixStreaming : bool) (clientOptions : AixClientOptions)
    (cb : StreamingUpdateFn) :
  (exists evs t,
      aixChatGenerateContent_DMessage W llmId aixChatGenerate aixContextName aixStreaming
        clientOptions (Some cb) = (evs, Throws t)
      /\ List.filter isDoneUpdate evs = []
      /\ (evs = [] \/ exists first rest, evs = EvStreamingUpdate first false :: rest
                                         /\ d_fragments first = []
                                         /\ pendingIncomplete first = true
                                         /\ lastUpdate first rest = first))
  \/ (exists before last,
        aixChatGenerateContent_DMessage W llmId aixChatGenerate aixContextName aixStreaming
          clientOptions (Some cb)
        = ((before ++ [EvStreamingUpdate last true])%list,
           match cb last true with Returns _ => Returns last | Throws t => Throws t end)
        /\ List.filter isDoneUpdate before = []
        /\ pendingIncomplete last = false).
Proof.
  unfold aixChatGenerateContent_DMessage.
  destruct (findLLMOrThrow W llmId) as [llm | t]; cbn [andThen];
    [| left; exists [], t; auto].
  destruct (findServiceAccessOrThrow W (sId llm)) as [access | t]; cbn [andThen];
    [| left; exists [], t; auto].
  destruct (aixCreateModelFromLLMOptions _ _ _ _ _) as [aixModel | t]; cbn [andThen];
    [| left; exists [], t; auto].
  set (streaming := if clientHotFixGenerateRequest_ApplyAll W _ _ _ then false else aixStreaming).
  set (d0 := {| d_fragments := []; generator := _; pendingIncomplete := true |}).
  set (signal := match abortSignal clientOptions with
                 | NON_ABORTABLE => freshSignal
                 | Signal s => s
                 end).
  unfold run.
  (* the initial notification *)
  destruct (cb d0 false) as [[] | t] eqn:Hfirst.
  2: { left. exists [EvStreamingUpdate d0 false], t.
       rewrite (bind_throws _ _ d0 d0 [EvStreamingUpdate d0 false] t)
         by (cbn; now rewrite Hfirst).
       split; [reflexivity |]. split; [reflexivity |]. right. exists d0, []. auto. }
  rewrite (bind_returns _ _ d0 d0 [EvStreamingUpdate d0 false] tt)
    by (cbn; now rewrite Hfirst).
  (* the rate-limit hook *)
  assert (Hrl : (exists hook,
                    applyRateLimit (S := AixChatGenerateContent_DMessage) access llm d0
                    = (d0, hook, Returns tt)
                    /\ List.filter isDoneUpdate hook = [])
                \/ (exists t,
                      applyRateLimit (S := AixChatGenerateContent_DMessage) access llm d0
                      = (d0, [EvRateLimitChatGenerate (l_id llm)], Throws t))).
  { unfold applyRateLimit. destruct (rateLimitChatGenerate access) as [[[] | t] |].
    - left. exists [EvRateLimitChatGenerate (l_id llm)]. split; reflexivity.
    - right. exists t. reflexivity.
    - left. exists []. split; reflexivity. }
  destruct Hrl as [(hook & Hrl & Hhook) | (t & Hrl)].
  2: { left. exists [EvStreamingUpdate d0 false; EvRateLimitChatGenerate (l_id llm)], t.
       rewrite (bind_throws _ _ d0 d0 _ t Hrl).
       split; [reflexivity |]. split; [reflexivity |]. right.
       exists d0, [EvRateLimitChatGenerate (l_id llm)]. auto. }
  rewrite (bind_returns _ _ d0 d0 hook tt Hrl).
  (* the low-level call *)
  destruct (tier1_low_level_call W cb aixModel streaming signal d0) as (d1 & sent & Hlow).
  rewrite (bind_returns _ _ d0 d1 _ _ Hlow).
  (* marking complete, the last copy, the costs, the final notification *)
  unfold bind, modify, updateCostsOfDMessage, notifyStreamingUpdate, get.
  set (d2 := _llToDMessage _ _ (setPendingIncomplete false d1)).
  pose proof (updateGeneratorCosts_events W (generator d2) llm
                ("aix_chatgenerate_content-" ++ aixContextName)) as Hcosts.
  destruct (_updateGeneratorCostsInPlace W (generator d2) llm
              ("aix_chatgenerate_content-" ++ aixContextName)) as [g costs].
  cbn [snd] in Hcosts.
  set (last := {| d_fragments := d_fragments d2; generator := g;
                  pendingIncomplete := pendingIncomplete d2 |}).
  right.
  exists ([EvStreamingUpdate d0 false] ++ hook
          ++ [EvChatGenerateContent aixModel
                (if getLabsDevNoStreaming W then false else streaming)]
          ++ map (fun u => EvStreamingUpdate u false) sent ++ costs)%list, last.
  split; [| split; [| reflexivity]].
  - destruct (cb last true) as [[] | t]; cbn; rewrite ?app_nil_r;
      repeat (rewrite <- List.app_assoc; cbn [app]); reflexivity.
  - assert (Hc : List.filter isDoneUpdate costs = [])
      by (destruct Hcosts as [-> | (c & i & o & ->)]; reflexivity).
    cbn [app List.filter isDoneUpdate]. rewrite List.filter_app, Hhook.
    cbn [app List.filter isDoneUpdate].
    rewrite List.filter_app, filter_isDoneUpdate_sent, Hc. reflexivity.
Qed.

(** X21. The final notification of Tier 1 tells the end of the call, for
    every world and every callback.  At most one notification has
    [isDone = true].  If the call resolves, that notification is the last
    event, it carries the very message the call resolves with, and that
    message is no longer pending.  If the call throws, either no
    notification with [isDone = true] was sent, or it was sent last and
    what is thrown is what the callback threw on it. *)
Theorem tier1_done_notification_ends_the_call W (llmId : string)
    (aixChatGenerate : AixAPIChatGenerate_Request) (aixContextName : string)
    (aixStreaming : bool) (clientOptions : AixClientOptions) (cb : StreamingUpdateFn) :
  exists evs completion,
    aixChatGenerateContent_DMessage W llmId aixChatGenerate aixContextName aixStreaming
      clientOptions (Some cb) = (evs, completion)
    /\ (List.length (List.filter isDoneUpdate evs) <= 1)%nat
    /\ match completion with
       | Returns message =>
           pendingIncomplete message = false
           /\ List.last evs (EvRateLimitChatGenerate "") = EvStreamingUpdate message true
           /\ List.length (List.filter isDoneUpdate evs) = 1%nat
       | Throws t =>
           List.filter isDoneUpdate evs = []
           \/ exists message,
                List.last evs (EvRateLimitChatGenerate "") = EvStreamingUpdate message true
                /\ cb message true = Throws t
       end.
Proof.
  destruct (tier1_run W llmId aixChatGenerate aixContextName aixStreaming clientOptions cb)
    as [(evs & t & -> & Hnone & _) | (before & last & -> & Hnone & Hpending)].
  - exists evs, (Throws t). split; [reflexivity |]. rewrite Hnone. cbn. auto.
  - eexists _, _. split; [reflexivity |].
    rewrite List.filter_app, Hnone, last_last. cbn [app List.filter isDoneUpdate List.length].
    split; [lia |].
    destruct (cb last true) as [[] | t] eqn:Hlast; [auto |].
    right. exists last. auto.
Qed.

End Tier1Runs.

Section ConversationProperties.
Import AixConversation.
Implicit Types (W : World) (C : ConversationEnv).

Lemma lastUpdate_app (initial : AixChatGenerateContent_DMessage) (before : list Event)
    (last : AixChatGenerateContent_DMessage) (isDone : bool) :
  lastUpdate initial (before ++ [EvStreamingUpdate last isDone]) = last.
Proof. unfold lastUpdate. now rewrite fold_left_app. Qed.

(** What the [catch] block makes of a caught value. *)
Lemma caught_status C (error : Thrown) (last : AixChatGenerateContent_DMessage) :
  (forall description, caughtValue C description <> CaughtNullish) ->
  exists m,
    errorMessageOf C error = Returns m
    /\ pendingIncomplete (lastDMessage (statusOf (Some m) (withIssue m last))) = false
    /\ tokenStopReason (generator (lastDMessage (statusOf (Some m) (withIssue m last))))
       = Some "issue"
    /\ d_fragments (lastDMessage (statusOf (Some m) (withIssue m last)))
       = (d_fragments last ++ [createErrorContentFragment ("Issue: " ++ m)])%list
    /\ (m <> "" ->
        outcome (statusOf (Some m) (withIssue m last)) = errored
        /\ errorMessage (statusOf (Some m) (withIssue m last)) = Some m)
    /\ (m = "" ->
        outcome (statusOf (Some m) (withIssue m last)) = success
        /\ errorMessage (statusOf (Some m) (withIssue m last)) = None)
    /\ (forall e, error = ThrownError e ->
          m = if nonEmpty (message e) then message e else "Chat stopped.").
Proof.
  intros Hnullish.
  assert (Hm : exists m, errorMessageOf C error = Returns m
                         /\ (forall e, error = ThrownError e ->
                               m = if nonEmpty (message e) then message e
                                   else "Chat stopped.")).
  { destruct error as [e | description]; cbn [errorMessageOf].
    - eexists. split; [reflexivity |]. now intros e' [= <-].
    - specialize (Hnullish description).
      destruct (caughtValue C description); try contradiction;
        (eexists; split; [reflexivity | discriminate]). }
  destruct Hm as (m & Hm & He). exists m. split; [exact Hm |].
  unfold statusOf, withIssue. cbn [lastDMessage pendingIncomplete generator tokenStopReason
    d_fragments outcome errorMessage].
  repeat split; auto.
  - apply String.eqb_neq in H. unfold nonEmpty. now rewrite H.
  - apply String.eqb_neq in H. unfold nonEmpty. now rewrite H.
  - subst m. reflexivity.
  - subst m. reflexivity.
Qed.

(** X22. Generation from a conversation reports every failure in its
    result instead of throwing it, provided that nothing it calls throws
    [null] or [undefined].  It then always resolves, after the events of
    its [try] block, and the message of the status it resolves with is no
    longer pending.  When the [try] block completes, that message is the
    one Tier 1 resolved with, which the final notification carried; there
    is no error message, and the outcome is [aborted] if the stop reason
    of the message is "client-abort" and [success] if not.  When the
    [try] block throws, the error message is read off the very value it
    threw (of an [Error] its message, or "Chat stopped." if that is
    empty); the message of the status is the one last handed to the
    callback (the initial one if none was) with one error fragment
    "Issue: <message>" appended and the stop reason "issue"; the outcome
    is [errored] and the error message is reported, unless the message is
    empty (a thrown empty string), when the outcome is [success] and no
    error message is reported. *)
Theorem conversation_reports_failures W C (llmId aixContextName : string)
    (clientOptions : AixClientOptions) (onStreamingUpdate : StreamingUpdateFn) :
  (forall description, caughtValue C description <> CaughtNullish) ->
  exists evs status,
    aixChatGenerateContent_DMessage_FromConversation W C llmId aixContextName clientOptions
      onStreamingUpdate = (evs, Returns status)
    /\ evs = fst (tryGenerate W C llmId aixContextName clientOptions onStreamingUpdate)
    /\ pendingIncomplete (lastDMessage status) = false
    /\ match snd (tryGenerate W C llmId aixContextName clientOptions onStreamingUpdate) with
       | Returns message =>
           lastDMessage status = message
           /\ List.last evs (EvRateLimitChatGenerate "") = EvStreamingUpdate message true
           /\ errorMessage status = None
           /\ outcome status
              = (if bool_decide (tokenStopReason (generator message) = Some "client-abort")
                 then aborted else success)
       | Throws error =>
           exists m : string,
             errorMessageOf C error = Returns m
             /\ (forall e, error = ThrownError e ->
                   m = if nonEmpty (message e) then message e else "Chat stopped.")
             /\ d_fragments (lastDMessage status)
                = (d_fragments (lastUpdate (initialDMessage llmId) evs)
                   ++ [createErrorContentFragment ("Issue: " ++ m)])%list
             /\ tokenStopReason (generator (lastDMessage status)) = Some "issue"
             /\ (m <> "" -> outcome status = errored /\ errorMessage status = Some m)
             /\ (m = "" -> outcome status = success /\ errorMessage status = None)
       end.
Proof.
  intros Hnullish.
  unfold aixChatGenerateContent_DMessage_FromConversation.
  assert (Hrun : (exists evs t,
                     tryGenerate W C llmId aixContextName clientOptions onStreamingUpdate
                     = (evs, Throws t))
                 \/ (exists before last,
                        tryGenerate W C llmId aixContextName clientOptions onStreamingUpdate
                        = ((before ++ [EvStreamingUpdate last true])%list, Returns last)
                        /\ pendingIncomplete last = false)).
  { unfold tryGenerate.
    destruct (aixCGR_SystemMessage_FromDMessageOrThrow C) as [systemMessage | t];
      cbn [andThen]; [| left; eauto].
    destruct (aixCGR_ChatSequence_FromDMessagesOrThrow C) as [chatSequence | t];
      cbn [andThen]; [| left; eauto].
    destruct (tier1_run W llmId
                {| systemMessage := systemMessage; chatSequence := chatSequence |}
                aixContextName true clientOptions onStreamingUpdate)
      as [(evs & t & -> & _) | (before & last & -> & _ & Hpending)]; [left; eauto |].
    destruct (onStreamingUpdate last true) as [[] | t]; [right; eauto | left; eauto]. }
  destruct Hrun as [(evs & t & ->) | (before & last & -> & Hpending)]; cbn [fst snd].
  - destruct (caught_status C t (lastUpdate (initialDMessage llmId) evs) Hnullish)
      as (m & Hm & Hp & Hstop & Hfrags & Herrored & Hempty & He).
    rewrite Hm. eexists _, _. split; [reflexivity |]. split; [reflexivity |].
    split; [exact Hp |]. exists m. auto 10.
  - eexists _, _. split; [reflexivity |]. split; [reflexivity |].
    rewrite lastUpdate_app, last_last. unfold statusOf.
    cbn [lastDMessage outcome errorMessage]. split; [exact Hpending |].
    split; [reflexivity |]. split; [reflexivity |]. split; [reflexivity |].
    destruct (tokenStopReason (generator last)) as [reason |].
    + destruct (String.eqb_spec reason "client-abort") as [-> | Hne].
      * now rewrite bool_decide_eq_true_2.
      * rewrite bool_decide_eq_false_2; [reflexivity | congruence].
    + now rewrite bool_decide_eq_false_2.
Qed.

End ConversationProperties.

(** A conversation with a model the store does not know: no event, and a
    status that reports the issue. *)
Lemma conversation_reports_failures_witness :
  exists evs status,
    AixConversation.aixChatGenerateContent_DMessage_FromConversation
      (exampleWorld None helloAndDone) AixConversation.exampleConversation
      "llm-unknown" "conversation" exampleOptions acceptingCaller = (evs, Returns status)
    /\ pendingIncomplete (AixConversation.lastDMessage status) = false
    /\ AixConversation.outcome status = AixConversation.errored
    /\ AixConversation.errorMessage status
       = Some "Large Language Model llm-unknown not found".
Proof.
  destruct (conversation_reports_failures (exampleWorld None helloAndDone)
              AixConversation.exampleConversation "llm-unknown" "conversation"
              exampleOptions acceptingCaller)
    as (evs & status & Hrun & _ & Hpending & Hcase); [discriminate |].
  exists evs, status. split; [exact Hrun |]. split; [exact Hpending |].
  vm_compute in Hcase. destruct Hcase as (m & [= <-] & _ & _ & _ & Herrored & _).
  apply Herrored. discriminate.
Defined.

Section Tier2Runs.
Import AixConversation.
Implicit Types (W : World) (state : AixChatGenerateText_Simple)
  (ll : AixChatGenerateContent_LL).

(** The streaming callback of the facade sends at most one update, never
    with [isDone = true], and none without a caller's callback. *)
Lemma onLLUpdate_Text_events W (onTextStreamUpdate : option TextStreamUpdateFn) ll
    (isDone : bool) state :
  exists state' evs completion,
    onLLUpdate_Text W onTextStreamUpdate ll isDone state = (state', evs, completion)
    /\ List.filter isDoneTextUpdate evs = []
    /\ (onTextStreamUpdate = None -> evs = []).
Proof.
  unfold onLLUpdate_Text, bind. rewrite llToTextInPlace_run.
  destruct (snd (llToTextLoop (fragments ll) "")) as [t |];
    [eexists _, [], _; repeat split; reflexivity |].
  cbn [get]. set (st := {| text := _; t_generator := _; isDone := _ |}).
  destruct onTextStreamUpdate as [cb |];
    [| eexists _, [], _; repeat split; reflexivity].
  destruct (text st) as [t |]; [| eexists _, [], _; split; [reflexivity | split; auto]].
  unfold notifyTextStreamUpdate.
  destruct (cb t false (t_generator st)) as [[] | e];
    (eexists _, _, _; split; [reflexivity | split; [reflexivity | discriminate]]).
Qed.

(** The updates sent while the wire is read. *)
Lemma text_updates_while_reading W (onTextStreamUpdate : option TextStreamUpdateFn)
    (updates : list AixChatGenerateContent_LL) state :
  exists state' evs,
    forEach updates
      (fun acc => insideReassembler
                    (match fragments acc with
                     | [] => ret tt
                     | _ :: _ => onLLUpdate_Text W onTextStreamUpdate acc false
                     end)) state
    = (state', evs, Returns tt)
    /\ List.filter isDoneTextUpdate evs = []
    /\ (onTextStreamUpdate = None -> evs = []).
Proof.
  revert state. induction updates as [| acc updates IH]; intros state; cbn [forEach].
  - exists state, []. repeat split.
  - assert (Hhead : exists state1 evs1,
               insideReassembler
                 (match fragments acc with
                  | [] => ret tt
                  | _ :: _ => onLLUpdate_Text W onTextStreamUpdate acc false
                  end) state = (state1, evs1, Returns tt)
               /\ List.filter isDoneTextUpdate evs1 = []
               /\ (onTextStreamUpdate = None -> evs1 = [])).
    { unfold insideReassembler. destruct (fragments acc) as [| f fs].
      - exists state, []. repeat split.
      - destruct (onLLUpdate_Text_events W onTextStreamUpdate acc false state)
          as (state1 & evs1 & c & -> & Hquiet & Hnone).
        exists state1, evs1. auto. }
    destruct Hhead as (state1 & evs1 & Hhead & Hquiet1 & Hnone1).
    destruct (IH state1) as (state2 & evs2 & Hrest & Hquiet2 & Hnone2).
    exists state2, (evs1 ++ evs2)%list.
    rewrite (bind_returns _ _ state state1 evs1 tt Hhead), Hrest.
    split; [reflexivity |]. split.
    + now rewrite List.filter_app, Hquiet1, Hquiet2.
    + intros Hcb. now rewrite (Hnone1 Hcb), (Hnone2 Hcb).
Qed.

(** The low-level call as the facade makes it: no update with
    [isDone = true], no update at all without a caller's callback, and no
    change of the state without a streaming callback. *)
Lemma text_facade_low_level_call W (aixModel : AixAPI_Model) (aixStreaming : bool)
    (abortSignal : AbortSignal) (onTextStreamUpdate : option TextStreamUpdateFn)
    (streams : bool) state :
  exists state' evs completion,
    _aixChatGenerateContent_LL W aixModel aixStreaming abortSignal
      (if streams then Some (onLLUpdate_Text W onTextStreamUpdate) else None) state
    = (state', evs, completion)
    /\ List.filter isDoneTextUpdate evs = []
    /\ (onTextStreamUpdate = None -> List.filter isTextUpdate evs = [])
    /\ (streams = false -> List.filter isTextUpdate evs = [])
    /\ (completion = Returns (finalAccumulator W abortSignal)
        \/ exists t, completion = Throws t).
Proof.
  unfold _aixChatGenerateContent_LL. fold (finalAccumulator W abortSignal).
  set (final := finalAccumulator W abortSignal).
  set (request := EvChatGenerateContent _ _).
  destruct streams.
  - destruct (text_updates_while_reading W onTextStreamUpdate (sentUpdates (wire W)) state)
      as (state1 & evs1 & Hupd & Hquiet1 & Hnone1).
    destruct (onLLUpdate_Text_events W onTextStreamUpdate final true state1)
      as (state2 & evs2 & c & Hlast & Hquiet2 & Hnone2).
    unfold bind at 1. unfold emit. unfold bind at 1. rewrite Hupd.
    unfold bind. rewrite Hlast.
    destruct c as [[] | t]; cbn [ret];
      (eexists _, _, _; split; [reflexivity |];
       split; [cbn [app List.filter isDoneTextUpdate request];
               rewrite ?app_nil_r, List.filter_app, Hquiet1, Hquiet2; reflexivity |];
       split; [intros Hcb; rewrite (Hnone1 Hcb), (Hnone2 Hcb); reflexivity |];
       split; [discriminate | eauto]).
  - destruct (sentUpdates_run (S := AixChatGenerateText_Simple) None
                (sentUpdates (wire W)) state) as (state1 & evs1 & Hupd & Hsame).
    destruct (Hsame (or_introl eq_refl)) as [-> ->].
    unfold bind at 1. unfold emit. unfold bind at 1. cbn in Hupd. rewrite Hupd.
    cbn. eexists _, _, _. split; [reflexivity |]. repeat split; auto.
Qed.

(** Lines 320-346: the final update, with [isDone = true], is the last
    thing that happens, and it happens only when nothing was thrown. *)
Lemma completeTextResponse_events W (llm : DLLM) (aixContextName : string)
    (abortSignal : AbortSignal) (onTextStreamUpdate : option TextStreamUpdateFn) ll state :
  exists state' evs completion,
    completeTextResponse W llm aixContextName abortSignal onTextStreamUpdate ll state
    = (state', evs, completion)
    /\ ((List.filter isTextUpdate evs = []
         /\ ((exists t, completion = Throws t)
             \/ (onTextStreamUpdate = None /\ exists stateText, completion = Returns stateText)))
        \/ (exists before cb stateText g,
              onTextStreamUpdate = Some cb
              /\ evs = (before ++ [EvTextStreamUpdate stateText true g])%list
              /\ List.filter isTextUpdate before = []
              /\ completion = match cb stateText true g with
                              | Returns _ => Returns stateText
                              | Throws t => Throws t
                              end)).
Proof.
  unfold completeTextResponse, bind. cbn [modify]. rewrite llToTextInPlace_run.
  destruct (snd (llToTextLoop (fragments ll) "")) as [t |];
    [eexists _, [], _; split; [reflexivity |]; left; split; [reflexivity | eauto] |].
  unfold updateCostsOfText.
  set (st := {| text := _; t_generator := _; isDone := _ |}).
  pose proof (updateGeneratorCosts_events W (t_generator st) llm
                ("aix_chatgenerate_text-" ++ aixContextName)) as Hcosts.
  destruct (_updateGeneratorCostsInPlace W (t_generator st) llm
              ("aix_chatgenerate_text-" ++ aixContextName)) as [g costs].
  cbn [snd] in Hcosts.
  assert (Hc : List.filter isTextUpdate costs = [])
    by (destruct Hcosts as [-> | (c & i & o & ->)]; reflexivity).
  cbn [app].
  destruct (abortedOnReturn abortSignal); cbn [throw ret].
  { eexists _, _, _. split; [reflexivity |]. left.
    rewrite app_nil_r. split; [exact Hc | eauto]. }
  cbn [get text]. destruct (text st) as [stateText |]; cbn [throw].
  2: { eexists _, _, _. split; [reflexivity |]. left.
       rewrite !app_nil_r. split; [exact Hc | eauto]. }
  destruct (nonEmpty (joinedErrors ll)); cbn [throw].
  { eexists _, _, _. split; [reflexivity |]. left.
    rewrite !app_nil_r. split; [exact Hc | eauto]. }
  destruct onTextStreamUpdate as [cb |]; cbn [ret].
  - unfold notifyTextStreamUpdate. cbn [t_generator].
    destruct (cb stateText true g) as [[] | e] eqn:Hcb;
      (eexists _, _, _; split; [reflexivity |]; right;
       exists costs, cb, stateText, g; rewrite Hcb;
       split; [reflexivity |]; split; [now rewrite ?app_nil_r |];
       split; [exact Hc | reflexivity]).
  - eexists _, _, _. split; [reflexivity |]. left.
    rewrite !app_nil_r. split; [exact Hc | right; eauto].
Qed.

Lemma filter_done_of_text (evs : list Event) :
  List.filter isTextUpdate evs = [] -> List.filter isDoneTextUpdate evs = [].
Proof.
  induction evs as [| ev evs IH]; [reflexivity |].
  cbn [List.filter]. destruct ev as [u d | t [] g | id | m s | c i o id src];
    cbn [isTextUpdate isDoneTextUpdate]; try discriminate; auto.
Qed.

(** X23. The final update of the text facade tells the end of the call,
    for every world and every callback.  At most one update has
    [isDone = true].  When the call resolves and a callback was given,
    that update is the last event and carries the very text the call
    resolves with.  When the call throws, either no update with
    [isDone = true] was sent, or it was sent last and what is thrown is
    what the callback threw on it.  Without a callback no update is sent
    at all. *)
Theorem text_facade_done_update_ends_the_call W (llmId : string)
    (systemInstruction : option string)
    (aixTextMessages : list (string * string) + string) (aixContextName : string)
    (clientOptions : option AixClientOptions)
    (onTextStreamUpdate : option TextStreamUpdateFn) :
  exists evs completion,
    aixChatGenerateText_Simple W llmId systemInstruction aixTextMessages aixContextName
      clientOptions onTextStreamUpdate = (evs, completion)
    /\ (List.length (List.filter isDoneTextUpdate evs) <= 1)%nat
    /\ (onTextStreamUpdate = None -> List.filter isTextUpdate evs = [])
    /\ match completion with
       | Returns stateText =>
           forall cb, onTextStreamUpdate = Some cb ->
             List.length (List.filter isDoneTextUpdate evs) = 1%nat
             /\ exists g, List.last evs (EvRateLimitChatGenerate "")
                          = EvTextStreamUpdate stateText true g
       | Throws t =>
           List.filter isDoneTextUpdate evs = []
           \/ exists cb stateText g,
                onTextStreamUpdate = Some cb
                /\ List.last evs (EvRateLimitChatGenerate "")
                   = EvTextStreamUpdate stateText true g
                /\ cb stateText true g = Throws t
       end.
Proof.
  assert (Hquiet : forall t : Thrown,
             exists evs completion,
               (([] : list Event), Throws (A := string) t) = (evs, completion)
               /\ (List.length (List.filter isDoneTextUpdate evs) <= 1)%nat
               /\ (onTextStreamUpdate = None -> List.filter isTextUpdate evs = [])
               /\ match completion with
                  | Returns stateText =>
                      forall cb, onTextStreamUpdate = Some cb ->
                        List.length (List.filter isDoneTextUpdate evs) = 1%nat
                        /\ exists g, List.last evs (EvRateLimitChatGenerate "")
                                     = EvTextStreamUpdate stateText true g
                  | Throws t =>
                      List.filter isDoneTextUpdate evs = []
                      \/ exists cb stateText g,
                           onTextStreamUpdate = Some cb
                           /\ List.last evs (EvRateLimitChatGenerate "")
                              = EvTextStreamUpdate stateText true g
                           /\ cb stateText true g = Throws t
                  end).
  { intros t. exists [], (Throws t). cbn. auto. }
  unfold aixChatGenerateText_Simple.
  destruct (findLLMOrThrow W llmId) as [llm | t]; cbn [andThen]; [| apply Hquiet].
  destruct (findServiceAccessOrThrow W (sId llm)) as [access | t]; cbn [andThen];
    [| apply Hquiet].
  destruct (aixCreateModelFromLLMOptions _ _ _ _ _) as [aixModel | t]; cbn [andThen];
    [| apply Hquiet].
  clear Hquiet.
  set (state0 := {| text := None; t_generator := _; isDone := false |}).
  set (streaming := if clientHotFixGenerateRequest_ApplyAll W _ _ _ then false else _).
  set (signal := match clientOptions with
                 | Some o => match abortSignal o with
                             | Signal s => s
                             | NON_ABORTABLE => freshSignal
                             end
                 | None => freshSignal
                 end).
  replace (if negb streaming then None else Some (onLLUpdate_Text W onTextStreamUpdate))
    with (if streaming then Some (onLLUpdate_Text W onTextStreamUpdate) else None)
    by now destruct streaming.
  unfold run.
  (* the rate-limit hook *)
  assert (Hrl : (exists hook,
                    applyRateLimit (S := AixChatGenerateText_Simple) access llm state0
                    = (state0, hook, Returns tt)
                    /\ List.filter isTextUpdate hook = [])
                \/ (exists t,
                      applyRateLimit (S := AixChatGenerateText_Simple) access llm state0
                      = (state0, [EvRateLimitChatGenerate (l_id llm)], Throws t))).
  { unfold applyRateLimit. destruct (rateLimitChatGenerate access) as [[[] | t] |].
    - left. exists [EvRateLimitChatGenerate (l_id llm)]. split; reflexivity.
    - right. exists t. reflexivity.
    - left. exists []. split; reflexivity. }
  destruct Hrl as [(hook & Hrl & Hhook) | (t & Hrl)].
  2: { rewrite (bind_throws _ _ state0 state0 _ t Hrl).
       exists [EvRateLimitChatGenerate (l_id llm)], (Throws t). cbn. auto. }
  rewrite (bind_returns _ _ state0 state0 hook tt Hrl).
  (* the low-level call *)
  destruct (text_facade_low_level_call W aixModel streaming signal onTextStreamUpdate
              streaming state0)
    as (state1 & evs1 & c1 & Hlow & Hdone1 & Hnone1 & _ & Hc1).
  assert (Hhook' : List.filter isDoneTextUpdate hook = []) by now apply filter_done_of_text.
  destruct Hc1 as [-> | (t & ->)].
  2: { rewrite (bind_throws _ _ state0 state1 evs1 t Hlow).
       exists (hook ++ evs1)%list, (Throws t). split; [reflexivity |].
       rewrite !List.filter_app, Hhook, Hhook', Hdone1. cbn [app List.length].
       split; [lia |]. split; [exact Hnone1 | now left]. }
  rewrite (bind_returns _ _ state0 state1 evs1 _ Hlow).
  (* lines 320-346 *)
  destruct (completeTextResponse_events W llm aixContextName signal onTextStreamUpdate
              (finalAccumulator W signal) state1)
    as (state2 & evs2 & c2 & -> & Hend).
  exists (hook ++ evs1 ++ evs2)%list, c2. split; [reflexivity |].
  rewrite !List.filter_app, Hhook, Hhook', Hdone1. cbn [app].
  destruct Hend as [[Hnone2 Hc2] | (before & cb & stateText & g & Hcb & -> & Hbefore & ->)].
  - rewrite (filter_done_of_text _ Hnone2). cbn [List.length]. split; [lia |].
    split; [intros Hcb; now rewrite (Hnone1 Hcb), Hnone2 |].
    destruct Hc2 as [(t & ->) | (Hcb & stateText & ->)]; [now left |].
    intros cb Hcb'. congruence.
  - rewrite List.filter_app, (filter_done_of_text _ Hbefore).
    cbn [app List.filter isDoneTextUpdate List.length]. split; [lia |].
    split; [intros Hnone; congruence |].
    assert (Hlast : List.last (hook ++ evs1 ++ before ++ [EvTextStreamUpdate stateText true g])
                      (EvRateLimitChatGenerate "")
                    = EvTextStreamUpdate stateText true g).
    { rewrite !List.app_assoc. apply last_last. }
    destruct (cb stateText true g) as [[] | t] eqn:Hthrown.
    + intros cb' _. split; [reflexivity |]. exists g. exact Hlast.
    + right. exists cb, stateText, g. auto.
Qed.

End Tier2Runs.

(* ===================================================================== *)
(** * Tier 1: what the resolved message holds *)
(* ===================================================================== *)

Section Tier1Content.
Implicit Types (W : World) (d : AixChatGenerateContent_DMessage).

Lemma copyGeneratorPieces_keeps (lgToMd : Metrics -> Metrics)
    (src : AixChatGenerateContent_LL) (g : DMessageGenerator) :
  mgt (copyGeneratorPieces lgToMd src g) = mgt g
  /\ aix (copyGeneratorPieces lgToMd src g) = aix g.
Proof.
  unfold copyGeneratorPieces.
  destruct (genMetricsLg src), (genModelName src) as [n |];
    try destruct (nonEmpty n); destruct (present _); split; reflexivity.
Qed.

Lemma copyGeneratorPieces_name (lgToMd : Metrics -> Metrics)
    (src : AixChatGenerateContent_LL) (g : DMessageGenerator) :
  present (genModelName src) = true ->
  Some (g_name (copyGeneratorPieces lgToMd src g)) = genModelName src.
Proof.
  unfold copyGeneratorPieces, present at 1.
  destruct (genModelName src) as [n |]; [| discriminate].
  intros Hn. rewrite Hn.
  destruct (genMetricsLg src); destruct (present _); reflexivity.
Qed.

Lemma copyGeneratorPieces_stop (lgToMd : Metrics -> Metrics)
    (src : AixChatGenerateContent_LL) (g : DMessageGenerator) :
  present (genTokenStopReason src) = true ->
  tokenStopReason (copyGeneratorPieces lgToMd src g) = genTokenStopReason src.
Proof.
  unfold copyGeneratorPieces. intros Hstop. rewrite Hstop. reflexivity.
Qed.

Lemma updateGeneratorCosts_keeps W (g : DMessageGenerator) (llm : DLLM) (source : string) :
  mgt (fst (_updateGeneratorCostsInPlace W g llm source)) = mgt g
  /\ g_name (fst (_updateGeneratorCostsInPlace W g llm source)) = g_name g
  /\ aix (fst (_updateGeneratorCostsInPlace W g llm source)) = aix g
  /\ tokenStopReason (fst (_updateGeneratorCostsInPlace W g llm source)) = tokenStopReason g.
Proof.
  unfold _updateGeneratorCostsInPlace.
  destruct (metricsComputeChatGenerateCostsMd W _ _ _); cbn [fst]; [| auto].
  destruct (metrics g); auto.
Qed.

(** While the wire is read, the updates change neither the kind of the
    generator, nor the model it names by id, nor the pending mark. *)
Lemma tier1_updates_keep W (ocb : option StreamingUpdateFn)
    (updates : list AixChatGenerateContent_LL) d :
  exists d' evs,
    forEach updates
      (fun acc => insideReassembler
                    (match fragments acc with
                     | [] => ret tt
                     | _ :: _ => onLLUpdate_DMessage W ocb acc false
                     end)) d
    = (d', evs, Returns tt)
    /\ mgt (generator d') = mgt (generator d)
    /\ aix (generator d') = aix (generator d)
    /\ pendingIncomplete d' = pendingIncomplete d.
Proof.
  revert d. induction updates as [| acc updates IH]; intros d; cbn [forEach].
  - exists d, []. auto.
  - assert (Hstep : exists d1 evs1,
               insideReassembler
                 (match fragments acc with
                  | [] => ret tt
                  | _ :: _ => onLLUpdate_DMessage W ocb acc false
                  end) d = (d1, evs1, Returns tt)
               /\ mgt (generator d1) = mgt (generator d)
               /\ aix (generator d1) = aix (generator d)
               /\ pendingIncomplete d1 = pendingIncomplete d).
    { destruct (fragments acc) as [| f fs]; [exists d, []; auto |].
      destruct ocb as [cb |]; [| exists d, []; auto].
      exists (_llToDMessage (metricsChatGenerateLgToMd W) acc d).
      eexists. split.
      - unfold insideReassembler, onLLUpdate_DMessage, bind, modify, notifyStreamingUpdate.
        reflexivity.
      - cbn [_llToDMessage generator pendingIncomplete].
        destruct (copyGeneratorPieces_keeps (metricsChatGenerateLgToMd W) acc (generator d)).
        auto. }
    destruct Hstep as (d1 & evs1 & Hstep & Hmgt1 & Haix1 & Hpending1).
    destruct (IH d1) as (d' & evs & Hrest & Hmgt & Haix & Hpending).
    exists d', (evs1 ++ evs)%list.
    rewrite (bind_returns _ _ d d1 evs1 tt Hstep), Hrest.
    split; [reflexivity |]. repeat split; congruence.
Qed.

Lemma tier1_low_level_result W (ocb : option StreamingUpdateFn) (aixModel : AixAPI_Model)
    (aixStreaming : bool) (abortSignal : AbortSignal) d :
  exists d' evs,
    _aixChatGenerateContent_LL W aixModel aixStreaming abortSignal
      (Some (onLLUpdate_DMessage W ocb)) d
    = (d', evs, Returns (finalAccumulator W abortSignal))
    /\ mgt (generator d') = mgt (generator d)
    /\ aix (generator d') = aix (generator d)
    /\ pendingIncomplete d' = pendingIncomplete d.
Proof.
  unfold _aixChatGenerateContent_LL. fold (finalAccumulator W abortSignal).
  destruct (tier1_updates_keep W ocb (sentUpdates (wire W)) d)
    as (d' & evs & Hupd & Hkeep).
  exists d'. eexists. split; [| exact Hkeep].
  unfold bind at 1. unfold emit. unfold bind at 1. rewrite Hupd.
  cbn. reflexivity.
Qed.

(** X29.  The message a Tier 1 call resolves with holds what the
    low-level call accumulated, with or without a streaming callback and
    however the transport ended: its fragments are the accumulator's
    (when there are any), its generator carries the accumulator's model
    name and stop reason (when it has them), names the vendor and the id
    of the model of the store, and the message is no longer pending. *)
Theorem tier1_resolves_with_the_accumulated_content W (llmId : string)
    (aixChatGenerate : AixAPIChatGenerate_Request) (aixContextName : string)
    (aixStreaming : bool) (clientOptions : AixClientOptions)
    (onStreamingUpdate : option StreamingUpdateFn)
    (events : list Event) (message : AixChatGenerateContent_DMessage) :
  aixChatGenerateContent_DMessage W llmId aixChatGenerate aixContextName aixStreaming
    clientOptions onStreamingUpdate = (events, Returns message) ->
  exists llm,
    findLLMOrThrow W llmId = Returns llm
    /\ (fragments (finalAccumulator W (match abortSignal clientOptions with
                                       | NON_ABORTABLE => freshSignal
                                       | Signal s => s
                                       end)) <> [] ->
        d_fragments message
        = fragments (finalAccumulator W (match abortSignal clientOptions with
                                         | NON_ABORTABLE => freshSignal
                                         | Signal s => s
                                         end)))
    /\ (present (genModelName (finalAccumulator W (match abortSignal clientOptions with
                                                   | NON_ABORTABLE => freshSignal
                                                   | Signal s => s
                                                   end))) = true ->
        Some (g_name (generator message))
        = genModelName (finalAccumulator W (match abortSignal clientOptions with
                                            | NON_ABORTABLE => freshSignal
                                            | Signal s => s
                                            end)))
    /\ (present (genTokenStopReason
                   (finalAccumulator W (match abortSignal clientOptions with
                                        | NON_ABORTABLE => freshSignal
                                        | Signal s => s
                                        end))) = true ->
        tokenStopReason (generator message)
        = genTokenStopReason (finalAccumulator W (match abortSignal clientOptions with
                                                  | NON_ABORTABLE => freshSignal
                                                  | Signal s => s
                                                  end)))
    /\ mgt (generator message) = "aix"
    /\ aix (generator message) = Some (vId llm, l_id llm)
    /\ pendingIncomplete message = false.
Proof.
  intros Hrun. unfold aixChatGenerateContent_DMessage in Hrun.
  destruct (findLLMOrThrow W llmId) as [llm | t]; cbn [andThen] in Hrun; [| discriminate].
  destruct (findServiceAccessOrThrow W (sId llm)) as [access | t]; cbn [andThen] in Hrun;
    [| discriminate].
  destruct (aixCreateModelFromLLMOptions _ _ _ _ _) as [aixModel | t]; cbn [andThen] in Hrun;
    [| discriminate].
  exists llm. split; [reflexivity |].
  set (streaming := if clientHotFixGenerateRequest_ApplyAll W _ _ _ then false else aixStreaming)
    in Hrun.
  set (d0 := {| d_fragments := []; generator := _; pendingIncomplete := true |}) in Hrun.
  set (signal := match abortSignal clientOptions with
                 | NON_ABORTABLE => freshSignal
                 | Signal s => s
                 end) in *.
  set (final := finalAccumulator W signal).
  unfold run in Hrun.
  (* the initial notification *)
  assert (Hfirst : exists evs0 r0, notifyStreamingUpdate onStreamingUpdate false d0
                                   = (d0, evs0, r0)).
  { unfold notifyStreamingUpdate. destruct onStreamingUpdate; eexists _, _; reflexivity. }
  destruct Hfirst as (evs0 & [[] | t] & Hfirst).
  2: { rewrite (bind_throws _ _ d0 d0 evs0 t Hfirst) in Hrun. discriminate. }
  rewrite (bind_returns _ _ d0 d0 evs0 tt Hfirst) in Hrun.
  (* the rate-limit hook *)
  assert (Hrl : exists hook r,
             applyRateLimit (S := AixChatGenerateContent_DMessage) access llm d0
             = (d0, hook, r)).
  { unfold applyRateLimit. destruct (rateLimitChatGenerate access) as [[[] | t] |];
      eexists _, _; reflexivity. }
  destruct Hrl as (hook & [[] | t] & Hrl).
  2: { rewrite (bind_throws _ _ d0 d0 hook t Hrl) in Hrun. discriminate. }
  rewrite (bind_returns _ _ d0 d0 hook tt Hrl) in Hrun.
  (* the low-level call *)
  destruct (tier1_low_level_result W onStreamingUpdate aixModel streaming signal d0)
    as (d1 & evs1 & Hlow & Hmgt & Haix & _).
  rewrite (bind_returns _ _ d0 d1 _ _ Hlow) in Hrun. fold final in Hrun.
  (* marking complete, the last copy, the costs, the final notification *)
  unfold bind, modify, updateCostsOfDMessage, notifyStreamingUpdate, get in Hrun.
  set (d2 := _llToDMessage _ final (setPendingIncomplete false d1)) in Hrun.
  pose proof (updateGeneratorCosts_keeps W (generator d2) llm
                ("aix_chatgenerate_content-" ++ aixContextName))
    as (Hcmgt & Hcname & Hcaix & Hcstop).
  destruct (_updateGeneratorCostsInPlace W (generator d2) llm
              ("aix_chatgenerate_content-" ++ aixContextName)) as [g costs].
  cbn [fst] in Hcmgt, Hcname, Hcaix, Hcstop.
  assert (Hmessage : message = {| d_fragments := d_fragments d2; generator := g;
                                  pendingIncomplete := pendingIncomplete d2 |}).
  { destruct onStreamingUpdate as [cb |].
    - destruct (cb _ true) as [[] | t]; cbn in Hrun; [| discriminate].
      injection Hrun as _ <-. reflexivity.
    - cbn in Hrun. injection Hrun as _ <-. reflexivity. }
  subst message. cbn [d_fragments generator pendingIncomplete].
  destruct (copyGeneratorPieces_keeps (metricsChatGenerateLgToMd W) final (generator d1))
    as [Hkmgt Hkaix].
  split.
  { intros Hsome. subst d2. cbn [_llToDMessage d_fragments].
    destruct (fragments final); [contradiction | reflexivity]. }
  split.
  { intros Hname. rewrite Hcname. subst d2. cbn [_llToDMessage generator setPendingIncomplete].
    now apply copyGeneratorPieces_name. }
  split.
  { intros Hstop. rewrite Hcstop. subst d2. cbn [_llToDMessage generator setPendingIncomplete].
    now apply copyGeneratorPieces_stop. }
  split.
  { rewrite Hcmgt. subst d2. cbn [_llToDMessage generator setPendingIncomplete].
    rewrite Hkmgt, Hmgt. reflexivity. }
  split.
  { rewrite Hcaix. subst d2. cbn [_llToDMessage generator setPendingIncomplete].
    rewrite Hkaix, Haix. reflexivity. }
  reflexivity.
Qed.

End Tier1Content.

(** The connection drops after "Hello": the call resolves, and the
    message holds "Hello" and the error fragment. *)
Lemma tier1_resolves_with_the_accumulated_content_witness :
  exists events message,
    aixChatGenerateContent_DMessage (exampleWorld None droppedAfterHello)
      "llm-1" exampleRequest "conversation" true exampleOptions None
    = (events, Returns message)
    /\ d_fragments message
       = [ ContentFragment (PtText "Hello");
           createErrorContentFragment
             "An unexpected error occurred: fetch failed Please retry." ]
    /\ aix (generator message) = Some ("vendor-1", "llm-1")
    /\ pendingIncomplete message = false.
Proof.
  eassert (Hrun : aixChatGenerateContent_DMessage (exampleWorld None droppedAfterHello)
                    "llm-1" exampleRequest "conversation" true exampleOptions None
                  = (_, Returns _)) by (vm_compute; reflexivity).
  destruct (tier1_resolves_with_the_accumulated_content _ _ _ _ _ _ _ _ _ Hrun)
    as (llm & Hllm & Hfragments & _ & _ & _ & Haix & Hpending).
  eexists _, _. split; [exact Hrun |].
  split; [rewrite Hfragments; [vm_compute; reflexivity | vm_compute; discriminate] |].
  split; [| exact Hpending].
  rewrite Haix. vm_compute in Hllm. injection Hllm as <-. reflexivity.
Defined.

(* ===================================================================== *)
(** * The model built from the parameters of the store *)
(* ===================================================================== *)

Section ModelOfStoreParameters.

Lemma storeOptions_lookup_unset (initial user override : option DModelParameterValues)
    (p : string) :
  p <> "llmRef" ->
  default ∅ override !! p = None ->
  default ∅ user !! p = None ->
  default ∅ initial !! p = None ->
  resolvedOptions (getAllModelParameterValues initial user) override !! p
  = LLMImplicitParamersRuntimeFallback !! p.
Proof.
  intros Hp Ho Hu Hi.
  rewrite resolvedOptions_lookup, getAllModelParameterValues_lookup. cbn [firstDefined].
  destruct (decide (p = "llmRef")); [contradiction |].
  rewrite Ho, Hu, Hi. cbn [default]. unfold Datatypes.id.
  destruct (LLMImplicitParamersRuntimeFallback !! p); reflexivity.
Qed.

Lemma storeOptions_lookup_some (initial user override : option DModelParameterValues)
    (p : string) :
  (exists v,
     resolvedOptions (getAllModelParameterValues initial user) override !! p = Some v
     /\ (v = VUndefined ->
         p = "llmRef"
         \/ default ∅ override !! p = Some VUndefined
         \/ default ∅ user !! p = Some VUndefined
         \/ default ∅ initial !! p = Some VUndefined))
  \/ LLMImplicitParamersRuntimeFallback !! p = None.
Proof.
  rewrite resolvedOptions_lookup, getAllModelParameterValues_lookup. cbn [firstDefined].
  change (default ∅ (Some LLMImplicitParamersRuntimeFallback))
    with LLMImplicitParamersRuntimeFallback.
  destruct (decide (p = "llmRef")) as [-> | Hp].
  - right. reflexivity.
  - destruct (default ∅ override !! p) as [v |] eqn:Ho;
      [left; exists v; split; [reflexivity | intros ->; auto] |].
    destruct (default ∅ user !! p) as [v |] eqn:Hu;
      [left; exists v; split; [reflexivity | intros ->; auto] |].
    destruct (default ∅ initial !! p) as [v |] eqn:Hi;
      [left; exists v; split; [reflexivity | intros ->; auto] |].
    destruct (LLMImplicitParamersRuntimeFallback !! p) as [v |] eqn:Hf; [| right; reflexivity].
    left. exists v. split; [reflexivity |].
    intros ->. exfalso. revert Hf. unfold LLMImplicitParamersRuntimeFallback.
    destruct (decide (p = "llmResponseTokens")) as [-> | Hne1].
    + rewrite lookup_insert_eq. discriminate.
    + rewrite lookup_insert_ne by congruence.
      destruct (decide (p = "llmTemperature")) as [-> | Hne2].
      * rewrite lookup_singleton_eq. discriminate.
      * rewrite lookup_singleton_ne by congruence. discriminate.
Qed.

(** X30.  The model requested for an LLM of the store, whose parameters
    are those of [getAllModelParameterValues]: when the LLM has a model
    reference, no throw; with the no-temperature hotfix the temperature
    is [null] whatever is configured; without it a temperature is always
    sent unless a layer (override, user or initial parameters) holds an
    explicit [undefined], and it is 0.5 when no layer sets one; and when
    no layer sets the response tokens, [maxTokens] is 8192. *)
Theorem model_of_store_parameters_has_defaults (E : ModelEnv)
    (llmInterfaces : list DLLMInterface)
    (initial user override : option DModelParameterValues) (debugLlmId : string) :
  truthy (prop (getAllModelParameterValues initial user) "llmRef") = true ->
  exists model,
    aixCreateModelFromLLMOptions E llmInterfaces
      (getAllModelParameterValues initial user) override debugLlmId = Returns model
    /\ (ifIncludes llmInterfaces LLM_IF_HOTFIX_NoTemperature = true ->
        temperature model = Some VNull)
    /\ (ifIncludes llmInterfaces LLM_IF_HOTFIX_NoTemperature = false ->
        (forall layer, In layer [override; user; initial] ->
                       default ∅ layer !! "llmTemperature" <> Some VUndefined) ->
        temperature model <> None)
    /\ (ifIncludes llmInterfaces LLM_IF_HOTFIX_NoTemperature = false ->
        (forall layer, In layer [override; user; initial] ->
                       default ∅ layer !! "llmTemperature" = None) ->
        temperature model = Some (VNum (5 # 10)))
    /\ ((forall layer, In layer [override; user; initial] ->
                       default ∅ layer !! "llmResponseTokens" = None) ->
        maxTokens model = Some (VNum 8192)).
Proof.
  intros Href. unfold aixCreateModelFromLLMOptions.
  rewrite resolvedOptions_llmRef, Href. cbn [negb].
  eexists. split; [reflexivity |]. cbn [temperature maxTokens].
  split; [intros ->; reflexivity |].
  split.
  { intros -> Hlayers. unfold prop, ifDefined.
    destruct (storeOptions_lookup_some initial user override "llmTemperature")
      as [(v & -> & Hv) | Hnone]; [| discriminate Hnone].
    cbn [default]. destruct v; cbn [isDefined]; try discriminate.
    exfalso. destruct (Hv eq_refl) as [H | [H | [H | H]]]; [discriminate | | |];
      revert H; apply Hlayers; cbn [In]; auto. }
  split.
  { intros -> Hlayers. unfold prop.
    rewrite storeOptions_lookup_unset;
      [reflexivity | discriminate | apply Hlayers; cbn [In]; auto ..]. }
  intros Hlayers. unfold prop.
  rewrite storeOptions_lookup_unset;
    [reflexivity | discriminate | apply Hlayers; cbn [In]; auto ..].
Qed.

End ModelOfStoreParameters.

(** The example model has a reference and nothing else configured. *)
Lemma model_of_store_parameters_has_defaults_witness :
  exists model,
    aixCreateModelFromLLMOptions exampleModelEnv []
      (getAllModelParameterValues (Some {[ "llmRef" := VStr "model-a" ]}) None) None "llm-1"
    = Returns model
    /\ temperature model = Some (VNum (5 # 10))
    /\ maxTokens model = Some (VNum 8192).
Proof.
  destruct (model_of_store_parameters_has_defaults exampleModelEnv []
              (Some {[ "llmRef" := VStr "model-a" ]}) None None "llm-1")
    as (model & Hmodel & _ & _ & Htemperature & Htokens).
  - reflexivity.
  - exists model. split; [exact Hmodel |]. split.
    + apply Htemperature; [reflexivity |].
      intros layer [<- | [<- | [<- | []]]]; reflexivity.
    + apply Htokens. intros layer [<- | [<- | [<- | []]]]; reflexivity.
Defined.
